(* ===== verification/_CoqProject ===== *)
-Q . S2P
Prelude.v
Platform.v
Containers.v
BinaryIO.v
Packets.v
ProtocolWriter.v
BleConnection.v
Tracker.v
TrackerInv.v
Sending.v
Announcing.v
Flooding.v
Housekeeping.v
Processor.v
ProcessorInv.v
RoundTrip.v
Relay.v
Typing.v
Hops.v
CircularBuffer.v
LogLines.v
Repeater.v
Diagnostics.v
MainLoop.v
Interleaving.v
Network.v
TypedRuns.v
Boot.v
