(* ===== verification/Prelude.v ===== *)
(** * Bitchat repeater: a model and its correctness

    The repeater (src/) is firmware for a Raspberry Pi Pico W that relays
    packets of the Bitchat chat protocol between Bluetooth Low Energy
    neighbours: it reads packets, remembers the ones it has seen, and sends
    each new one, with its time to live decremented, to every other connection.
    The development translates the program's own logic and proves what makes
    it a correct relay; where the code does not do what it means to, the
    theorem says what it does instead.

    ** The program and its model

    Data flows from the callbacks of main.cpp through the protocol processor
    into the tracker, and from the tracker's queues through the protocol writer
    back to BTstack.

    - Prelude.v: machine words, the [outcome] monad ([Ret], or a [Fault] for
      what C++ leaves undefined: null and dangling pointers, end iterators,
      reads and writes out of bounds, signed overflow, failed assertions),
      buffers, specifications of outcomes, tactics and general lemmas.
    - Platform.v: the code outside the repository (libdeflate, the C++ hash and
      allocator, the Pico clock, BTstack's answers) as the record [Platform]
      that operations take; [PlatformLaws] is the class of what is relied on,
      with an executable instance [demo_platform].
    - Containers.v: what the code uses of [std::map] (iteration order) and
      [std::multimap] (a list sorted by key; emplace, find, equal_range, erase).
    - BinaryIO.v: Bitchat/BinaryReader, Bitchat/BinaryWriter.
    - Packets.v: Bitchat/BitchatPacketTypes.h, PacketBase, Announce, Message,
      PacketPassAlong, Peer; one module per class, a record of its members and
      one definition per method.
    - ProtocolWriter.v: Bitchat/ProtocolWriter and the wire format in closed
      form.
    - BleConnection.v, Tracker.v: BLE/BleConnection and
      BLE/BleConnectionTracker.  The tracker's queues hold pointers into its
      maps, so a map node has an address, a pointer is an address, and
      following an address that no live node has is a fault.  Calls into
      BTstack are recorded in order in [actions].
    - Processor.v: Bitchat/ProtocolProcessor ([processWrite] and all it calls).
    - CircularBuffer.v: CircularBuffer/CircularBuffer.h, Debugging.h and
      Debugging.cpp.
    - Repeater.v: the globals, the callbacks and the pieces of the loop of
      main.cpp; the callbacks take the event as BTstack's accessors decode it,
      the generated attribute handles and BTstack's advertising data iterator
      are parameters.
    - MainLoop.v: the loop of [main], cut into phases, and the interleaving of
      phases and callbacks ([exec]).
    - Boot.v: [main] before its loop, with [reduce_clock] and
      [setup_gpio_callback]: the calls into the drivers in order, the two waits
      after a failed initialisation, and whole runs from power on ([whole]).
    - Diagnostics.v: print_named_data, dump_advertisement_data, printUUID,
      dump_service and dump_characteristic of main.cpp and the tracker's
      printStats, as the texts they log.

    ** What the theorems show

    - Well-formedness of the tracker ([tracker_ok], TrackerInv.v): addresses
      are distinct, every pointer in a queue is live, stored packets have the
      type their class requires, connected entries carry their own handle.
      Every operation but two keeps it (TrackerInv.v, Sending.v,
      Housekeeping.v, ProcessorInv.v), and so does every interleaving of
      callbacks with the loop without these two (Interleaving.v, by induction on
      [reach]): a notification that brings a packet leaves a pointer to the
      handler's copy of the connection, and a cleanup keeps the invariant
      exactly when it erases nothing that is still pointed to
      ([cleanup_well_formed]).
    - Types ([typed], Typing.v, TypedRuns.v, Boot.v): along every run from
      power on until a fault, notifications and cleanups included, fields fit the widths of their C++ types, the strings of stored
      messages fit the format, only packets with a time to live left are stored
      and queued, and every block handed to BTstack is the wire form of such a
      packet, which the neighbour reads back.
    - The relay (RoundTrip.v, Relay.v, Hops.v): what one hop writes the next hop
      reads, for pass-along packets and for messages; new packets are stored and
      queued, known ones are dropped; a packet of any kind ends after fewer hops
      than its time to live.
    - Sending (Sending.v, Housekeeping.v): a single queued broadcast packet is
      queued exactly once for each available connection that the sent list does
      not exclude; callbacks send the queued blocks in order.
    - Flooding.v: [sendPackets] refines an abstract specification of flooding on
      sets of deliveries ([Flood]); a round delivers nothing twice, and a
      broadcast is withheld only from a connection that was given a packet
      stored behind it.
    - Network.v: a packet crosses a chain of idle repeaters, through the
      callbacks and the sending round of each, when it lies above what was sent
      before on each outgoing link.
    - Announcing.v: who the repeater introduces itself to, and that it does so
      once.
    - Housekeeping.v: signal strength rounds, duplicate connections, cleanup,
      the clock that follows announces.
    - BinaryIO.v: sequences of fields round trip, reads stay in bounds.
    - CircularBuffer.v, LogLines.v, Diagnostics.v: the ring refines a bounded
      queue; what is logged is printed as the lines of a reference function on
      lists, as long as it ends below the end of the drained ring; a block
      logged by name comes out as its two lines; a wrapped ring without newlines
      hangs the printer.
    - Interleaving.v: repeaters recognise each other's advertisement, a pressed
      pin gives one broadcast message, the exit switch ends the sleeping loop
      (and, in Boot.v, the wait after a failed start).
    - Where the code departs from its intent the theorem is stated for all
      inputs in question: signed, compressed and encrypted packets damaged by a
      relay, pointers left dangling by notifications and by the cleanup,
      deliveries suppressed or misdirected, timers that wrap.

    ** Choices and bounds

    Integers are [Z] and wrap where the code's types do ([u8], [u16], [u32],
    [u64]); [size_t] has 32 bits in the hash.  Loops of the code are structural
    recursions on the list they run over; only [printAvailableLogging] takes
    fuel (the number of lines; the characters logged are enough), the digits of
    a number are computed with fuel 64, more than any 64 bit value has, and the
    advertising iterator of the witnesses takes the length of its data, which
    bounds its structures.  A relayed announce is a [PacketPassAlong] that the
    writer casts to [Announce]: undefined in C++, the model reads the name where
    the payload lies, since both classes add one [std::string] to [PacketBase];
    every other wrong cast is a fault.  A callback runs
    between two phases of the loop: a callback that interrupts a phase in the
    middle is outside the model (on the device nothing prevents one).

    ** What is not modelled

    The progress messages the callbacks and the tracker log (their effect on
    the ring is that of [LOG_DEBUG] on some text); the calls of
    [printAvailableLogging] and [printStats] between the phases of the loop,
    which touch the ring only and are treated apart (that the first may never
    return is [printing_hangs]); sleeping, BTstack's listener
    structure inside [BleConnection] (registering and releasing it are actions
    of the tracker), and the code of BTstack, the Pico SDK and libdeflate.

    ** Plan

    Open: printing from a wrapped ring against the queue of lines, messages
    (beside pass-along packets) across a chain of repeaters, and chains of
    repeaters that are not idle. *)

From stdpp Require Import base numbers list gmap sorting.
From Stdlib Require Import ZArith Lia.

#[global] Open Scope Z_scope.

(** ** Machine words *)

Definition u8 (z : Z) : Z := z mod 2 ^ 8.
Definition u16 (z : Z) : Z := z mod 2 ^ 16.
Definition u32 (z : Z) : Z := z mod 2 ^ 32.
Definition u64 (z : Z) : Z := z mod 2 ^ 64.

(** Conversion of an unsigned 64 bit value to [int64_t] (two's complement). *)
Definition i64 (z : Z) : Z := (z + 2 ^ 63) mod 2 ^ 64 - 2 ^ 63.

Declare Scope word_scope.
Delimit Scope word_scope with word.
Notation "a +u64 b" := (u64 (a + b)) (at level 50, left associativity) : word_scope.
Notation "a -u8 b" := (u8 (a - b)) (at level 50, left associativity) : word_scope.
Notation "a -u16 b" := (u16 (a - b)) (at level 50, left associativity) : word_scope.
Notation "a +u16 b" := (u16 (a + b)) (at level 50, left associativity) : word_scope.
#[global] Open Scope word_scope.

Abbreviation byte_ok := (fun b : Z => 0 <= b < 2 ^ 8).
Abbreviation bytes := (list Z).

(** A vector of [uint8_t], or the characters of a [std::string]. *)
Definition bytes_ok (l : bytes) : Prop := Forall byte_ok l.

#[export] Instance bytes_ok_dec l : Decision (bytes_ok l).
Proof. unfold bytes_ok. apply _. Defined.

(** The length of a list as the integer the code computes with. *)
Definition zlen {A} (l : list A) : Z := Z.of_nat (length l).

(** ** Faults and the outcome monad

    What the C++ abstract machine leaves undefined, or turns into an abort,
    is a value of the model: an operation returns [Ret] of its result or the
    [Fault] it runs into. *)

Inductive fault : Type :=
  | NullPointer
  | DanglingPacket (p : Z)
  | DanglingConnection (c : Z)
  | DanglingPeer (p : Z)
  | OutOfBounds (i : Z)
  | EndIterator
  | SignedOverflow
  | AssertionFailed
  | BadCast.

#[export] Instance fault_eq_dec : EqDecision fault.
Proof. solve_decision. Defined.

Inductive outcome (A : Type) : Type :=
  | Ret (a : A)
  | Fault (f : fault).
Arguments Ret {A} a.
Arguments Fault {A} f.

#[export] Instance outcome_ret : MRet outcome := @Ret.
#[export] Instance outcome_bind : MBind outcome :=
  fun A B k m => match m with Ret a => k a | Fault f => Fault f end.

Definition is_Ret {A} (m : outcome A) : Prop := exists a, m = Ret a.

(** [assert(c)] of a build with assertions enabled ([on]). *)
Definition c_assert (on c : bool) : outcome unit :=
  if on && negb c then Fault AssertionFailed else Ret tt.

(** [buffer[i]] of a buffer that owns [length buffer] bytes. *)
Definition buf_get (buffer : bytes) (i : Z) : outcome Z :=
  if decide (0 <= i) then
    match buffer !! Z.to_nat i with Some b => Ret b | None => Fault (OutOfBounds i) end
  else Fault (OutOfBounds i).

(** The [len] bytes at [&buffer[i]]. *)
Definition buf_slice (buffer : bytes) (i len : Z) : outcome bytes :=
  if decide (0 <= i /\ 0 <= len /\ i + len <= zlen buffer)
  then Ret (take (Z.to_nat len) (drop (Z.to_nat i) buffer))
  else Fault (OutOfBounds i).

(** Evaluation of a flag test [(flags & mask) != 0]. *)
Definition has_flag (flags mask : Z) : bool := negb (Z.land flags mask =? 0).

(** ** Automation *)

Create HintDb repeater.
Create Rewrite HintDb repeater.

Ltac inv_outcome :=
  repeat match goal with
  | H : mbind _ ?m = Ret _ |- _ =>
      let E := fresh "E" in destruct m eqn:E; cbn [mbind outcome_bind] in H; [|discriminate H]
  | H : mret _ = Ret _ |- _ => unfold mret, outcome_ret in H
  | H : Ret _ = Ret _ |- _ => progress simplify_eq
  | H : Ret _ = Fault _ |- _ => discriminate H
  | H : Fault _ = Ret _ |- _ => discriminate H
  end; simplify_eq.

(** Solve a goal on word conversions by unfolding them to [mod]. *)
Ltac word_lia :=
  unfold u8, u16, u32, u64, zlen in *; simpl Z.pow in *;
  first [lia | Z.div_mod_to_equations; lia].

(** ** Specifications of outcomes

    [m] returns a value that satisfies [Q], or runs into a fault of [E]. *)

Definition outcome_spec {A} (E : fault -> Prop) (Q : A -> Prop) (m : outcome A) : Prop :=
  match m with Ret a => Q a | Fault f => E f end.

Lemma outcome_spec_bind {A B} E (Q : B -> Prop) (R : A -> Prop) (m : outcome A) (k : A -> outcome B) :
  outcome_spec E R m -> (forall a, R a -> outcome_spec E Q (k a)) -> outcome_spec E Q (m ≫= k).
Proof. destruct m; cbn; auto. Qed.

Lemma outcome_spec_mono {A} (E F : fault -> Prop) (Q R : A -> Prop) (m : outcome A) :
  outcome_spec E Q m -> (forall a, Q a -> R a) -> (forall f, E f -> F f) -> outcome_spec F R m.
Proof. destruct m; cbn; auto. Qed.

Lemma outcome_spec_Ret {A} E (Q : A -> Prop) (m : outcome A) a :
  outcome_spec E Q m -> m = Ret a -> Q a.
Proof. by intros H ->. Qed.

(** ** Words: lemmas *)

Lemma u8_small z : 0 <= z < 2 ^ 8 -> u8 z = z.
Proof. apply Z.mod_small. Qed.
Lemma u16_small z : 0 <= z < 2 ^ 16 -> u16 z = z.
Proof. apply Z.mod_small. Qed.
Lemma u32_small z : 0 <= z < 2 ^ 32 -> u32 z = z.
Proof. apply Z.mod_small. Qed.
Lemma u64_small z : 0 <= z < 2 ^ 64 -> u64 z = z.
Proof. apply Z.mod_small. Qed.

Lemma u8_range z : 0 <= u8 z < 2 ^ 8.
Proof. apply Z.mod_pos_bound. lia. Qed.
Lemma u16_range z : 0 <= u16 z < 2 ^ 16.
Proof. apply Z.mod_pos_bound. lia. Qed.
Lemma u64_range z : 0 <= u64 z < 2 ^ 64.
Proof. apply Z.mod_pos_bound. lia. Qed.

Lemma i64_small z : - 2 ^ 63 <= z < 2 ^ 63 -> i64 z = z.
Proof. intros H. unfold i64. rewrite Z.mod_small by lia. lia. Qed.

Lemma land_shiftl_low x y k :
  0 <= k -> 0 <= y < 2 ^ k -> Z.land (Z.shiftl x k) y = 0.
Proof.
  intros Hk Hy. apply Z.bits_inj_iff'. intros n Hn. rewrite Z.land_spec, Z.bits_0.
  destruct (Z.ltb_spec n k).
  - rewrite Z.shiftl_spec_low by lia. reflexivity.
  - rewrite <- (Z.mod_small y (2 ^ k)) by lia.
    rewrite Z.mod_pow2_bits_high by lia. apply andb_false_r.
Qed.

(** [x << k | y] of a [y] below [2^k] is an addition: the shape of every
    big-endian read of the code. *)
Lemma lor_shiftl_add x y k :
  0 <= k -> 0 <= y < 2 ^ k -> Z.lor (Z.shiftl x k) y = x * 2 ^ k + y.
Proof.
  intros Hk Hy. pose proof (land_shiftl_low x y k Hk Hy) as H0.
  rewrite <- Z.shiftl_mul_pow2 by lia.
  rewrite Z.add_nocarry_lxor by exact H0. symmetry. by apply Z.lxor_lor.
Qed.

(** Truncating to a byte and masking with [0xFF] is truncating to a byte. *)
Lemma land_u8_255 z : Z.land (u8 z) 255 = u8 z.
Proof.
  change 255 with (Z.ones 8). rewrite Z.land_ones by lia.
  unfold u8. by rewrite Z.mod_mod by lia.
Qed.

(** ** Buffers: lemmas *)

Lemma zlen_app {A} (l1 l2 : list A) : zlen (l1 ++ l2) = zlen l1 + zlen l2.
Proof. unfold zlen. rewrite length_app. lia. Qed.
Lemma zlen_cons {A} (x : A) l : zlen (x :: l) = 1 + zlen l.
Proof. unfold zlen. simpl. lia. Qed.
Lemma zlen_nil {A} : zlen (@nil A) = 0.
Proof. done. Qed.
Lemma zlen_nonneg {A} (l : list A) : 0 <= zlen l.
Proof. unfold zlen. lia. Qed.

Lemma zlen_take {A} (n : Z) (l : list A) :
  0 <= n -> zlen (take (Z.to_nat n) l) = Z.min n (zlen l).
Proof. intros H. unfold zlen. rewrite length_take. lia. Qed.

Lemma buf_get_app pre b post :
  buf_get (pre ++ b :: post) (zlen pre) = Ret b.
Proof.
  unfold buf_get, zlen. rewrite decide_True by lia. rewrite Nat2Z.id.
  by rewrite list_lookup_middle.
Qed.

Lemma buf_slice_app pre mid post :
  buf_slice (pre ++ mid ++ post) (zlen pre) (zlen mid) = Ret mid.
Proof.
  unfold buf_slice. rewrite decide_True.
  - unfold zlen. rewrite !Nat2Z.id. by rewrite drop_app_length, take_app_length.
  - rewrite !zlen_app. pose proof (zlen_nonneg pre). pose proof (zlen_nonneg mid).
    pose proof (zlen_nonneg post). lia.
Qed.

Lemma buf_get_in_bounds buffer i :
  0 <= i < zlen buffer -> exists b, buf_get buffer i = Ret b /\ buffer !! Z.to_nat i = Some b.
Proof.
  intros Hi. unfold buf_get. rewrite decide_True by lia.
  destruct (lookup_lt_is_Some_2 buffer (Z.to_nat i)) as [b Hb]; [unfold zlen in Hi; lia|].
  rewrite Hb. eauto.
Qed.

Lemma buf_slice_in_bounds buffer i len :
  0 <= i -> 0 <= len -> i + len <= zlen buffer ->
  exists l, buf_slice buffer i len = Ret l /\ zlen l = len.
Proof.
  intros ???. unfold buf_slice. rewrite decide_True by done. eexists. split; [done|].
  unfold zlen in *. rewrite length_take, length_drop. lia.
Qed.

Lemma bytes_ok_app l1 l2 : bytes_ok (l1 ++ l2) <-> bytes_ok l1 /\ bytes_ok l2.
Proof. apply Forall_app. Qed.

Lemma bytes_ok_lookup l i b : bytes_ok l -> l !! i = Some b -> 0 <= b < 2 ^ 8.
Proof. intros H Hi. exact (proj1 (Forall_lookup _ _) H _ _ Hi). Qed.

#[export] Hint Rewrite @zlen_app @zlen_cons @zlen_nil : repeater.
#[export] Hint Resolve zlen_nonneg u8_range u16_range u64_range : repeater.

(** ** Lists: lemmas *)

Lemma StronglySorted_filter {A} (R : relation A) (P : A -> Prop) `{!forall x, Decision (P x)}
    (l : list A) :
  StronglySorted R l -> StronglySorted R (filter P l).
Proof.
  induction 1 as [|x l Hl IH Hx]; [constructor|].
  rewrite filter_cons. case_decide; [|done]. constructor; [done|].
  rewrite Forall_forall in *. intros y [_ Hy]%list_elem_of_filter. auto.
Qed.

Lemma filter_none {A} (P : A -> Prop) `{!forall x, Decision (P x)} (l : list A) :
  (forall x, x ∈ l -> ~ P x) -> filter P l = [].
Proof.
  induction l as [|x l IH]; intros Hn; [done|].
  rewrite filter_cons_False by (apply Hn; set_solver). apply IH. set_solver.
Qed.
