(* ===== verification/Platform.v ===== *)
(** * The code outside the repository

    What the repeater calls and does not define: the C++ library's hash and
    allocator, libdeflate, the Pico SDK clock and BTstack.  They are fields of
    a record that the operations take as an argument; [PlatformLaws] states
    what their documentation promises and the repeater relies on.  A step of
    the program may be given a different record than the previous one, so
    nothing is assumed constant across steps. *)

From stdpp Require Import base numbers list gmap.
From Stdlib Require Import ZArith Lia.
From S2P Require Import Prelude.

Record Platform : Type := mkPlatform {
  (** [std::hash<std::string>], a [size_t] of 32 bits on the target. *)
  string_hash : bytes -> Z;
  (** [libdeflate_zlib_decompress(in, out_nbytes_avail)]: the decompressed
      bytes, or [None] for any result but [LIBDEFLATE_SUCCESS]. *)
  zlib_decompress : bytes -> Z -> option bytes;
  (** The address of a node allocated while the given addresses are live. *)
  new_node : gset Z -> Z;
  (** The value of the k-th read of the microsecond clock in the operation. *)
  time_us_64 : nat -> Z;
  (** [gap_local_bd_addr] *)
  gap_local_bd_addr : bytes;
  (** [assert] is compiled in (no [NDEBUG]). *)
  asserts_enabled : bool;
  (** BTstack's answers: status of a request to send, by connection handle... *)
  att_server_request_to_send_notification : Z -> Z;
  gatt_client_request_to_write_without_response : Z -> Z;
  (** ... and of a send, by connection handle, attribute handle and data. *)
  att_server_notify : Z -> Z -> bytes -> Z;
  gatt_client_write_value_of_characteristic_without_response : Z -> Z -> bytes -> Z;
  (** Error codes of connection requests. *)
  gap_connect : bytes -> Z -> Z;
  gap_disconnect : Z -> Z }.

Class PlatformLaws (P : Platform) : Prop := {
  string_hash_range s : 0 <= string_hash P s < 2 ^ 32;
  zlib_decompress_fits i n o :
    zlib_decompress P i n = Some o -> bytes_ok o /\ zlen o <= n;
  new_node_fresh live : new_node P live ∉ live;
  time_us_64_range k : 0 <= time_us_64 P k < 2 ^ 64;
  gap_local_bd_addr_ok : bytes_ok (gap_local_bd_addr P) /\ length (gap_local_bd_addr P) = 6%nat }.

(** ** A concrete platform

    An instance on which every operation evaluates: addresses count up from
    the live ones, the clock stands at a given time, BTstack accepts every
    request, the hash is a polynomial one, and the compressed format is the
    stored format of a one-byte marker. *)

Definition demo_hash (s : bytes) : Z := u32 (foldl (fun h b => u32 (h * 31 + b)) 7 s).

Definition demo_fresh (live : gset Z) : Z := 1 + set_fold Z.max 4095 live.

Definition demo_decompress (i : bytes) (n : Z) : option bytes :=
  match i with
  | 0x78 :: o => if decide (bytes_ok o /\ zlen o <= n) then Some o else None
  | _ => None
  end.

Definition demo_platform (now : Z) : Platform := {|
  string_hash := demo_hash;
  zlib_decompress := demo_decompress;
  new_node := demo_fresh;
  time_us_64 := fun _ => now;
  gap_local_bd_addr := [0x28; 0xCD; 0xC1; 0x0A; 0xBE; 0xEF];
  asserts_enabled := true;
  att_server_request_to_send_notification := fun _ => 0;
  gatt_client_request_to_write_without_response := fun _ => 0;
  att_server_notify := fun _ _ _ => 0;
  gatt_client_write_value_of_characteristic_without_response := fun _ _ _ => 0;
  gap_connect := fun _ _ => 0;
  gap_disconnect := fun _ => 0 |}.

Lemma demo_fresh_above live x : x ∈ live -> x < demo_fresh live.
Proof.
  unfold demo_fresh. revert x.
  apply (set_fold_ind_L (fun r X => forall x, x ∈ X -> x < 1 + r)); [set_solver|].
  intros y X r Hy IH x [->%elem_of_singleton|Hx]%elem_of_union; [lia|].
  specialize (IH x Hx). lia.
Qed.

#[export] Instance demo_platform_laws now : 0 <= now < 2 ^ 64 -> PlatformLaws (demo_platform now).
Proof.
  intros Hnow. split; cbn.
  - intros s. unfold demo_hash, u32. apply Z.mod_pos_bound. lia.
  - intros i n o H. unfold demo_decompress in H.
    repeat match type of H with context [match ?x with _ => _ end] => destruct x end;
      simplify_eq; done.
  - intros live Hin%demo_fresh_above. lia.
  - done.
  - split; [|done]. repeat constructor; done.
Qed.
