(* ===== verification/Containers.v ===== *)
(** * The ordered containers of the C++ library that the code iterates

    [std::map] is a [gmap] whose iteration goes through the keys in the order
    of [std::less]; [std::multimap] is the list of its elements in iteration
    order, new elements entering at the upper bound of their key.  A
    multimap refines the function from keys to the values stored under them
    in insertion order ([mm_values]). *)

From stdpp Require Import base numbers list gmap sorting.
From Stdlib Require Import ZArith Lia.
From S2P Require Import Prelude.

(** ** [std::less] *)

Class StdLess (K : Type) : Type := std_less : K -> K -> bool.

Class StdLessLaws (K : Type) `{StdLess K} : Prop := {
  std_less_irrefl k : std_less k k = false;
  std_less_trans k1 k2 k3 :
    std_less k1 k2 = true -> std_less k2 k3 = true -> std_less k1 k3 = true;
  std_less_total k1 k2 : std_less k1 k2 = false -> std_less k2 k1 = false -> k1 = k2 }.

#[export] Instance Z_less : StdLess Z := Z.ltb.

#[export] Instance Z_less_laws : StdLessLaws Z.
Proof. split; unfold std_less, Z_less; intros; lia. Qed.

(** [std::string] compares its characters as [unsigned char]. *)
Fixpoint bytes_less (l1 l2 : bytes) : bool :=
  match l1, l2 with
  | _, [] => false
  | [], _ :: _ => true
  | a :: l1', b :: l2' =>
    if Z.ltb a b then true else if Z.ltb b a then false else bytes_less l1' l2'
  end.

#[export] Instance bytes_less_inst : StdLess bytes := bytes_less.

#[export] Instance bytes_less_laws : StdLessLaws bytes.
Proof.
  split; unfold std_less, bytes_less_inst.
  - intros l. induction l as [|a l IH]; [done|]. simpl. by rewrite Z.ltb_irrefl.
  - intros l1. induction l1 as [|a l1 IH]; intros [|b l2] [|c l3]; simpl; try done.
    destruct (Z.ltb_spec a b), (Z.ltb_spec b a), (Z.ltb_spec b c), (Z.ltb_spec c b),
      (Z.ltb_spec a c), (Z.ltb_spec c a); try done; try lia; intros; eauto.
  - intros l1. induction l1 as [|a l1 IH]; intros [|b l2]; simpl; try done.
    destruct (Z.ltb_spec a b), (Z.ltb_spec b a); try done.
    intros. f_equal; [lia|auto].
Qed.

(** ** Iteration of a [std::map] *)

Definition key_le {K V} `{StdLess K} (p q : K * V) : Prop := std_less q.1 p.1 = false.

#[export] Instance key_le_dec {K V} `{StdLess K} : RelDecision (@key_le K V _).
Proof. intros p q. unfold key_le. apply _. Defined.

Definition map_sorted {K V} `{Countable K, StdLess K} (m : gmap K V) : list (K * V) :=
  merge_sort key_le (map_to_list m).

(** ** [std::multimap] *)

Section multimap.
Context {K V : Type} `{StdLess K}.
Implicit Types (m : list (K * V)) (k : K) (v : V).

Fixpoint mm_emplace k v m : list (K * V) :=
  match m with
  | [] => [(k, v)]
  | (k', v') :: m' => if std_less k k' then (k, v) :: m else (k', v') :: mm_emplace k v m'
  end.

(** The elements from [lower_bound(k)] (that is [equal_range(k).first]) to
    [end()], and those before it. *)
Fixpoint mm_lower_bound k m : list (K * V) :=
  match m with
  | [] => []
  | (k', v') :: m' => if std_less k' k then mm_lower_bound k m' else m
  end.

Fixpoint mm_before k m : list (K * V) :=
  match m with
  | [] => []
  | (k', v') :: m' => if std_less k' k then (k', v') :: mm_before k m' else []
  end.

(** The elements from [find(k)] to [end()]: [find] gives the lower bound when
    its key is equivalent to [k], and [end()] otherwise. *)
Definition mm_find k m : list (K * V) :=
  match mm_lower_bound k m with
  | [] => []
  | (k', v) :: s => if std_less k k' then [] else (k', v) :: s
  end.

Definition key_equiv k (p : K * V) : bool := negb (std_less k p.1) && negb (std_less p.1 k).

(** The elements of [equal_range(k)]. *)
Definition mm_equal_range k m : list (K * V) := filter (fun p => key_equiv k p = true) m.

(** [erase] of the iterator [equal_range(k).first]. *)
Definition mm_erase_first k m : list (K * V) := mm_before k m ++ tail (mm_lower_bound k m).

(** [erase] of the range [equal_range(k)]. *)
Definition mm_erase_range k m : list (K * V) := filter (fun p => key_equiv k p = false) m.

(** [std::erase_if]. *)
Definition mm_erase_if (P : K * V -> bool) m : list (K * V) := filter (fun p => P p = false) m.

Definition mm_sorted m : Prop := StronglySorted key_le m.

(** Abstraction: the values stored under a key, oldest first. *)
Definition mm_values m k : list V := snd <$> mm_equal_range k m.

End multimap.
Arguments mm_sorted {K V _} m.

Section multimap_lemmas.
Context {K V : Type} `{StdLess K, !StdLessLaws K}.
Implicit Types (m : list (K * V)) (k : K) (v : V).

#[export] Instance key_le_trans : Transitive (@key_le K V _).
Proof.
  intros p q r. unfold key_le. intros H1 H2.
  destruct (std_less r.1 p.1) eqn:E; [|done]. destruct (std_less p.1 q.1) eqn:F.
  - by rewrite (std_less_trans r.1 p.1 q.1) in H2.
  - rewrite (std_less_total p.1 q.1) in E by done. congruence.
Qed.

#[local] Instance key_le_total : Total (@key_le K V _).
Proof.
  intros p q. unfold key_le. destruct (std_less q.1 p.1) eqn:E; [|by left].
  right. destruct (std_less p.1 q.1) eqn:F; [|done].
  pose proof (std_less_trans _ _ _ E F) as C. by rewrite std_less_irrefl in C.
Qed.

Lemma key_equiv_spec k (p : K * V) : key_equiv k p = true <-> p.1 = k.
Proof.
  unfold key_equiv. rewrite andb_true_iff, !negb_true_iff. split.
  - intros [??]. symmetry. by apply std_less_total.
  - intros ->. by rewrite std_less_irrefl.
Qed.

Lemma key_equiv_false k (p : K * V) : key_equiv k p = false <-> p.1 <> k.
Proof. rewrite <- (key_equiv_spec k p). by destruct (key_equiv k p). Qed.

Lemma mm_emplace_Permutation k v m : mm_emplace k v m ≡ₚ (k, v) :: m.
Proof.
  induction m as [|[k' v'] m IH]; [done|]. simpl. destruct (std_less k k'); [done|].
  rewrite IH. apply Permutation_swap.
Qed.

Lemma elem_of_mm_emplace k v m p : p ∈ mm_emplace k v m <-> p = (k, v) \/ p ∈ m.
Proof. rewrite mm_emplace_Permutation. apply elem_of_cons. Qed.

Lemma mm_emplace_sorted k v m : mm_sorted m -> mm_sorted (mm_emplace k v m).
Proof.
  unfold mm_sorted. induction 1 as [|[k' v'] m Hm IH Hle]; simpl; [by repeat constructor|].
  destruct (std_less k k') eqn:E.
  - assert (key_le (k, v) (k', v')) as Hk.
    { unfold key_le. simpl. destruct (std_less k' k) eqn:F; [|done].
      pose proof (std_less_trans _ _ _ E F) as C. by rewrite std_less_irrefl in C. }
    repeat (constructor; try done).
    eapply Forall_impl; [exact Hle|]. intros p Hp. by transitivity (k', v').
  - constructor; [done|]. rewrite mm_emplace_Permutation. constructor; [|done].
    unfold key_le. done.
Qed.

Lemma mm_erase_if_sorted P m : mm_sorted m -> mm_sorted (mm_erase_if P m).
Proof. intros H1. unfold mm_sorted, mm_erase_if. by apply StronglySorted_filter. Qed.

Lemma mm_erase_range_sorted k m : mm_sorted m -> mm_sorted (mm_erase_range k m).
Proof. intros H1. unfold mm_sorted, mm_erase_range. by apply StronglySorted_filter. Qed.

Lemma mm_before_lower_bound k m : mm_before k m ++ mm_lower_bound k m = m.
Proof.
  induction m as [|[k' v'] m IH]; [done|]. simpl. destruct (std_less k' k); [|done].
  simpl. by rewrite IH.
Qed.

Lemma mm_lower_bound_suffix k m p : p ∈ mm_lower_bound k m -> p ∈ m.
Proof. intros Hp. rewrite <- (mm_before_lower_bound k m). set_solver. Qed.

Lemma mm_erase_first_subset k m p : p ∈ mm_erase_first k m -> p ∈ m.
Proof.
  unfold mm_erase_first. rewrite <- (mm_before_lower_bound k m) at 3.
  rewrite !elem_of_app. destruct (mm_lower_bound k m); cbn; [done|]. intros [?|?]; [by left|right; by right].
Qed.

Lemma mm_before_prefix k m p : p ∈ mm_before k m -> p ∈ m.
Proof. intros Hp. rewrite <- (mm_before_lower_bound k m). set_solver. Qed.

Lemma mm_before_less k m p : p ∈ mm_before k m -> std_less p.1 k = true.
Proof.
  induction m as [|[k' v'] m IH]; simpl; [set_solver|].
  destruct (std_less k' k) eqn:E; [|set_solver].
  intros [->|Hp]%elem_of_cons; [done|auto].
Qed.

(** In iteration order, everything from the lower bound on has a key that is
    not below [k]. *)
Lemma mm_lower_bound_ge k m p :
  mm_sorted m -> p ∈ mm_lower_bound k m <-> p ∈ m /\ std_less p.1 k = false.
Proof.
  unfold mm_sorted. induction 1 as [|[k' v'] m Hm IH Hle]; simpl; [set_solver|].
  destruct (std_less k' k) eqn:E.
  - rewrite IH, elem_of_cons. split; [tauto|]. intros [[->|Hp] Hn]; [simpl in Hn; congruence|tauto].
  - rewrite elem_of_cons. split; [|tauto]. intros [->|Hp]; [tauto|]. split; [tauto|].
    rewrite Forall_forall in Hle. pose proof (Hle p Hp) as Hq. unfold key_le in Hq. simpl in Hq.
    destruct (std_less p.1 k) eqn:F; [|done]. destruct (std_less k' p.1) eqn:G.
    + by rewrite (std_less_trans k' p.1 k) in E.
    + by rewrite (std_less_total _ _ G Hq) in E; rewrite F in E.
Qed.

Lemma elem_of_mm_equal_range k m p : p ∈ mm_equal_range k m <-> p.1 = k /\ p ∈ m.
Proof. unfold mm_equal_range. rewrite list_elem_of_filter, key_equiv_spec. done. Qed.

Lemma elem_of_mm_values k m v : v ∈ mm_values m k <-> (k, v) ∈ m.
Proof.
  unfold mm_values. rewrite list_elem_of_fmap. split.
  - intros ([k' v'] & -> & Hp). apply elem_of_mm_equal_range in Hp as [? ?]. simpl in *. by subst.
  - intros Hm. exists (k, v). by rewrite elem_of_mm_equal_range.
Qed.

Lemma elem_of_mm_find k m p :
  mm_sorted m -> (exists v, (k, v) ∈ m) ->
  p ∈ mm_find k m <-> p ∈ m /\ std_less p.1 k = false.
Proof.
  intros Hs [v Hv]. rewrite <- mm_lower_bound_ge by done. unfold mm_find.
  destruct (mm_lower_bound k m) as [|[k' v'] s] eqn:E; [done|].
  destruct (std_less k k') eqn:F; [|done]. exfalso.
  assert ((k, v) ∈ mm_lower_bound k m) as Hlb
    by (apply mm_lower_bound_ge; [done|]; split; [done|]; apply std_less_irrefl).
  assert (mm_sorted (mm_lower_bound k m)) as Hs'.
  { unfold mm_sorted in *. rewrite <- (mm_before_lower_bound k m) in Hs.
    by apply StronglySorted_app in Hs as (_ & _ & ?). }
  rewrite E in Hlb, Hs'. apply elem_of_cons in Hlb as [[= -> ->]|Hin].
  - by rewrite std_less_irrefl in F.
  - apply StronglySorted_inv in Hs' as [_ Hf]. rewrite Forall_forall in Hf.
    specialize (Hf _ Hin). unfold key_le in Hf. simpl in Hf. congruence.
Qed.

Lemma mm_find_absent k m :
  mm_sorted m -> (forall v, (k, v) ∉ m) -> mm_find k m = [].
Proof.
  intros Hs Hn. unfold mm_find. destruct (mm_lower_bound k m) as [|[k' v'] s] eqn:E; [done|].
  assert ((k', v') ∈ m /\ std_less k' k = false) as [Hm Hl].
  { apply (mm_lower_bound_ge k m (k', v')); [done|]. rewrite E. set_solver. }
  destruct (std_less k k') eqn:F; [done|]. rewrite (std_less_total _ _ Hl F) in Hm. by edestruct Hn.
Qed.

(** ** The multimap refines the map to lists of values *)

Lemma mm_values_emplace_eq k v m :
  mm_sorted m -> mm_values (mm_emplace k v m) k = mm_values m k ++ [v].
Proof.
  intros Hs. unfold mm_values. change [v] with (snd <$> [(k, v)]). rewrite <- fmap_app. f_equal.
  unfold mm_equal_range. induction Hs as [|[k' v'] m Hm IH Hle]; simpl.
  - rewrite filter_cons, filter_nil. by rewrite decide_True by by apply key_equiv_spec.
  - destruct (std_less k k') eqn:E.
    + assert (filter (fun p => key_equiv k p = true) ((k', v') :: m) = []) as Hnil.
      { rewrite Forall_forall in Hle. apply filter_none.
        intros p Hp Hk%key_equiv_spec. subst k. apply elem_of_cons in Hp as [->|Hp].
        - simpl in E. by rewrite std_less_irrefl in E.
        - specialize (Hle _ Hp). unfold key_le in Hle. simpl in Hle. congruence. }
      rewrite filter_cons, decide_True by by apply key_equiv_spec. by rewrite Hnil.
    + rewrite !filter_cons. case_decide; simpl; by rewrite IH.
Qed.

Lemma mm_values_emplace_ne k k' v m :
  k <> k' -> mm_values (mm_emplace k v m) k' = mm_values m k'.
Proof.
  intros Hne. unfold mm_values. f_equal. unfold mm_equal_range.
  assert (key_equiv k' (k, v) <> true) as Hk by (by rewrite key_equiv_spec).
  induction m as [|[k1 v1] m IH]; simpl.
  - rewrite filter_cons, decide_False by done. done.
  - destruct (std_less k k1).
    + by rewrite filter_cons, decide_False by done.
    + rewrite !filter_cons. by rewrite IH.
Qed.

Lemma mm_values_erase_range_eq k m : mm_values (mm_erase_range k m) k = [].
Proof.
  unfold mm_values, mm_equal_range, mm_erase_range. rewrite list_filter_filter.
  rewrite filter_none; [done|]. intros p _ [H1 H2]. congruence.
Qed.

Lemma mm_values_erase_range_ne k k' m :
  k <> k' -> mm_values (mm_erase_range k m) k' = mm_values m k'.
Proof.
  intros Hk. unfold mm_values, mm_equal_range, mm_erase_range. rewrite list_filter_filter.
  f_equal. apply list_filter_iff. intros p. rewrite key_equiv_spec, key_equiv_false.
  naive_solver.
Qed.

(** Erasing at the lower bound of a key that has values drops the oldest one
    and touches nothing else. *)
Lemma mm_erase_first_present k v m :
  mm_sorted m -> (exists s, mm_lower_bound k m = (k, v) :: s) ->
  mm_values m k = v :: mm_values (mm_erase_first k m) k /\
  forall k', k' <> k -> mm_values (mm_erase_first k m) k' = mm_values m k'.
Proof.
  intros Hs [s Hlb]. unfold mm_erase_first. rewrite Hlb. cbn [tail].
  pose proof (mm_before_lower_bound k m) as Hm. rewrite Hlb in Hm.
  unfold mm_values, mm_equal_range. rewrite <- Hm at 1. split.
  - rewrite !filter_app, (filter_none _ (mm_before k m)), filter_cons, decide_True;
      [done|by apply key_equiv_spec|].
    intros p Hp Hk%key_equiv_spec.
    pose proof (mm_before_less _ _ _ Hp) as Hl. rewrite Hk, std_less_irrefl in Hl. done.
  - intros k' Hne. rewrite <- Hm at 2.
    rewrite !filter_app, !filter_cons, decide_False; [done|].
    rewrite key_equiv_spec. done.
Qed.

Lemma mm_lower_bound_present k m :
  mm_sorted m -> mm_values m k <> [] -> exists v s, mm_lower_bound k m = (k, v) :: s.
Proof.
  intros Hs Hv. destruct (mm_values m k) as [|v vs] eqn:E; [done|].
  assert ((k, v) ∈ m) as Hin by (apply elem_of_mm_values; rewrite E; set_solver).
  assert (mm_find k m <> []) as Hf.
  { intros C. assert ((k, v) ∈ mm_find k m) as H1; [|rewrite C in H1; set_solver].
    apply elem_of_mm_find; [done|eauto|]. split; [done|]. apply std_less_irrefl. }
  unfold mm_find in Hf. destruct (mm_lower_bound k m) as [|[k' v'] s] eqn:F; [done|].
  destruct (std_less k k') eqn:G; [done|].
  assert (std_less k' k = false) as Hl.
  { apply (mm_lower_bound_ge k m (k', v')); [done|]. rewrite F. set_solver. }
  rewrite (std_less_total _ _ G Hl). eauto.
Qed.

(** ** Ordered iteration of a map *)

Context `{Countable K}.
Implicit Types (M : gmap K V).

Lemma map_sorted_Permutation M : map_sorted M ≡ₚ map_to_list M.
Proof. apply merge_sort_Permutation. Qed.

Lemma elem_of_map_sorted M k v : (k, v) ∈ map_sorted M <-> M !! k = Some v.
Proof. rewrite map_sorted_Permutation. apply elem_of_map_to_list. Qed.

Lemma map_sorted_sorted M : StronglySorted key_le (map_sorted M).
Proof. apply StronglySorted_merge_sort; apply _. Qed.

Lemma NoDup_map_sorted M : NoDup (map_sorted M).*1.
Proof. rewrite map_sorted_Permutation. apply NoDup_fst_map_to_list. Qed.

(** The order of the keys depends on the set of keys only. *)
Lemma map_sorted_keys M1 M2 : dom M1 = dom M2 -> (map_sorted M1).*1 = (map_sorted M2).*1.
Proof.
  intros Hd. set (R := fun k1 k2 : K => std_less k2 k1 = false).
  assert (AntiSymm (=) R) by (intros k1 k2 H1' H2'; by apply std_less_total).
  assert (forall M, StronglySorted R (map_sorted M).*1) as Hs
    by (intros M; apply (StronglySorted_fmap fst key_le R); [done|apply map_sorted_sorted]).
  apply (StronglySorted_unique R); [done..|].
  apply NoDup_Permutation; [apply NoDup_map_sorted..|]. intros k.
  assert (forall M, k ∈ (map_sorted M).*1 <-> k ∈ dom M) as Hk; [|by rewrite !Hk, Hd].
  intros M. rewrite map_sorted_Permutation, elem_of_dom. split.
  - intros ([k' v] & -> & Hin%elem_of_map_to_list)%list_elem_of_fmap. by exists v.
  - intros [v Hv]. apply list_elem_of_fmap. exists (k, v). split; [done|]. by apply elem_of_map_to_list.
Qed.

End multimap_lemmas.
