(* ===== verification/BinaryIO.v ===== *)
(** * Binary input and output

    [BinaryReader] (Bitchat/BinaryReader.h, .cpp) reads big-endian integers
    and blocks from a buffer it does not own; [BinaryWriter]
    (Bitchat/BinaryWriter.h, .cpp) appends them to a vector, and also writes
    integers as lower-case hexadecimal text.  The theorems: no read leaves the
    buffer, a short read leaves the reader where it was, the shift-and-or
    reads are the big-endian value of the bytes read, and each read inverts
    the write of the same width. *)

From stdpp Require Import base numbers list.
From Stdlib Require Import ZArith Lia.
From S2P Require Import Prelude.

Module BinaryReader.

(** class BinaryReader: the buffer pointer is the list of bytes the buffer
    owns, [buffer_size] is the size the caller claims for it. *)
Record t : Type := mk {
  offset : Z;
  buffer : bytes;
  buffer_size : Z;
  pos : Z }.

Definition make (offset : Z) (buffer : bytes) (buffer_size : Z) : t :=
  mk offset buffer buffer_size offset.

Definition advance (r : t) (n : Z) : t :=
  mk (offset r) (buffer r) (buffer_size r) (pos r +u16 n).

Definition read_uint8 (r : t) : outcome (Z * t) :=
  if decide (pos r + 1 > buffer_size r) then Ret (0, r)
  else
    ret ← buf_get (buffer r) (pos r);
    Ret (ret, advance r 1).

Definition read_uint16 (r : t) : outcome (Z * t) :=
  if decide (pos r + 2 > buffer_size r) then Ret (0, r)
  else
    b0 ← buf_get (buffer r) (pos r);
    b1 ← buf_get (buffer r) (pos r + 1);
    let ret := u16 (Z.lor (Z.shiftl b0 8) b1) in
    Ret (ret, advance r 2).

Definition read_uint64 (r : t) : outcome (Z * t) :=
  if decide (pos r + 8 > buffer_size r) then Ret (0, r)
  else
    b0 ← buf_get (buffer r) (pos r);
    b1 ← buf_get (buffer r) (pos r + 1);
    b2 ← buf_get (buffer r) (pos r + 2);
    b3 ← buf_get (buffer r) (pos r + 3);
    b4 ← buf_get (buffer r) (pos r + 4);
    b5 ← buf_get (buffer r) (pos r + 5);
    b6 ← buf_get (buffer r) (pos r + 6);
    b7 ← buf_get (buffer r) (pos r + 7);
    let ret :=
      Z.lor (Z.lor (Z.lor (Z.lor (Z.lor (Z.lor (Z.lor
        (u64 (Z.shiftl b0 56)) (u64 (Z.shiftl b1 48))) (u64 (Z.shiftl b2 40)))
        (u64 (Z.shiftl b3 32))) (u64 (Z.shiftl b4 24))) (u64 (Z.shiftl b5 16)))
        (u64 (Z.shiftl b6 8))) (u64 b7) in
    Ret (ret, advance r 8).

(** [nullptr] is [None]; otherwise the [len] bytes at the returned pointer,
    which every caller reads in full. *)
Definition read_data (r : t) (len : Z) : outcome (option bytes * t) :=
  if decide (pos r + len > buffer_size r) then Ret (None, r)
  else
    ret ← buf_slice (buffer r) (pos r) len;
    Ret (Some ret, advance r len).

Definition test_only_current_pos (r : t) : Z := pos r.

End BinaryReader.

Module BinaryWriter.

Definition write_uint8 (vector : bytes) (value : Z) : bytes := vector ++ [u8 value].

Definition write_uint16 (vector : bytes) (value : Z) : bytes :=
  let vector := vector ++ [u8 (Z.shiftr value 8)] in
  vector ++ [Z.land (u8 value) 255].

Definition write_uint64 (vector : bytes) (value : Z) : bytes :=
  let vector := vector ++ [u8 (Z.shiftr value 56)] in
  let vector := vector ++ [Z.land (u8 (Z.shiftr value 48)) 255] in
  let vector := vector ++ [Z.land (u8 (Z.shiftr value 40)) 255] in
  let vector := vector ++ [Z.land (u8 (Z.shiftr value 32)) 255] in
  let vector := vector ++ [Z.land (u8 (Z.shiftr value 24)) 255] in
  let vector := vector ++ [Z.land (u8 (Z.shiftr value 16)) 255] in
  let vector := vector ++ [Z.land (u8 (Z.shiftr value 8)) 255] in
  vector ++ [Z.land (u8 value) 255].

(** Both overloads of [write_data] push [data[0]] to [data[len-1]]; the length
    parameter is a [uint16_t], so the caller's [size()] is truncated. *)
Definition write_data (vector data : bytes) (len : Z) : outcome bytes :=
  block ← buf_slice data 0 (u16 len);
  Ret (vector ++ block).

Definition test_only_current_pos (vector : bytes) : Z := u16 (zlen vector).

Definition hexify (nibble : Z) : Z :=
  if decide (nibble < 10) then u8 (nibble + 48) else u8 (nibble + (97 - 10)).

Definition write_uint8_hex16 (vector : bytes) (value : Z) : bytes :=
  let high_nibble := hexify (Z.land (Z.shiftr value 4) 15) in
  let vector := vector ++ [high_nibble] in
  let low_nibble := hexify (Z.land value 15) in
  vector ++ [low_nibble].

Definition write_uint16_hex16 (vector : bytes) (value : Z) : bytes :=
  let vector := write_uint8_hex16 vector (u8 (Z.shiftr value 8)) in
  write_uint8_hex16 vector (u8 value).

Definition write_uint32_hex16 (vector : bytes) (value : Z) : bytes :=
  let vector := write_uint8_hex16 vector (u8 (Z.shiftr value 24)) in
  let vector := write_uint8_hex16 vector (u8 (Z.shiftr value 16)) in
  let vector := write_uint8_hex16 vector (u8 (Z.shiftr value 8)) in
  write_uint8_hex16 vector (u8 value).

Definition write_uint48_hex16 (vector : bytes) (value : Z) : bytes :=
  let vector := write_uint8_hex16 vector (u8 (Z.shiftr value 40)) in
  let vector := write_uint8_hex16 vector (u8 (Z.shiftr value 32)) in
  let vector := write_uint8_hex16 vector (u8 (Z.shiftr value 24)) in
  let vector := write_uint8_hex16 vector (u8 (Z.shiftr value 16)) in
  let vector := write_uint8_hex16 vector (u8 (Z.shiftr value 8)) in
  write_uint8_hex16 vector (u8 value).

Definition write_uint64_hex16 (vector : bytes) (value : Z) : bytes :=
  let vector := write_uint8_hex16 vector (u8 (Z.shiftr value 56)) in
  let vector := write_uint8_hex16 vector (u8 (Z.shiftr value 48)) in
  let vector := write_uint8_hex16 vector (u8 (Z.shiftr value 40)) in
  let vector := write_uint8_hex16 vector (u8 (Z.shiftr value 32)) in
  let vector := write_uint8_hex16 vector (u8 (Z.shiftr value 24)) in
  let vector := write_uint8_hex16 vector (u8 (Z.shiftr value 16)) in
  let vector := write_uint8_hex16 vector (u8 (Z.shiftr value 8)) in
  write_uint8_hex16 vector (u8 value).

End BinaryWriter.

(** ** Reference big-endian codec *)

Fixpoint be_bytes (n : nat) (v : Z) : bytes :=
  match n with
  | O => []
  | S n' => u8 (Z.shiftr v (8 * Z.of_nat n')) :: be_bytes n' v
  end.

Definition be_value (l : bytes) : Z := foldl (fun acc b => acc * 256 + b) 0 l.

(** Lower-case hexadecimal text of the [n] low bytes of [v]. *)
Fixpoint hex_text (n : nat) (v : Z) : bytes :=
  match n with
  | O => []
  | S n' =>
    BinaryWriter.write_uint8_hex16 [] (u8 (Z.shiftr v (8 * Z.of_nat n'))) ++ hex_text n' v
  end.

(** ** The codec and its inverse *)

Lemma length_be_bytes n v : length (be_bytes n v) = n.
Proof. induction n; simpl; congruence. Qed.

Lemma be_bytes_ok n v : bytes_ok (be_bytes n v).
Proof. induction n; constructor; [apply u8_range|done]. Qed.

Lemma foldl_be_acc l acc :
  foldl (fun acc b => acc * 256 + b) acc l = acc * 2 ^ (8 * zlen l) + be_value l.
Proof.
  unfold be_value. revert acc. induction l as [|b l IH]; intros acc.
  - simpl. change (zlen (@nil Z)) with 0. simpl. lia.
  - cbn [foldl]. rewrite IH, (IH (0 * 256 + b)). rewrite zlen_cons.
    replace (8 * (1 + zlen l)) with (8 + 8 * zlen l) by lia.
    pose proof (zlen_nonneg l). rewrite Z.pow_add_r by lia. ring.
Qed.

Lemma be_value_cons b l : be_value (b :: l) = b * 2 ^ (8 * zlen l) + be_value l.
Proof. unfold be_value at 1. cbn [foldl]. by rewrite foldl_be_acc. Qed.

Lemma be_value_be_bytes n v : be_value (be_bytes n v) = v mod 2 ^ (8 * Z.of_nat n).
Proof.
  induction n as [|n IH]; [by rewrite Z.mod_1_r|].
  cbn [be_bytes]. rewrite be_value_cons, IH.
  unfold zlen. rewrite length_be_bytes. unfold u8.
  rewrite Z.shiftr_div_pow2 by lia.
  replace (8 * Z.of_nat (S n)) with (8 * Z.of_nat n + 8) by lia.
  rewrite Z.pow_add_r by lia. rewrite Z.rem_mul_r by lia. ring.
Qed.

Lemma be_value_range l : bytes_ok l -> 0 <= be_value l < 2 ^ (8 * zlen l).
Proof.
  induction 1 as [|b l Hb Hl IH]; [done|].
  rewrite be_value_cons, zlen_cons. pose proof (zlen_nonneg l).
  replace (8 * (1 + zlen l)) with (8 + 8 * zlen l) by lia.
  rewrite Z.pow_add_r by lia. nia.
Qed.

(** A big-endian encoding is determined by its length and its value. *)
Lemma be_bytes_be_value l : bytes_ok l -> be_bytes (length l) (be_value l) = l.
Proof.
  intros Hok. assert (forall k, be_bytes (length l) (k * 2 ^ (8 * zlen l) + be_value l) = l) as H.
  { induction Hok as [|b l Hb Hl IH]; intros k; [done|]. cbn [length be_bytes].
    pose proof (be_value_range l Hl) as Hv. pose proof (zlen_nonneg l).
    rewrite be_value_cons, zlen_cons.
    replace (8 * (1 + zlen l)) with (8 + 8 * zlen l) by lia.
    rewrite Z.pow_add_r by lia. f_equal.
    - fold (zlen l). rewrite Z.shiftr_div_pow2 by lia.
      replace (k * (2 ^ 8 * 2 ^ (8 * zlen l)) + (b * 2 ^ (8 * zlen l) + be_value l))
        with (be_value l + (k * 2 ^ 8 + b) * 2 ^ (8 * zlen l)) by ring.
      rewrite Z.div_add, (Z.div_small (be_value l)) by lia.
      unfold u8. rewrite Z.add_0_l, Z.add_comm, Z.mod_add by lia. by apply Z.mod_small.
    - etransitivity; [|apply (IH (k * 2 ^ 8 + b))]. f_equal. ring. }
  specialize (H 0). by rewrite Z.mul_0_l, Z.add_0_l in H.
Qed.

(** ** The writer appends the reference encoding *)

Lemma write_uint8_spec vector v : BinaryWriter.write_uint8 vector v = vector ++ be_bytes 1 v.
Proof. unfold BinaryWriter.write_uint8. simpl. by rewrite Z.shiftr_0_r. Qed.

Lemma write_uint16_spec vector v : BinaryWriter.write_uint16 vector v = vector ++ be_bytes 2 v.
Proof.
  unfold BinaryWriter.write_uint16. cbn -[u8 Z.shiftr].
  rewrite !land_u8_255, Z.shiftr_0_r. by rewrite <- !app_assoc.
Qed.

Lemma write_uint64_spec vector v : BinaryWriter.write_uint64 vector v = vector ++ be_bytes 8 v.
Proof.
  unfold BinaryWriter.write_uint64. cbn -[u8 Z.shiftr].
  rewrite !land_u8_255, Z.shiftr_0_r. by rewrite <- !app_assoc.
Qed.

Lemma write_data_all vector data :
  zlen data < 2 ^ 16 -> BinaryWriter.write_data vector data (zlen data) = Ret (vector ++ data).
Proof.
  intros H. unfold BinaryWriter.write_data. rewrite u16_small by (pose proof (zlen_nonneg data); lia).
  pose proof (buf_slice_app [] data []) as Hs. rewrite app_nil_r in Hs.
  cbn [app] in Hs. change (zlen (@nil Z)) with 0 in Hs. by rewrite Hs.
Qed.

(** The first [n] bytes of [data], [n] in range: what the clamped length
    fields of the protocol writer ask for. *)
Lemma write_data_prefix vector data n :
  0 <= n <= zlen data -> n < 2 ^ 16 ->
  BinaryWriter.write_data vector data n = Ret (vector ++ take (Z.to_nat n) data).
Proof.
  intros H Hn. unfold BinaryWriter.write_data. rewrite u16_small by lia.
  unfold buf_slice. rewrite decide_True by lia. done.
Qed.

#[export] Hint Rewrite write_uint8_spec write_uint16_spec write_uint64_spec : repeater.

(** ** Reads at a known position *)

Lemma buf_get_app_r pre l i b :
  0 <= i -> l !! Z.to_nat i = Some b -> buf_get (pre ++ l) (zlen pre + i) = Ret b.
Proof.
  intros Hi Hb. unfold buf_get, zlen. rewrite decide_True, lookup_app_r by lia.
  replace (Z.to_nat (Z.of_nat (length pre) + i) - length pre)%nat with (Z.to_nat i) by lia.
  by rewrite Hb.
Qed.

(** A reader positioned at [mid] of [pre ++ mid ++ post], all of it inside the
    claimed size. *)
Definition reads_at (r : BinaryReader.t) (pre mid post : bytes) : Prop :=
  BinaryReader.buffer r = pre ++ mid ++ post /\ BinaryReader.pos r = zlen pre /\
  zlen pre + zlen mid <= BinaryReader.buffer_size r < 2 ^ 16.

Lemma reads_at_advance r pre mid mid' post :
  reads_at r pre (mid ++ mid') post ->
  reads_at (BinaryReader.advance r (zlen mid)) (pre ++ mid) mid' post.
Proof.
  intros (Hb & Hp & Hs). unfold reads_at, BinaryReader.advance. cbn.
  rewrite Hb, <- !app_assoc. rewrite zlen_app in *.
  pose proof (zlen_nonneg pre). pose proof (zlen_nonneg mid). pose proof (zlen_nonneg mid').
  split; [done|]. rewrite Hp, u16_small by lia. lia.
Qed.

Lemma lor_low x b k a :
  a = x * 2 ^ k -> 0 <= k -> 0 <= b < 2 ^ k -> Z.lor a b = a + b.
Proof. intros -> Hk Hb. rewrite <- lor_shiftl_add, Z.shiftl_mul_pow2 by lia. done. Qed.

Ltac read_byte k :=
  match goal with
  | |- context [buf_get (?pre ++ ?l) (zlen ?pre + k)] =>
      rewrite (buf_get_app_r pre l k _ ltac:(lia) eq_refl); cbn [mbind outcome_bind]
  | |- context [buf_get (?pre ++ ?l) (zlen ?pre)] =>
      rewrite <- (Z.add_0_r (zlen pre)) at 1;
      rewrite (buf_get_app_r pre l 0 _ ltac:(lia) eq_refl); cbn [mbind outcome_bind]
  end.

Lemma read_uint8_at r pre b post :
  reads_at r pre [b] post ->
  BinaryReader.read_uint8 r = Ret (b, BinaryReader.advance r 1).
Proof.
  intros (Hb & Hp & Hs). unfold BinaryReader.read_uint8. change (zlen [b]) with 1 in Hs.
  rewrite decide_False by lia. rewrite Hb, Hp. by read_byte 0.
Qed.

Lemma read_uint16_at r pre l post :
  reads_at r pre l post -> length l = 2%nat -> bytes_ok l ->
  BinaryReader.read_uint16 r = Ret (be_value l, BinaryReader.advance r 2).
Proof.
  intros (Hb & Hp & Hs) Hl Hok. destruct l as [|b0 [|b1 [|]]]; try discriminate Hl.
  unfold BinaryReader.read_uint16. change (zlen [b0; b1]) with 2 in Hs.
  rewrite decide_False by lia. rewrite Hb, Hp. cbn [app].
  read_byte 0. read_byte 1. unfold bytes_ok in Hok. rewrite !Forall_cons in Hok. destruct Hok as (H0 & H1 & _).
  rewrite lor_shiftl_add by lia. rewrite u16_small by lia. done.
Qed.

Lemma read_uint64_at r pre l post :
  reads_at r pre l post -> length l = 8%nat -> bytes_ok l ->
  BinaryReader.read_uint64 r = Ret (be_value l, BinaryReader.advance r 8).
Proof.
  intros (Hb & Hp & Hs) Hl Hok.
  destruct l as [|b0 [|b1 [|b2 [|b3 [|b4 [|b5 [|b6 [|b7 [|]]]]]]]]]; try discriminate Hl.
  unfold BinaryReader.read_uint64.
  change (zlen [b0; b1; b2; b3; b4; b5; b6; b7]) with 8 in Hs.
  rewrite decide_False by lia. rewrite Hb, Hp. cbn [app].
  read_byte 0. read_byte 1. read_byte 2. read_byte 3.
  read_byte 4. read_byte 5. read_byte 6. read_byte 7.
  unfold bytes_ok in Hok. rewrite !Forall_cons in Hok. destruct Hok as (H0 & H1 & H2 & H3 & H4 & H5 & H6 & H7 & _).
  rewrite !Z.shiftl_mul_pow2, !u64_small by lia.
  rewrite (lor_low b0 (b1 * 2 ^ 48) 56) by lia.
  rewrite (lor_low (b0 * 256 + b1) (b2 * 2 ^ 40) 48) by lia.
  rewrite (lor_low ((b0 * 256 + b1) * 256 + b2) (b3 * 2 ^ 32) 40) by lia.
  rewrite (lor_low (((b0 * 256 + b1) * 256 + b2) * 256 + b3) (b4 * 2 ^ 24) 32) by lia.
  rewrite (lor_low ((((b0 * 256 + b1) * 256 + b2) * 256 + b3) * 256 + b4) (b5 * 2 ^ 16) 24) by lia.
  rewrite (lor_low (((((b0 * 256 + b1) * 256 + b2) * 256 + b3) * 256 + b4) * 256 + b5)
             (b6 * 2 ^ 8) 16) by lia.
  rewrite (lor_low ((((((b0 * 256 + b1) * 256 + b2) * 256 + b3) * 256 + b4) * 256 + b5) * 256 + b6)
             b7 8) by lia.
  unfold be_value. cbn [foldl]. do 2 f_equal. lia.
Qed.

Lemma read_data_at r pre l post :
  reads_at r pre l post ->
  BinaryReader.read_data r (zlen l) = Ret (Some l, BinaryReader.advance r (zlen l)).
Proof.
  intros (Hb & Hp & Hs). unfold BinaryReader.read_data.
  rewrite decide_False by lia. rewrite Hb, Hp, buf_slice_app. done.
Qed.

(** ** Every read, from every reader *)

(** The caller's promise: the buffer owns at least the size it claims. *)
Definition reader_ok (r : BinaryReader.t) : Prop :=
  bytes_ok (BinaryReader.buffer r) /\ 0 <= BinaryReader.pos r < 2 ^ 16 /\
  0 <= BinaryReader.buffer_size r < 2 ^ 16 /\
  BinaryReader.buffer_size r <= zlen (BinaryReader.buffer r).

#[export] Instance reader_ok_dec r : Decision (reader_ok r).
Proof. unfold reader_ok. apply _. Defined.

(** [n] more bytes are available. *)
Definition fits (r : BinaryReader.t) (n : Z) : bool :=
  bool_decide (BinaryReader.pos r + n <= BinaryReader.buffer_size r).

(** The next [n] bytes. *)
Definition next (r : BinaryReader.t) (n : Z) : bytes :=
  take (Z.to_nat n) (drop (Z.to_nat (BinaryReader.pos r)) (BinaryReader.buffer r)).

Lemma reads_at_next r n :
  reader_ok r -> 0 <= n -> fits r n = true ->
  exists pre post, reads_at r pre (next r n) post /\ zlen (next r n) = n /\ bytes_ok (next r n).
Proof.
  intros (Hok & Hp & Hs & Hl) Hn Hf%bool_decide_eq_true_1.
  set (p := Z.to_nat (BinaryReader.pos r)).
  exists (take p (BinaryReader.buffer r)), (drop (Z.to_nat n) (drop p (BinaryReader.buffer r))).
  assert (zlen (next r n) = n) as Hlen.
  { unfold next, zlen in *. rewrite length_take, length_drop. lia. }
  split; [|split; [done|]].
  - unfold reads_at. rewrite Hlen. unfold next. fold p. rewrite take_drop, take_drop.
    unfold zlen in *. rewrite length_take. subst p. split; [done|]. lia.
  - unfold next. by apply Forall_take, Forall_drop.
Qed.

Lemma advance_ok r n :
  reader_ok r -> 0 <= n -> fits r n = true -> reader_ok (BinaryReader.advance r n).
Proof.
  intros (Hok & Hp & Hs & Hl) Hn Hf%bool_decide_eq_true_1.
  unfold reader_ok, BinaryReader.advance. cbn. rewrite u16_small by lia. repeat split; try lia; done.
Qed.

Ltac short_read :=
  match goal with
  | Hf : fits _ _ = false |- _ => apply bool_decide_eq_false_1 in Hf; by rewrite decide_True by lia
  end.

Lemma read_uint8_total r :
  reader_ok r ->
  BinaryReader.read_uint8 r =
    Ret (if fits r 1 then (be_value (next r 1), BinaryReader.advance r 1) else (0, r)).
Proof.
  intros Hr. destruct (fits r 1) eqn:Hf.
  - destruct (reads_at_next r 1) as (pre & post & Hat & Hlen & _); [done|lia|done|].
    destruct (next r 1) as [|b [|]] eqn:E; try (cbv in Hlen; discriminate Hlen).
    + rewrite (read_uint8_at _ _ _ _ Hat). unfold be_value. simpl. done.
    + exfalso. unfold zlen in Hlen. simpl in Hlen. lia.
  - unfold BinaryReader.read_uint8. short_read.
Qed.

Lemma read_uint16_total r :
  reader_ok r ->
  BinaryReader.read_uint16 r =
    Ret (if fits r 2 then (be_value (next r 2), BinaryReader.advance r 2) else (0, r)).
Proof.
  intros Hr. destruct (fits r 2) eqn:Hf.
  - destruct (reads_at_next r 2) as (pre & post & Hat & Hlen & Hok); [done|lia|done|].
    apply (read_uint16_at _ _ _ _ Hat); [unfold zlen in Hlen; lia|done].
  - unfold BinaryReader.read_uint16. short_read.
Qed.

Lemma read_uint64_total r :
  reader_ok r ->
  BinaryReader.read_uint64 r =
    Ret (if fits r 8 then (be_value (next r 8), BinaryReader.advance r 8) else (0, r)).
Proof.
  intros Hr. destruct (fits r 8) eqn:Hf.
  - destruct (reads_at_next r 8) as (pre & post & Hat & Hlen & Hok); [done|lia|done|].
    apply (read_uint64_at _ _ _ _ Hat); [unfold zlen in Hlen; lia|done].
  - unfold BinaryReader.read_uint64. short_read.
Qed.

Lemma read_data_total r len :
  reader_ok r -> 0 <= len ->
  BinaryReader.read_data r len =
    Ret (if fits r len then (Some (next r len), BinaryReader.advance r len) else (None, r)).
Proof.
  intros Hr Hlen. destruct (fits r len) eqn:Hf.
  - destruct (reads_at_next r len) as (pre & post & Hat & Hl & Hok); [done|lia|done|].
    rewrite <- Hl at 1 3. by rewrite (read_data_at _ _ _ _ Hat).
  - unfold BinaryReader.read_data. short_read.
Qed.

Lemma next_value_range r n :
  reader_ok r -> 0 <= n -> fits r n = true -> 0 <= be_value (next r n) < 2 ^ (8 * n).
Proof.
  intros Hr Hn Hf. destruct (reads_at_next r n) as (pre & post & _ & Hl & Hok); [done..|].
  pose proof (be_value_range _ Hok) as H. by rewrite Hl in H.
Qed.

(** What a read leaves behind. *)
Lemma read_uint8_inv r v r' :
  reader_ok r -> BinaryReader.read_uint8 r = Ret (v, r') -> reader_ok r' /\ 0 <= v < 2 ^ 8.
Proof.
  intros Hr H. rewrite read_uint8_total in H by done. destruct (fits r 1) eqn:Hf; inv_outcome.
  - split; [by apply advance_ok|]. apply (next_value_range r 1); [done|lia|done].
  - split; [done|lia].
Qed.

Lemma read_uint16_inv r v r' :
  reader_ok r -> BinaryReader.read_uint16 r = Ret (v, r') -> reader_ok r' /\ 0 <= v < 2 ^ 16.
Proof.
  intros Hr H. rewrite read_uint16_total in H by done. destruct (fits r 2) eqn:Hf; inv_outcome.
  - split; [by apply advance_ok|]. apply (next_value_range r 2); [done|lia|done].
  - split; [done|lia].
Qed.

Lemma read_uint64_inv r v r' :
  reader_ok r -> BinaryReader.read_uint64 r = Ret (v, r') -> reader_ok r' /\ 0 <= v < 2 ^ 64.
Proof.
  intros Hr H. rewrite read_uint64_total in H by done. destruct (fits r 8) eqn:Hf; inv_outcome.
  - split; [by apply advance_ok|]. apply (next_value_range r 8); [done|lia|done].
  - split; [done|lia].
Qed.

Lemma read_data_inv r len o r' :
  reader_ok r -> 0 <= len -> BinaryReader.read_data r len = Ret (o, r') ->
  reader_ok r' /\ match o with Some l => bytes_ok l /\ zlen l = len | None => r' = r end.
Proof.
  intros Hr Hl H. rewrite read_data_total in H by done. destruct (fits r len) eqn:Hf; inv_outcome.
  - split; [by apply advance_ok|].
    destruct (reads_at_next r len) as (_ & _ & _ & ? & ?); [done..|]. done.
  - done.
Qed.

(** ** Reading one segment of a buffer after another *)

Lemma reads_at_prefix r pre mid rest post :
  reads_at r pre (mid ++ rest) post -> reads_at r pre mid (rest ++ post).
Proof.
  intros (Hb & Hp & Hs). unfold reads_at. rewrite Hb, <- app_assoc. rewrite zlen_app in Hs.
  pose proof (zlen_nonneg rest). split; [done|]. lia.
Qed.

Lemma be_bytes_1 v : 0 <= v < 2 ^ 8 -> be_bytes 1 v = [v].
Proof. intros H. simpl. rewrite Z.shiftr_0_r. by rewrite u8_small. Qed.

Lemma read_uint8_seg r pre v rest post :
  0 <= v < 2 ^ 8 -> reads_at r pre (be_bytes 1 v ++ rest) post ->
  exists r', BinaryReader.read_uint8 r = Ret (v, r') /\ reads_at r' (pre ++ be_bytes 1 v) rest post.
Proof.
  intros Hv H. exists (BinaryReader.advance r 1). rewrite be_bytes_1 in * by done. split.
  - eapply read_uint8_at, reads_at_prefix, H.
  - change 1 with (zlen [v]). by apply reads_at_advance.
Qed.

Lemma read_uint16_seg r pre v rest post :
  0 <= v < 2 ^ 16 -> reads_at r pre (be_bytes 2 v ++ rest) post ->
  exists r', BinaryReader.read_uint16 r = Ret (v, r') /\ reads_at r' (pre ++ be_bytes 2 v) rest post.
Proof.
  intros Hv H. exists (BinaryReader.advance r 2). split.
  - erewrite (read_uint16_at _ _ _ _ (reads_at_prefix _ _ _ _ _ H));
      [|apply length_be_bytes|apply be_bytes_ok].
    rewrite be_value_be_bytes. rewrite Z.mod_small by (simpl; lia). done.
  - change 2 with (Z.of_nat 2) at 1. rewrite <- (length_be_bytes 2 v). by apply reads_at_advance.
Qed.

Lemma read_uint64_seg r pre v rest post :
  0 <= v < 2 ^ 64 -> reads_at r pre (be_bytes 8 v ++ rest) post ->
  exists r', BinaryReader.read_uint64 r = Ret (v, r') /\ reads_at r' (pre ++ be_bytes 8 v) rest post.
Proof.
  intros Hv H. exists (BinaryReader.advance r 8). split.
  - erewrite (read_uint64_at _ _ _ _ (reads_at_prefix _ _ _ _ _ H));
      [|apply length_be_bytes|apply be_bytes_ok].
    rewrite be_value_be_bytes. rewrite Z.mod_small by (simpl; lia). done.
  - change 8 with (Z.of_nat 8) at 1. rewrite <- (length_be_bytes 8 v). by apply reads_at_advance.
Qed.

Lemma read_data_seg r pre l rest post :
  reads_at r pre (l ++ rest) post ->
  exists r', BinaryReader.read_data r (zlen l) = Ret (Some l, r') /\ reads_at r' (pre ++ l) rest post.
Proof.
  intros H. exists (BinaryReader.advance r (zlen l)). split.
  - eapply read_data_at, reads_at_prefix, H.
  - by apply reads_at_advance.
Qed.

Lemma reads_at_start buffer :
  zlen buffer < 2 ^ 16 -> reads_at (BinaryReader.make 0 buffer (zlen buffer)) [] buffer [].
Proof.
  intros H. unfold reads_at. cbn. rewrite app_nil_r. split; [done|].
  unfold zlen in *. simpl. lia.
Qed.

(** Take one field off the front of the buffer. *)
Ltac read_seg lem H :=
  let r' := fresh "r" in let Hr := fresh "Hr" in
  edestruct lem as (r' & Hr & H'); [.. | exact H | rewrite Hr; cbn [mbind outcome_bind]];
  [..|clear H; rename H' into H].

(** ** Sequences of fields *)

(** A field that the code writes or reads; what is read is asked for by a
    shape: a width, or a number of bytes. *)
Inductive field : Type :=
  | FUint8 (v : Z)
  | FUint16 (v : Z)
  | FUint64 (v : Z)
  | FData (l : bytes).

Inductive shape : Type := SUint8 | SUint16 | SUint64 | SData (len : Z).

Definition field_shape (f : field) : shape :=
  match f with
  | FUint8 _ => SUint8 | FUint16 _ => SUint16 | FUint64 _ => SUint64 | FData l => SData (zlen l)
  end.

Definition field_ok (f : field) : Prop :=
  match f with
  | FUint8 v => 0 <= v < 2 ^ 8
  | FUint16 v => 0 <= v < 2 ^ 16
  | FUint64 v => 0 <= v < 2 ^ 64
  | FData l => zlen l < 2 ^ 16
  end.

#[export] Instance field_ok_dec f : Decision (field_ok f).
Proof. destruct f; cbn; apply _. Defined.

Definition field_bytes (f : field) : bytes :=
  match f with
  | FUint8 v => be_bytes 1 v
  | FUint16 v => be_bytes 2 v
  | FUint64 v => be_bytes 8 v
  | FData l => l
  end.

Definition write_field (vector : bytes) (f : field) : outcome bytes :=
  match f with
  | FUint8 v => Ret (BinaryWriter.write_uint8 vector v)
  | FUint16 v => Ret (BinaryWriter.write_uint16 vector v)
  | FUint64 v => Ret (BinaryWriter.write_uint64 vector v)
  | FData l => BinaryWriter.write_data vector l (zlen l)
  end.

Fixpoint write_fields (vector : bytes) (fs : list field) : outcome bytes :=
  match fs with
  | [] => Ret vector
  | f :: fs' => vector ← write_field vector f; write_fields vector fs'
  end.

(** [None] is a data field that does not fit. *)
Definition read_field (r : BinaryReader.t) (sh : shape) : outcome (option field * BinaryReader.t) :=
  match sh with
  | SUint8 => '(v, r) ← BinaryReader.read_uint8 r; Ret (Some (FUint8 v), r)
  | SUint16 => '(v, r) ← BinaryReader.read_uint16 r; Ret (Some (FUint16 v), r)
  | SUint64 => '(v, r) ← BinaryReader.read_uint64 r; Ret (Some (FUint64 v), r)
  | SData len => '(o, r) ← BinaryReader.read_data r len; Ret (option_map FData o, r)
  end.

Fixpoint read_fields (r : BinaryReader.t) (shs : list shape)
    : outcome (list (option field) * BinaryReader.t) :=
  match shs with
  | [] => Ret ([], r)
  | sh :: shs' =>
    '(f, r) ← read_field r sh;
    '(fs, r) ← read_fields r shs';
    Ret (f :: fs, r)
  end.

Lemma write_field_spec vector f :
  field_ok f -> write_field vector f = Ret (vector ++ field_bytes f).
Proof.
  destruct f as [v|v|v|l]; cbn [write_field field_bytes field_ok]; intros Hf.
  - by rewrite write_uint8_spec.
  - by rewrite write_uint16_spec.
  - by rewrite write_uint64_spec.
  - pose proof (zlen_nonneg l). rewrite write_data_prefix by lia.
    by rewrite take_ge by (unfold zlen; lia).
Qed.

Lemma write_fields_spec vector fs :
  Forall field_ok fs -> write_fields vector fs = Ret (vector ++ concat (field_bytes <$> fs)).
Proof.
  intros H. revert vector. induction H as [|f fs Hf _ IH]; intros vector; cbn; [by rewrite app_nil_r|].
  rewrite write_field_spec by done. cbn [mbind outcome_bind]. by rewrite IH, <- app_assoc.
Qed.

Lemma read_field_spec r pre f rest post :
  field_ok f -> reads_at r pre (field_bytes f ++ rest) post ->
  exists r', read_field r (field_shape f) = Ret (Some f, r') /\
    reads_at r' (pre ++ field_bytes f) rest post.
Proof.
  destruct f as [v|v|v|l]; cbn [field_ok field_bytes field_shape read_field]; intros Hf Hat.
  - destruct (read_uint8_seg _ _ _ _ _ Hf Hat) as (r' & -> & ?). by exists r'.
  - destruct (read_uint16_seg _ _ _ _ _ Hf Hat) as (r' & -> & ?). by exists r'.
  - destruct (read_uint64_seg _ _ _ _ _ Hf Hat) as (r' & -> & ?). by exists r'.
  - destruct (read_data_seg _ _ _ _ _ Hat) as (r' & -> & ?). by exists r'.
Qed.

Lemma read_fields_spec r pre fs post :
  Forall field_ok fs -> reads_at r pre (concat (field_bytes <$> fs)) post ->
  exists r', read_fields r (field_shape <$> fs) = Ret (Some <$> fs, r').
Proof.
  intros H. revert r pre. induction H as [|f fs Hf _ IH]; intros r pre Hat; cbn; [by eexists|].
  destruct (read_field_spec r pre f _ post Hf Hat) as (r1 & -> & Hat1).
  cbn [mbind outcome_bind]. destruct (IH r1 _ Hat1) as (r2 & ->). by eexists.
Qed.

(** ** Properties *)

(** C21. What the writer writes the reader reads: any sequence of fields of
    one, two and eight bytes and of data blocks that is written to an empty
    vector is read back field by field, when the whole fits the 16 bit size. *)
Theorem fields_roundtrip fs :
  Forall field_ok fs -> zlen (concat (field_bytes <$> fs)) < 2 ^ 16 ->
  exists vector r',
    write_fields [] fs = Ret vector /\
    read_fields (BinaryReader.make 0 vector (zlen vector)) (field_shape <$> fs) =
      Ret (Some <$> fs, r').
Proof.
  intros Hfs Hl. exists (concat (field_bytes <$> fs)).
  destruct (read_fields_spec _ [] fs [] Hfs (reads_at_start _ Hl)) as (r' & E).
  exists r'. split; [by rewrite write_fields_spec|exact E].
Qed.

Lemma fields_roundtrip_witness :
  let fs := [FUint8 200; FUint64 (2 ^ 64 - 2); FUint16 513; FData [1; 2; 3]] in
  exists vector r',
    write_fields [] fs = Ret vector /\
    read_fields (BinaryReader.make 0 vector (zlen vector)) (field_shape <$> fs) =
      Ret (Some <$> fs, r').
Proof.
  intros fs. apply (fields_roundtrip fs); [|vm_compute; reflexivity].
  apply (bool_decide_unpack _). vm_compute. exact I.
Defined.

(** C22. The reader stays inside the buffer: on a buffer that owns the size it
    claims, each read returns the big-endian value (or the block) of the next
    bytes and moves past them when they fit, and otherwise returns zero (or no
    block) without moving; no read faults. *)
Theorem reader_in_bounds r len :
  reader_ok r -> 0 <= len ->
  BinaryReader.read_uint8 r =
    Ret (if fits r 1 then (be_value (next r 1), BinaryReader.advance r 1) else (0, r)) /\
  BinaryReader.read_uint16 r =
    Ret (if fits r 2 then (be_value (next r 2), BinaryReader.advance r 2) else (0, r)) /\
  BinaryReader.read_uint64 r =
    Ret (if fits r 8 then (be_value (next r 8), BinaryReader.advance r 8) else (0, r)) /\
  BinaryReader.read_data r len =
    Ret (if fits r len then (Some (next r len), BinaryReader.advance r len) else (None, r)).
Proof.
  intros Hr Hl. split_and!; [by apply read_uint8_total|by apply read_uint16_total
    |by apply read_uint64_total|by apply read_data_total].
Qed.

Lemma reader_in_bounds_witness :
  let r := BinaryReader.make 1 [9; 1; 2; 3] 3 in
  BinaryReader.read_uint8 r = Ret (1, BinaryReader.advance r 1) /\
  BinaryReader.read_uint16 r = Ret (258, BinaryReader.advance r 2) /\
  BinaryReader.read_uint64 r = Ret (0, r) /\ BinaryReader.read_data r 3 = Ret (None, r).
Proof.
  intros r. apply (reader_in_bounds r 3); [|lia]. apply (bool_decide_unpack _). vm_compute. exact I.
Defined.
