(* ===== verification/Packets.v ===== *)
(** * Packets and peers

    The value classes of Bitchat/: [PacketBase] and its three subclasses
    [Announce], [Message] and [PacketPassAlong], the packet type and flag
    enumerations, and [Peer].  A [const PacketBase *] of the code points to an
    object of one of the subclasses: the type [packet]. *)

From stdpp Require Import base numbers list gmap.
From Stdlib Require Import ZArith Lia.
From S2P Require Import Prelude Platform BinaryIO.

(** ** BitchatPacketTypes.h *)

Inductive PacketType : Type :=
  | type_unknown | type_announce | type_leave | type_message | type_fragment_start
  | fragmentContinue | fragmentEnd | channelAnnounce | channelRetention | deliveryAck
  | deliveryStatusRequest | readReceipt | noiseHandshakeInit | noiseHandshakeResp
  | noiseEncrypted | noiseIdentityAnnounce | channelKeyVerifyRequest
  | channelKeyVerifyResponse | channelPasswordUpdate | channelMetadata | versionHello
  | versionAck | protocolAck | protocolNack | systemValidation | handshakeRequest
  | favorited | unfavorited.

Definition PacketType_value (ty : PacketType) : Z :=
  match ty with
  | type_unknown => 0
  | type_announce => 0x01
  | type_leave => 0x03
  | type_message => 0x04
  | type_fragment_start => 0x05
  | fragmentContinue => 0x06
  | fragmentEnd => 0x07
  | channelAnnounce => 0x08
  | channelRetention => 0x09
  | deliveryAck => 0x0A
  | deliveryStatusRequest => 0x0B
  | readReceipt => 0x0C
  | noiseHandshakeInit => 0x10
  | noiseHandshakeResp => 0x11
  | noiseEncrypted => 0x12
  | noiseIdentityAnnounce => 0x13
  | channelKeyVerifyRequest => 0x14
  | channelKeyVerifyResponse => 0x15
  | channelPasswordUpdate => 0x16
  | channelMetadata => 0x17
  | versionHello => 0x20
  | versionAck => 0x21
  | protocolAck => 0x22
  | protocolNack => 0x23
  | systemValidation => 0x24
  | handshakeRequest => 0x25
  | favorited => 0x30
  | unfavorited => 0x31
  end.

Definition all_PacketTypes : list PacketType :=
  [type_unknown; type_announce; type_leave; type_message; type_fragment_start;
   fragmentContinue; fragmentEnd; channelAnnounce; channelRetention; deliveryAck;
   deliveryStatusRequest; readReceipt; noiseHandshakeInit; noiseHandshakeResp;
   noiseEncrypted; noiseIdentityAnnounce; channelKeyVerifyRequest;
   channelKeyVerifyResponse; channelPasswordUpdate; channelMetadata; versionHello;
   versionAck; protocolAck; protocolNack; systemValidation; handshakeRequest;
   favorited; unfavorited].

#[export] Instance PacketType_eq_dec : EqDecision PacketType.
Proof. solve_decision. Defined.

(** The [case] label a [switch] on a [uint8_t] type reaches; [None] is
    [default] for the values the enumeration does not name. *)
Definition PacketType_of (z : Z) : option PacketType :=
  list_find (fun ty => PacketType_value ty = z) all_PacketTypes ≫= fun p => Some p.2.

Definition packet_flag_has_recipient : Z := 0x01.
Definition packet_flag_has_signature : Z := 0x02.
Definition packet_flag_is_compressed : Z := 0x04.

(** ** Peer.h, Peer.cpp *)

Module Peer.

Record t : Type := mk {
  id : Z;
  name : bytes;
  public_key : bytes;
  max_ttl : Z;
  connection_handle : Z }.

(** [Peer()] *)
Definition make : t := mk 0 [] [] 0 0.

(** [Peer(id, peer_name)] *)
Definition make_named (id : Z) (peer_name : bytes) : t := mk id peer_name [] 0 0.

Definition updateName (p : t) (peer_name : bytes) : t :=
  mk (id p) peer_name (public_key p) (max_ttl p) (connection_handle p).

Definition getId (p : t) : Z := id p.

Definition getName (p : t) : bytes := name p.

Definition setId (p : t) (new_id : Z) : t :=
  mk new_id (name p) (public_key p) (max_ttl p) (connection_handle p).

Definition updateNoisePublicKey (p : t) (new_public_key : bytes) : t :=
  mk (id p) (name p) new_public_key (max_ttl p) (connection_handle p).

Definition getPublicKey (p : t) : bytes := public_key p.

Definition getAnnounceTtl (p : t) : Z := max_ttl p.

Definition setAnnounceTtl (p : t) (ttl : Z) : t :=
  mk (id p) (name p) (public_key p) ttl (connection_handle p).

Definition setConnectionHandle (p : t) (hci_con_handle : Z) : t :=
  mk (id p) (name p) (public_key p) (max_ttl p) hci_con_handle.

End Peer.

(** ** PacketBase.h, PacketBase.cpp *)

Module PacketBase.

Record t : Type := mk {
  packet_type : Z;
  packet_ttl : Z;
  packet_timestamp : Z;
  packet_flags : Z;
  packet_sender_id : Z;
  packet_recipient_id : Z;
  packet_signature : bytes }.

(** The three constructors. *)
Definition make_typed (type : Z) : t := mk type 0 0 0 0 0 [].

Definition make_sender (type ttl timestamp flags sender : Z) : t :=
  mk type ttl timestamp flags sender 0 [].

Definition make (type ttl timestamp flags sender recipient : Z) (signature : bytes) : t :=
  mk type ttl timestamp flags sender recipient signature.

Definition getPacketType (b : t) : Z := packet_type b.

Definition getPacketTtl (b : t) : Z := packet_ttl b.

Definition getPacketTimestamp (b : t) : Z := packet_timestamp b.

Definition getPacketTimestampMs (b : t) : Z := packet_timestamp b / 1000.

Definition getPacketFlags (b : t) : Z := packet_flags b.

Definition getPacketSenderId (b : t) : Z := packet_sender_id b.

Definition getPacketRecipientId (b : t) : Z := packet_recipient_id b.

Definition getPacketSignature (b : t) : bytes := packet_signature b.

Definition hasPacketRecipient (b : t) : bool :=
  has_flag (packet_flags b) packet_flag_has_recipient.

Definition hasPacketSignature (b : t) : bool :=
  has_flag (packet_flags b) packet_flag_has_signature.

Definition setPacketTtl (b : t) (ttl : Z) : t :=
  mk (packet_type b) ttl (packet_timestamp b) (packet_flags b) (packet_sender_id b)
     (packet_recipient_id b) (packet_signature b).

Definition setPacketTimestamp (b : t) (timestamp : Z) : t :=
  mk (packet_type b) (packet_ttl b) timestamp (packet_flags b) (packet_sender_id b)
     (packet_recipient_id b) (packet_signature b).

Definition setPacketFlags (b : t) (flags : Z) : t :=
  mk (packet_type b) (packet_ttl b) (packet_timestamp b) flags (packet_sender_id b)
     (packet_recipient_id b) (packet_signature b).

Definition setPacketSenderId (b : t) (senderId : Z) : t :=
  mk (packet_type b) (packet_ttl b) (packet_timestamp b) (packet_flags b) senderId
     (packet_recipient_id b) (packet_signature b).

End PacketBase.

(** ** Announce.h, Announce.cpp *)

Module Announce.

Record t : Type := mk { base : PacketBase.t; name : bytes }.

Definition make : t := mk (PacketBase.make_typed (PacketType_value type_announce)) [].

Definition setName (a : t) (value : bytes) : t := mk (base a) value.

Definition getName (a : t) : bytes := name a.

(** An inherited setter, on the base part. *)
Definition on_base (f : PacketBase.t -> PacketBase.t) (a : t) : t := mk (f (base a)) (name a).

End Announce.

(** ** Message.h, Message.cpp *)

Module Message.

(** [Peer *sender_peer] points to a node of the tracker's [peers] map, which
    never erases: the pointer is the key of the node, [nullptr] is [None]. *)
Record t : Type := mk {
  base : PacketBase.t;
  message_flags : Z;
  message_timestamp : Z;
  message_id : bytes;
  sender_nickname : bytes;
  original_sender_nickname : bytes;
  content : bytes;
  encrypted_content : bytes;
  recipient_nickname : bytes;
  sender_peer : option Z;
  mentions : list bytes;
  channel : bytes }.

Definition of_base (b : PacketBase.t) : t := mk b 0 0 [] [] [] [] [] [] None [] [].

(** The three constructors. *)
Definition make_default : t :=
  of_base (PacketBase.make_typed (PacketType_value type_message)).

Definition make_sender (ttl timestamp packet_flags sender : Z) : t :=
  of_base (PacketBase.make_sender (PacketType_value type_message) ttl timestamp packet_flags sender).

Definition make (ttl timestamp packet_flags sender recipient : Z) (signature : bytes) : t :=
  of_base (PacketBase.make (PacketType_value type_message) ttl timestamp packet_flags sender
             recipient signature).

Definition isRelay (m : t) : bool := has_flag (message_flags m) 0x01.
Definition isPrivate (m : t) : bool := has_flag (message_flags m) 0x02.
Definition hasOriginalSender (m : t) : bool := has_flag (message_flags m) 0x04.
Definition hasRecipientNickname (m : t) : bool := has_flag (message_flags m) 0x08.
Definition hasSenderPeerID (m : t) : bool := has_flag (message_flags m) 0x10.
Definition hasMentions (m : t) : bool := has_flag (message_flags m) 0x20.
Definition hasChannel (m : t) : bool := has_flag (message_flags m) 0x40.
Definition isEncrypted (m : t) : bool := has_flag (message_flags m) 0x80.

Definition setMessageFlags (m : t) (flags : Z) : t :=
  mk (base m) flags (message_timestamp m) (message_id m) (sender_nickname m)
     (original_sender_nickname m) (content m) (encrypted_content m) (recipient_nickname m)
     (sender_peer m) (mentions m) (channel m).

Definition setMessageTimestamp (m : t) (value : Z) : t :=
  mk (base m) (message_flags m) value (message_id m) (sender_nickname m)
     (original_sender_nickname m) (content m) (encrypted_content m) (recipient_nickname m)
     (sender_peer m) (mentions m) (channel m).

Definition setMessageId (m : t) (string : bytes) : t :=
  mk (base m) (message_flags m) (message_timestamp m) string (sender_nickname m)
     (original_sender_nickname m) (content m) (encrypted_content m) (recipient_nickname m)
     (sender_peer m) (mentions m) (channel m).

Definition setSenderNickname (m : t) (string : bytes) : t :=
  mk (base m) (message_flags m) (message_timestamp m) (message_id m) string
     (original_sender_nickname m) (content m) (encrypted_content m) (recipient_nickname m)
     (sender_peer m) (mentions m) (channel m).

Definition setContent (m : t) (string : bytes) : t :=
  mk (base m) (message_flags m) (message_timestamp m) (message_id m) (sender_nickname m)
     (original_sender_nickname m) string (encrypted_content m) (recipient_nickname m)
     (sender_peer m) (mentions m) (channel m).

Definition setEncryptedContent (m : t) (string : bytes) : t :=
  mk (base m) (message_flags m) (message_timestamp m) (message_id m) (sender_nickname m)
     (original_sender_nickname m) (content m) string (recipient_nickname m)
     (sender_peer m) (mentions m) (channel m).

Definition setOriginalSenderNickname (m : t) (string : bytes) : t :=
  mk (base m) (message_flags m) (message_timestamp m) (message_id m) (sender_nickname m)
     string (content m) (encrypted_content m) (recipient_nickname m)
     (sender_peer m) (mentions m) (channel m).

Definition setRecipientNickname (m : t) (string : bytes) : t :=
  mk (base m) (message_flags m) (message_timestamp m) (message_id m) (sender_nickname m)
     (original_sender_nickname m) (content m) (encrypted_content m) string
     (sender_peer m) (mentions m) (channel m).

Definition addMention (m : t) (string : bytes) : t :=
  mk (base m) (message_flags m) (message_timestamp m) (message_id m) (sender_nickname m)
     (original_sender_nickname m) (content m) (encrypted_content m) (recipient_nickname m)
     (sender_peer m) (mentions m ++ [string]) (channel m).

Definition setChannel (m : t) (string : bytes) : t :=
  mk (base m) (message_flags m) (message_timestamp m) (message_id m) (sender_nickname m)
     (original_sender_nickname m) (content m) (encrypted_content m) (recipient_nickname m)
     (sender_peer m) (mentions m) string.

Definition setSenderPeer (m : t) (peer : option Z) : t :=
  mk (base m) (message_flags m) (message_timestamp m) (message_id m) (sender_nickname m)
     (original_sender_nickname m) (content m) (encrypted_content m) (recipient_nickname m)
     peer (mentions m) (channel m).

Definition getMessageFlags (m : t) : Z := message_flags m.
Definition getMessageTimestamp (m : t) : Z := message_timestamp m.
Definition getMessageId (m : t) : bytes := message_id m.
Definition getSenderNickname (m : t) : bytes := sender_nickname m.
Definition getContent (m : t) : bytes := content m.
Definition getOriginalSenderNickname (m : t) : bytes := original_sender_nickname m.
Definition getRecipientNickname (m : t) : bytes := recipient_nickname m.
Definition getSenderPeer (m : t) : option Z := sender_peer m.
Definition getMentions (m : t) : list bytes := mentions m.
Definition getChannel (m : t) : bytes := channel m.

End Message.

(** ** PacketPassAlong.h, PacketPassAlong.cpp *)

Module PacketPassAlong.

Record t : Type := mk { base : PacketBase.t; payload : bytes }.

Definition make_default : t := mk (PacketBase.make_typed (PacketType_value type_unknown)) [].

Definition make (type ttl timestamp flags sender recipient : Z) (signature : bytes) : t :=
  mk (PacketBase.make type ttl timestamp flags sender recipient signature) [].

Definition setPayload (p : t) (value : bytes) : t := mk (base p) value.

Definition getPayload (p : t) : bytes := payload p.

(** The hashed header fields: the time to live is left out. *)
Definition meta_buffer (p : t) : bytes :=
  let b := base p in
  let meta := BinaryWriter.write_uint8 [] (PacketBase.getPacketType b) in
  let meta := BinaryWriter.write_uint8 meta (PacketBase.getPacketFlags b) in
  let meta := BinaryWriter.write_uint64 meta (PacketBase.getPacketTimestamp b) in
  let meta := BinaryWriter.write_uint64 meta (PacketBase.getPacketSenderId b) in
  BinaryWriter.write_uint64 meta (PacketBase.getPacketRecipientId b).

Definition getPacketHash (P : Platform) (p : t) : Z :=
  let hash_payload := string_hash P (payload p) in
  let hash_meta := string_hash P (meta_buffer p) in
  Z.lxor hash_payload (u32 (Z.shiftl hash_meta 1)).

End PacketPassAlong.

(** ** The object a [const PacketBase *] points to *)

Inductive packet : Type :=
  | PktAnnounce (a : Announce.t)
  | PktMessage (m : Message.t)
  | PktPassAlong (p : PacketPassAlong.t).

Definition packet_base (p : packet) : PacketBase.t :=
  match p with
  | PktAnnounce a => Announce.base a
  | PktMessage m => Message.base m
  | PktPassAlong p => PacketPassAlong.base p
  end.

(** [static_cast<const Announce *>]: [Announce] and [PacketPassAlong] add one
    [std::string] to [PacketBase], so on a [PacketPassAlong] the cast object's
    [name] is the pass-along's [payload]; a [Message] has another layout. *)
Definition cast_Announce (p : packet) : outcome Announce.t :=
  match p with
  | PktAnnounce a => Ret a
  | PktPassAlong p => Ret (Announce.mk (PacketPassAlong.base p) (PacketPassAlong.payload p))
  | PktMessage _ => Fault BadCast
  end.

Definition cast_Message (p : packet) : outcome Message.t :=
  match p with PktMessage m => Ret m | _ => Fault BadCast end.

Definition cast_PacketPassAlong (p : packet) : outcome PacketPassAlong.t :=
  match p with
  | PktPassAlong p => Ret p
  | PktAnnounce a => Ret (PacketPassAlong.mk (Announce.base a) (Announce.name a))
  | PktMessage _ => Fault BadCast
  end.
