(* ===== verification/ProtocolWriter.v ===== *)
(** * Serialisation of packets

    [ProtocolWriter] (Bitchat/ProtocolWriter.cpp): the wire format of a packet
    that is relayed, header, payload and trailer, and of the payload of a
    message. *)

From stdpp Require Import base numbers list gmap.
From Stdlib Require Import ZArith Lia.
From S2P Require Import Prelude Platform BinaryIO Packets.

(** [static_cast<uint8_t>(std::min(255, s.size()))] *)
Definition clamp8 {A} (s : list A) : Z := u8 (Z.min 255 (zlen s)).

(** [static_cast<uint16_t>(std::min(65535, s.size()))] *)
Definition clamp16 {A} (s : list A) : Z := u16 (Z.min 65535 (zlen s)).

(** [peer->getId()] through a pointer to a node of [peers]. *)
Definition deref_peer (peers : gmap Z Peer.t) (p : option Z) : outcome Peer.t :=
  match p with
  | None => Fault NullPointer
  | Some k => match peers !! k with Some peer => Ret peer | None => Fault (DanglingPeer k) end
  end.

Module ProtocolWriter.

(** A string after its one-byte length, both cut at 255. *)
Definition write_string8 (vector s : bytes) : outcome bytes :=
  let len := clamp8 s in
  let vector := BinaryWriter.write_uint8 vector len in
  BinaryWriter.write_data vector s len.

Fixpoint write_mentions (vector : bytes) (mentions : list bytes) : outcome bytes :=
  match mentions with
  | [] => Ret vector
  | mention :: mentions' =>
    vector ← write_string8 vector mention;
    write_mentions vector mentions'
  end.

Definition writeMessagePayload (peers : gmap Z Peer.t) (vector : bytes) (message : Message.t)
    : outcome bytes :=
  let vector := BinaryWriter.write_uint8 vector (Message.getMessageFlags message) in
  let vector := BinaryWriter.write_uint64 vector (Message.getMessageTimestamp message) in
  vector ← write_string8 vector (Message.getMessageId message);
  vector ← write_string8 vector (Message.getSenderNickname message);
  let content := Message.getContent message in
  let content_len := clamp16 content in
  let vector := BinaryWriter.write_uint16 vector content_len in
  vector ← BinaryWriter.write_data vector content content_len;
  vector ←
    (if Message.hasOriginalSender message
     then write_string8 vector (Message.getOriginalSenderNickname message) else Ret vector);
  vector ←
    (if Message.hasRecipientNickname message
     then write_string8 vector (Message.getRecipientNickname message) else Ret vector);
  vector ←
    (if Message.hasSenderPeerID message then
       peer ← deref_peer peers (Message.getSenderPeer message);
       let peerId := Peer.getId peer in
       let size := 16 in
       let vector := BinaryWriter.write_uint8 vector size in
       Ret (BinaryWriter.write_uint64_hex16 vector peerId)
     else Ret vector);
  vector ←
    (if Message.hasMentions message then
       let mentions := Message.getMentions message in
       let mentions_count := clamp8 mentions in
       let vector := BinaryWriter.write_uint8 vector mentions_count in
       write_mentions vector mentions
     else Ret vector);
  if Message.hasChannel message
  then write_string8 vector (Message.getChannel message) else Ret vector.

(** The [switch] on the packet type: the payload bytes. *)
Definition write_payload (peers : gmap Z Peer.t) (pkt : packet) : outcome bytes :=
  match PacketType_of (PacketBase.getPacketType (packet_base pkt)) with
  | Some type_announce =>
    announce ← cast_Announce pkt;
    BinaryWriter.write_data [] (Announce.getName announce) (zlen (Announce.getName announce))
  | Some type_message =>
    message ← cast_Message pkt;
    writeMessagePayload peers [] message
  | _ =>
    pass_along ← cast_PacketPassAlong pkt;
    BinaryWriter.write_data [] (PacketPassAlong.getPayload pass_along)
      (zlen (PacketPassAlong.getPayload pass_along))
  end.

Definition writePacket (peers : gmap Z Peer.t) (vector : bytes) (pkt : option packet)
    : outcome bytes :=
  match pkt with
  | None => Ret vector
  | Some pkt =>
    let b := packet_base pkt in
    let vector := BinaryWriter.write_uint8 vector 1 in
    let vector := BinaryWriter.write_uint8 vector (PacketBase.getPacketType b) in
    let vector := BinaryWriter.write_uint8 vector (PacketBase.getPacketTtl b - 1) in
    let vector := BinaryWriter.write_uint64 vector (PacketBase.getPacketTimestamp b) in
    let vector := BinaryWriter.write_uint8 vector (PacketBase.getPacketFlags b) in
    payload ← write_payload peers pkt;
    let payload_len := clamp16 payload in
    let vector := BinaryWriter.write_uint16 vector payload_len in
    let vector := BinaryWriter.write_uint64 vector (PacketBase.getPacketSenderId b) in
    let vector :=
      if PacketBase.hasPacketRecipient b
      then BinaryWriter.write_uint64 vector (PacketBase.getPacketRecipientId b) else vector in
    vector ← BinaryWriter.write_data vector payload payload_len;
    vector ←
      (if PacketBase.hasPacketSignature b
       then write_string8 vector (PacketBase.getPacketSignature b) else Ret vector);
    Ret (BinaryWriter.write_uint8 vector 0)
  end.

End ProtocolWriter.

(** ** The wire format in closed form *)

Definition string8 (s : bytes) : bytes := be_bytes 1 (clamp8 s) ++ take (Z.to_nat 255) s.

Definition wire_header (b : PacketBase.t) (payload_len : Z) : bytes :=
  be_bytes 1 1 ++ be_bytes 1 (PacketBase.packet_type b) ++
  be_bytes 1 (PacketBase.packet_ttl b - 1) ++ be_bytes 8 (PacketBase.packet_timestamp b) ++
  be_bytes 1 (PacketBase.packet_flags b) ++ be_bytes 2 payload_len ++
  be_bytes 8 (PacketBase.packet_sender_id b) ++
  (if PacketBase.hasPacketRecipient b then be_bytes 8 (PacketBase.packet_recipient_id b) else []).

Definition wire_signature (b : PacketBase.t) : bytes :=
  if PacketBase.hasPacketSignature b then string8 (PacketBase.packet_signature b) else [].

Definition wire (b : PacketBase.t) (payload : bytes) : bytes :=
  wire_header b (clamp16 payload) ++ take (Z.to_nat 65535) payload ++ wire_signature b ++ [0].

Lemma clamp8_min {A} (s : list A) : clamp8 s = Z.min 255 (zlen s).
Proof. unfold clamp8. pose proof (zlen_nonneg s). rewrite u8_small by lia. done. Qed.

Lemma clamp16_min {A} (s : list A) : clamp16 s = Z.min 65535 (zlen s).
Proof. unfold clamp16. pose proof (zlen_nonneg s). rewrite u16_small by lia. done. Qed.

Lemma take_clamp {A} (n : Z) (s : list A) :
  take (Z.to_nat (Z.min n (zlen s))) s = take (Z.to_nat n) s.
Proof.
  unfold zlen. destruct (decide (n <= Z.of_nat (length s))).
  - f_equal. lia.
  - rewrite !take_ge by lia. done.
Qed.

Lemma write_string8_spec vector s :
  ProtocolWriter.write_string8 vector s = Ret (vector ++ string8 s).
Proof.
  unfold ProtocolWriter.write_string8, string8. rewrite write_uint8_spec, clamp8_min.
  pose proof (zlen_nonneg s). rewrite write_data_prefix by lia.
  by rewrite (take_clamp 255), <- app_assoc.
Qed.

Lemma write_mentions_spec vector mentions :
  ProtocolWriter.write_mentions vector mentions = Ret (vector ++ concat (string8 <$> mentions)).
Proof.
  revert vector. induction mentions as [|m ms IH]; intros vector; simpl.
  - by rewrite app_nil_r.
  - rewrite write_string8_spec. simpl. by rewrite IH, <- app_assoc.
Qed.

Lemma writePacket_spec peers vector pkt payload :
  ProtocolWriter.write_payload peers pkt = Ret payload ->
  ProtocolWriter.writePacket peers vector (Some pkt) = Ret (vector ++ wire (packet_base pkt) payload).
Proof.
  intros Hp. unfold ProtocolWriter.writePacket. rewrite Hp. cbn [mbind outcome_bind].
  pose proof (zlen_nonneg payload).
  assert (forall v, BinaryWriter.write_data v payload (clamp16 payload) =
                    Ret (v ++ take (Z.to_nat 65535) payload)) as Hd.
  { intros v. rewrite clamp16_min, write_data_prefix by lia. by rewrite (take_clamp 65535). }
  rewrite Hd. cbn [mbind outcome_bind].
  unfold wire, wire_header, wire_signature.
  destruct (PacketBase.hasPacketSignature _), (PacketBase.hasPacketRecipient _);
    rewrite ?write_string8_spec; cbn [mbind outcome_bind];
    autorewrite with repeater; rewrite <- !app_assoc; cbn [app]; done.
Qed.

(** A fault of [writePacket] is a fault of the payload. *)
Lemma writePacket_fault peers vector pkt f :
  ProtocolWriter.write_payload peers pkt = Fault f ->
  ProtocolWriter.writePacket peers vector (Some pkt) = Fault f.
Proof. intros Hp. unfold ProtocolWriter.writePacket. by rewrite Hp. Qed.

(** The size of a packet on the wire. *)
Lemma zlen_wire_header b n :
  zlen (wire_header b n) = 22 + (if PacketBase.hasPacketRecipient b then 8 else 0).
Proof.
  unfold wire_header, zlen. rewrite !length_app, !length_be_bytes.
  destruct (PacketBase.hasPacketRecipient b); rewrite ?length_be_bytes; simpl; lia.
Qed.

(** The payload of a packet that is not a message is its string, unless it is
    longer than a [uint16_t] can say. *)
Lemma write_payload_pass_along peers p :
  zlen (PacketPassAlong.payload p) < 2 ^ 16 ->
  PacketBase.packet_type (PacketPassAlong.base p) <> PacketType_value type_message ->
  ProtocolWriter.write_payload peers (PktPassAlong p) = Ret (PacketPassAlong.payload p).
Proof.
  intros Hl Hty. unfold ProtocolWriter.write_payload, PacketBase.getPacketType. cbn [packet_base].
  destruct (PacketType_of _) as [ty|] eqn:E.
  - assert (ty <> type_message) as Hm.
    { intros ->. apply Hty. unfold PacketType_of in E. apply bind_Some in E as ([i ty] & Hf & [= ->]).
      by apply list_find_Some in Hf as (_ & ? & _). }
    destruct ty; try done; cbn [cast_Announce cast_PacketPassAlong mbind outcome_bind];
      unfold PacketPassAlong.getPayload, Announce.getName; cbn [Announce.name];
      by rewrite write_data_all by done.
  - cbn [cast_PacketPassAlong mbind outcome_bind]. unfold PacketPassAlong.getPayload.
    by rewrite write_data_all by done.
Qed.

(** ** When a payload can be written *)

(** A message that announces its sender's peer id but has no peer. *)
Definition lacks_sender_peer (pkt : packet) : bool :=
  match pkt with
  | PktMessage m => Message.hasSenderPeerID m && bool_decide (Message.sender_peer m = None)
  | _ => false
  end.

Lemma write_data_total vector data :
  exists w, BinaryWriter.write_data vector data (zlen data) = Ret w.
Proof.
  unfold BinaryWriter.write_data. destruct (buf_slice_in_bounds data 0 (u16 (zlen data)))
    as (l & -> & _); [lia|apply u16_range| |by eauto].
  pose proof (zlen_nonneg data). unfold u16. rewrite Z.add_0_l. by apply Z.mod_le.
Qed.

Lemma writeMessagePayload_cases peers m :
  (forall k, Message.sender_peer m = Some k -> is_Some (peers !! k)) ->
  if lacks_sender_peer (PktMessage m)
  then forall vector, ProtocolWriter.writeMessagePayload peers vector m = Fault NullPointer
  else forall vector, is_Ret (ProtocolWriter.writeMessagePayload peers vector m).
Proof.
  intros Hk. cbn [lacks_sender_peer]. unfold ProtocolWriter.writeMessagePayload, Message.getSenderPeer.
  assert (forall v s (c : bool), exists w,
    (if c then ProtocolWriter.write_string8 v s else Ret v) = Ret w) as Hif
    by (intros v s []; rewrite ?write_string8_spec; eauto).
  assert (forall v s, exists w, BinaryWriter.write_data v s (clamp16 s) = Ret w) as Hc.
  { intros v s. rewrite clamp16_min. rewrite write_data_prefix; [eauto| |lia].
    pose proof (zlen_nonneg s). lia. }
  destruct (Message.hasSenderPeerID m && bool_decide (Message.sender_peer m = None)) eqn:E;
    intros vector; rewrite !write_string8_spec; cbn [mbind outcome_bind];
    rewrite !write_string8_spec; cbn [mbind outcome_bind];
    match goal with |- context [BinaryWriter.write_data ?v ?s _] => destruct (Hc v s) as [v1 ->] end;
    cbn [mbind outcome_bind];
    match goal with |- context [if ?c then ProtocolWriter.write_string8 ?v ?s else Ret ?v] =>
      destruct (Hif v s c) as [v2 ->] end; cbn [mbind outcome_bind];
    match goal with |- context [if Message.hasRecipientNickname m
                                then ProtocolWriter.write_string8 ?v ?s else Ret ?v] =>
      destruct (Hif v s (Message.hasRecipientNickname m)) as [v3 ->] end; cbn [mbind outcome_bind].
  - apply andb_true_iff in E as [-> ->%bool_decide_eq_true_1]. done.
  - match goal with |- is_Ret (mbind _ ?b) => assert (exists v4, b = Ret v4) as [v4 ->] end.
    { destruct (Message.hasSenderPeerID m); [|eauto].
      destruct (Message.sender_peer m) as [k|]; [|by cbn in E].
      cbn [deref_peer]. destruct (Hk k eq_refl) as [p ->]. cbn. eauto. }
    cbn [mbind outcome_bind]. destruct (Message.hasMentions m); rewrite ?write_mentions_spec;
      cbn [mbind outcome_bind]; destruct (Message.hasChannel m); rewrite ?write_string8_spec;
      unfold is_Ret; eauto.
Qed.

Lemma PacketType_of_Some z ty : PacketType_of z = Some ty -> PacketType_value ty = z.
Proof.
  unfold PacketType_of. intros E. apply bind_Some in E as ([i ty'] & Hf & [= <-]).
  by apply list_find_Some in Hf as (_ & ? & _).
Qed.

(** [writePacket] faults exactly on such messages, for packets whose class
    matches their type. *)
Lemma writePacket_cases peers pkt :
  match pkt with
  | PktMessage m =>
    PacketBase.packet_type (Message.base m) = PacketType_value type_message /\
    forall k, Message.sender_peer m = Some k -> is_Some (peers !! k)
  | _ => PacketBase.packet_type (packet_base pkt) <> PacketType_value type_message
  end ->
  if lacks_sender_peer pkt
  then ProtocolWriter.writePacket peers [] (Some pkt) = Fault NullPointer
  else exists w, ProtocolWriter.writePacket peers [] (Some pkt) = Ret w.
Proof.
  intros Hpkt.
  assert (if lacks_sender_peer pkt then ProtocolWriter.write_payload peers pkt = Fault NullPointer
          else exists w, ProtocolWriter.write_payload peers pkt = Ret w) as H.
  { unfold ProtocolWriter.write_payload, PacketBase.getPacketType. destruct pkt as [a|m|p].
    2: { destruct Hpkt as [Hty Hk]. cbn [packet_base]. rewrite Hty.
         change (PacketType_of (PacketType_value type_message)) with (Some type_message).
         cbn [cast_Message mbind outcome_bind]. pose proof (writeMessagePayload_cases peers m Hk) as C.
         destruct (lacks_sender_peer _); [apply C|destruct (C []); eauto]. }
    all: cbn [lacks_sender_peer]; destruct (PacketType_of _) as [ty|] eqn:E;
      [apply PacketType_of_Some in E; destruct ty; try (exfalso; apply Hpkt; exact (eq_sym E)) |];
      cbn [cast_Announce cast_PacketPassAlong mbind outcome_bind]; apply write_data_total. }
  destruct (lacks_sender_peer pkt).
  - by apply writePacket_fault.
  - destruct H as [w Hw]. rewrite (writePacket_spec _ _ _ _ Hw). eauto.
Qed.
