(* ===== verification/BleConnection.v ===== *)
(** * One Bluetooth connection

    [BleConnection] (BLE/BleConnection.h, .cpp): the record kept for a
    neighbour, found by a scan or connected.  The listener structure that
    BTstack owns while notifications are enabled is not part of the record;
    the calls that register and release it are actions of the tracker. *)

From stdpp Require Import base numbers list.
From Stdlib Require Import ZArith Lia.
From S2P Require Import Prelude.

Definition bitchat_service_uuid : bytes :=
  [0xF4; 0x7B; 0x5E; 0x2D; 0x4A; 0x9E; 0x4C; 0x5A; 0x9B; 0x3F; 0x8E; 0x1D; 0x2C; 0x3A; 0x4B; 0x5C].

Definition bitchat_service_uuid_reversed : bytes :=
  [0x5C; 0x4B; 0x3A; 0x2C; 0x1D; 0x8E; 0x3F; 0x9B; 0x5A; 0x4C; 0x9E; 0x4A; 0x2D; 0x5E; 0x7B; 0xF4].

(** ["Repeater"] *)
Definition bitchat_service_name : bytes := [82; 101; 112; 101; 97; 116; 101; 114].

Definition bitchat_characteristic_uuid : bytes :=
  [0xA1; 0xB2; 0xC3; 0xD4; 0xE5; 0xF6; 0x4A; 0x5B; 0x8C; 0x9D; 0x0E; 0x1F; 0x2A; 0x3B; 0x4C; 0x5D].

Inductive service_uuid_check_status : Type :=
  | ServiceUUIDNotFound
  | ServiceUUIDFound
  | ServiceUUIDAndNameFound.

#[export] Instance service_uuid_check_status_eq_dec : EqDecision service_uuid_check_status.
Proof. solve_decision. Defined.

Definition service_uuid_check_status_value (s : service_uuid_check_status) : Z :=
  match s with
  | ServiceUUIDNotFound => 0
  | ServiceUUIDFound => 1
  | ServiceUUIDAndNameFound => 3
  end.

(** BTstack's roles and address types. *)
Definition HCI_ROLE_MASTER : Z := 0.
Definition HCI_ROLE_SLAVE : Z := 1.
Definition HCI_ROLE_INVALID : Z := 0xff.
Definition BD_ADDR_TYPE_LE_RANDOM : Z := 1.
Definition BD_ADDR_TYPE_UNKNOWN : Z := 0xfe.
Definition BD_ADDR_LEN : Z := 6.

(** BTstack's service and characteristic descriptors. *)
Record gatt_client_service_t : Type := mkService {
  service_start_group_handle : Z;
  service_end_group_handle : Z;
  service_uuid16 : Z;
  service_uuid128 : bytes }.

Record gatt_client_characteristic_t : Type := mkCharacteristic {
  characteristic_start_handle : Z;
  characteristic_value_handle : Z;
  characteristic_end_handle : Z;
  characteristic_properties : Z;
  characteristic_uuid16 : Z;
  characteristic_uuid128 : bytes }.

Module BleConnection.

Record t : Type := mk {
  connection_handle : Z;
  bt_address : bytes;
  bt_address_type : Z;
  bt_mtu : Z;
  bitchat_service_start_group_handle : Z;
  bitchat_service_end_group_handle : Z;
  bitchat_characteristic_value_handle : Z;
  notification_enabled : bool;
  has_data_to_send : bool;
  connected : bool;
  services_found : service_uuid_check_status;
  rssi : Z;
  role : Z;
  last_seen_time : Z }.

(** The default member initialisers. *)
Definition make : t :=
  mk 0 [0; 0; 0; 0; 0; 0] BD_ADDR_TYPE_UNKNOWN 0 0 0 0 false false false
     ServiceUUIDFound 0 HCI_ROLE_INVALID 0.

Definition setConnectionHandle (c : t) (hci_con_handle : Z) : t :=
  mk hci_con_handle (bt_address c) (bt_address_type c) (bt_mtu c)
     (bitchat_service_start_group_handle c) (bitchat_service_end_group_handle c)
     (bitchat_characteristic_value_handle c) (notification_enabled c) (has_data_to_send c)
     (connected c) (services_found c) (rssi c) (role c) (last_seen_time c).

Definition setNotificationEnabled (c : t) (cond : bool) : t :=
  mk (connection_handle c) (bt_address c) (bt_address_type c) (bt_mtu c)
     (bitchat_service_start_group_handle c) (bitchat_service_end_group_handle c)
     (bitchat_characteristic_value_handle c) cond (has_data_to_send c)
     (connected c) (services_found c) (rssi c) (role c) (last_seen_time c).

Definition getNotificationEnabled (c : t) : bool := notification_enabled c.

Definition setBitchatCharacteristicValueHandle (c : t) (handle : Z) : t :=
  mk (connection_handle c) (bt_address c) (bt_address_type c) (bt_mtu c)
     (bitchat_service_start_group_handle c) (bitchat_service_end_group_handle c)
     (u16 handle) (notification_enabled c) (has_data_to_send c)
     (connected c) (services_found c) (rssi c) (role c) (last_seen_time c).

Definition setConnected (c : t) (cond : bool) : t :=
  mk (connection_handle c) (bt_address c) (bt_address_type c) (bt_mtu c)
     (bitchat_service_start_group_handle c) (bitchat_service_end_group_handle c)
     (bitchat_characteristic_value_handle c) (notification_enabled c) (has_data_to_send c)
     cond (services_found c) (rssi c) (role c) (last_seen_time c).

Definition setBleAddress (c : t) (addr : bytes) (addr_type : Z) : t :=
  mk (connection_handle c) (take (Z.to_nat BD_ADDR_LEN) addr) addr_type (bt_mtu c)
     (bitchat_service_start_group_handle c) (bitchat_service_end_group_handle c)
     (bitchat_characteristic_value_handle c) (notification_enabled c) (has_data_to_send c)
     (connected c) (services_found c) (rssi c) (role c) (last_seen_time c).

Definition getConnectionHandle (c : t) : Z := connection_handle c.

Definition hasData (c : t) : bool := has_data_to_send c.

Definition getBitchatCharacteristicValueHandle (c : t) : Z :=
  bitchat_characteristic_value_handle c.

Definition setHasData (c : t) (data : bool) : t :=
  mk (connection_handle c) (bt_address c) (bt_address_type c) (bt_mtu c)
     (bitchat_service_start_group_handle c) (bitchat_service_end_group_handle c)
     (bitchat_characteristic_value_handle c) (notification_enabled c) data
     (connected c) (services_found c) (rssi c) (role c) (last_seen_time c).

Definition setServices (c : t) (services : service_uuid_check_status) : t :=
  mk (connection_handle c) (bt_address c) (bt_address_type c) (bt_mtu c)
     (bitchat_service_start_group_handle c) (bitchat_service_end_group_handle c)
     (bitchat_characteristic_value_handle c) (notification_enabled c) (has_data_to_send c)
     (connected c) services (rssi c) (role c) (last_seen_time c).

Definition setRssi (c : t) (scan_rssi : Z) : t :=
  mk (connection_handle c) (bt_address c) (bt_address_type c) (bt_mtu c)
     (bitchat_service_start_group_handle c) (bitchat_service_end_group_handle c)
     (bitchat_characteristic_value_handle c) (notification_enabled c) (has_data_to_send c)
     (connected c) (services_found c) scan_rssi (role c) (last_seen_time c).

Definition setTimestamp (c : t) (value : Z) : t :=
  mk (connection_handle c) (bt_address c) (bt_address_type c) (bt_mtu c)
     (bitchat_service_start_group_handle c) (bitchat_service_end_group_handle c)
     (bitchat_characteristic_value_handle c) (notification_enabled c) (has_data_to_send c)
     (connected c) (services_found c) (rssi c) (role c) value.

Definition getAddress (c : t) : bytes := bt_address c.

Definition getAddressType (c : t) : Z := bt_address_type c.

Definition isConnected (c : t) : bool := connected c.

Definition setMtu (c : t) (mtu : Z) : t :=
  mk (connection_handle c) (bt_address c) (bt_address_type c) mtu
     (bitchat_service_start_group_handle c) (bitchat_service_end_group_handle c)
     (bitchat_characteristic_value_handle c) (notification_enabled c) (has_data_to_send c)
     (connected c) (services_found c) (rssi c) (role c) (last_seen_time c).

Definition storeHandlesIfServiceMatches (c : t) (service : gatt_client_service_t) : t :=
  if decide (service_uuid128 service = bitchat_service_uuid) then
    mk (connection_handle c) (bt_address c) (bt_address_type c) (bt_mtu c)
       (service_start_group_handle service) (service_end_group_handle service)
       (bitchat_characteristic_value_handle c) (notification_enabled c) (has_data_to_send c)
       (connected c) (services_found c) (rssi c) (role c) (last_seen_time c)
  else c.

Definition storeHandlesIfCharacteristicMatches (c : t)
    (characteristic : gatt_client_characteristic_t) : t :=
  if decide (characteristic_uuid128 characteristic = bitchat_characteristic_uuid) then
    mk (connection_handle c) (bt_address c) (bt_address_type c) (bt_mtu c)
       (bitchat_service_start_group_handle c) (bitchat_service_end_group_handle c)
       (characteristic_value_handle characteristic) (notification_enabled c)
       (has_data_to_send c) (connected c) (services_found c) (rssi c) (role c)
       (last_seen_time c)
  else c.

Definition isRepeater (c : t) : bool :=
  bool_decide (services_found c = ServiceUUIDAndNameFound).

Definition isRandom (c : t) : bool := bt_address_type c =? BD_ADDR_TYPE_LE_RANDOM.

Definition getTimestamp (c : t) : Z := last_seen_time c.

Definition getTimestampMs (c : t) : Z := last_seen_time c / 1000.

Definition getMtu (c : t) : Z := bt_mtu c.

Definition setRole (c : t) (the_role : Z) : t :=
  mk (connection_handle c) (bt_address c) (bt_address_type c) (bt_mtu c)
     (bitchat_service_start_group_handle c) (bitchat_service_end_group_handle c)
     (bitchat_characteristic_value_handle c) (notification_enabled c) (has_data_to_send c)
     (connected c) (services_found c) (rssi c) the_role (last_seen_time c).

Definition getRole (c : t) : Z := role c.

(** [false], or [true] with the service descriptor it fills in. *)
Definition canAndNeedToDiscoverBitchatCharacteristicsQuery (c : t)
    : option gatt_client_service_t :=
  if (bitchat_service_start_group_handle c >? 0) &&
     (bitchat_characteristic_value_handle c =? 0)
  then Some (mkService (bitchat_service_start_group_handle c)
               (bitchat_service_end_group_handle c) 0 bitchat_service_uuid)
  else None.

End BleConnection.
