(* ===== verification/Tracker.v ===== *)
(** * The connection tracker

    [BleConnectionTracker] (BLE/BleConnectionTracker.h, .cpp) owns every
    store of the repeater: peers, messages and pass-along packets seen,
    connections, neighbours found by scanning, and the queues of packets to
    send.  The queues hold pointers into the stores, so a node of a store
    carries its address and a pointer is an address: a pointer that no live
    node has is dangling, and dereferencing it is a [Fault].  The calls into
    BTstack are recorded, newest last, in [actions]. *)

From stdpp Require Import base numbers list gmap sorting.
From Stdlib Require Import ZArith Lia.
From S2P Require Import Prelude Platform Containers BinaryIO Packets ProtocolWriter BleConnection.

Definition build_time_ms : Z := 1755685519.
Definition two_seconds_in_us : Z := 1000 * 1000 * 2.
Definition two_minutes_in_us : Z := 1000 * 1000 * 60 * 5.
Definition five_minutes_in_us : Z := 1000 * 1000 * 60 * 5.
Definition ten_minutes_in_us : Z := 1000 * 1000 * 60 * 10.
Definition ten_minutes_in_ms : Z := 1000 * 60 * 10.
Definition MESSAGE_TIMEOUT : Z := 300000.
Definition ERROR_CODE_UNKNOWN_CONNECTION_IDENTIFIER : Z := 0x02.

(** A node of a [std::map] (or a member object) and its address. *)
Record node (A : Type) : Type := mkNode { node_addr : Z; node_val : A }.
Arguments mkNode {A} node_addr node_val.
Arguments node_addr {A} n.
Arguments node_val {A} n.

Definition node_map {A} (f : A -> A) (n : node A) : node A := mkNode (node_addr n) (f (node_val n)).

(** The calls into BTstack that the tracker makes. *)
Inductive action : Type :=
  | RequestToSendNotification (con_handle : Z)
  | RequestToWriteWithoutResponse (con_handle : Z)
  | ServerNotify (con_handle value_handle : Z) (data : bytes)
  | WriteWithoutResponse (con_handle value_handle : Z) (data : bytes)
  | ListenForValueUpdates (con_handle value_handle : Z)
  | StopListeningForValueUpdates (con_handle : Z)
  | ReadRssi (con_handle : Z).

Module Tracker.

(** The members of the class.  [Peer *] is the key of a node of [peers], which
    never erases.  [rssi_iterator] is the function-local static iterator of
    [requestNextRssi]: unset, at the end, or at the node of a key. *)
Record t : Type := mk {
  peers : gmap Z Peer.t;
  messages : gmap bytes (node Message.t);
  packets : gmap Z (node PacketPassAlong.t);
  announce : node Announce.t;
  connections : gmap Z (node BleConnection.t);
  available_neighbours : gmap bytes BleConnection.t;
  raw_packet_to_notify : list (Z * bytes);
  raw_packet_to_write : list (Z * bytes);
  timestamp_offset_ms : Z;
  handle_peer_map : gmap Z Z;
  packets_connections_sent_list : list (Z * Z);
  packets_peers_sent_list : list (Z * Z);
  broadcast_packets_to_send_list : list Z;
  targeted_packets_to_send_list : list (Z * Z);
  rssi_iterator : option (option (Z * Z));
  actions : list action }.

Definition set_peers (s : t) (x : gmap Z Peer.t) : t :=
  mk x (messages s) (packets s) (announce s) (connections s) (available_neighbours s)
     (raw_packet_to_notify s) (raw_packet_to_write s) (timestamp_offset_ms s)
     (handle_peer_map s) (packets_connections_sent_list s) (packets_peers_sent_list s)
     (broadcast_packets_to_send_list s) (targeted_packets_to_send_list s) (rssi_iterator s)
     (actions s).

Definition set_messages (s : t) (x : gmap bytes (node Message.t)) : t :=
  mk (peers s) x (packets s) (announce s) (connections s) (available_neighbours s)
     (raw_packet_to_notify s) (raw_packet_to_write s) (timestamp_offset_ms s)
     (handle_peer_map s) (packets_connections_sent_list s) (packets_peers_sent_list s)
     (broadcast_packets_to_send_list s) (targeted_packets_to_send_list s) (rssi_iterator s)
     (actions s).

Definition set_packets (s : t) (x : gmap Z (node PacketPassAlong.t)) : t :=
  mk (peers s) (messages s) x (announce s) (connections s) (available_neighbours s)
     (raw_packet_to_notify s) (raw_packet_to_write s) (timestamp_offset_ms s)
     (handle_peer_map s) (packets_connections_sent_list s) (packets_peers_sent_list s)
     (broadcast_packets_to_send_list s) (targeted_packets_to_send_list s) (rssi_iterator s)
     (actions s).

Definition set_announce (s : t) (x : node Announce.t) : t :=
  mk (peers s) (messages s) (packets s) x (connections s) (available_neighbours s)
     (raw_packet_to_notify s) (raw_packet_to_write s) (timestamp_offset_ms s)
     (handle_peer_map s) (packets_connections_sent_list s) (packets_peers_sent_list s)
     (broadcast_packets_to_send_list s) (targeted_packets_to_send_list s) (rssi_iterator s)
     (actions s).

Definition set_connections (s : t) (x : gmap Z (node BleConnection.t)) : t :=
  mk (peers s) (messages s) (packets s) (announce s) x (available_neighbours s)
     (raw_packet_to_notify s) (raw_packet_to_write s) (timestamp_offset_ms s)
     (handle_peer_map s) (packets_connections_sent_list s) (packets_peers_sent_list s)
     (broadcast_packets_to_send_list s) (targeted_packets_to_send_list s) (rssi_iterator s)
     (actions s).

Definition set_available_neighbours (s : t) (x : gmap bytes BleConnection.t) : t :=
  mk (peers s) (messages s) (packets s) (announce s) (connections s) x (raw_packet_to_notify s)
     (raw_packet_to_write s) (timestamp_offset_ms s) (handle_peer_map s)
     (packets_connections_sent_list s) (packets_peers_sent_list s)
     (broadcast_packets_to_send_list s) (targeted_packets_to_send_list s) (rssi_iterator s)
     (actions s).

Definition set_raw_packet_to_notify (s : t) (x : list (Z * bytes)) : t :=
  mk (peers s) (messages s) (packets s) (announce s) (connections s) (available_neighbours s) x
     (raw_packet_to_write s) (timestamp_offset_ms s) (handle_peer_map s)
     (packets_connections_sent_list s) (packets_peers_sent_list s)
     (broadcast_packets_to_send_list s) (targeted_packets_to_send_list s) (rssi_iterator s)
     (actions s).

Definition set_raw_packet_to_write (s : t) (x : list (Z * bytes)) : t :=
  mk (peers s) (messages s) (packets s) (announce s) (connections s) (available_neighbours s)
     (raw_packet_to_notify s) x (timestamp_offset_ms s) (handle_peer_map s)
     (packets_connections_sent_list s) (packets_peers_sent_list s)
     (broadcast_packets_to_send_list s) (targeted_packets_to_send_list s) (rssi_iterator s)
     (actions s).

Definition set_timestamp_offset_ms (s : t) (x : Z) : t :=
  mk (peers s) (messages s) (packets s) (announce s) (connections s) (available_neighbours s)
     (raw_packet_to_notify s) (raw_packet_to_write s) x (handle_peer_map s)
     (packets_connections_sent_list s) (packets_peers_sent_list s)
     (broadcast_packets_to_send_list s) (targeted_packets_to_send_list s) (rssi_iterator s)
     (actions s).

Definition set_handle_peer_map (s : t) (x : gmap Z Z) : t :=
  mk (peers s) (messages s) (packets s) (announce s) (connections s) (available_neighbours s)
     (raw_packet_to_notify s) (raw_packet_to_write s) (timestamp_offset_ms s) x
     (packets_connections_sent_list s) (packets_peers_sent_list s)
     (broadcast_packets_to_send_list s) (targeted_packets_to_send_list s) (rssi_iterator s)
     (actions s).

Definition set_packets_connections_sent_list (s : t) (x : list (Z * Z)) : t :=
  mk (peers s) (messages s) (packets s) (announce s) (connections s) (available_neighbours s)
     (raw_packet_to_notify s) (raw_packet_to_write s) (timestamp_offset_ms s)
     (handle_peer_map s) x (packets_peers_sent_list s) (broadcast_packets_to_send_list s)
     (targeted_packets_to_send_list s) (rssi_iterator s) (actions s).

Definition set_packets_peers_sent_list (s : t) (x : list (Z * Z)) : t :=
  mk (peers s) (messages s) (packets s) (announce s) (connections s) (available_neighbours s)
     (raw_packet_to_notify s) (raw_packet_to_write s) (timestamp_offset_ms s)
     (handle_peer_map s) (packets_connections_sent_list s) x (broadcast_packets_to_send_list s)
     (targeted_packets_to_send_list s) (rssi_iterator s) (actions s).

Definition set_broadcast_packets_to_send_list (s : t) (x : list Z) : t :=
  mk (peers s) (messages s) (packets s) (announce s) (connections s) (available_neighbours s)
     (raw_packet_to_notify s) (raw_packet_to_write s) (timestamp_offset_ms s)
     (handle_peer_map s) (packets_connections_sent_list s) (packets_peers_sent_list s) x
     (targeted_packets_to_send_list s) (rssi_iterator s) (actions s).

Definition set_targeted_packets_to_send_list (s : t) (x : list (Z * Z)) : t :=
  mk (peers s) (messages s) (packets s) (announce s) (connections s) (available_neighbours s)
     (raw_packet_to_notify s) (raw_packet_to_write s) (timestamp_offset_ms s)
     (handle_peer_map s) (packets_connections_sent_list s) (packets_peers_sent_list s)
     (broadcast_packets_to_send_list s) x (rssi_iterator s) (actions s).

Definition set_rssi_iterator (s : t) (x : option (option (Z * Z))) : t :=
  mk (peers s) (messages s) (packets s) (announce s) (connections s) (available_neighbours s)
     (raw_packet_to_notify s) (raw_packet_to_write s) (timestamp_offset_ms s)
     (handle_peer_map s) (packets_connections_sent_list s) (packets_peers_sent_list s)
     (broadcast_packets_to_send_list s) (targeted_packets_to_send_list s) x (actions s).

Definition set_actions (s : t) (x : list action) : t :=
  mk (peers s) (messages s) (packets s) (announce s) (connections s) (available_neighbours s)
     (raw_packet_to_notify s) (raw_packet_to_write s) (timestamp_offset_ms s)
     (handle_peer_map s) (packets_connections_sent_list s) (packets_peers_sent_list s)
     (broadcast_packets_to_send_list s) (targeted_packets_to_send_list s) (rssi_iterator s) x.

Definition make (announce_addr : Z) : t :=
  mk ∅ ∅ ∅ (mkNode announce_addr Announce.make) ∅ ∅ [] [] 0 ∅ [] [] [] [] None [].

Definition emit (s : t) (a : action) : t := set_actions s (actions s ++ [a]).

(** ** Addresses and pointers *)

Definition map_addrs {K A} `{Countable K} (m : gmap K (node A)) : gset Z :=
  list_to_set ((fun kv => node_addr kv.2) <$> map_to_list m).

(** Addresses of the live packet objects, and of the live connections. *)
Definition packet_addrs (s : t) : gset Z :=
  {[node_addr (announce s)]} ∪ map_addrs (messages s) ∪ map_addrs (packets s).

Definition live (s : t) : gset Z := packet_addrs s ∪ map_addrs (connections s).

(** The key and value of the node at an address. *)
Definition node_at {K A} `{Countable K} (m : gmap K (node A)) (a : Z) : option (K * A) :=
  match list_find (fun kv => node_addr kv.2 = a) (map_to_list m) with
  | Some (_, (k, n)) => Some (k, node_val n)
  | None => None
  end.

Definition packet_at (s : t) (a : Z) : option packet :=
  if decide (node_addr (announce s) = a) then Some (PktAnnounce (node_val (announce s)))
  else match node_at (messages s) a with
       | Some (_, m) => Some (PktMessage m)
       | None => match node_at (packets s) a with
                 | Some (_, p) => Some (PktPassAlong p)
                 | None => None
                 end
       end.

(** [*p] of a [const PacketBase *]. *)
Definition deref_packet (s : t) (a : Z) : outcome packet :=
  match packet_at s a with Some p => Ret p | None => Fault (DanglingPacket a) end.

(** [*c] of a [BleConnection *]: the key of its node and the object. *)
Definition deref_connection (s : t) (c : Z) : outcome (Z * BleConnection.t) :=
  match node_at (connections s) c with Some kc => Ret kc | None => Fault (DanglingConnection c) end.

(** [connections[h]]: the entry is created when there is none. *)
Definition connections_subscript (P : Platform) (s : t) (h : Z) : t * node BleConnection.t :=
  match connections s !! h with
  | Some n => (s, n)
  | None =>
    let n := mkNode (new_node P (live s)) BleConnection.make in
    (set_connections s (<[h := n]> (connections s)), n)
  end.

(** A member call through the reference [connections[h]]. *)
Definition update_connection (s : t) (h : Z) (f : BleConnection.t -> BleConnection.t) : t :=
  set_connections s (alter (node_map f) h (connections s)).

(** ** Lookup operations *)

(** The reference returned is [connections[connection_handle]]; its address is
    returned with it. *)
Definition connectionForConnHandle (P : Platform) (s : t) (connection_handle : Z) : t * Z :=
  match connections s !! connection_handle with
  | Some n => (s, node_addr n)
  | None =>
    let '(s, n) := connections_subscript P s connection_handle in
    (update_connection s connection_handle
       (fun c => BleConnection.setConnectionHandle c connection_handle), node_addr n)
  end.

(** [nullptr], or a pointer to the stored message. *)
Definition storeMessageAndReturnIfNew (P : Platform) (s : t) (message : Message.t)
    : t * option Z :=
  let id := Message.getMessageId message in
  match messages s !! id with
  | Some _ => (s, None)
  | None =>
    let a := new_node P (live s) in
    (set_messages s (<[id := mkNode a message]> (messages s)), Some a)
  end.

Definition storePacketAndReturnIfNew (P : Platform) (s : t) (pass_along : PacketPassAlong.t)
    : t * option Z :=
  let id := PacketPassAlong.getPacketHash P pass_along in
  match packets s !! id with
  | Some _ => (s, None)
  | None =>
    let a := new_node P (live s) in
    (set_packets s (<[id := mkNode a pass_along]> (packets s)), Some a)
  end.

Definition messageWithId (s : t) (id : bytes) : option Message.t :=
  node_val <$> messages s !! id.

Definition peerWithId (s : t) (id : Z) : option Peer.t := peers s !! id.

(** The reference returned is [peers[sender]]. *)
Definition checkSenderInPeers (s : t) (sender : Z) : t :=
  match peers s !! sender with
  | Some _ => s
  | None => set_peers s (<[sender := Peer.setId Peer.make sender]> (peers s))
  end.

(** A member call through a reference to [peers[k]]. *)
Definition update_peer (s : t) (k : Z) (f : Peer.t -> Peer.t) : t :=
  set_peers s (alter f k (peers s)).

(** ** Queueing *)

Definition enqueueTargetedPacket (P : Platform) (s : t) (packet : Z)
    (to_connection : BleConnection.t) : outcome t :=
  pkt ← deref_packet s packet;
  if PacketBase.getPacketTtl (packet_base pkt) >? 0 then
    let '(s, con) := connectionForConnHandle P s (BleConnection.getConnectionHandle to_connection) in
    Ret (set_targeted_packets_to_send_list s
           (mm_emplace packet con (targeted_packets_to_send_list s)))
  else Ret s.

(** [enqueueBroadcastPacket(packet)] *)
Definition enqueueBroadcastPacket (s : t) (packet : Z) : outcome t :=
  pkt ← deref_packet s packet;
  if PacketBase.getPacketTtl (packet_base pkt) >? 0
  then Ret (set_broadcast_packets_to_send_list s (broadcast_packets_to_send_list s ++ [packet]))
  else Ret s.

(** [enqueueBroadcastPacket(packet, from_connection, from_peer)] *)
Definition enqueueBroadcastPacketFrom (s : t) (packet from_connection from_peer : Z) : outcome t :=
  let s := set_packets_connections_sent_list s
             (mm_emplace packet from_connection (packets_connections_sent_list s)) in
  let s := set_packets_peers_sent_list s
             (mm_emplace packet from_peer (packets_peers_sent_list s)) in
  enqueueBroadcastPacket s packet.

(** ** Connections and neighbours *)

Definition addAvailablePeer (P : Platform) (s : t) (bt_address : bytes) (bt_address_type : Z)
    (services : service_uuid_check_status) (rssi : Z) : t :=
  let address := take (Z.to_nat BD_ADDR_LEN) bt_address in
  let c := default BleConnection.make (available_neighbours s !! address) in
  let c := BleConnection.setBleAddress c bt_address bt_address_type in
  let c := BleConnection.setServices c services in
  let c := BleConnection.setRssi c rssi in
  let c := BleConnection.setTimestamp c (time_us_64 P 0) in
  set_available_neighbours s (<[address := c]> (available_neighbours s)).

Definition reportConnection (P : Platform) (s : t) (handle : Z) (addr : bytes)
    (address_type : Z) : t :=
  let address := take (Z.to_nat BD_ADDR_LEN) addr in
  let s :=
    match available_neighbours s !! address with
    | Some item =>
      let s := (connections_subscript P s handle).1 in
      let s := update_connection s handle (fun _ => item) in
      set_available_neighbours s (delete address (available_neighbours s))
    | None => s
    end in
  let s := (connections_subscript P s handle).1 in
  let s := update_connection s handle (fun c => BleConnection.setConnectionHandle c handle) in
  let s := update_connection s handle (fun c => BleConnection.setConnected c true) in
  let s := update_connection s handle (fun c => BleConnection.setBleAddress c addr address_type) in
  let s := update_connection s handle (fun c => BleConnection.setTimestamp c (time_us_64 P 0)) in
  set_available_neighbours s (delete address (available_neighbours s)).

(** The overload with a role. *)
Definition reportConnectionRole (P : Platform) (s : t) (handle : Z) (addr : bytes)
    (address_type role : Z) : t :=
  let s := reportConnection P s handle addr address_type in
  let '(s, n) := connections_subscript P s handle in
  let s := update_connection s handle (fun c => BleConnection.setRole c role) in
  if role =? HCI_ROLE_MASTER
  then emit s (ListenForValueUpdates handle
                 (BleConnection.getBitchatCharacteristicValueHandle (node_val n)))
  else s.

(** The predicate given to [std::erase_if] captures [removed_connection] by
    value: the address it compares with is the address of the captured copy. *)
Definition announced_to_connection (s : t) (captured_copy : Z) (item : Z * Z) : bool :=
  let '(packet, connection) := item in
  (packet =? node_addr (announce s)) && (connection =? captured_copy).

Definition reportDisconnection (P : Platform) (s : t) (handle : Z) : t :=
  let s := (connections_subscript P s handle).1 in
  let s := update_connection s handle (fun c => BleConnection.setNotificationEnabled c false) in
  let s := update_connection s handle (fun c => BleConnection.setConnected c false) in
  let '(s, removed_connection) := connections_subscript P s handle in
  let s :=
    if BleConnection.getRole (node_val removed_connection) =? HCI_ROLE_MASTER
    then emit s (StopListeningForValueUpdates handle) else s in
  let captured_copy := new_node P (live s) in
  let s := set_handle_peer_map s (delete handle (handle_peer_map s)) in
  set_packets_connections_sent_list s
    (mm_erase_if (announced_to_connection s captured_copy) (packets_connections_sent_list s)).

(** The neighbours in the order the map is iterated. *)
Definition getConnectableNeighbours (s : t) : list BleConnection.t :=
  filter (fun connection =>
      ((timestamp_offset_ms s >=? build_time_ms) || BleConnection.isRepeater connection) &&
      Bool.eqb (BleConnection.isConnected connection) false &&
      negb (BleConnection.isRandom connection) = true)
    (map_sorted (available_neighbours s)).*2.

Definition setConnectionStarted (s : t) (neighbour : BleConnection.t) : t :=
  let address := take (Z.to_nat BD_ADDR_LEN) (BleConnection.getAddress neighbour) in
  set_available_neighbours s (delete address (available_neighbours s)).

Definition setConnectionHandleForPeer (s : t) (con_handle peer : Z) : t :=
  set_handle_peer_map s (<[con_handle := peer]> (handle_peer_map s)).

Definition peerWithConnectionHandle (s : t) (con_handle : Z) : option Z :=
  handle_peer_map s !! con_handle.

Definition getConnectionForAddress (s : t) (address : bytes) : option BleConnection.t :=
  head (filter (fun connection =>
      BleConnection.isConnected connection &&
      bool_decide (BleConnection.getAddress connection = address) = true)
    (node_val <$> (map_sorted (connections s)).*2)).

Definition getConnectionsCount (s : t) : Z :=
  Z.of_nat (size (connections s)) + Z.of_nat (size (available_neighbours s)).

Definition getTargetedPacketsToSendSize (s : t) : Z := zlen (targeted_packets_to_send_list s).

(** The stored pass-along packet with the smallest hash. *)
Definition getAnyPacket (s : t) : option PacketPassAlong.t :=
  match map_sorted (packets s) with [] => None | (_, n) :: _ => Some (node_val n) end.

(** ** Time *)

(** The k-th read of the clock in the operation. *)
Definition getTimeMs_at (P : Platform) (s : t) (k : nat) : Z :=
  timestamp_offset_ms s +u64 (time_us_64 P k / 1000).

Definition getTimeMs (P : Platform) (s : t) : Z := getTimeMs_at P s 0.

Definition possiblyUpdateTimeOffset (P : Platform) (s : t) (timestamp_ms : Z) : outcome t :=
  let our_now := getTimeMs P s in
  let diff := i64 timestamp_ms - i64 our_now in
  if decide (- 2 ^ 63 < diff < 2 ^ 63) then
    let diff_abs := Z.abs diff in
    if (diff_abs >? MESSAGE_TIMEOUT) || (timestamp_ms >? our_now)
    then Ret (set_timestamp_offset_ms s (timestamp_offset_ms s +u64 diff))
    else Ret s
  else Fault SignedOverflow.

(** ** Announcing *)

(** [memcpy] of six address bytes into the low end of a little-endian
    [uint64_t]. *)
Definition sender_of_address (local_addr : bytes) : Z :=
  foldr (fun b acc => b + 256 * acc) 0 (take (Z.to_nat BD_ADDR_LEN) local_addr).

Definition repeater_name (local_addr : bytes) : outcome bytes :=
  buffer ← BinaryWriter.write_data [] bitchat_service_name (zlen bitchat_service_name);
  b4 ← buf_get local_addr (BD_ADDR_LEN - 2);
  b5 ← buf_get local_addr (BD_ADDR_LEN - 1);
  let buffer := BinaryWriter.write_uint8_hex16 buffer b4 in
  Ret (BinaryWriter.write_uint8_hex16 buffer b5).

Definition setupAnnounceIfNeeded (P : Platform) (s : t) : outcome t :=
  let a := node_val (announce s) in
  if PacketBase.getPacketTtl (Announce.base a) =? 3 then Ret s
  else
    let local_addr := gap_local_bd_addr P in
    let sender := sender_of_address local_addr in
    let a := Announce.on_base (fun b => PacketBase.setPacketTtl b 3) a in
    let a := Announce.on_base (fun b => PacketBase.setPacketFlags b 0) a in
    let a := Announce.on_base (fun b => PacketBase.setPacketSenderId b sender) a in
    name ← repeater_name local_addr;
    let a := Announce.setName a name in
    Ret (set_announce s (mkNode (node_addr (announce s)) a)).

(** [std::ranges::find_if(begin, end, matches_connection) == end]: the
    pointers are followed up to the first match. *)
Fixpoint no_match (s : t) (con_handle : Z) (sent : list (Z * Z)) : outcome bool :=
  match sent with
  | [] => Ret true
  | (_, c) :: sent' =>
    '(_, connection) ← deref_connection s c;
    if BleConnection.getConnectionHandle connection =? con_handle then Ret false
    else no_match s con_handle sent'
  end.

Definition announce_available (s : t) (connection : BleConnection.t) : bool :=
  BleConnection.isConnected connection &&
  (BleConnection.getBitchatCharacteristicValueHandle connection >? 0) &&
  (timestamp_offset_ms s >=? build_time_ms).

(** The loop over the available connections that are not announced to; [k]
    counts the clock reads.  An entry that [enqueueTargetedPacket] creates is
    not connected, so the loop goes through the keys the map had at its start. *)
Fixpoint announce_loop (P : Platform) (s : t) (handles : list Z) (k : nat) : outcome t :=
  match handles with
  | [] => Ret s
  | h :: handles' =>
    match connections s !! h with
    | None => announce_loop P s handles' k
    | Some n =>
      let connection := node_val n in
      if announce_available s connection then
        let announced_to :=
          mm_equal_range (node_addr (announce s)) (packets_connections_sent_list s) in
        not_announced_to ← no_match s (BleConnection.getConnectionHandle connection) announced_to;
        if not_announced_to : bool then
          let a := Announce.on_base
            (fun b => PacketBase.setPacketTimestamp b (getTimeMs_at P s k)) (node_val (announce s)) in
          let s := set_announce s (mkNode (node_addr (announce s)) a) in
          s ← enqueueTargetedPacket P s (node_addr (announce s)) connection;
          announce_loop P s handles' (S k)
        else announce_loop P s handles' k
      else announce_loop P s handles' k
    end
  end.

Definition announceToConnections (P : Platform) (s : t) : outcome t :=
  s ← setupAnnounceIfNeeded P s;
  announce_loop P s (map_sorted (connections s)).*1 0.

(** ** Sending *)

(** [key] is the key of the node that [ble_connection] refers to. *)
Definition SendPacketToConnection (P : Platform) (s : t) (pkt : packet) (key : Z)
    : outcome (t * bool) :=
  packet_data ← ProtocolWriter.writePacket (peers s) [] (Some pkt);
  match connections s !! key with
  | None => Fault (DanglingConnection key)
  | Some n =>
    let ble_connection := node_val n in
    _ ← c_assert (asserts_enabled P) (negb (zlen packet_data >? BleConnection.getMtu ble_connection));
    let con_handle := BleConnection.getConnectionHandle ble_connection in
    _ ← (match peerWithConnectionHandle s con_handle with
         | Some k => peer ← deref_peer (peers s) (Some k); Ret tt
         | None => Ret tt
         end);
    let s := update_connection s key (fun c => BleConnection.setHasData c true) in
    let '(s, status) :=
      if BleConnection.getRole ble_connection =? HCI_ROLE_SLAVE then
        let s := set_raw_packet_to_notify s
                   (mm_emplace con_handle packet_data (raw_packet_to_notify s)) in
        (emit s (RequestToSendNotification con_handle),
         att_server_request_to_send_notification P con_handle)
      else
        let s := set_raw_packet_to_write s
                   (mm_emplace con_handle packet_data (raw_packet_to_write s)) in
        (emit s (RequestToWriteWithoutResponse con_handle),
         gatt_client_request_to_write_without_response P con_handle) in
    Ret (s, status =? 0)
  end.

Definition send_available (connection : BleConnection.t) : bool :=
  BleConnection.isConnected connection &&
  (BleConnection.getBitchatCharacteristicValueHandle connection >? 0).

(** [packet_needed]: the connection is not among those the packet was sent to. *)
Definition packet_needed (s : t) (targeted : Z * Z) : outcome bool :=
  match mm_equal_range targeted.1 (packets_connections_sent_list s) with
  | [] => Ret true
  | range =>
    '(_, connection) ← deref_connection s targeted.2;
    no_match s (BleConnection.getConnectionHandle connection) range
  end.

Definition mark_sent (s : t) (packet connection : Z) : t :=
  set_packets_connections_sent_list s
    (mm_emplace packet connection (packets_connections_sent_list s)).

(** The loop over the targeted packets; the list returned is the set of the
    packets to remove. *)
Fixpoint send_targeted (P : Platform) (s : t) (targeted : list (Z * Z)) : outcome (t * list Z) :=
  match targeted with
  | [] => Ret (s, [])
  | (packet, connection) :: targeted' =>
    needed ← packet_needed s (packet, connection);
    if needed : bool then
      '(key, _) ← deref_connection s connection;
      pkt ← deref_packet s packet;
      '(s, _) ← SendPacketToConnection P s pkt key;
      '(s, remove) ← send_targeted P (mark_sent s packet connection) targeted';
      Ret (s, packet :: remove)
    else send_targeted P s targeted'
  end.

(** The scan that decides [sendable]: from the first entry of the packet to
    the end of the multimap. *)
Fixpoint scan_sendable (s : t) (con_handle : Z) (search : list (Z * Z)) (sendable : bool)
    : outcome bool :=
  match search with
  | [] => Ret sendable
  | (_, c) :: search' =>
    '(_, connection) ← deref_connection s c;
    scan_sendable s con_handle search'
      (if BleConnection.getConnectionHandle connection =? con_handle then false else sendable)
  end.

(** One packet to every available connection. *)
Fixpoint broadcast_to (P : Platform) (s : t) (packet : Z) (handles : list Z) : outcome t :=
  match handles with
  | [] => Ret s
  | h :: handles' =>
    match connections s !! h with
    | None => broadcast_to P s packet handles'
    | Some n =>
      let connection := node_val n in
      if send_available connection then
        sendable ← scan_sendable s (BleConnection.getConnectionHandle connection)
                     (mm_find packet (packets_connections_sent_list s)) true;
        if sendable : bool then
          pkt ← deref_packet s packet;
          '(s, _) ← SendPacketToConnection P s pkt h;
          broadcast_to P (mark_sent s packet (node_addr n)) packet handles'
        else broadcast_to P s packet handles'
      else broadcast_to P s packet handles'
    end
  end.

Fixpoint send_broadcast (P : Platform) (s : t) (handles packets : list Z) : outcome t :=
  match packets with
  | [] => Ret s
  | packet :: packets' =>
    s ← broadcast_to P s packet handles;
    send_broadcast P s handles packets'
  end.

Definition sendPackets (P : Platform) (s : t) : outcome t :=
  match broadcast_packets_to_send_list s, targeted_packets_to_send_list s with
  | [], [] => Ret s
  | _, _ =>
    '(s, targeted_packets_to_remove) ← send_targeted P s (targeted_packets_to_send_list s);
    let s := set_targeted_packets_to_send_list s
      (mm_erase_if (fun item => bool_decide (item.1 ∈ targeted_packets_to_remove))
         (targeted_packets_to_send_list s)) in
    let broadcast_packets_to_remove := broadcast_packets_to_send_list s in
    s ← send_broadcast P s (map_sorted (connections s)).*1 (broadcast_packets_to_send_list s);
    Ret (set_broadcast_packets_to_send_list s
      (filter (fun packet => packet ∉ broadcast_packets_to_remove)
         (broadcast_packets_to_send_list s)))
  end.

(** ** The raw packets handed to BTstack *)

Definition send_accepted (ret : Z) : bool :=
  (ret =? 0) || (ret =? ERROR_CODE_UNKNOWN_CONNECTION_IDENTIFIER).

Definition notifyRawPacket (P : Platform) (s : t) (con_handle : Z) : outcome t :=
  s ← (match mm_lower_bound con_handle (raw_packet_to_notify s) with
       | [] => Ret s
       | (_, data) :: _ =>
         let '(s, connection) := connections_subscript P s con_handle in
         _ ← c_assert (asserts_enabled P) (BleConnection.hasData (node_val connection));
         let value_handle := BleConnection.getBitchatCharacteristicValueHandle (node_val connection) in
         let ret := att_server_notify P con_handle value_handle data in
         let s := emit s (ServerNotify con_handle value_handle data) in
         if send_accepted ret
         then Ret (set_raw_packet_to_notify s (mm_erase_first con_handle (raw_packet_to_notify s)))
         else Ret s
       end);
  match mm_lower_bound con_handle (raw_packet_to_notify s) with
  | [] =>
    (* [auto connection = connections[con_handle]]: the flag of the copy is cleared *)
    let '(s, connection) := connections_subscript P s con_handle in
    let _copy := BleConnection.setHasData (node_val connection) false in
    Ret s
  | _ => Ret (emit s (RequestToSendNotification con_handle))
  end.

Definition writeRawPacket (P : Platform) (s : t) (con_handle : Z) : outcome t :=
  s ← (match mm_lower_bound con_handle (raw_packet_to_write s) with
       | [] => Ret s
       | (_, data) :: _ =>
         let '(s, connection) := connections_subscript P s con_handle in
         _ ← c_assert (asserts_enabled P) (BleConnection.hasData (node_val connection));
         let value_handle := BleConnection.getBitchatCharacteristicValueHandle (node_val connection) in
         let ret := gatt_client_write_value_of_characteristic_without_response P con_handle
                      value_handle data in
         let s := emit s (WriteWithoutResponse con_handle value_handle data) in
         if send_accepted ret
         then Ret (set_raw_packet_to_write s (mm_erase_first con_handle (raw_packet_to_write s)))
         else Ret s
       end);
  match mm_lower_bound con_handle (raw_packet_to_write s) with
  | [] =>
    let '(s, connection) := connections_subscript P s con_handle in
    let _copy := BleConnection.setHasData (node_val connection) false in
    Ret s
  | _ => Ret (emit s (RequestToWriteWithoutResponse con_handle))
  end.

(** ** Housekeeping *)

(** [std::erase_if] with a predicate that follows pointers. *)
Fixpoint erase_ifM {A} (stale : A -> outcome bool) (l : list A) : outcome (list A) :=
  match l with
  | [] => Ret []
  | x :: l' =>
    b ← stale x;
    rest ← erase_ifM stale l';
    Ret (if b : bool then rest else x :: rest)
  end.

Definition connection_stale (now : Z) (connection : BleConnection.t) : bool :=
  negb (BleConnection.isConnected connection) &&
  (BleConnection.getTimestampMs connection +u64 ten_minutes_in_ms <? now).

Definition packet_connection_stale (s : t) (now : Z) (item : Z * Z) : outcome bool :=
  pkt ← deref_packet s item.1;
  if PacketBase.getPacketTimestamp (packet_base pkt) +u64 ten_minutes_in_ms <? now then Ret true
  else
    '(_, connection) ← deref_connection s item.2;
    Ret (connection_stale now connection).

Definition base_stale (now : Z) (b : PacketBase.t) : bool :=
  PacketBase.getPacketTimestampMs b +u64 ten_minutes_in_ms <? now.

Definition packet_stale (s : t) (now : Z) (packet : Z) : outcome bool :=
  pkt ← deref_packet s packet;
  Ret (base_stale now (packet_base pkt)).

Definition cleanupStaleItems (P : Platform) (s : t) : outcome t :=
  let now := getTimeMs P s in
  l ← erase_ifM (packet_connection_stale s now) (packets_connections_sent_list s);
  let s := set_packets_connections_sent_list s l in
  l ← erase_ifM (fun item => packet_stale s now item.1) (packets_peers_sent_list s);
  let s := set_packets_peers_sent_list s l in
  l ← erase_ifM (packet_stale s now) (broadcast_packets_to_send_list s);
  let s := set_broadcast_packets_to_send_list s l in
  l ← erase_ifM (packet_connection_stale s now) (targeted_packets_to_send_list s);
  let s := set_targeted_packets_to_send_list s l in
  let s := set_connections s
    (filter (fun kv => connection_stale now (node_val kv.2) = false) (connections s)) in
  let s := set_available_neighbours s
    (filter (fun kv => connection_stale now kv.2 = false) (available_neighbours s)) in
  let s := set_messages s
    (filter (fun kv => base_stale now (Message.base (node_val kv.2)) = false) (messages s)) in
  Ret (set_packets s
    (filter (fun kv => base_stale now (PacketPassAlong.base (node_val kv.2)) = false) (packets s))).

(** ** Duplicate connections *)

(** The loop over [handle_peer_map]; [reversed] maps a peer to the handle seen
    for it, [0] when there is none. *)
Fixpoint duplicate_loop (P : Platform) (s : t) (items : list (Z * Z)) (reversed : gmap Z Z)
    : t * Z :=
  match items with
  | [] => (s, 0)
  | (handle, peer) :: items' =>
    let earlier := default 0 (reversed !! peer) in
    if negb (earlier =? 0) then
      let s := (connections_subscript P s earlier).1 in
      let '(s, n) := connections_subscript P s handle in
      let '(s, n_earlier) := connections_subscript P s earlier in
      if BleConnection.getTimestamp (node_val n_earlier) <? BleConnection.getTimestamp (node_val n)
      then (s, earlier) else (s, handle)
    else duplicate_loop P s items' (<[peer := handle]> reversed)
  end.

Definition getAnyDuplicateHandle (P : Platform) (s : t) : t * Z :=
  duplicate_loop P s (map_sorted (handle_peer_map s)) ∅.

(** ** RSSI *)

Definition connections_begin (s : t) : option (Z * Z) :=
  match map_sorted (connections s) with [] => None | (k, n) :: _ => Some (k, node_addr n) end.

(** [++iterator] of an iterator at key [k]. *)
Definition connections_next (s : t) (k : Z) : option (Z * Z) :=
  match filter (fun kn => k < kn.1) (map_sorted (connections s)) with
  | [] => None
  | (k', n) :: _ => Some (k', node_addr n)
  end.

(** [false] when the round is over.  Dereferencing [end()], or an iterator
    whose element was erased, is a fault. *)
Definition requestNextRssi (s : t) (restart : bool) : outcome (t * bool) :=
  let iterator := default (connections_begin s) (rssi_iterator s) in
  let iterator :=
    if bool_decide (iterator = None) || restart then connections_begin s else iterator in
  match iterator with
  | None => Fault EndIterator
  | Some (handle, a) =>
    match connections s !! handle with
    | Some n =>
      if decide (node_addr n = a) then
        let s := emit s (ReadRssi handle) in
        let iterator := connections_next s handle in
        Ret (set_rssi_iterator s (Some iterator), negb (bool_decide (iterator = None)))
      else Fault (DanglingConnection a)
    | None => Fault (DanglingConnection a)
    end
  end.

End Tracker.
