(* ===== verification/TrackerInv.v ===== *)
(** * The invariant of the tracker

    Every pointer the tracker keeps in a queue points to a live object, the
    multimaps are ordered, peers are stored under their id, and a connection
    that is connected is stored under its own handle.  Each operation of
    BLE/BleConnectionTracker.cpp except the cleanup preserves this
    ([tracker_ok]), so no operation follows a dangling pointer. *)

From stdpp Require Import base numbers list gmap sorting.
From Stdlib Require Import ZArith Lia.
From S2P Require Import Prelude Platform Containers BinaryIO Packets ProtocolWriter BleConnection.
From S2P Require Import Tracker.

(** ** Nodes and addresses *)

Section nodes.
Context {K A : Type} `{Countable K}.
Implicit Types (m : gmap K (node A)) (n : node A).

Lemma elem_of_map_addrs m a :
  a ∈ Tracker.map_addrs m <-> exists k n, m !! k = Some n /\ node_addr n = a.
Proof.
  unfold Tracker.map_addrs. rewrite elem_of_list_to_set, list_elem_of_fmap. split.
  - intros ([k n] & -> & Hin). apply elem_of_map_to_list in Hin. eauto.
  - intros (k & n & Hm & <-). exists (k, n). by rewrite elem_of_map_to_list.
Qed.

Lemma map_addrs_lookup m k n : m !! k = Some n -> node_addr n ∈ Tracker.map_addrs m.
Proof. intros Hm. apply elem_of_map_addrs. eauto. Qed.

Lemma map_addrs_insert m k n a :
  m !! k = None ->
  a ∈ Tracker.map_addrs (<[k := n]> m) <-> a = node_addr n \/ a ∈ Tracker.map_addrs m.
Proof.
  intros Hk. rewrite !elem_of_map_addrs. split.
  - intros (k' & n' & [[-> ->]|[? ?]]%lookup_insert_Some & <-); [by left|right; eauto].
  - intros [->|(k' & n' & Hm & <-)].
    + exists k, n. by rewrite lookup_insert_eq.
    + exists k', n'. split; [|done]. rewrite lookup_insert_ne; [done|congruence].
Qed.

Lemma map_addrs_alter m k f a :
  a ∈ Tracker.map_addrs (alter (node_map f) k m) <-> a ∈ Tracker.map_addrs m.
Proof.
  rewrite !elem_of_map_addrs. split.
  - intros (k' & n' & [(-> & n & Hm & ->)|[? ?]]%lookup_alter_Some & <-); eauto.
  - intros (k' & n' & Hm & <-). destruct (decide (k = k')) as [->|].
    + exists k', (node_map f n'). by rewrite lookup_alter_eq, Hm.
    + exists k', n'. by rewrite lookup_alter_ne.
Qed.

(** Distinct nodes have distinct addresses. *)
Definition addrs_inj m : Prop :=
  forall k1 k2 n1 n2, m !! k1 = Some n1 -> m !! k2 = Some n2 -> node_addr n1 = node_addr n2 -> k1 = k2.

Lemma addrs_inj_empty : addrs_inj ∅.
Proof. intros k1 k2 n1 n2 H1. by rewrite lookup_empty in H1. Qed.

Lemma addrs_inj_insert m k n :
  node_addr n ∉ Tracker.map_addrs m -> addrs_inj m -> addrs_inj (<[k := n]> m).
Proof.
  intros Hf Hm k1 k2 n1 n2 [[-> ->]|[? H1]]%lookup_insert_Some [[-> ->]|[? H2]]%lookup_insert_Some Ha;
    [done| | |eauto]; exfalso; apply Hf; apply elem_of_map_addrs; eauto.
Qed.

Lemma addrs_inj_alter m k f : addrs_inj m -> addrs_inj (alter (node_map f) k m).
Proof.
  intros Hm k1 k2 n1 n2 H1 H2 Ha.
  apply lookup_alter_Some in H1 as [(-> & m1 & H1 & ->)|[? H1]];
    apply lookup_alter_Some in H2 as [(-> & m2 & H2 & ->)|[? H2]]; eauto.
Qed.

Lemma addrs_inj_subseteq m m' : m' ⊆ m -> addrs_inj m -> addrs_inj m'.
Proof. intros Hsub Hm k1 k2 n1 n2 H1 H2. apply Hm; eapply lookup_weaken; eauto. Qed.

(** Following an address. *)
Lemma node_at_Some m a k v :
  Tracker.node_at m a = Some (k, v) -> m !! k = Some (mkNode a v).
Proof.
  unfold Tracker.node_at. destruct (list_find _ _) as [[i [k' n]]|] eqn:E; [|done]. intros [= -> <-].
  apply list_find_Some in E as (Hi & Ha & _). apply list_elem_of_lookup_2 in Hi.
  apply elem_of_map_to_list in Hi. simpl in Ha. subst a. by destruct n.
Qed.

Lemma node_at_None m a : Tracker.node_at m a = None <-> a ∉ Tracker.map_addrs m.
Proof.
  unfold Tracker.node_at. destruct (list_find _ _) as [[i [k' n]]|] eqn:E.
  - split; [done|]. intros Hn. exfalso. apply Hn.
    apply list_find_Some in E as (Hi & Ha & _). apply list_elem_of_lookup_2 in Hi.
    apply elem_of_map_to_list in Hi. apply elem_of_map_addrs. eauto.
  - split; [|done]. intros _ (k & n & Hm & Ha)%elem_of_map_addrs.
    apply list_find_None in E. rewrite Forall_forall in E.
    by apply (E (k, n)); [apply elem_of_map_to_list|].
Qed.

Lemma node_at_live m a : a ∈ Tracker.map_addrs m -> exists k v, Tracker.node_at m a = Some (k, v).
Proof.
  intros Ha. destruct (Tracker.node_at m a) as [[k v]|] eqn:E; [eauto|].
  by apply node_at_None in E.
Qed.

Lemma node_at_lookup m k n :
  addrs_inj m -> m !! k = Some n -> Tracker.node_at m (node_addr n) = Some (k, node_val n).
Proof.
  intros Hm Hk. destruct (node_at_live m (node_addr n)) as (k' & v & E); [by eapply map_addrs_lookup|].
  rewrite E. apply node_at_Some in E. assert (k' = k) as -> by by eapply Hm.
  rewrite E in Hk. destruct n; cbn in *; by simplify_eq.
Qed.

Lemma node_at_insert_fresh m k n :
  node_addr n ∉ Tracker.map_addrs m ->
  Tracker.node_at (<[k := n]> m) (node_addr n) = Some (k, node_val n).
Proof.
  intros Hf. destruct (node_at_live (<[k := n]> m) (node_addr n)) as (k' & v & E).
  { apply elem_of_map_addrs. exists k, n. by rewrite lookup_insert_eq. }
  rewrite E. apply node_at_Some in E. apply lookup_insert_Some in E as [[-> ->]|[_ E]]; [done|].
  exfalso. apply Hf. apply elem_of_map_addrs. eauto.
Qed.

End nodes.

(** ** The invariant *)

Definition message_type_ok (m : Message.t) : Prop :=
  PacketBase.packet_type (Message.base m) = PacketType_value type_message.

Definition pass_along_type_ok (p : PacketPassAlong.t) : Prop :=
  PacketBase.packet_type (PacketPassAlong.base p) <> PacketType_value type_message.

Record tracker_ok (s : Tracker.t) : Prop := {
  ok_peers k p : Tracker.peers s !! k = Some p -> Peer.id p = k;
  ok_messages_inj : addrs_inj (Tracker.messages s);
  ok_packets_inj : addrs_inj (Tracker.packets s);
  ok_connections_inj : addrs_inj (Tracker.connections s);
  ok_announce_messages : node_addr (Tracker.announce s) ∉ Tracker.map_addrs (Tracker.messages s);
  ok_announce_packets : node_addr (Tracker.announce s) ∉ Tracker.map_addrs (Tracker.packets s);
  ok_messages_packets : Tracker.map_addrs (Tracker.messages s) ## Tracker.map_addrs (Tracker.packets s);
  ok_announce_type :
    PacketBase.packet_type (Announce.base (node_val (Tracker.announce s))) =
      PacketType_value type_announce;
  ok_message_types k n : Tracker.messages s !! k = Some n -> message_type_ok (node_val n);
  ok_packet_types k n : Tracker.packets s !! k = Some n -> pass_along_type_ok (node_val n);
  ok_sender_peers k n q :
    Tracker.messages s !! k = Some n -> Message.sender_peer (node_val n) = Some q ->
    q ∈ dom (Tracker.peers s);
  ok_sent_sorted : mm_sorted (Tracker.packets_connections_sent_list s);
  ok_sent p c :
    (p, c) ∈ Tracker.packets_connections_sent_list s ->
    p ∈ Tracker.packet_addrs s /\ c ∈ Tracker.map_addrs (Tracker.connections s);
  ok_sent_peers p q :
    (p, q) ∈ Tracker.packets_peers_sent_list s ->
    p ∈ Tracker.packet_addrs s /\ q ∈ dom (Tracker.peers s);
  ok_broadcast p :
    p ∈ Tracker.broadcast_packets_to_send_list s -> p ∈ Tracker.packet_addrs s;
  ok_targeted p c :
    (p, c) ∈ Tracker.targeted_packets_to_send_list s ->
    p ∈ Tracker.packet_addrs s /\ c ∈ Tracker.map_addrs (Tracker.connections s);
  ok_notify_sorted : mm_sorted (Tracker.raw_packet_to_notify s);
  ok_write_sorted : mm_sorted (Tracker.raw_packet_to_write s);
  ok_handles h q : Tracker.handle_peer_map s !! h = Some q -> q ∈ dom (Tracker.peers s);
  ok_connected h n :
    Tracker.connections s !! h = Some n -> BleConnection.connected (node_val n) = true ->
    BleConnection.connection_handle (node_val n) = h;
  ok_neighbours k c :
    Tracker.available_neighbours s !! k = Some c -> BleConnection.connected c = false;
  ok_rssi h a :
    Tracker.rssi_iterator s = Some (Some (h, a)) ->
    exists n, Tracker.connections s !! h = Some n /\ node_addr n = a }.

(** Split the invariant of an updated tracker into its clauses; the clauses
    that do not mention the updated field are closed. *)
Ltac ok_split H :=
  destruct H; split; cbn in *; unfold Tracker.packet_addrs in *; cbn in *; try assumption.

#[export] Hint Resolve addrs_inj_empty addrs_inj_alter mm_emplace_sorted mm_erase_if_sorted : repeater.

Lemma ok_make a : tracker_ok (Tracker.make a).
Proof.
  split; cbn; auto with repeater; try set_solver; try constructor; try done.
Qed.

(** ** Operations that allocate nothing *)

(** A member call through [connections[h]] that keeps a connected connection
    under its handle. *)
Lemma ok_update_connection s h f :
  (forall c, BleConnection.connected c = true -> BleConnection.connection_handle c = h ->
    BleConnection.connected (f c) = true -> BleConnection.connection_handle (f c) = h) ->
  (forall c, BleConnection.connected c = false ->
    BleConnection.connected (f c) = true -> BleConnection.connection_handle (f c) = h) ->
  tracker_ok s -> tracker_ok (Tracker.update_connection s h f).
Proof.
  intros Hf1 Hf2 H. unfold Tracker.update_connection. ok_split H.
  - by apply addrs_inj_alter.
  - intros p c Hin. rewrite map_addrs_alter. auto.
  - intros p c Hin. rewrite map_addrs_alter. auto.
  - intros h' n [(-> & n0 & Hn & ->)|[? Hn]]%lookup_alter_Some; [|eauto]. cbn.
    destruct (BleConnection.connected (node_val n0)) eqn:E; eauto.
  - intros h' a Hr. destruct (ok_rssi0 h' a Hr) as (n & Hn & Ha).
    destruct (decide (h = h')) as [->|].
    + exists (node_map f n). by rewrite lookup_alter_eq, Hn.
    + exists n. by rewrite lookup_alter_ne.
Qed.

(** ... in particular one that changes neither. *)
Lemma ok_update_connection_other s h f :
  (forall c, BleConnection.connected (f c) = BleConnection.connected c) ->
  (forall c, BleConnection.connection_handle (f c) = BleConnection.connection_handle c) ->
  tracker_ok s -> tracker_ok (Tracker.update_connection s h f).
Proof.
  intros Hc Hh. apply ok_update_connection; intros c; rewrite Hc, Hh; congruence.
Qed.

Lemma update_connection_compose s h f g :
  Tracker.update_connection (Tracker.update_connection s h f) h g =
    Tracker.update_connection s h (fun c => g (f c)).
Proof. unfold Tracker.update_connection. cbn. by rewrite alter_alter_eq. Qed.

Lemma packet_at_live s a : a ∈ Tracker.packet_addrs s <-> is_Some (Tracker.packet_at s a).
Proof.
  unfold Tracker.packet_addrs, Tracker.packet_at. rewrite !elem_of_union, elem_of_singleton. split.
  - intros [[->|Hm]|Hp]; [rewrite decide_True by done; eauto| |]; case_decide; eauto.
    + destruct (node_at_live _ _ Hm) as (k & v & ->). eauto.
    + destruct (Tracker.node_at (Tracker.messages s) a) as [[]|]; [eauto|].
      destruct (node_at_live _ _ Hp) as (k & v & ->). eauto.
  - case_decide; [by auto|].
    destruct (Tracker.node_at (Tracker.messages s) a) as [[k v]|] eqn:E.
    { intros _. left. right. apply elem_of_map_addrs. apply node_at_Some in E. eauto. }
    destruct (Tracker.node_at (Tracker.packets s) a) as [[k v]|] eqn:F; [|by intros []].
    intros _. right. apply elem_of_map_addrs. apply node_at_Some in F. eauto.
Qed.

Lemma deref_packet_live s a :
  a ∈ Tracker.packet_addrs s -> exists pkt, Tracker.deref_packet s a = Ret pkt.
Proof. intros [pkt Hp]%packet_at_live. unfold Tracker.deref_packet. rewrite Hp. eauto. Qed.

Lemma deref_connection_live s c :
  c ∈ Tracker.map_addrs (Tracker.connections s) ->
  exists k v, Tracker.deref_connection s c = Ret (k, v) /\
    Tracker.connections s !! k = Some (mkNode c v).
Proof.
  intros (k & v & E)%node_at_live. unfold Tracker.deref_connection. rewrite E.
  apply node_at_Some in E. eauto.
Qed.

Lemma ok_checkSenderInPeers s q : tracker_ok s -> tracker_ok (Tracker.checkSenderInPeers s q).
Proof.
  intros H. unfold Tracker.checkSenderInPeers. destruct (Tracker.peers s !! q) eqn:E; [done|].
  ok_split H.
  - intros k p [[-> <-]|[? ?]]%lookup_insert_Some; [done|eauto].
  - intros k n q' Hn Hq. specialize (ok_sender_peers0 k n q' Hn Hq). set_solver.
  - intros p q' Hin. destruct (ok_sent_peers0 p q' Hin). set_solver.
  - intros h q' Hin. specialize (ok_handles0 h q' Hin). set_solver.
Qed.

Lemma checkSenderInPeers_known s q : q ∈ dom (Tracker.peers (Tracker.checkSenderInPeers s q)).
Proof.
  unfold Tracker.checkSenderInPeers. destruct (Tracker.peers s !! q) eqn:E.
  - by apply elem_of_dom.
  - cbn. set_solver.
Qed.

Lemma ok_update_peer s k f :
  (forall p, Peer.id (f p) = Peer.id p) -> tracker_ok s -> tracker_ok (Tracker.update_peer s k f).
Proof.
  intros Hf H. unfold Tracker.update_peer. ok_split H; rewrite ?dom_alter_L; try assumption.
  intros k' p [(-> & p0 & Hp & ->)|[? Hp]]%lookup_alter_Some; [|eauto]. rewrite Hf. eauto.
Qed.

Lemma ok_setConnectionHandleForPeer s h q :
  q ∈ dom (Tracker.peers s) -> tracker_ok s -> tracker_ok (Tracker.setConnectionHandleForPeer s h q).
Proof.
  intros Hq H. unfold Tracker.setConnectionHandleForPeer. ok_split H.
  intros h' q' [[-> <-]|[? ?]]%lookup_insert_Some; eauto.
Qed.

Lemma ok_mark_sent s p c :
  p ∈ Tracker.packet_addrs s -> c ∈ Tracker.map_addrs (Tracker.connections s) ->
  tracker_ok s -> tracker_ok (Tracker.mark_sent s p c).
Proof.
  intros Hp Hc H. unfold Tracker.mark_sent. ok_split H.
  - by apply mm_emplace_sorted.
  - intros p' c' [[= -> ->]|?]%elem_of_mm_emplace; auto.
Qed.

Lemma ok_mark_sent_to_peer s p q :
  p ∈ Tracker.packet_addrs s -> q ∈ dom (Tracker.peers s) -> tracker_ok s ->
  tracker_ok (Tracker.set_packets_peers_sent_list s
                (mm_emplace p q (Tracker.packets_peers_sent_list s))).
Proof.
  intros Hp Hq H. ok_split H. intros p' c' [[= -> ->]|?]%elem_of_mm_emplace; auto.
Qed.

Lemma ok_enqueueBroadcastPacket s p :
  p ∈ Tracker.packet_addrs s -> tracker_ok s ->
  exists s', Tracker.enqueueBroadcastPacket s p = Ret s' /\ tracker_ok s'.
Proof.
  intros Hp H. unfold Tracker.enqueueBroadcastPacket.
  destruct (deref_packet_live s p Hp) as [pkt ->]. cbn [mbind outcome_bind].
  destruct (_ >? 0); [|eauto]. eexists. split; [done|]. ok_split H.
  intros p' [?|Hin]%elem_of_app; [auto|]. by apply list_elem_of_singleton in Hin as ->.
Qed.

Lemma ok_enqueueBroadcastPacketFrom s p c q :
  p ∈ Tracker.packet_addrs s -> c ∈ Tracker.map_addrs (Tracker.connections s) ->
  q ∈ dom (Tracker.peers s) -> tracker_ok s ->
  exists s', Tracker.enqueueBroadcastPacketFrom s p c q = Ret s' /\ tracker_ok s'.
Proof.
  intros Hp Hc Hq H. unfold Tracker.enqueueBroadcastPacketFrom.
  apply ok_enqueueBroadcastPacket; [done|]. apply ok_mark_sent_to_peer; [done..|].
  by apply ok_mark_sent.
Qed.

Lemma ok_set_available_neighbours s m :
  (forall k c, m !! k = Some c -> BleConnection.connected c = false) ->
  tracker_ok s -> tracker_ok (Tracker.set_available_neighbours s m).
Proof. intros Hm H. ok_split H. Qed.

Lemma ok_delete_neighbour s k :
  tracker_ok s ->
  tracker_ok (Tracker.set_available_neighbours s (delete k (Tracker.available_neighbours s))).
Proof.
  intros H. apply ok_set_available_neighbours; [|done].
  intros k' c [_ ?]%lookup_delete_Some. by eapply ok_neighbours.
Qed.

Lemma ok_setConnectionStarted s c : tracker_ok s -> tracker_ok (Tracker.setConnectionStarted s c).
Proof. apply ok_delete_neighbour. Qed.

Lemma ok_emit s a : tracker_ok s -> tracker_ok (Tracker.emit s a).
Proof. intros H. ok_split H. Qed.

Lemma ok_erase_sent s (f : Z * Z -> bool) :
  tracker_ok s ->
  tracker_ok (Tracker.set_packets_connections_sent_list s
                (mm_erase_if f (Tracker.packets_connections_sent_list s))).
Proof.
  intros H. ok_split H; [by apply mm_erase_if_sorted|].
  intros p c [_ ?]%list_elem_of_filter. auto.
Qed.

Lemma ok_delete_handle s h :
  tracker_ok s -> tracker_ok (Tracker.set_handle_peer_map s (delete h (Tracker.handle_peer_map s))).
Proof. intros H. ok_split H. intros h' q [_ ?]%lookup_delete_Some. eauto. Qed.

Lemma ok_set_timestamp_offset_ms s x : tracker_ok s -> tracker_ok (Tracker.set_timestamp_offset_ms s x).
Proof. intros H. ok_split H. Qed.

Lemma ok_set_announce s a :
  PacketBase.packet_type (Announce.base a) =
    PacketBase.packet_type (Announce.base (node_val (Tracker.announce s))) ->
  tracker_ok s -> tracker_ok (Tracker.set_announce s (mkNode (node_addr (Tracker.announce s)) a)).
Proof. intros Ha H. ok_split H. congruence. Qed.

Lemma no_match_live s h l :
  (forall p c, (p, c) ∈ l -> c ∈ Tracker.map_addrs (Tracker.connections s)) ->
  exists b, Tracker.no_match s h l = Ret b.
Proof.
  induction l as [|[p c] l IH]; intros Hl; cbn; [eauto|].
  destruct (deref_connection_live s c) as (k & v & -> & _); [apply (Hl p); set_solver|].
  cbn. destruct (_ =? h); [eauto|]. apply IH. intros p' c' Hin. apply (Hl p'). set_solver.
Qed.

Lemma equal_range_live s p p' c :
  tracker_ok s -> (p', c) ∈ mm_equal_range p (Tracker.packets_connections_sent_list s) ->
  c ∈ Tracker.map_addrs (Tracker.connections s).
Proof. intros H [_ Hin]%elem_of_mm_equal_range. by eapply ok_sent. Qed.

Lemma announce_live s : node_addr (Tracker.announce s) ∈ Tracker.packet_addrs s.
Proof. unfold Tracker.packet_addrs. set_solver. Qed.

(** ** Operations that may allocate *)

Section preservation.
Context (P : Platform) `{!PlatformLaws P}.
Implicit Types (s : Tracker.t).

Lemma fresh_not_live s a : a ∈ Tracker.live s -> new_node P (Tracker.live s) <> a.
Proof. intros Ha <-. by apply (new_node_fresh (P := P)) in Ha. Qed.

Lemma fresh_connection s : new_node P (Tracker.live s) ∉ Tracker.map_addrs (Tracker.connections s).
Proof. pose proof (new_node_fresh (P := P) (Tracker.live s)). unfold Tracker.live in *. set_solver. Qed.

Lemma fresh_packet s : new_node P (Tracker.live s) ∉ Tracker.packet_addrs s.
Proof. pose proof (new_node_fresh (P := P) (Tracker.live s)). unfold Tracker.live in *. set_solver. Qed.

(** *** Connections *)

Lemma ok_new_connection s h :
  Tracker.connections s !! h = None -> tracker_ok s ->
  tracker_ok (Tracker.set_connections s
    (<[h := mkNode (new_node P (Tracker.live s)) BleConnection.make]> (Tracker.connections s))).
Proof.
  intros Hh H. pose proof (fresh_connection s) as Hf. ok_split H.
  - by apply addrs_inj_insert.
  - intros p c Hin. rewrite map_addrs_insert by done. destruct (ok_sent0 p c Hin). auto.
  - intros p c Hin. rewrite map_addrs_insert by done. destruct (ok_targeted0 p c Hin). auto.
  - intros h' n [[-> <-]|[? Hn]]%lookup_insert_Some; [done|eauto].
  - intros h' a Hr. destruct (ok_rssi0 h' a Hr) as (n & Hn & Ha). exists n.
    rewrite lookup_insert_ne; [done|congruence].
Qed.

(** What [connections[h]] does to the tracker. *)
Lemma subscript_spec s h s' n :
  tracker_ok s -> Tracker.connections_subscript P s h = (s', n) ->
  tracker_ok s' /\ Tracker.connections s' !! h = Some n /\
  s' = Tracker.set_connections s (Tracker.connections s') /\
  Tracker.connections s ⊆ Tracker.connections s'.
Proof.
  intros H. unfold Tracker.connections_subscript.
  destruct (Tracker.connections s !! h) as [n0|] eqn:E; intros [= <- <-].
  - split_and!; try done. by destruct s.
  - split; [by apply ok_new_connection|]. cbn. rewrite lookup_insert_eq. split_and!; try done.
    by apply insert_subseteq.
Qed.

Lemma ok_connectionForConnHandle s h s' a :
  tracker_ok s -> Tracker.connectionForConnHandle P s h = (s', a) ->
  tracker_ok s' /\ a ∈ Tracker.map_addrs (Tracker.connections s') /\
  s' = Tracker.set_connections s (Tracker.connections s').
Proof.
  intros H. unfold Tracker.connectionForConnHandle.
  destruct (Tracker.connections s !! h) as [n0|] eqn:E.
  - intros [= <- <-]. split; [done|]. split; [by eapply map_addrs_lookup|by destruct s].
  - destruct (Tracker.connections_subscript P s h) as [s1 n] eqn:E1. intros [= <- <-].
    destruct (subscript_spec _ _ _ _ H E1) as (H1 & Hn & Hs & _).
    split; [|split].
    + by apply ok_update_connection.
    + cbn. rewrite map_addrs_alter. by eapply map_addrs_lookup.
    + rewrite Hs. cbn. done.
Qed.

(** *** Stores *)

Lemma ok_storeMessageAndReturnIfNew s m :
  message_type_ok m -> (forall q, Message.sender_peer m = Some q -> q ∈ dom (Tracker.peers s)) ->
  tracker_ok s -> tracker_ok (Tracker.storeMessageAndReturnIfNew P s m).1.
Proof.
  intros Hty Hq H. unfold Tracker.storeMessageAndReturnIfNew.
  generalize (Message.getMessageId m) as id. intros id.
  destruct (Tracker.messages s !! id) eqn:E; [done|].
  pose proof (fresh_packet s) as Hf. unfold Tracker.packet_addrs in Hf.
  assert (forall a, a ∈ Tracker.map_addrs (Tracker.messages s) ->
    a ∈ Tracker.map_addrs (<[id := mkNode (new_node P (Tracker.live s)) m]>
                             (Tracker.messages s))) as Hsub
    by (intros a Ha; rewrite map_addrs_insert by done; auto).
  ok_split H.
  - apply addrs_inj_insert; set_solver.
  - rewrite map_addrs_insert by done. cbn. set_solver.
  - intros a. rewrite map_addrs_insert by done. cbn. set_solver.
  - intros k n [[-> <-]|[? ?]]%lookup_insert_Some; eauto.
  - intros k n q [[-> <-]|[? ?]]%lookup_insert_Some; eauto.
  - intros p c Hin. destruct (ok_sent0 p c Hin). set_solver.
  - intros p c Hin. destruct (ok_sent_peers0 p c Hin). set_solver.
  - intros p Hin. specialize (ok_broadcast0 p Hin). set_solver.
  - intros p c Hin. destruct (ok_targeted0 p c Hin). set_solver.
Qed.

Lemma ok_storePacketAndReturnIfNew s p :
  pass_along_type_ok p ->
  tracker_ok s -> tracker_ok (Tracker.storePacketAndReturnIfNew P s p).1.
Proof.
  intros Hty H. unfold Tracker.storePacketAndReturnIfNew.
  generalize (PacketPassAlong.getPacketHash P p) as id. intros id.
  destruct (Tracker.packets s !! id) eqn:E; [done|].
  pose proof (fresh_packet s) as Hf. unfold Tracker.packet_addrs in Hf.
  assert (forall a, a ∈ Tracker.map_addrs (Tracker.packets s) ->
    a ∈ Tracker.map_addrs (<[id := mkNode (new_node P (Tracker.live s)) p]>
                             (Tracker.packets s))) as Hsub
    by (intros a Ha; rewrite map_addrs_insert by done; auto).
  ok_split H.
  - apply addrs_inj_insert; set_solver.
  - rewrite map_addrs_insert by done. cbn. set_solver.
  - intros a. rewrite map_addrs_insert by done. cbn. set_solver.
  - intros k n [[-> <-]|[? ?]]%lookup_insert_Some; eauto.
  - intros q c Hin. destruct (ok_sent0 q c Hin). set_solver.
  - intros q c Hin. destruct (ok_sent_peers0 q c Hin). set_solver.
  - intros q Hin. specialize (ok_broadcast0 q Hin). set_solver.
  - intros q c Hin. destruct (ok_targeted0 q c Hin). set_solver.
Qed.

Lemma storeMessage_address s m a :
  (Tracker.storeMessageAndReturnIfNew P s m).2 = Some a ->
  a ∈ Tracker.packet_addrs (Tracker.storeMessageAndReturnIfNew P s m).1.
Proof.
  unfold Tracker.storeMessageAndReturnIfNew. destruct (Tracker.messages s !! _) eqn:E; [done|].
  intros [= <-]. unfold Tracker.packet_addrs. cbn.
  apply elem_of_union_l, elem_of_union_r, elem_of_map_addrs.
  eexists _, _. by rewrite lookup_insert_eq.
Qed.

Lemma storePacket_address s p a :
  (Tracker.storePacketAndReturnIfNew P s p).2 = Some a ->
  a ∈ Tracker.packet_addrs (Tracker.storePacketAndReturnIfNew P s p).1.
Proof.
  unfold Tracker.storePacketAndReturnIfNew. destruct (Tracker.packets s !! _) eqn:E; [done|].
  intros [= <-]. unfold Tracker.packet_addrs. cbn. apply elem_of_union_r, elem_of_map_addrs.
  eexists _, _. by rewrite lookup_insert_eq.
Qed.

(** *** Queueing *)

Lemma ok_enqueueTargetedPacket s p c :
  p ∈ Tracker.packet_addrs s -> tracker_ok s ->
  exists s', Tracker.enqueueTargetedPacket P s p c = Ret s' /\ tracker_ok s' /\
    Tracker.packet_addrs s' = Tracker.packet_addrs s.
Proof.
  intros Hp H. unfold Tracker.enqueueTargetedPacket.
  destruct (deref_packet_live s p Hp) as [pkt ->]. cbn [mbind outcome_bind].
  destruct (_ >? 0); [|eauto].
  destruct (Tracker.connectionForConnHandle P s _) as [s1 a] eqn:E.
  destruct (ok_connectionForConnHandle _ _ _ _ H E) as (H1 & Ha & Hs).
  assert (Tracker.packet_addrs s1 = Tracker.packet_addrs s) as Hpa by by rewrite Hs.
  rewrite <- Hpa in Hp. eexists. split; [done|]. split; [|done]. ok_split H1.
  intros p' c' [[= -> ->]|?]%elem_of_mm_emplace; auto.
Qed.

(** *** Connection events *)

Lemma ok_addAvailablePeer s addr ty services rssi :
  tracker_ok s -> tracker_ok (Tracker.addAvailablePeer P s addr ty services rssi).
Proof.
  intros H. unfold Tracker.addAvailablePeer. apply ok_set_available_neighbours; [|done].
  intros k c [[<- <-]|[_ Hk]]%lookup_insert_Some; [|by eapply ok_neighbours].
  cbn. destruct (Tracker.available_neighbours s !! _) as [c0|] eqn:E; [|done].
  cbn. by eapply ok_neighbours.
Qed.

Lemma ok_connections_subscript s h :
  tracker_ok s -> tracker_ok (Tracker.connections_subscript P s h).1.
Proof.
  intros H. destruct (Tracker.connections_subscript P s h) as [s' n] eqn:E.
  by apply (subscript_spec s h s' n).
Qed.

Lemma ok_reportConnection s h addr ty :
  tracker_ok s -> tracker_ok (Tracker.reportConnection P s h addr ty).
Proof.
  intros H. unfold Tracker.reportConnection. cbv zeta. apply ok_delete_neighbour.
  rewrite !update_connection_compose. apply ok_update_connection; [done..|].
  apply ok_connections_subscript.
  destruct (Tracker.available_neighbours s !! _) as [item|] eqn:E; [|done].
  apply (ok_neighbours s H) in E. apply ok_delete_neighbour.
  apply ok_update_connection; [congruence..|]. by apply ok_connections_subscript.
Qed.

Lemma ok_reportConnectionRole s h addr ty role :
  tracker_ok s -> tracker_ok (Tracker.reportConnectionRole P s h addr ty role).
Proof.
  intros H. unfold Tracker.reportConnectionRole.
  destruct (Tracker.connections_subscript P (Tracker.reportConnection P s h addr ty) h)
    as [s1 n] eqn:E.
  apply subscript_spec in E as (H1 & _); [|by apply ok_reportConnection].
  assert (tracker_ok (Tracker.update_connection s1 h (fun c => BleConnection.setRole c role))) as H2
    by by apply ok_update_connection_other.
  destruct (role =? HCI_ROLE_MASTER); [by apply ok_emit|done].
Qed.

Lemma ok_reportDisconnection s h : tracker_ok s -> tracker_ok (Tracker.reportDisconnection P s h).
Proof.
  intros H. unfold Tracker.reportDisconnection. cbv zeta.
  destruct (Tracker.connections_subscript P _ h) as [s1 n] eqn:E.
  apply subscript_spec in E as (H1 & _);
    [|by apply ok_update_connection; [..|apply ok_update_connection_other; [..|apply ok_connections_subscript]]].
  apply (ok_erase_sent (Tracker.set_handle_peer_map _ _)), ok_delete_handle.
  destruct (_ =? HCI_ROLE_MASTER); [by apply ok_emit|done].
Qed.

(** *** Time and announcing *)

Lemma ok_possiblyUpdateTimeOffset s ts s' :
  tracker_ok s -> Tracker.possiblyUpdateTimeOffset P s ts = Ret s' -> tracker_ok s'.
Proof.
  intros H. unfold Tracker.possiblyUpdateTimeOffset. case_decide; [|done].
  destruct (_ || _); intros [= <-]; [by apply ok_set_timestamp_offset_ms|done].
Qed.

Lemma ok_setupAnnounceIfNeeded s :
  tracker_ok s -> exists s', Tracker.setupAnnounceIfNeeded P s = Ret s' /\ tracker_ok s'.
Proof.
  intros H. unfold Tracker.setupAnnounceIfNeeded. destruct (_ =? 3); [by eauto|].
  destruct (gap_local_bd_addr_ok (P := P)) as [_ Hl].
  unfold Tracker.repeater_name. rewrite write_data_all by done. cbn [mbind outcome_bind].
  destruct (buf_get_in_bounds (gap_local_bd_addr P) (BD_ADDR_LEN - 2)) as (b4 & -> & _);
    [unfold zlen; rewrite Hl; done|].
  destruct (buf_get_in_bounds (gap_local_bd_addr P) (BD_ADDR_LEN - 1)) as (b5 & -> & _);
    [unfold zlen; rewrite Hl; done|].
  cbn [mbind outcome_bind]. eexists. split; [done|]. by apply ok_set_announce.
Qed.

Lemma ok_announce_loop s handles k :
  tracker_ok s -> exists s', Tracker.announce_loop P s handles k = Ret s' /\ tracker_ok s'.
Proof.
  revert s k. induction handles as [|h handles IH]; intros s k H; cbn [Tracker.announce_loop]; [eauto|].
  destruct (Tracker.connections s !! h) as [n|] eqn:En; [|auto].
  destruct (Tracker.announce_available s (node_val n)); [|auto].
  destruct (no_match_live s (BleConnection.getConnectionHandle (node_val n))
    (mm_equal_range (node_addr (Tracker.announce s)) (Tracker.packets_connections_sent_list s)))
    as [b ->]; [intros ??; by apply equal_range_live|].
  cbn [mbind outcome_bind]. destruct b; [|auto]. cbv zeta.
  match goal with |- context [Tracker.enqueueTargetedPacket P ?s1 ?p ?c] =>
    destruct (ok_enqueueTargetedPacket s1 p c) as (s2 & -> & H2 & _) end.
  - apply announce_live.
  - by apply ok_set_announce.
  - cbn [mbind outcome_bind]. auto.
Qed.

Lemma ok_announceToConnections s :
  tracker_ok s -> exists s', Tracker.announceToConnections P s = Ret s' /\ tracker_ok s'.
Proof.
  intros H. unfold Tracker.announceToConnections.
  destruct (ok_setupAnnounceIfNeeded s H) as (s1 & -> & H1). by apply ok_announce_loop.
Qed.

End preservation.

(** ** Checking the invariant of a concrete tracker *)

Definition addrs {K A} `{Countable K} (m : gmap K (node A)) : list Z :=
  (fun kv => node_addr kv.2) <$> map_to_list m.

Definition tracker_check (s : Tracker.t) : Prop :=
  map_Forall (fun k p => Peer.id p = k) (Tracker.peers s) /\
  NoDup (node_addr (Tracker.announce s) :: addrs (Tracker.messages s) ++ addrs (Tracker.packets s)) /\
  NoDup (addrs (Tracker.connections s)) /\
  PacketBase.packet_type (Announce.base (node_val (Tracker.announce s))) =
    PacketType_value type_announce /\
  map_Forall (fun _ n =>
      PacketBase.packet_type (Message.base (node_val n)) = PacketType_value type_message /\
      from_option (fun q => q ∈ dom (Tracker.peers s)) True (Message.sender_peer (node_val n)))
    (Tracker.messages s) /\
  map_Forall (fun _ n =>
      PacketBase.packet_type (PacketPassAlong.base (node_val n)) <> PacketType_value type_message)
    (Tracker.packets s) /\
  Sorted key_le (Tracker.packets_connections_sent_list s) /\
  Forall (fun pc => pc.1 ∈ Tracker.packet_addrs s /\ pc.2 ∈ Tracker.map_addrs (Tracker.connections s))
    (Tracker.packets_connections_sent_list s) /\
  Forall (fun pq => pq.1 ∈ Tracker.packet_addrs s /\ pq.2 ∈ dom (Tracker.peers s))
    (Tracker.packets_peers_sent_list s) /\
  Forall (fun p => p ∈ Tracker.packet_addrs s) (Tracker.broadcast_packets_to_send_list s) /\
  Forall (fun pc => pc.1 ∈ Tracker.packet_addrs s /\ pc.2 ∈ Tracker.map_addrs (Tracker.connections s))
    (Tracker.targeted_packets_to_send_list s) /\
  Sorted key_le (Tracker.raw_packet_to_notify s) /\ Sorted key_le (Tracker.raw_packet_to_write s) /\
  map_Forall (fun _ q => q ∈ dom (Tracker.peers s)) (Tracker.handle_peer_map s) /\
  map_Forall (fun h n => BleConnection.connected (node_val n) = true ->
    BleConnection.connection_handle (node_val n) = h) (Tracker.connections s) /\
  map_Forall (fun _ c => BleConnection.connected c = false) (Tracker.available_neighbours s) /\
  from_option (from_option (fun ha => node_addr <$> Tracker.connections s !! ha.1 = Some ha.2) True) True
    (Tracker.rssi_iterator s).

#[export] Instance tracker_check_dec s : Decision (tracker_check s).
Proof.
  unfold tracker_check.
  repeat (apply and_dec; [first [apply _ | apply map_Forall_dec; intros ? [? ?]; cbn;
    repeat (apply and_dec; [apply _|]); try destruct (Message.sender_peer _); cbn; apply _]|]).
  destruct (Tracker.rssi_iterator s) as [[?|]|]; cbn; apply _.
Defined.

Lemma addrs_inj_NoDup {K A} `{Countable K} (m : gmap K (node A)) : NoDup (addrs m) -> addrs_inj m.
Proof.
  intros Hnd k1 k2 n1 n2 H1 H2 Ha. unfold addrs in Hnd.
  apply elem_of_map_to_list in H1, H2.
  apply list_elem_of_lookup in H1 as [i1 H1]. apply list_elem_of_lookup in H2 as [i2 H2].
  assert (i1 = i2) as ->.
  { eapply NoDup_lookup; [exact Hnd| |]; rewrite list_lookup_fmap.
    - rewrite H1. reflexivity.
    - rewrite H2. cbn. by rewrite Ha. }
  congruence.
Qed.

Lemma tracker_check_ok s : tracker_check s -> tracker_ok s.
Proof.
  intros (Hpe & Hnd & Hnc & Hat & Hms & Hpk & Hss & Hs & Hsp & Hb & Ht & Hn & Hw & Hh & Hc & Hne & Hr).
  assert (forall K A (C : EqDecision K) (D : Countable K) (m : gmap K (node A)) a,
    a ∈ Tracker.map_addrs m <-> a ∈ addrs m) as Ha.
  { intros. unfold Tracker.map_addrs, addrs. by rewrite elem_of_list_to_set. }
  apply NoDup_cons in Hnd as [Han Hnd]. apply NoDup_app in Hnd as (Hnm & Hdis & Hnp).
  rewrite Forall_forall in Hs. rewrite Forall_forall in Hsp. rewrite Forall_forall in Hb.
  rewrite Forall_forall in Ht.
  split.
  all: try (by apply addrs_inj_NoDup); try (by apply Sorted_StronglySorted; [apply _|]);
    try (intros p c Hin; first [apply (Hs _ Hin)|apply (Hsp _ Hin)|apply (Ht _ Hin)]);
    try (rewrite Ha; set_solver); try done.
  - intros a. rewrite !Ha. apply Hdis.
  - intros k n Hk. apply (Hms k n Hk).
  - intros k n q Hk Hq. destruct (Hms k n Hk) as [_ Hm]. by rewrite Hq in Hm.
  - intros h a Hi. rewrite Hi in Hr. cbn in Hr.
    destruct (Tracker.connections s !! h) as [n|]; [|done]. injection Hr as <-. by exists n.
Qed.

(** The invariant of a concrete tracker, by evaluation. *)
Ltac check_ok := apply tracker_check_ok, (bool_decide_unpack _); vm_compute; exact I.
