(* ===== verification/Sending.v ===== *)
(** * Sending queued packets

    [SendPacketToConnection] and [sendPackets] of
    BLE/BleConnectionTracker.cpp: no queued pointer is followed into freed
    memory, and which connections a broadcast packet goes to. *)

From stdpp Require Import base numbers list gmap sorting.
From Stdlib Require Import ZArith Lia.
From S2P Require Import Prelude Platform Containers BinaryIO Packets ProtocolWriter BleConnection.
From S2P Require Import Tracker TrackerInv.

(** ** One packet to one connection *)

(** The state after a packet's bytes are queued for the connection [c] stored
    under [key]. *)
Definition deliver (s : Tracker.t) (key : Z) (c : BleConnection.t) (data : bytes) : Tracker.t :=
  let s := Tracker.update_connection s key (fun c => BleConnection.setHasData c true) in
  let h := BleConnection.getConnectionHandle c in
  if BleConnection.getRole c =? HCI_ROLE_SLAVE then
    Tracker.emit (Tracker.set_raw_packet_to_notify s
                    (mm_emplace h data (Tracker.raw_packet_to_notify s)))
      (RequestToSendNotification h)
  else
    Tracker.emit (Tracker.set_raw_packet_to_write s
                    (mm_emplace h data (Tracker.raw_packet_to_write s)))
      (RequestToWriteWithoutResponse h).

Lemma ok_deliver s key c data : tracker_ok s -> tracker_ok (deliver s key c data).
Proof.
  intros H. unfold deliver.
  assert (tracker_ok (Tracker.update_connection s key (fun c => BleConnection.setHasData c true)))
    as H1 by by apply ok_update_connection_other.
  destruct (_ =? HCI_ROLE_SLAVE); apply ok_emit; ok_split H1; by apply mm_emplace_sorted.
Qed.

(** Only the flag of the connection, the raw packets and the actions change. *)
Record send_frame (s s' : Tracker.t) : Prop := {
  frame_peers : Tracker.peers s' = Tracker.peers s;
  frame_messages : Tracker.messages s' = Tracker.messages s;
  frame_packets : Tracker.packets s' = Tracker.packets s;
  frame_announce : Tracker.announce s' = Tracker.announce s;
  frame_neighbours : Tracker.available_neighbours s' = Tracker.available_neighbours s;
  frame_offset : Tracker.timestamp_offset_ms s' = Tracker.timestamp_offset_ms s;
  frame_handles : Tracker.handle_peer_map s' = Tracker.handle_peer_map s;
  frame_sent_peers : Tracker.packets_peers_sent_list s' = Tracker.packets_peers_sent_list s;
  frame_broadcast :
    Tracker.broadcast_packets_to_send_list s' = Tracker.broadcast_packets_to_send_list s;
  frame_targeted :
    Tracker.targeted_packets_to_send_list s' = Tracker.targeted_packets_to_send_list s;
  frame_connections h :
    match Tracker.connections s !! h, Tracker.connections s' !! h with
    | Some n, Some n' =>
      node_addr n' = node_addr n /\
      exists d, node_val n' = BleConnection.setHasData (node_val n) d
    | None, None => True
    | _, _ => False
    end }.

Lemma setHasData_id c : BleConnection.setHasData c (BleConnection.hasData c) = c.
Proof. by destruct c. Qed.

#[export] Instance send_frame_refl : Reflexive send_frame.
Proof.
  intros s. split; try done. intros h. destruct (Tracker.connections s !! h); [|done].
  split; [done|]. eexists. by rewrite setHasData_id.
Qed.

#[export] Instance send_frame_trans : Transitive send_frame.
Proof.
  intros s1 s2 s3 [] []. split; try congruence. intros h.
  specialize (frame_connections0 h). specialize (frame_connections1 h).
  destruct (Tracker.connections s1 !! h), (Tracker.connections s2 !! h),
    (Tracker.connections s3 !! h); try done.
  destruct frame_connections0 as (Ha & d & E). destruct frame_connections1 as (Ha' & d' & E').
  split; [congruence|]. exists d'. by rewrite E', E.
Qed.

#[export] Instance send_frame_sym : Symmetric send_frame.
Proof.
  intros s1 s2 []. split; try congruence. intros h. specialize (frame_connections0 h).
  destruct (Tracker.connections s1 !! h) as [n1|], (Tracker.connections s2 !! h) as [n2|]; try done.
  destruct frame_connections0 as (Ha & d & E). split; [done|].
  exists (BleConnection.hasData (node_val n1)). rewrite E. symmetry.
  exact (setHasData_id (node_val n1)).
Qed.

Lemma send_frame_deliver s key c data : send_frame s (deliver s key c data).
Proof.
  assert (send_frame s (Tracker.update_connection s key (fun c => BleConnection.setHasData c true)))
    as Hu.
  { split; cbn; try done. intros h. destruct (decide (key = h)) as [->|Hne].
    - rewrite lookup_alter_eq. destruct (Tracker.connections s !! h) as [n|]; [|done].
      cbn. split; [done|]. by eexists.
    - rewrite lookup_alter_ne by done. destruct (Tracker.connections s !! h) as [n|]; [|done].
      split; [done|]. eexists. by rewrite setHasData_id. }
  unfold deliver. destruct (_ =? HCI_ROLE_SLAVE); destruct Hu; split; done.
Qed.

Lemma send_frame_mark_sent s p c : send_frame s (Tracker.mark_sent s p c).
Proof.
  split; cbn; try done. intros h. destruct (Tracker.connections s !! h); [|done].
  split; [done|]. eexists. by rewrite setHasData_id.
Qed.

(** Sending keeps that frame and only adds to the sent list. *)
Record sends (s s' : Tracker.t) : Prop := {
  sends_frame : send_frame s s';
  sends_sent x : x ∈ Tracker.packets_connections_sent_list s ->
    x ∈ Tracker.packets_connections_sent_list s' }.

#[export] Instance sends_refl : Reflexive sends.
Proof. intros s. by split. Qed.

#[export] Instance sends_trans : Transitive sends.
Proof. intros s1 s2 s3 [Hf1 Hs1] [Hf2 Hs2]. split; [by etrans|auto]. Qed.

Lemma frame_packet_addrs s s' : send_frame s s' -> Tracker.packet_addrs s' = Tracker.packet_addrs s.
Proof. intros []. unfold Tracker.packet_addrs. congruence. Qed.

Lemma frame_packet_at s s' a : send_frame s s' -> Tracker.packet_at s' a = Tracker.packet_at s a.
Proof.
  intros []. unfold Tracker.packet_at.
  by rewrite frame_announce0, frame_messages0, frame_packets0.
Qed.

Lemma frame_lookup s s' h n :
  send_frame s s' -> Tracker.connections s !! h = Some n ->
  exists d, Tracker.connections s' !! h =
    Some (mkNode (node_addr n) (BleConnection.setHasData (node_val n) d)).
Proof.
  intros [] Hn. specialize (frame_connections0 h). rewrite Hn in frame_connections0.
  destruct (Tracker.connections s' !! h) as [[a v]|]; [|done]. cbn in *.
  destruct frame_connections0 as (-> & d & ->). eauto.
Qed.

Lemma frame_connection_addrs s s' a :
  send_frame s s' -> a ∈ Tracker.map_addrs (Tracker.connections s) ->
  a ∈ Tracker.map_addrs (Tracker.connections s').
Proof.
  intros Hf (h & n & Hn & <-)%elem_of_map_addrs.
  destruct (frame_lookup _ _ _ _ Hf Hn) as [d Hd].
  apply elem_of_map_addrs. eauto.
Qed.

(** The packet an address of the tracker points to can be written, unless it
    is a message without its sender's peer. *)
Lemma stored_packet_cases s a pkt :
  tracker_ok s -> Tracker.packet_at s a = Some pkt ->
  if lacks_sender_peer pkt
  then ProtocolWriter.writePacket (Tracker.peers s) [] (Some pkt) = Fault NullPointer
  else exists w, ProtocolWriter.writePacket (Tracker.peers s) [] (Some pkt) = Ret w.
Proof.
  intros H Hp. apply writePacket_cases. unfold Tracker.packet_at in Hp. case_decide.
  { simplify_eq. cbn. by rewrite (ok_announce_type s H). }
  destruct (Tracker.node_at (Tracker.messages s) a) as [[k m]|] eqn:E; simplify_eq.
  { apply node_at_Some in E. split; [exact (ok_message_types s H _ _ E)|].
    intros q Hq. apply elem_of_dom. by eapply (ok_sender_peers s H). }
  destruct (Tracker.node_at (Tracker.packets s) a) as [[k p]|] eqn:F; simplify_eq.
  apply node_at_Some in F. exact (ok_packet_types s H _ _ F).
Qed.

(** The handle of the connection a pointer points to. *)
Definition handle_of (s : Tracker.t) (c : Z) : option Z :=
  (fun kv => BleConnection.connection_handle kv.2) <$> Tracker.node_at (Tracker.connections s) c.

Definition is_handle (s : Tracker.t) (h : Z) (item : Z * Z) : bool :=
  bool_decide (handle_of s item.2 = Some h).

Lemma handle_of_frame s s' c :
  tracker_ok s -> tracker_ok s' -> send_frame s s' -> handle_of s' c = handle_of s c.
Proof.
  intros H H' Hf. unfold handle_of.
  destruct (Tracker.node_at (Tracker.connections s) c) as [[k v]|] eqn:E.
  - apply node_at_Some in E. destruct (frame_lookup _ _ _ _ Hf E) as [d Hd]. cbn in Hd.
    pose proof (node_at_lookup _ _ _ (ok_connections_inj s' H') Hd) as Hn. cbn in Hn. by rewrite Hn.
  - apply node_at_None in E.
    assert (c ∉ Tracker.map_addrs (Tracker.connections s')) as ->%node_at_None; [|done].
    intros C. apply E. by apply (frame_connection_addrs s').
Qed.

(** The sent list holds packet [p] for a connection with handle [h]. *)
Definition was_sent (s : Tracker.t) (p h : Z) : Prop :=
  exists c, (p, c) ∈ Tracker.packets_connections_sent_list s /\ handle_of s c = Some h.

Lemma was_sent_sends s s' p h :
  tracker_ok s -> tracker_ok s' -> sends s s' -> was_sent s p h -> was_sent s' p h.
Proof.
  intros H H' [Hf Hs] (c & Hc & Hh). exists c. split; [auto|]. by rewrite (handle_of_frame s).
Qed.

(** The faults sending may run into. *)
Definition send_fault (f : fault) : Prop := f = NullPointer \/ f = AssertionFailed.

Lemma handle_peer_found s h :
  tracker_ok s ->
  match Tracker.peerWithConnectionHandle s h with
  | Some k => peer ← deref_peer (Tracker.peers s) (Some k); Ret tt
  | None => Ret tt
  end = Ret tt.
Proof.
  intros H. unfold Tracker.peerWithConnectionHandle.
  destruct (Tracker.handle_peer_map s !! h) as [k|] eqn:E; [|done].
  apply (ok_handles s H) in E. apply elem_of_dom in E as [p E]. cbn. by rewrite E.
Qed.

Section sending.
Context (P : Platform).

Lemma SendPacketToConnection_cases s a pkt key n :
  tracker_ok s -> Tracker.packet_at s a = Some pkt -> Tracker.connections s !! key = Some n ->
  match ProtocolWriter.writePacket (Tracker.peers s) [] (Some pkt) with
  | Fault f => f = NullPointer /\ Tracker.SendPacketToConnection P s pkt key = Fault NullPointer
  | Ret data =>
    if asserts_enabled P && (zlen data >? BleConnection.getMtu (node_val n))
    then Tracker.SendPacketToConnection P s pkt key = Fault AssertionFailed
    else exists b, Tracker.SendPacketToConnection P s pkt key = Ret (deliver s key (node_val n) data, b)
  end.
Proof.
  intros H Hp Hn. pose proof (stored_packet_cases s a pkt H Hp) as C.
  unfold Tracker.SendPacketToConnection.
  destruct (ProtocolWriter.writePacket (Tracker.peers s) [] (Some pkt)) as [data|f].
  - cbn [mbind outcome_bind]. rewrite Hn. unfold c_assert. rewrite negb_involutive.
    destruct (asserts_enabled P && _); [done|]. cbn [mbind outcome_bind].
    rewrite handle_peer_found by done. cbn [mbind outcome_bind].
    unfold deliver. destruct (BleConnection.getRole (node_val n) =? HCI_ROLE_SLAVE); eauto.
  - destruct (lacks_sender_peer pkt); [|by destruct C]. by simplify_eq.
Qed.

Lemma ok_SendPacketToConnection s a pkt key n :
  tracker_ok s -> Tracker.packet_at s a = Some pkt -> Tracker.connections s !! key = Some n ->
  outcome_spec send_fault (fun '(s', _) => tracker_ok s' /\ send_frame s s' /\
      Tracker.packets_connections_sent_list s' = Tracker.packets_connections_sent_list s)
    (Tracker.SendPacketToConnection P s pkt key).
Proof.
  intros H Hp Hn. pose proof (SendPacketToConnection_cases s a pkt key n H Hp Hn) as C.
  destruct (ProtocolWriter.writePacket _ _ _) as [data|f].
  - destruct (asserts_enabled P && _); [rewrite C; by right|]. destruct C as [b ->]. cbn.
    split; [by apply ok_deliver|]. split; [apply send_frame_deliver|].
    unfold deliver. by destruct (_ =? HCI_ROLE_SLAVE).
  - destruct C as [-> ->]. by left.
Qed.

(** Marking what was sent keeps the invariant. *)
Lemma ok_send_and_mark s a pkt key n :
  tracker_ok s -> Tracker.packet_at s a = Some pkt -> Tracker.connections s !! key = Some n ->
  outcome_spec send_fault
    (fun '(s', _) => let s'' := Tracker.mark_sent s' a (node_addr n) in
       tracker_ok s'' /\ sends s s'' /\
       (a, node_addr n) ∈ Tracker.packets_connections_sent_list s'')
    (Tracker.SendPacketToConnection P s pkt key).
Proof.
  intros H Hp Hn. eapply outcome_spec_mono; [by eapply ok_SendPacketToConnection| |done].
  intros [s' b] (H' & Hf & Hs). split_and!.
  - apply ok_mark_sent; [| |done].
    + rewrite (frame_packet_addrs _ _ Hf). apply packet_at_live. by eexists.
    + apply (frame_connection_addrs s); [done|]. by eapply map_addrs_lookup.
  - split; [etrans; [exact Hf|apply send_frame_mark_sent]|].
    intros x Hx. cbn. apply elem_of_mm_emplace. right. by rewrite Hs.
  - cbn. apply elem_of_mm_emplace. by left.
Qed.

Lemma no_match_spec s h l :
  (forall p c, (p, c) ∈ l -> c ∈ Tracker.map_addrs (Tracker.connections s)) ->
  Tracker.no_match s h l = Ret (negb (existsb (is_handle s h) l)).
Proof.
  induction l as [|[p c] l IH]; intros Hl; cbn; [done|].
  assert (c ∈ Tracker.map_addrs (Tracker.connections s)) as (k & v & E)%node_at_live
    by (apply (Hl p); by left).
  unfold is_handle at 1, handle_of, Tracker.deref_connection. cbn. rewrite E. cbn.
  unfold BleConnection.getConnectionHandle.
  destruct (Z.eqb_spec (BleConnection.connection_handle v) h) as [->|Hne].
  - by rewrite bool_decide_true.
  - rewrite bool_decide_false by congruence. apply IH. intros p' c' Hin. apply (Hl p'). by right.
Qed.

Lemma sent_in_range s p h :
  existsb (is_handle s h) (mm_equal_range p (Tracker.packets_connections_sent_list s)) = true <->
  was_sent s p h.
Proof.
  rewrite existsb_exists. setoid_rewrite <- list_elem_of_In. setoid_rewrite elem_of_mm_equal_range.
  split.
  - intros ([p' c] & [[= ->] Hin] & Hh%bool_decide_eq_true). by exists c.
  - intros (c & Hin & Hh). exists (p, c). split; [done|]. by apply bool_decide_eq_true.
Qed.

(** [packet_needed] holds of a targeted packet unless it was sent to the
    connection's handle. *)
Lemma ok_packet_needed s p c h :
  tracker_ok s -> handle_of s c = Some h ->
  exists b, Tracker.packet_needed s (p, c) = Ret b /\ (b = false -> was_sent s p h).
Proof.
  intros H Hh. unfold Tracker.packet_needed. cbn [fst snd].
  destruct (mm_equal_range p _) as [|x l] eqn:E; [by eexists|]. rewrite <- E.
  unfold handle_of in Hh. unfold Tracker.deref_connection.
  destruct (Tracker.node_at _ c) as [[k v]|]; [|done]. cbn in Hh. injection Hh as <-.
  cbn [mbind outcome_bind]. rewrite no_match_spec by (intros ??; by apply equal_range_live).
  eexists. split; [done|]. intros Hb%negb_false_iff. by apply sent_in_range.
Qed.

Lemma handle_of_live s c :
  c ∈ Tracker.map_addrs (Tracker.connections s) -> exists h, handle_of s c = Some h.
Proof. intros (k & v & E)%node_at_live. unfold handle_of. rewrite E. by eexists. Qed.

Lemma ok_send_targeted s targeted :
  tracker_ok s ->
  (forall p c, (p, c) ∈ targeted ->
     p ∈ Tracker.packet_addrs s /\ c ∈ Tracker.map_addrs (Tracker.connections s)) ->
  outcome_spec send_fault
    (fun '(s', _) => tracker_ok s' /\ sends s s' /\
       forall p c h, (p, c) ∈ targeted -> handle_of s c = Some h -> was_sent s' p h)
    (Tracker.send_targeted P s targeted).
Proof.
  revert s. induction targeted as [|[p c] targeted IH]; intros s H Hl.
  { cbn. split_and!; [done..|]. by intros ??? ?%elem_of_nil. }
  assert (forall p' c', (p', c') ∈ targeted -> p' ∈ Tracker.packet_addrs s /\
    c' ∈ Tracker.map_addrs (Tracker.connections s)) as Hl' by (intros; apply Hl; set_solver).
  destruct (Hl p c) as [Hp Hc]; [set_solver|]. cbn [Tracker.send_targeted].
  destruct (handle_of_live s c Hc) as [h Hh].
  destruct (ok_packet_needed s p c h H Hh) as ([] & -> & Hneed); cbn [mbind outcome_bind].
  2:{ eapply outcome_spec_mono; [by apply IH| |done]. intros [s' r] (H' & Hs' & Hm).
      split_and!; [done..|]. intros p' c' h' [[= -> ->]|Hin]%elem_of_cons Hh'; [|by eapply Hm].
      simplify_eq. eapply (was_sent_sends s); [done..|by apply Hneed]. }
  destruct (deref_connection_live s c Hc) as (key & v & -> & Hn). cbn [mbind outcome_bind].
  apply packet_at_live in Hp as [pkt Hp]. unfold Tracker.deref_packet. rewrite Hp.
  cbn [mbind outcome_bind].
  eapply outcome_spec_bind; [by eapply ok_send_and_mark|]. intros [s1 b] (H1 & Hf1 & Hin1).
  cbn [node_addr] in *.
  eapply outcome_spec_bind; [apply IH; [done|]|].
  - intros p' c' Hin. destruct (Hl' p' c' Hin) as [Hp' Hc']. destruct Hf1 as [Hf1 _].
    rewrite (frame_packet_addrs _ _ Hf1). split; [done|]. by eapply frame_connection_addrs.
  - intros [s2 l] (H2 & Hf2 & Hm). split_and!; [done|by etrans|].
    pose proof (fun c => handle_of_frame s _ c H H1 (sends_frame _ _ Hf1)) as Hhf.
    intros p' c' h' [[= -> ->]|Hin]%elem_of_cons Hh'; [|eapply Hm; [done|by rewrite Hhf]].
    eapply was_sent_sends; [exact H1|done..|]. exists c. by rewrite Hhf.
Qed.

(** ** Broadcasting *)

Lemma scan_sendable_spec s h l b :
  (forall p c, (p, c) ∈ l -> c ∈ Tracker.map_addrs (Tracker.connections s)) ->
  Tracker.scan_sendable s h l b = Ret (b && negb (existsb (is_handle s h) l)).
Proof.
  revert b. induction l as [|[p c] l IH]; intros b Hl; cbn; [by rewrite andb_true_r|].
  assert (c ∈ Tracker.map_addrs (Tracker.connections s)) as (k & v & E)%node_at_live
    by (apply (Hl p); set_solver).
  unfold is_handle at 1, handle_of, Tracker.deref_connection. cbn. rewrite E. cbn.
  rewrite IH by (intros p' c' ?; apply (Hl p'); set_solver). f_equal.
  unfold BleConnection.getConnectionHandle. rewrite (bool_decide_ext _ (BleConnection.connection_handle v = h))
    by (split; congruence).
  destruct (Z.eqb_spec (BleConnection.connection_handle v) h);
    [rewrite bool_decide_true by done|rewrite bool_decide_false by done]; cbn; [|done].
  by rewrite andb_false_r.
Qed.

Lemma mm_find_live s p p' c :
  tracker_ok s -> (p', c) ∈ mm_find p (Tracker.packets_connections_sent_list s) ->
  c ∈ Tracker.map_addrs (Tracker.connections s).
Proof.
  intros H Hin. eapply (ok_sent s H p'). unfold mm_find in Hin.
  destruct (mm_lower_bound p _) as [|[k v] l] eqn:E; [set_solver|].
  destruct (std_less p k); [set_solver|]. rewrite <- E in Hin. by apply mm_lower_bound_suffix in Hin.
Qed.

Lemma ok_broadcast_to s p handles :
  tracker_ok s -> p ∈ Tracker.packet_addrs s ->
  outcome_spec send_fault (fun s' => tracker_ok s' /\ sends s s')
    (Tracker.broadcast_to P s p handles).
Proof.
  revert s. induction handles as [|h handles IH]; intros s H Hp; [by split|].
  cbn [Tracker.broadcast_to]. destruct (Tracker.connections s !! h) as [n|] eqn:En; [|auto].
  destruct (Tracker.send_available (node_val n)); [|auto].
  rewrite scan_sendable_spec by (intros ??; by apply mm_find_live). cbn [mbind outcome_bind].
  destruct (true && _); [|auto].
  pose proof Hp as [pkt Hpkt]%packet_at_live. unfold Tracker.deref_packet. rewrite Hpkt.
  cbn [mbind outcome_bind].
  eapply outcome_spec_bind; [by eapply ok_send_and_mark|]. intros [s1 b] (H1 & Hf1 & _).
  eapply outcome_spec_mono; [apply IH; [done|]| |done].
  - by rewrite (frame_packet_addrs _ _ (sends_frame _ _ Hf1)).
  - intros s2 [H2 Hf2]. split; [done|]. by etrans.
Qed.

Lemma ok_send_broadcast s handles ps :
  tracker_ok s -> (forall p, p ∈ ps -> p ∈ Tracker.packet_addrs s) ->
  outcome_spec send_fault (fun s' => tracker_ok s' /\ sends s s')
    (Tracker.send_broadcast P s handles ps).
Proof.
  revert s. induction ps as [|p ps IH]; intros s H Hps; [by split|].
  cbn [Tracker.send_broadcast].
  eapply outcome_spec_bind; [apply ok_broadcast_to; [done|apply Hps; set_solver]|].
  intros s1 [H1 Hf1]. eapply outcome_spec_mono; [apply IH; [done|]| |done].
  - intros p' Hp'. rewrite (frame_packet_addrs _ _ (sends_frame _ _ Hf1)). apply Hps. set_solver.
  - intros s2 [H2 Hf2]. split; [done|]. by etrans.
Qed.

Lemma ok_set_targeted s l :
  (forall x, x ∈ l -> x ∈ Tracker.targeted_packets_to_send_list s) ->
  tracker_ok s -> tracker_ok (Tracker.set_targeted_packets_to_send_list s l).
Proof. intros Hl H. ok_split H. intros p c Hin. auto. Qed.

Lemma ok_set_broadcast s l :
  (forall x, x ∈ l -> x ∈ Tracker.broadcast_packets_to_send_list s) ->
  tracker_ok s -> tracker_ok (Tracker.set_broadcast_packets_to_send_list s l).
Proof. intros Hl H. ok_split H. auto. Qed.

Lemma filter_not_in (l : list Z) : filter (fun x => x ∉ l) l = [].
Proof. apply filter_none. naive_solver. Qed.

(** [sendPackets] with something in a queue. *)
Lemma sendPackets_work s :
  ~ (Tracker.broadcast_packets_to_send_list s = [] /\ Tracker.targeted_packets_to_send_list s = []) ->
  Tracker.sendPackets P s =
    ('(s, targeted_packets_to_remove) ←
       Tracker.send_targeted P s (Tracker.targeted_packets_to_send_list s);
     let s := Tracker.set_targeted_packets_to_send_list s
       (mm_erase_if (fun item => bool_decide (item.1 ∈ targeted_packets_to_remove))
          (Tracker.targeted_packets_to_send_list s)) in
     let broadcast_packets_to_remove := Tracker.broadcast_packets_to_send_list s in
     s ← Tracker.send_broadcast P s (map_sorted (Tracker.connections s)).*1
           (Tracker.broadcast_packets_to_send_list s);
     Ret (Tracker.set_broadcast_packets_to_send_list s
       (filter (fun packet => packet ∉ broadcast_packets_to_remove)
          (Tracker.broadcast_packets_to_send_list s)))).
Proof.
  intros Hne. unfold Tracker.sendPackets.
  by destruct (Tracker.broadcast_packets_to_send_list s), (Tracker.targeted_packets_to_send_list s);
    try (exfalso; by apply Hne).
Qed.

(** What sending leaves as it was. *)
Definition stores_kept (s s' : Tracker.t) : Prop :=
  Tracker.peers s' = Tracker.peers s /\ Tracker.messages s' = Tracker.messages s /\
  Tracker.packets s' = Tracker.packets s /\ Tracker.announce s' = Tracker.announce s /\
  Tracker.available_neighbours s' = Tracker.available_neighbours s /\
  Tracker.timestamp_offset_ms s' = Tracker.timestamp_offset_ms s /\
  Tracker.handle_peer_map s' = Tracker.handle_peer_map s /\
  dom (Tracker.connections s') = dom (Tracker.connections s).

Lemma frame_dom s s' :
  send_frame s s' -> dom (Tracker.connections s') = dom (Tracker.connections s).
Proof.
  intros []. apply set_eq. intros h. specialize (frame_connections0 h). rewrite !elem_of_dom.
  destruct (Tracker.connections s !! h), (Tracker.connections s' !! h); try done; split; eauto.
Qed.

Lemma frame_stores s s' : send_frame s s' -> stores_kept s s'.
Proof. intros Hf. pose proof (frame_dom _ _ Hf). destruct Hf. by repeat split. Qed.

(** The state with the queues another one had. *)
Definition with_queues (s s' : Tracker.t) : Tracker.t :=
  Tracker.set_broadcast_packets_to_send_list
    (Tracker.set_targeted_packets_to_send_list s' (Tracker.targeted_packets_to_send_list s))
    (Tracker.broadcast_packets_to_send_list s).

(** [sendPackets] empties the broadcast queue, changes besides the queues only
    what sending changes, and leaves every targeted packet marked as sent. *)
Lemma sendPackets_sends s :
  tracker_ok s ->
  outcome_spec send_fault
    (fun s' => tracker_ok s' /\ Tracker.broadcast_packets_to_send_list s' = [] /\
       sends s (with_queues s s') /\
       (forall p h, was_sent s p h -> was_sent s' p h) /\
       forall p c h, (p, c) ∈ Tracker.targeted_packets_to_send_list s ->
         handle_of s c = Some h -> was_sent s' p h)
    (Tracker.sendPackets P s).
Proof.
  intros H.
  destruct (decide (Tracker.broadcast_packets_to_send_list s = [] /\
                    Tracker.targeted_packets_to_send_list s = [])) as [[Hb Ht]|Hne].
  { unfold Tracker.sendPackets. rewrite Hb, Ht. split_and!; [done..| |done|set_solver].
    unfold with_queues. destruct s. apply sends_refl. }
  rewrite sendPackets_work by done.
  eapply outcome_spec_bind; [apply ok_send_targeted; [done|apply (ok_targeted s H)]|].
  intros [s1 remove] (H1 & Hf1 & Hm1). cbv zeta.
  set (s2 := Tracker.set_targeted_packets_to_send_list s1 _).
  assert (tracker_ok s2) as H2.
  { apply ok_set_targeted; [|done]. by intros x [_ ?]%list_elem_of_filter. }
  eapply outcome_spec_bind; [apply ok_send_broadcast; [done|apply (ok_broadcast s2 H2)]|].
  intros s3 [H3 Hf3]. cbn [outcome_spec].
  pose proof (frame_broadcast _ _ (sends_frame _ _ Hf3)) as Hb.
  rewrite Hb, filter_not_in. split_and!; [|done| | |].
  - apply ok_set_broadcast; [|done]. set_solver.
  - etrans; [exact Hf1|]. destruct Hf1 as [Hf1 _], Hf3 as [[] Hs3]. split; [|exact Hs3].
    split; try done; symmetry; [apply (frame_broadcast _ _ Hf1)|apply (frame_targeted _ _ Hf1)].
  - intros p h Hsent. apply (was_sent_sends s2 s3); [done..|].
    by apply (was_sent_sends s s1).
  - intros p c h Hin Hh. apply (was_sent_sends s2 s3); [done..|]. exact (Hm1 p c h Hin Hh).
Qed.

Lemma sendPackets_spec s :
  tracker_ok s ->
  outcome_spec send_fault
    (fun s' => tracker_ok s' /\ Tracker.broadcast_packets_to_send_list s' = [] /\ stores_kept s s')
    (Tracker.sendPackets P s).
Proof.
  intros H. eapply outcome_spec_mono; [by apply sendPackets_sends| |done].
  intros s' (H' & Hb & [Hf _] & _). split_and!; [done..|]. apply frame_stores in Hf. exact Hf.
Qed.

(** *** Which connections a broadcast packet goes to *)

(** An entry for handle [h] at or after the entries of packet [p], in the
    order of the multimap: what the scan of [sendPackets] looks for. *)
Definition blocked (s : Tracker.t) (p h : Z) : bool :=
  existsb (fun item => (p <=? item.1) && is_handle s h item) (Tracker.packets_connections_sent_list s).

(** The data waiting for handle [h], to be notified or to be written. *)
Definition queued (s : Tracker.t) (slave : bool) (h : Z) : list bytes :=
  mm_values (if slave then Tracker.raw_packet_to_notify s else Tracker.raw_packet_to_write s) h.

(** Handle [h] is given packet [p], by notification or by writing. *)
Definition receives (s : Tracker.t) (p : Z) (slave : bool) (h : Z) : bool :=
  match Tracker.connections s !! h with
  | Some n =>
    Tracker.send_available (node_val n) && negb (blocked s p h) &&
    Bool.eqb slave (BleConnection.getRole (node_val n) =? HCI_ROLE_SLAVE)
  | None => false
  end.

Lemma existsb_elem_of {A} (f : A -> bool) (l1 l2 : list A) :
  (forall x, f x = true -> x ∈ l1 <-> x ∈ l2) -> existsb f l1 = existsb f l2.
Proof.
  intros Hl. apply eq_bool_prop_intro. rewrite !Is_true_true, !existsb_exists.
  setoid_rewrite <- list_elem_of_In. split; intros (x & Hx & Hf); exists x; by rewrite Hl in *.
Qed.

Lemma existsb_ext_in {A} (f g : A -> bool) (l : list A) :
  (forall x, x ∈ l -> f x = g x) -> existsb f l = existsb g l.
Proof.
  induction l as [|x l IH]; intros Hfg; [done|]. cbn. rewrite Hfg by set_solver.
  rewrite IH; [done|]. intros y Hy. apply Hfg. set_solver.
Qed.

(** The scan from [find(p)] to [end()] decides [blocked]. *)
Lemma scan_blocked s p c h :
  tracker_ok s -> (p, c) ∈ Tracker.packets_connections_sent_list s ->
  existsb (is_handle s h) (mm_find p (Tracker.packets_connections_sent_list s)) = blocked s p h.
Proof.
  intros H Hin. unfold blocked. set (l := Tracker.packets_connections_sent_list s) in *.
  assert (forall x, x ∈ mm_find p l <-> x ∈ l /\ (p <=? x.1) = true) as Hm.
  { intros x. rewrite elem_of_mm_find by (try apply (ok_sent_sorted s H); by eexists).
    unfold std_less, Z_less. split; intros [? ?]; split; try done; lia. }
  rewrite (existsb_ext_in _ (fun item => (p <=? item.1) && is_handle s h item) (mm_find p l)).
  - apply existsb_elem_of. intros x [Hx _]%andb_true_iff. rewrite Hm. tauto.
  - intros x [_ Hx]%Hm. by rewrite Hx.
Qed.

Lemma queued_deliver s key c data slave h :
  tracker_ok s ->
  queued (deliver s key c data) slave h =
    queued s slave h ++
      (if bool_decide (BleConnection.connection_handle c = h) &&
          Bool.eqb slave (BleConnection.getRole c =? HCI_ROLE_SLAVE) then [data] else []).
Proof.
  intros H. unfold deliver, queued. unfold BleConnection.getConnectionHandle.
  destruct (BleConnection.getRole c =? HCI_ROLE_SLAVE), slave; cbn;
    rewrite ?andb_false_r, ?app_nil_r, ?andb_true_r; try done;
    (case_bool_decide; [subst; apply mm_values_emplace_eq; by destruct H|
                        rewrite app_nil_r; by apply mm_values_emplace_ne]).
Qed.

(** The state after packet [p] went to the connection under handle [h]. *)
Definition sent_to (s : Tracker.t) (p h : Z) (n : node BleConnection.t) (data : bytes) : Tracker.t :=
  Tracker.mark_sent (deliver s h (node_val n) data) p (node_addr n).

Lemma sent_to_frame s p h n data : send_frame s (sent_to s p h n data).
Proof. etrans; [apply send_frame_deliver|]. apply send_frame_mark_sent. Qed.

Lemma sent_to_ok s p h n data :
  tracker_ok s -> p ∈ Tracker.packet_addrs s -> Tracker.connections s !! h = Some n ->
  tracker_ok (sent_to s p h n data).
Proof.
  intros H Hp Hn. pose proof (send_frame_deliver s h (node_val n) data) as Hf.
  apply ok_mark_sent; [| |by apply ok_deliver].
  - by rewrite (frame_packet_addrs _ _ Hf).
  - apply (frame_connection_addrs s); [done|]. by eapply map_addrs_lookup.
Qed.

Lemma sent_to_sent_list s p h n data :
  Tracker.packets_connections_sent_list (sent_to s p h n data) =
    mm_emplace p (node_addr n) (Tracker.packets_connections_sent_list s).
Proof. unfold sent_to, deliver. by destruct (_ =? HCI_ROLE_SLAVE). Qed.

Lemma available_handle s h n :
  tracker_ok s -> Tracker.connections s !! h = Some n ->
  Tracker.send_available (node_val n) = true ->
  BleConnection.connection_handle (node_val n) = h /\ handle_of s (node_addr n) = Some h.
Proof.
  intros H Hn [Hc _]%andb_true_iff. pose proof (ok_connected s H h n Hn Hc) as Hh. split; [done|].
  unfold handle_of. rewrite (node_at_lookup _ _ _ (ok_connections_inj s H) Hn). cbn. by rewrite Hh.
Qed.

(** Afterwards [h] is blocked for the packet, and nothing else changed. *)
Lemma blocked_sent_to s p h n data h' :
  tracker_ok s -> p ∈ Tracker.packet_addrs s -> Tracker.connections s !! h = Some n ->
  Tracker.send_available (node_val n) = true ->
  blocked (sent_to s p h n data) p h' = bool_decide (h = h') || blocked s p h'.
Proof.
  intros H Hp Hn Hav. pose proof (sent_to_ok s p h n data H Hp Hn) as H'.
  destruct (available_handle s h n H Hn Hav) as [_ Hh].
  unfold blocked. rewrite sent_to_sent_list.
  rewrite (existsb_elem_of _ _ ((p, node_addr n) :: Tracker.packets_connections_sent_list s))
    by (intros x _; rewrite elem_of_mm_emplace, elem_of_cons; done).
  cbn [existsb fst]. rewrite Z.leb_refl. cbn [andb].
  assert (forall x, is_handle (sent_to s p h n data) h' x = is_handle s h' x) as Hih.
  { intros x. unfold is_handle. by rewrite (handle_of_frame s _ _ H H' (sent_to_frame s p h n data)). }
  rewrite Hih. f_equal.
  - unfold is_handle. cbn. rewrite Hh. apply bool_decide_ext. split; congruence.
  - apply existsb_ext_in. intros x _. by rewrite Hih.
Qed.

Lemma receives_sent_to s p h n data slave h' :
  tracker_ok s -> p ∈ Tracker.packet_addrs s -> Tracker.connections s !! h = Some n ->
  Tracker.send_available (node_val n) = true ->
  receives (sent_to s p h n data) p slave h' = negb (bool_decide (h = h')) && receives s p slave h'.
Proof.
  intros H Hp Hn Hav. unfold receives. rewrite blocked_sent_to by done.
  destruct (Tracker.connections s !! h') as [n'|] eqn:E.
  - destruct (frame_lookup _ _ _ _ (sent_to_frame s p h n data) E) as [d ->]. cbn [node_val].
    change (Tracker.send_available (BleConnection.setHasData (node_val n') d))
      with (Tracker.send_available (node_val n')).
    change (BleConnection.getRole (BleConnection.setHasData (node_val n') d))
      with (BleConnection.getRole (node_val n')).
    rewrite negb_orb.
    destruct (bool_decide (h = h')), (Tracker.send_available (node_val n')), (blocked s p h'),
      (Bool.eqb slave _); done.
  - pose proof (frame_dom _ _ (sent_to_frame s p h n data)) as Hd.
    apply not_elem_of_dom in E. rewrite <- Hd in E. apply not_elem_of_dom in E. rewrite E.
    by rewrite andb_false_r.
Qed.

Lemma queued_sent_to s p h n data slave h' :
  tracker_ok s -> Tracker.connections s !! h = Some n -> blocked s p h = false ->
  Tracker.send_available (node_val n) = true ->
  queued (sent_to s p h n data) slave h' =
    queued s slave h' ++ (if bool_decide (h = h') && receives s p slave h' then [data] else []).
Proof.
  intros H Hn Hb Hav. destruct (available_handle s h n H Hn Hav) as [Hh _].
  change (queued (sent_to s p h n data) slave h') with (queued (deliver s h (node_val n) data) slave h').
  rewrite queued_deliver by done. rewrite Hh. f_equal. case_bool_decide; [subst h'|done].
  unfold receives. rewrite Hn, Hav, Hb. done.
Qed.

(** The sizes that [assert(0)] of [SendPacketToConnection] accepts. *)
Definition size_ok (s : Tracker.t) (data : bytes) : Prop :=
  forall h n, Tracker.connections s !! h = Some n -> Tracker.send_available (node_val n) = true ->
    zlen data <= BleConnection.getMtu (node_val n).

Lemma size_ok_sent_to s p h n data :
  size_ok s data -> size_ok (sent_to s p h n data) data.
Proof.
  intros Hs h' n' Hn' Hav. symmetry in Hn'.
  destruct (frame_lookup _ _ h' n' (symmetry (sent_to_frame s p h n data)) (eq_sym Hn')) as [d Hd].
  specialize (Hs _ _ Hd). cbn in Hs. apply Hs. done.
Qed.

(** One available connection: skipped when it is blocked, else sent to. *)
Lemma broadcast_to_step s p c pkt data h n handles :
  tracker_ok s -> Tracker.packet_at s p = Some pkt ->
  ProtocolWriter.writePacket (Tracker.peers s) [] (Some pkt) = Ret data ->
  (p, c) ∈ Tracker.packets_connections_sent_list s -> size_ok s data ->
  Tracker.connections s !! h = Some n -> Tracker.send_available (node_val n) = true ->
  Tracker.broadcast_to P s p (h :: handles) =
    if blocked s p h then Tracker.broadcast_to P s p handles
    else Tracker.broadcast_to P (sent_to s p h n data) p handles.
Proof.
  intros H Hp Hw Hin Hsz Hn Hav. cbn [Tracker.broadcast_to]. rewrite Hn, Hav.
  rewrite scan_sendable_spec by (intros ??; by apply mm_find_live). cbn [mbind outcome_bind andb].
  destruct (available_handle s h n H Hn Hav) as [Hhn _].
  unfold BleConnection.getConnectionHandle. rewrite Hhn, (scan_blocked s p c h) by done.
  destruct (blocked s p h) eqn:Hb; cbn [negb]; [done|].
  unfold Tracker.deref_packet. rewrite Hp. cbn [mbind outcome_bind].
  pose proof (SendPacketToConnection_cases s p pkt h n H Hp Hn) as Hsend. rewrite Hw in Hsend.
  replace (asserts_enabled P && (zlen data >? BleConnection.getMtu (node_val n))) with false in Hsend
    by (specialize (Hsz h n Hn Hav); symmetry; apply andb_false_iff; right; lia).
  destruct Hsend as [b ->]. done.
Qed.

(** A packet that cannot be written stops the round at the first connection it
    would be sent to. *)
Lemma broadcast_to_unwritable s p c pkt f handles h n :
  tracker_ok s -> Tracker.packet_at s p = Some pkt ->
  ProtocolWriter.writePacket (Tracker.peers s) [] (Some pkt) = Fault f ->
  (p, c) ∈ Tracker.packets_connections_sent_list s ->
  h ∈ handles -> Tracker.connections s !! h = Some n -> Tracker.send_available (node_val n) = true ->
  blocked s p h = false -> Tracker.broadcast_to P s p handles = Fault f.
Proof.
  intros H Hp Hw Hin Hh Hn Hav Hb. induction handles as [|h' handles IH]; [by apply elem_of_nil in Hh|].
  assert (h' <> h -> Tracker.broadcast_to P s p handles = Fault f) as IH'
    by (intros Hne; apply IH; apply elem_of_cons in Hh as [->|?]; done).
  assert (forall n' e, Tracker.SendPacketToConnection P s pkt n' = e -> e = Fault f) as Hsend.
  { intros n' e <-. unfold Tracker.SendPacketToConnection. by rewrite Hw. }
  cbn [Tracker.broadcast_to]. destruct (Tracker.connections s !! h') as [n'|] eqn:En'; [|apply IH'; congruence].
  destruct (Tracker.send_available (node_val n')) eqn:Hav'; [|apply IH'; congruence].
  rewrite scan_sendable_spec by (intros ??; by apply mm_find_live). cbn [mbind outcome_bind andb].
  destruct (available_handle s h' n' H En' Hav') as [Hhn _].
  unfold BleConnection.getConnectionHandle. rewrite Hhn, (scan_blocked s p c h') by done.
  destruct (blocked s p h') eqn:Hb'; cbn [negb]; [apply IH'; congruence|].
  unfold Tracker.deref_packet. rewrite Hp. cbn [mbind outcome_bind]. by rewrite (Hsend h' _ eq_refl).
Qed.

(** The connection under [h] is flagged as having data. *)
Definition flagged (s : Tracker.t) (h : Z) : Prop :=
  exists n, Tracker.connections s !! h = Some n /\ BleConnection.hasData (node_val n) = true.

Lemma flagged_sent_to s p h n data h' :
  Tracker.connections s !! h = Some n -> h' = h \/ flagged s h' -> flagged (sent_to s p h n data) h'.
Proof.
  intros Hn Hh. unfold flagged, sent_to, deliver.
  assert (forall s', Tracker.connections s' = Tracker.connections (Tracker.update_connection s h
    (fun c => BleConnection.setHasData c true)) -> flagged s' h') as Hf.
  { intros s' Hs'. unfold flagged. rewrite Hs'. cbn. destruct (decide (h' = h)) as [->|Hne].
    - rewrite lookup_alter_eq, Hn. cbn. by eexists.
    - destruct Hh as [?|Hh]; [done|]. by rewrite lookup_alter_ne by done. }
  destruct (_ =? HCI_ROLE_SLAVE); by apply Hf.
Qed.

Lemma broadcast_to_delivers s p c pkt data handles :
  tracker_ok s -> Tracker.packet_at s p = Some pkt ->
  ProtocolWriter.writePacket (Tracker.peers s) [] (Some pkt) = Ret data ->
  (p, c) ∈ Tracker.packets_connections_sent_list s -> size_ok s data -> NoDup handles ->
  exists s', Tracker.broadcast_to P s p handles = Ret s' /\
    (forall slave h, queued s' slave h =
       queued s slave h ++ (if bool_decide (h ∈ handles) && receives s p slave h then [data] else [])) /\
    (forall slave h, flagged s h \/ h ∈ handles /\ receives s p slave h = true -> flagged s' h).
Proof.
  revert s c. induction handles as [|h handles IH]; intros s c H Hp Hw Hin Hsz Hnd.
  { exists s. split_and!; [done|intros; by rewrite app_nil_r|]. intros ?? [?|[?%elem_of_nil _]]; done. }
  apply NoDup_cons in Hnd as [Hh Hnd].
  assert (p ∈ Tracker.packet_addrs s) as Hpa by (apply packet_at_live; by eexists).
  assert ((forall slave, receives s p slave h = false) ->
    (exists s', Tracker.broadcast_to P s p handles = Ret s' /\
      (forall slave h', queued s' slave h' = queued s slave h' ++
        (if bool_decide (h' ∈ h :: handles) && receives s p slave h' then [data] else [])) /\
      (forall slave h', flagged s h' \/ h' ∈ h :: handles /\ receives s p slave h' = true ->
         flagged s' h'))) as Hskip.
  { intros Hr. destruct (IH s c) as (s' & E & Hq & Hfl); [done..|]. exists s'. split_and!; [done|..].
    - intros slave h'. rewrite Hq. f_equal. destruct (decide (h' = h)) as [->|Hne].
      + by rewrite Hr, !andb_false_r.
      + by rewrite (bool_decide_ext (h' ∈ h :: handles) (h' ∈ handles)) by set_solver.
    - intros slave h' [Hf|[[->|Hin']%elem_of_cons Hrc]]; [by apply (Hfl slave); left|congruence|].
      apply (Hfl slave). by right. }
  destruct (Tracker.connections s !! h) as [n|] eqn:Hn;
    [|cbn; rewrite Hn; apply Hskip; intros; unfold receives; by rewrite Hn].
  destruct (Tracker.send_available (node_val n)) eqn:Hav;
    [|cbn; rewrite Hn, Hav; apply Hskip; intros; unfold receives; by rewrite Hn, Hav].
  rewrite (broadcast_to_step s p c pkt data h n) by done.
  destruct (blocked s p h) eqn:Hb; [apply Hskip; intros; unfold receives; by rewrite Hn, Hav, Hb|].
  pose proof (sent_to_frame s p h n data) as Hf.
  destruct (IH (sent_to s p h n data) (node_addr n)) as (s' & E & Hq & Hfl).
  - by apply sent_to_ok.
  - by rewrite (frame_packet_at _ _ _ Hf).
  - by rewrite (frame_peers _ _ Hf).
  - rewrite sent_to_sent_list, elem_of_mm_emplace. by left.
  - by apply size_ok_sent_to.
  - done.
  - exists s'. split_and!; [done| |].
    2:{ intros slave h' Hfh. destruct (decide (h' = h)) as [->|Hne].
        { apply (Hfl slave). left. apply flagged_sent_to; auto. }
        apply (Hfl slave). destruct Hfh as [Hf'|[[?|Hin']%elem_of_cons Hrc]]; [|done|].
        - left. apply flagged_sent_to; auto.
        - right. split; [done|]. rewrite receives_sent_to by done.
          by rewrite bool_decide_false. }
    intros slave h'. rewrite Hq.
    rewrite queued_sent_to, receives_sent_to by done. rewrite <- app_assoc. f_equal.
    destruct (decide (h = h')) as [<-|Hne].
    + rewrite (bool_decide_true (h = h)), (bool_decide_false (h ∈ handles)),
        (bool_decide_true (h ∈ h :: handles)) by set_solver. cbn. by rewrite app_nil_r.
    + rewrite (bool_decide_false (h = h')) by done. cbn.
      by rewrite (bool_decide_ext (h' ∈ h :: handles) (h' ∈ handles)) by set_solver.
Qed.

End sending.

(** With one packet to broadcast and nothing targeted. *)
Lemma sendPackets_single P s p s' :
  Tracker.broadcast_packets_to_send_list s = [p] -> Tracker.targeted_packets_to_send_list s = [] ->
  Tracker.broadcast_to P s p (map_sorted (Tracker.connections s)).*1 = Ret s' ->
  exists l, Tracker.sendPackets P s = Ret (Tracker.set_broadcast_packets_to_send_list s' l).
Proof.
  intros Hb Ht Hs'. rewrite sendPackets_work by (rewrite Hb; naive_solver).
  rewrite Ht. cbn [Tracker.send_targeted mbind outcome_bind]. rewrite Ht.
  replace (Tracker.set_targeted_packets_to_send_list s _) with s
    by (destruct s; cbn in *; by subst).
  cbv zeta. rewrite Hb. cbn [Tracker.send_broadcast]. rewrite Hs'. cbn [mbind outcome_bind]. eauto.
Qed.

Lemma sendPackets_single_fault P s p f :
  Tracker.broadcast_packets_to_send_list s = [p] -> Tracker.targeted_packets_to_send_list s = [] ->
  Tracker.broadcast_to P s p (map_sorted (Tracker.connections s)).*1 = Fault f ->
  Tracker.sendPackets P s = Fault f.
Proof.
  intros Hb Ht Hs'. rewrite sendPackets_work by (rewrite Hb; naive_solver).
  rewrite Ht. cbn [Tracker.send_targeted mbind outcome_bind]. rewrite Ht.
  replace (Tracker.set_targeted_packets_to_send_list s _) with s
    by (destruct s; cbn in *; by subst).
  cbv zeta. rewrite Hb. cbn [Tracker.send_broadcast]. by rewrite Hs'.
Qed.

Lemma sendPackets_single_delivers P s p c pkt data :
  tracker_ok s -> Tracker.broadcast_packets_to_send_list s = [p] ->
  Tracker.targeted_packets_to_send_list s = [] -> Tracker.packet_at s p = Some pkt ->
  ProtocolWriter.writePacket (Tracker.peers s) [] (Some pkt) = Ret data ->
  (p, c) ∈ Tracker.packets_connections_sent_list s -> size_ok s data ->
  exists s', Tracker.sendPackets P s = Ret s' /\
    (forall slave h, queued s' slave h =
       queued s slave h ++ (if receives s p slave h then [data] else [])) /\
    (forall slave h, receives s p slave h = true -> flagged s' h).
Proof.
  intros H Hb Ht Hp Hw Hin Hsz.
  assert (forall slave h, receives s p slave h = true -> h ∈ (map_sorted (Tracker.connections s)).*1) as Hr.
  { intros slave h Hr. unfold receives in Hr. destruct (Tracker.connections s !! h) as [n|] eqn:E; [|done].
    apply list_elem_of_fmap. exists (h, n). split; [done|]. by apply elem_of_map_sorted. }
  destruct (broadcast_to_delivers P s p c pkt data (map_sorted (Tracker.connections s)).*1)
    as (s' & E & Hq & Hfl); try done.
  { apply NoDup_map_sorted. }
  destruct (sendPackets_single P s p s' Hb Ht E) as [l ->]. eexists. split_and!; [done|..].
  - intros slave h. change (queued (Tracker.set_broadcast_packets_to_send_list s' l) slave h)
      with (queued s' slave h).
    rewrite Hq. f_equal. destruct (receives s p slave h) eqn:Er; [|by rewrite andb_false_r].
    by rewrite bool_decide_true by eauto.
  - intros slave h Hrc. apply (Hfl slave). eauto.
Qed.

Lemma blocked_intro s p q c h :
  (q, c) ∈ Tracker.packets_connections_sent_list s -> p <= q -> handle_of s c = Some h ->
  blocked s p h = true.
Proof.
  intros Hin Hle Hh. unfold blocked. apply existsb_exists. exists (q, c).
  rewrite <- list_elem_of_In. split; [done|]. unfold is_handle. cbn. rewrite Hh.
  rewrite bool_decide_true by done. rewrite andb_true_r. lia.
Qed.

Lemma blocked_receives s p slave h : blocked s p h = true -> receives s p slave h = false.
Proof.
  intros Hb. unfold receives. rewrite Hb. destruct (Tracker.connections s !! h); [|done].
  by rewrite andb_false_r.
Qed.

(** ** Properties *)

(** A connection as [reportConnection], the notification request and the MTU
    exchange leave it. *)
Definition demo_connection (h role : Z) : BleConnection.t :=
  BleConnection.setMtu
    (BleConnection.setBitchatCharacteristicValueHandle
       (BleConnection.setRole
          (BleConnection.setConnected (BleConnection.setConnectionHandle BleConnection.make h) true)
          role) 9) 512.

Definition demo_packet : PacketPassAlong.t :=
  PacketPassAlong.setPayload (PacketPassAlong.make 0x05 7 1755685600000 0 0x1122334455667788 0 [])
    [1; 2; 3].

(** Three connections; the packet came from the first one. *)
Definition demo_sender : Tracker.t :=
  let s := Tracker.make 1 in
  let s := Tracker.set_connections s
    (<[64 := mkNode 11 (demo_connection 64 HCI_ROLE_SLAVE)]>
     (<[65 := mkNode 12 (demo_connection 65 HCI_ROLE_SLAVE)]>
      (<[66 := mkNode 13 (demo_connection 66 HCI_ROLE_MASTER)]> ∅))) in
  let s := Tracker.set_packets s {[ 7 := mkNode 100 demo_packet ]} in
  let s := Tracker.set_packets_connections_sent_list s [(100, 11)] in
  Tracker.set_broadcast_packets_to_send_list s [100].

Definition demo_packet_wire : bytes :=
  wire (PacketPassAlong.base demo_packet) (PacketPassAlong.payload demo_packet).

Lemma demo_sender_ok : tracker_ok demo_sender.
Proof. check_ok. Qed.

Lemma demo_sender_size : size_ok demo_sender demo_packet_wire.
Proof.
  intros h n Hn _. unfold demo_sender in Hn. cbn in Hn.
  repeat (apply lookup_insert_Some in Hn as [[_ <-]|[_ Hn]]; [vm_compute; discriminate|]).
  by rewrite lookup_empty in Hn.
Qed.

(** C9. Sending follows no dangling pointer: from a well-formed tracker,
    [sendPackets] either returns a well-formed tracker with an empty broadcast
    queue, the stores and the set of connections unchanged, or stops at one of
    two faults: a message without its sender's peer, or a packet larger than
    the MTU in a build with assertions. *)
Theorem sendPackets_safe P s :
  tracker_ok s ->
  outcome_spec send_fault
    (fun s' => tracker_ok s' /\ Tracker.broadcast_packets_to_send_list s' = [] /\ stores_kept s s')
    (Tracker.sendPackets P s).
Proof. apply sendPackets_spec. Qed.

Lemma sendPackets_safe_witness :
  outcome_spec send_fault
    (fun s' => tracker_ok s' /\ Tracker.broadcast_packets_to_send_list s' = [] /\
               stores_kept demo_sender s')
    (Tracker.sendPackets (demo_platform 1000) demo_sender).
Proof. apply (sendPackets_safe (demo_platform 1000) demo_sender). exact demo_sender_ok. Defined.

(** C7. Flooding: when one packet is queued for broadcast and none for single
    connections, the packet has an entry of its own in the sent list (it came
    from some connection) and its block fits the MTU of the available
    connections, then one round of sending queues it exactly once for every available connection, by notification or by writing
    according to its role, unless the sent list holds an entry for that
    connection's handle at or after the packet's own entries; nothing is
    queued for any other handle. *)
Theorem broadcast_recipients P s p c pkt data :
  tracker_ok s -> Tracker.broadcast_packets_to_send_list s = [p] ->
  Tracker.targeted_packets_to_send_list s = [] -> Tracker.packet_at s p = Some pkt ->
  ProtocolWriter.writePacket (Tracker.peers s) [] (Some pkt) = Ret data ->
  (p, c) ∈ Tracker.packets_connections_sent_list s -> size_ok s data ->
  exists s', Tracker.sendPackets P s = Ret s' /\
    forall slave h, queued s' slave h =
      queued s slave h ++ (if receives s p slave h then [data] else []).
Proof.
  intros H Hb Ht Hp Hw Hin Hsz.
  destruct (sendPackets_single_delivers P s p c pkt data) as (s' & E & Hq & _); eauto.
Qed.

Lemma broadcast_recipients_witness :
  exists s', Tracker.sendPackets (demo_platform 1000) demo_sender = Ret s' /\
    forall slave h, queued s' slave h =
      queued demo_sender slave h ++
        (if receives demo_sender 100 slave h then [demo_packet_wire] else []).
Proof.
  apply (broadcast_recipients (demo_platform 1000) demo_sender 100 11 (PktPassAlong demo_packet)
           demo_packet_wire);
    [exact demo_sender_ok|reflexivity|reflexivity|vm_compute; reflexivity|vm_compute; reflexivity
    |apply list_elem_of_here|exact demo_sender_size].
Defined.

(** C34. The scan for recipients runs past the entries of the packet: a
    connection that was sent any packet stored at a higher address is not sent
    this one (the only one queued, with an entry of its own in the sent list),
    although it never had it. *)
Theorem broadcast_suppressed_by_later_packet P s p c pkt data q c' h :
  tracker_ok s -> Tracker.broadcast_packets_to_send_list s = [p] ->
  Tracker.targeted_packets_to_send_list s = [] -> Tracker.packet_at s p = Some pkt ->
  ProtocolWriter.writePacket (Tracker.peers s) [] (Some pkt) = Ret data ->
  (p, c) ∈ Tracker.packets_connections_sent_list s -> size_ok s data ->
  (q, c') ∈ Tracker.packets_connections_sent_list s -> p < q -> handle_of s c' = Some h ->
  (forall c'', (p, c'') ∈ Tracker.packets_connections_sent_list s -> handle_of s c'' <> Some h) ->
  exists s', Tracker.sendPackets P s = Ret s' /\ forall slave, queued s' slave h = queued s slave h.
Proof.
  intros H Hb Ht Hp Hw Hin Hsz Hin' Hlt Hh _.
  destruct (sendPackets_single_delivers P s p c pkt data) as (s' & E & Hq & _); try done.
  exists s'. split; [done|]. intros slave. rewrite Hq, blocked_receives, app_nil_r; [done|].
  eapply blocked_intro; [exact Hin'|lia|done].
Qed.

(** The announce, stored above the packet, went to the second connection. *)
Definition demo_suppressed : Tracker.t :=
  Tracker.set_packets_connections_sent_list
    (Tracker.set_announce demo_sender (mkNode 200 Announce.make)) [(100, 11); (200, 12)].

Lemma broadcast_suppressed_by_later_packet_witness :
  exists s', Tracker.sendPackets (demo_platform 1000) demo_suppressed = Ret s' /\
    forall slave, queued s' slave 65 = queued demo_suppressed slave 65.
Proof.
  apply (broadcast_suppressed_by_later_packet (demo_platform 1000) demo_suppressed 100 11
           (PktPassAlong demo_packet) demo_packet_wire 200 12 65);
    [check_ok|reflexivity|reflexivity|vm_compute; reflexivity|vm_compute; reflexivity
    |apply list_elem_of_here|exact demo_sender_size|apply list_elem_of_further, list_elem_of_here
    |lia|vm_compute; reflexivity|].
  intros c'' Hin. unfold demo_suppressed in Hin. cbn in Hin.
  apply elem_of_cons in Hin as [[= ->]|Hin]; [vm_compute; discriminate|].
  apply list_elem_of_singleton in Hin. discriminate Hin.
Defined.
