(* ===== verification/Announcing.v ===== *)
(** * Announcing the repeater

    [announceToConnections] of BLE/BleConnectionTracker.cpp: which connections
    the repeater introduces itself to, and that a connection it was introduced
    to by [sendPackets] is not targeted again. *)

From stdpp Require Import base numbers list gmap sorting.
From Stdlib Require Import ZArith Lia.
From S2P Require Import Prelude Platform Containers BinaryIO Packets ProtocolWriter BleConnection.
From S2P Require Import Tracker TrackerInv Sending.

(** ** Who is announced to *)

(** The announce was sent to a connection with the handle. *)
Definition announced (s : Tracker.t) (h : Z) : bool :=
  existsb (is_handle s h)
    (mm_equal_range (node_addr (Tracker.announce s)) (Tracker.packets_connections_sent_list s)).

(** A connection the loop queues the announce for. *)
Definition wants_announce (s : Tracker.t) (n : node BleConnection.t) : bool :=
  Tracker.announce_available s (node_val n) &&
  negb (announced s (BleConnection.connection_handle (node_val n))).

Lemma no_match_announced s h :
  tracker_ok s ->
  Tracker.no_match s h (mm_equal_range (node_addr (Tracker.announce s))
    (Tracker.packets_connections_sent_list s)) = Ret (negb (announced s h)).
Proof. intros H. apply no_match_spec. intros p c. by apply equal_range_live. Qed.

Section announcing.
Context (P : Platform) `{!PlatformLaws P}.

(** The targeted queue after the announce was queued for the connections under
    the given handles that want it. *)
Fixpoint enqueue_announce (s : Tracker.t) (handles : list Z) (l : list (Z * Z)) : list (Z * Z) :=
  match handles with
  | [] => l
  | h :: handles' =>
    match Tracker.connections s !! h with
    | Some n =>
      enqueue_announce s handles'
        (if wants_announce s n then mm_emplace (node_addr (Tracker.announce s)) (node_addr n) l else l)
    | None => enqueue_announce s handles' l
    end
  end.

Lemma elem_of_enqueue_announce s handles : forall l x,
  x ∈ enqueue_announce s handles l <->
  x ∈ l \/ exists h n, h ∈ handles /\ Tracker.connections s !! h = Some n /\
    wants_announce s n = true /\ x = (node_addr (Tracker.announce s), node_addr n).
Proof.
  induction handles as [|h handles IH]; intros l x; cbn [enqueue_announce].
  { split; [by left|]. intros [?|(? & ? & Hin & _)]; [done|by apply elem_of_nil in Hin]. }
  assert (forall Q, (exists h' n, h' ∈ h :: handles /\ Tracker.connections s !! h' = Some n /\ Q n) <->
    (exists n, Tracker.connections s !! h = Some n /\ Q n) \/
    (exists h' n, h' ∈ handles /\ Tracker.connections s !! h' = Some n /\ Q n)) as Hcons
    by (intros Q; setoid_rewrite elem_of_cons; naive_solver).
  rewrite Hcons. clear Hcons. destruct (Tracker.connections s !! h) as [n|] eqn:En; rewrite IH.
  - assert (forall Q : node BleConnection.t -> Prop, (exists n', Some n = Some n' /\ Q n') <-> Q n) as ->
      by (intros Q; split; [by intros (? & [= <-] & ?)|by exists n]).
    destruct (wants_announce s n) eqn:Ew; rewrite ?elem_of_mm_emplace; tauto || intuition congruence.
  - split; [tauto|]. intros [?|[(? & ? & _)|?]]; [by left|done|by right].
Qed.

(** The tracker with another announce packet at the same address and another
    targeted queue. *)
Definition with_announce (s : Tracker.t) (a : Announce.t) (l : list (Z * Z)) : Tracker.t :=
  Tracker.set_targeted_packets_to_send_list
    (Tracker.set_announce s (mkNode (node_addr (Tracker.announce s)) a)) l.

Definition announce_ttl (s : Tracker.t) : Z :=
  PacketBase.packet_ttl (Announce.base (node_val (Tracker.announce s))).

Lemma with_announce_set s a :
  Tracker.set_announce s (mkNode (node_addr (Tracker.announce s)) a) =
    with_announce s a (Tracker.targeted_packets_to_send_list s).
Proof. by destruct s. Qed.

Lemma with_announce_id s :
  with_announce s (node_val (Tracker.announce s)) (Tracker.targeted_packets_to_send_list s) = s.
Proof. by destruct s as [? ? ? [a0 v0] ? ? ? ? ? ? ? ? ? ? ? ?]. Qed.

Lemma enqueue_announce_with s a l0 handles l :
  enqueue_announce (with_announce s a l0) handles l = enqueue_announce s handles l.
Proof.
  revert l. induction handles as [|h handles IH]; intros l; [done|]. cbn [enqueue_announce].
  change (Tracker.connections (with_announce s a l0)) with (Tracker.connections s).
  destruct (Tracker.connections s !! h); rewrite IH; done.
Qed.

(** A connected connection is found under its own handle. *)
Lemma enqueueTargeted_available s h n :
  tracker_ok s -> Tracker.connections s !! h = Some n ->
  Tracker.announce_available s (node_val n) = true ->
  0 < PacketBase.packet_ttl (Announce.base (node_val (Tracker.announce s))) ->
  Tracker.enqueueTargetedPacket P s (node_addr (Tracker.announce s)) (node_val n) =
    Ret (with_announce s (node_val (Tracker.announce s))
      (mm_emplace (node_addr (Tracker.announce s)) (node_addr n) (Tracker.targeted_packets_to_send_list s))).
Proof.
  intros H Hn Ha Ht. unfold Tracker.enqueueTargetedPacket, Tracker.deref_packet, Tracker.packet_at.
  rewrite decide_True by done. cbn [mbind outcome_bind packet_base].
  rewrite (proj2 (Z.gtb_lt _ 0)) by done. unfold Tracker.announce_available in Ha.
  apply andb_true_iff in Ha as [[Hc _]%andb_true_iff _].
  unfold Tracker.connectionForConnHandle, BleConnection.getConnectionHandle.
  rewrite (ok_connected s H h n Hn Hc), Hn. unfold with_announce.
  destruct s as [? ? ? [a0 v0] ? ? ? ? ? ? ? ? ? ? ? ?]. done.
Qed.

Lemma announce_loop_spec handles : forall s k,
  tracker_ok s -> 0 < announce_ttl s ->
  exists a, PacketBase.packet_ttl (Announce.base a) = announce_ttl s /\
    Tracker.announce_loop P s handles k =
      Ret (with_announce s a (enqueue_announce s handles (Tracker.targeted_packets_to_send_list s))).
Proof.
  induction handles as [|h handles IH]; intros s k H Ht; cbn [Tracker.announce_loop enqueue_announce].
  { exists (node_val (Tracker.announce s)). by rewrite with_announce_id. }
  destruct (Tracker.connections s !! h) as [n|] eqn:En; [|by apply IH].
  unfold wants_announce. destruct (Tracker.announce_available s (node_val n)) eqn:Ea; [|by apply IH].
  unfold BleConnection.getConnectionHandle at 1. rewrite no_match_announced by done. cbn [mbind outcome_bind andb].
  destruct (negb _); [|by apply IH]. cbv zeta.
  set (s1 := Tracker.set_announce s _).
  assert (tracker_ok s1) as H1 by by apply ok_set_announce.
  pose proof (enqueueTargeted_available s1 h n H1 En Ea Ht) as Eq.
  change (node_addr (Tracker.announce s1)) with (node_addr (Tracker.announce s)) in Eq |- *.
  rewrite Eq. cbn [mbind outcome_bind].
  set (s2 := with_announce s1 _ _).
  assert (tracker_ok s2) as H2.
  { destruct (ok_enqueueTargetedPacket P s1 (node_addr (Tracker.announce s1)) (node_val n)) as (s2' & E2 & H2 & _);
      [apply announce_live|done|]. change (node_addr (Tracker.announce s1)) with (node_addr (Tracker.announce s)) in E2.
    rewrite Eq in E2. by injection E2 as <-. }
  destruct (IH s2 (S k) H2 Ht) as (a & Ha & E). exists a. split; [exact Ha|]. rewrite E. unfold s2.
  rewrite enqueue_announce_with. unfold s1. rewrite with_announce_set, enqueue_announce_with. done.
Qed.

(** The first call fills in the announce packet; its time to live marks it as
    filled in. *)
Lemma setupAnnounceIfNeeded_spec s :
  exists a, PacketBase.packet_ttl (Announce.base a) = 3 /\
    Tracker.setupAnnounceIfNeeded P s =
      Ret (with_announce s a (Tracker.targeted_packets_to_send_list s)).
Proof.
  unfold Tracker.setupAnnounceIfNeeded. destruct (Z.eqb_spec (PacketBase.getPacketTtl
    (Announce.base (node_val (Tracker.announce s)))) 3) as [Ht|_].
  { exists (node_val (Tracker.announce s)). by rewrite with_announce_id. }
  destruct (gap_local_bd_addr_ok (P := P)) as [_ Hl].
  unfold Tracker.repeater_name. rewrite write_data_all by done. cbn [mbind outcome_bind].
  destruct (buf_get_in_bounds (gap_local_bd_addr P) (BD_ADDR_LEN - 2)) as (b4 & -> & _);
    [unfold zlen; rewrite Hl; done|].
  destruct (buf_get_in_bounds (gap_local_bd_addr P) (BD_ADDR_LEN - 1)) as (b5 & -> & _);
    [unfold zlen; rewrite Hl; done|].
  cbn [mbind outcome_bind]. rewrite with_announce_set. eexists. split; [|reflexivity]. done.
Qed.

Lemma announceToConnections_spec s :
  tracker_ok s ->
  exists a, PacketBase.packet_ttl (Announce.base a) = 3 /\
    Tracker.announceToConnections P s =
      Ret (with_announce s a (enqueue_announce s (map_sorted (Tracker.connections s)).*1
        (Tracker.targeted_packets_to_send_list s))).
Proof.
  intros H. destruct (setupAnnounceIfNeeded_spec s) as (a0 & Ht & E).
  destruct (ok_setupAnnounceIfNeeded P s H) as (s1 & E1 & H1). rewrite E in E1. injection E1 as <-.
  unfold Tracker.announceToConnections. rewrite E. cbn [mbind outcome_bind].
  destruct (announce_loop_spec (map_sorted (Tracker.connections s)).*1 _ 0 H1) as (a & Ha & Ea);
    [unfold announce_ttl; cbn; lia|].
  exists a. split; [by rewrite Ha|]. etrans; [exact Ea|]. rewrite enqueue_announce_with. done.
Qed.

(** Nobody wants the announce: nothing is queued. *)
Lemma enqueue_announce_none s handles l :
  (forall h n, Tracker.connections s !! h = Some n -> wants_announce s n = false) ->
  enqueue_announce s handles l = l.
Proof.
  intros Hn. induction handles as [|h handles IH]; cbn; [done|].
  destruct (Tracker.connections s !! h) as [n|] eqn:E; [|done]. by rewrite (Hn h n E).
Qed.

End announcing.

(** ** Properties *)

(** C16. Who the repeater introduces itself to: from a well-formed tracker
    [announceToConnections] fills in the announce packet with time to live 3
    and queues it for exactly the connections that are connected, have a known
    characteristic and were not sent the announce under their handle, provided
    the clock has been set; the other entries of the queue stay, and the
    connections and the list of what was sent are unchanged. *)
Theorem announce_recipients P `{!PlatformLaws P} s :
  tracker_ok s ->
  exists s', Tracker.announceToConnections P s = Ret s' /\
    announce_ttl s' = 3 /\
    Tracker.connections s' = Tracker.connections s /\
    Tracker.packets_connections_sent_list s' = Tracker.packets_connections_sent_list s /\
    forall x, x ∈ Tracker.targeted_packets_to_send_list s' <->
      x ∈ Tracker.targeted_packets_to_send_list s \/
      exists h n, Tracker.connections s !! h = Some n /\ wants_announce s n = true /\
        x = (node_addr (Tracker.announce s), node_addr n).
Proof.
  intros H. destruct (announceToConnections_spec P s H) as (a & Ha & E). eexists. split; [exact E|].
  split_and!; [exact Ha|done..|]. intros x. cbn. rewrite elem_of_enqueue_announce.
  split; (intros [?|(h & n & Hx)]; [by left|]); right; exists h, n; [naive_solver|].
  split; [|done]. destruct Hx as [Hn _]. apply list_elem_of_fmap. exists (h, n). split; [done|].
  by apply elem_of_map_sorted.
Qed.

Lemma announced_was_sent s h :
  announced s h = true <-> was_sent s (node_addr (Tracker.announce s)) h.
Proof. apply sent_in_range. Qed.

(** After a round of announcing and sending everyone available was sent the
    announce. *)
Lemma everyone_announced P `{!PlatformLaws P} s s1 s2 h n :
  tracker_ok s -> Tracker.announceToConnections P s = Ret s1 -> Tracker.sendPackets P s1 = Ret s2 ->
  Tracker.connections s2 !! h = Some n -> Tracker.announce_available s2 (node_val n) = true ->
  tracker_ok s2 /\ announced s2 (BleConnection.connection_handle (node_val n)) = true.
Proof.
  intros H E1 E2 Hn Ha. destruct (announceToConnections_spec P s H) as (a & _ & E).
  destruct (ok_announceToConnections P s H) as (s1' & E' & H1). rewrite E in E1, E'. simplify_eq.
  set (s1 := with_announce s a _) in *.
  destruct (outcome_spec_Ret _ _ _ _ (sendPackets_sends P s1 H1) E2) as (H2 & _ & Hs & Hkept & Hm).
  split; [done|]. pose proof (sends_frame _ _ Hs) as Hf.
  destruct (frame_lookup (with_queues s1 s2) s1 h n (send_frame_sym _ _ Hf) Hn) as [d Hd].
  set (n1 := mkNode _ _) in Hd.
  assert (node_addr (Tracker.announce s2) = node_addr (Tracker.announce s)) as Haddr
    by (by rewrite (frame_announce _ _ Hf : Tracker.announce s2 = Tracker.announce s1)).
  assert (Tracker.announce_available s (node_val n1) = true) as Ha1.
  { revert Ha. unfold Tracker.announce_available.
    by rewrite (frame_offset _ _ Hf : Tracker.timestamp_offset_ms s2 = Tracker.timestamp_offset_ms s). }
  apply announced_was_sent. rewrite Haddr.
  set (k := BleConnection.connection_handle (node_val n)).
  assert (handle_of s1 (node_addr n1) = Some k) as Hk.
  { unfold handle_of. by rewrite (node_at_lookup _ _ _ (ok_connections_inj s1 H1) Hd). }
  destruct (announced s k) eqn:Eq.
  - apply Hkept. apply (announced_was_sent s) in Eq. exact Eq.
  - apply (Hm _ (node_addr n1)); [|done]. cbn. apply elem_of_enqueue_announce. right. exists h, n1.
    split_and!; [|done| |done].
    + apply list_elem_of_fmap. exists (h, n1). split; [done|]. by apply elem_of_map_sorted.
    + unfold wants_announce. rewrite Ha1. cbn. fold k. by rewrite Eq.
Qed.

(** C17. The repeater introduces itself once: after a round of announcing and
    sending, every connection a further announcement could go to has been sent
    the announce under its handle, and announcing again queues nothing. *)
Theorem announced_once P `{!PlatformLaws P} s s1 s2 :
  tracker_ok s ->
  Tracker.announceToConnections P s = Ret s1 ->
  Tracker.sendPackets P s1 = Ret s2 ->
  (forall h n, Tracker.connections s2 !! h = Some n ->
     Tracker.announce_available s2 (node_val n) = true -> announced s2 h = true) /\
  exists s3, Tracker.announceToConnections P s2 = Ret s3 /\
    Tracker.targeted_packets_to_send_list s3 = Tracker.targeted_packets_to_send_list s2.
Proof.
  intros H E1 E2.
  destruct (ok_announceToConnections P s H) as (s1' & E1' & H1). rewrite E1 in E1'. injection E1' as <-.
  destruct (outcome_spec_Ret _ _ _ _ (sendPackets_sends P s1 H1) E2) as [H2 _].
  split.
  - intros h n Hn Ha. destruct (everyone_announced P s s1 s2 h n) as [_ Hann]; [done..|].
    apply andb_true_iff in Ha as [[Hc _]%andb_true_iff _]. by rewrite (ok_connected s2 H2 h n Hn Hc) in Hann.
  - destruct (announceToConnections_spec P s2 H2) as (a & _ & E3). eexists. split; [exact E3|].
    cbn. apply enqueue_announce_none. intros h n Hn. unfold wants_announce.
    destruct (Tracker.announce_available s2 (node_val n)) eqn:Ha; [|done].
    by destruct (everyone_announced P s s1 s2 h n) as [_ ->].
Qed.

(** Two connections, the second without a known characteristic; the clock is
    set. *)
Definition demo_announcing : Tracker.t :=
  let s := Tracker.make 1 in
  let s := Tracker.set_connections s
    (<[64 := mkNode 11 (demo_connection 64 HCI_ROLE_SLAVE)]>
     (<[65 := mkNode 12 (BleConnection.setBitchatCharacteristicValueHandle
                           (demo_connection 65 HCI_ROLE_SLAVE) 0)]> ∅)) in
  Tracker.set_timestamp_offset_ms s (build_time_ms + 1).

Lemma announce_recipients_witness :
  exists s', Tracker.announceToConnections (demo_platform 1000) demo_announcing = Ret s' /\
    Tracker.targeted_packets_to_send_list s' = [(1, 11)].
Proof.
  destruct (@announce_recipients (demo_platform 1000) (demo_platform_laws 1000 ltac:(lia)) demo_announcing) as (s' & E & _); [check_ok|].
  exists s'. split; [exact E|]. vm_compute in E. injection E as <-. reflexivity.
Defined.

Lemma announced_once_witness :
  exists s1 s2 s3, Tracker.announceToConnections (demo_platform 1000) demo_announcing = Ret s1 /\
    Tracker.sendPackets (demo_platform 1000) s1 = Ret s2 /\
    Tracker.announceToConnections (demo_platform 1000) s2 = Ret s3 /\
    Tracker.targeted_packets_to_send_list s3 = Tracker.targeted_packets_to_send_list s2.
Proof.
  destruct (Tracker.announceToConnections (demo_platform 1000) demo_announcing) as [s1|] eqn:E1;
    [|vm_compute in E1; discriminate].
  destruct (Tracker.sendPackets (demo_platform 1000) s1) as [s2|] eqn:E2;
    [|vm_compute in E1; injection E1 as <-; vm_compute in E2; discriminate].
  destruct (@announced_once (demo_platform 1000) (demo_platform_laws 1000 ltac:(lia)) demo_announcing s1 s2) as [_ (s3 & E3 & Et)];
    [check_ok|exact E1|exact E2|].
  exists s1, s2, s3. auto.
Defined.
