(* ===== verification/Flooding.v ===== *)
(** * Sending as flooding

    An abstract specification of [sendPackets] (BLE/BleConnectionTracker.cpp)
    on sets of deliveries, without pointers, buffers and queues of bytes, and
    the proof that the tracker implements it: a round delivers nothing twice,
    and leaves no connection without a broadcast packet unless the connection
    was given one stored behind it. *)

From stdpp Require Import base numbers list gmap sets sorting.
From Stdlib Require Import ZArith Lia.
From S2P Require Import Prelude Platform Containers BinaryIO Packets ProtocolWriter BleConnection.
From S2P Require Import Tracker TrackerInv Sending.

(** ** The specification *)

Module Flood.

(** Which packet went to which handle. *)
Abbreviation record := (gset (Z * Z)).

(** A handle, and whether it is reached by notification or by writing. *)
Abbreviation link := (Z * bool)%type.

(** A packet goes to a link. *)
Abbreviation delivery := (Z * link)%type.

(** The rule for targeted packets: the handle was given the packet. *)
Definition given (sent : record) (p h : Z) : bool := bool_decide ((p, h) ∈ sent).

(** The rule for broadcast packets: somebody was given the packet, and the
    handle was given it or one that is stored behind it. *)
Definition excluded (sent : record) (p h : Z) : bool :=
  bool_decide (set_Exists (fun x => x.1 = p) sent) &&
  bool_decide (set_Exists (fun x => p <= x.1 /\ x.2 = h) sent).

(** Go through the candidates, skip by the rule, record what is delivered. *)
Fixpoint deliver_all (skip : record -> Z -> Z -> bool) (sent : record) (candidates : list delivery)
    : record * list delivery :=
  match candidates with
  | [] => (sent, [])
  | (p, k) :: candidates' =>
    if skip sent p k.1 then deliver_all skip sent candidates'
    else let '(sent', out) := deliver_all skip ({[(p, k.1)]} ∪ sent) candidates' in
         (sent', (p, k) :: out)
  end.

Lemma deliver_all_app skip sent l1 l2 :
  deliver_all skip sent (l1 ++ l2) =
    (let '(sent1, out1) := deliver_all skip sent l1 in
     let '(sent2, out2) := deliver_all skip sent1 l2 in (sent2, out1 ++ out2)).
Proof.
  revert sent. induction l1 as [|[p k] l1 IH]; intros sent; cbn [app deliver_all].
  { by destruct (deliver_all skip sent l2). }
  destruct (skip sent p k.1); rewrite IH; [done|].
  destruct (deliver_all skip _ l1) as [sent1 out1]. by destruct (deliver_all skip sent1 l2).
Qed.

(** A round: the targeted packets, then each broadcast packet to each link. *)
Definition send (sent : record) (targets : list delivery) (ps : list Z) (links : list link)
    : record * list delivery :=
  let '(sent1, out1) := deliver_all given sent targets in
  let '(sent2, out2) := deliver_all excluded sent1 (p ← ps; k ← links; [(p, k)]) in
  (sent2, out1 ++ out2).

(** ** Properties of the specification *)

Definition pair (d : delivery) : Z * Z := (d.1, d.2.1).

(** A rule that skips what was delivered. *)
Definition skips (skip : record -> Z -> Z -> bool) : Prop :=
  forall sent p h, (p, h) ∈ sent -> skip sent p h = true.

Lemma given_skips : skips given.
Proof. intros sent p h Hin. by apply bool_decide_eq_true. Qed.

Lemma excluded_skips : skips excluded.
Proof.
  intros sent p h Hin. unfold excluded. rewrite !bool_decide_true; [done|..].
  - exists (p, h). cbn. split; [done|]. split; [lia|done].
  - by exists (p, h).
Qed.

(** Nothing is delivered twice, and the record tells exactly what was. *)
Lemma deliver_all_new (skip : record -> Z -> Z -> bool) sent l sent' out :
  skips skip -> deliver_all skip sent l = (sent', out) ->
  NoDup (pair <$> out) /\ (forall d, d ∈ out -> (pair d ∉ sent) /\ d ∈ l) /\
  sent' = sent ∪ list_to_set (pair <$> out).
Proof.
  intros Hs. revert sent sent' out.
  induction l as [|[p k] l IH]; intros sent sent' out E; cbn [deliver_all] in E.
  { injection E as <- <-. split_and!; [constructor|by intros d ?%elem_of_nil|set_solver]. }
  destruct (skip sent p k.1) eqn:Ek.
  { apply IH in E as (Hn & Hd & ->). split_and!; [done| |done]. intros d Hin.
    destruct (Hd d Hin). split; [done|]. by right. }
  destruct (deliver_all skip _ l) as [sent1 out1] eqn:E1. injection E as <- <-.
  apply IH in E1 as (Hn & Hd & ->). split_and!.
  - cbn. apply NoDup_cons. split; [|done]. intros (d & Hp & Hin)%list_elem_of_fmap.
    destruct (Hd d Hin) as [Hni _]. rewrite <- Hp in Hni. apply Hni. set_solver.
  - intros d [->|Hin]%elem_of_cons.
    + split; [|by left]. intros Hin%Hs. cbn in Hin. congruence.
    + destruct (Hd d Hin) as [Hni Hl]. split; [set_solver|by right].
  - cbn. unfold pair at 2. cbn. set_solver.
Qed.

(** Every candidate is served, in the sense of the rule that skips. *)
Lemma deliver_all_covers (skip : record -> Z -> Z -> bool) (served : record -> Z -> Z -> Prop) sent l sent' out :
  skips skip ->
  (forall sent p h, skip sent p h = true -> served sent p h) ->
  (forall sent sent' p h, sent ⊆ sent' -> served sent p h -> served sent' p h) ->
  deliver_all skip sent l = (sent', out) ->
  forall p k, (p, k) ∈ l -> served sent' p k.1.
Proof.
  intros Hs Hskip Hmono. revert sent sent' out.
  induction l as [|[p k] l IH]; intros sent sent' out E p' k' Hin; [by apply elem_of_nil in Hin|].
  cbn [deliver_all] in E. destruct (skip sent p k.1) eqn:Ek.
  - apply elem_of_cons in Hin as [[= -> ->]|Hin]; [|by eapply IH].
    destruct (deliver_all_new _ _ _ _ _ Hs E) as (_ & _ & ->).
    eapply Hmono; [|by apply Hskip]. set_solver.
  - destruct (deliver_all skip _ l) as [sent1 out1] eqn:E1. injection E as <- <-.
    apply elem_of_cons in Hin as [[= -> ->]|Hin]; [|by eapply IH].
    destruct (deliver_all_new _ _ _ _ _ Hs E1) as (_ & _ & ->).
    apply (Hmono ({[(p, k.1)]} ∪ sent)); [set_solver|]. apply Hskip, Hs. set_solver.
Qed.

(** The handle was given the packet or one stored behind it. *)
Definition reached (sent : record) (p h : Z) : Prop := exists q, p <= q /\ (q, h) ∈ sent.

Lemma reached_mono sent sent' p h : sent ⊆ sent' -> reached sent p h -> reached sent' p h.
Proof. intros Hs (q & Hq & Hin). exists q. auto. Qed.

Lemma excluded_reached sent p h : excluded sent p h = true -> reached sent p h.
Proof.
  intros [_ ([q h'] & Hin & [Hle Hh])%bool_decide_eq_true]%andb_true_iff. cbn in *. subst. by exists q.
Qed.

(** A round delivers nothing that was delivered before, nothing twice, and
    reaches every link with every broadcast packet and every target. *)
Lemma send_correct sent targets ps links sent' out :
  send sent targets ps links = (sent', out) ->
  NoDup (pair <$> out) /\ (forall d, d ∈ out -> pair d ∉ sent) /\
  sent' = sent ∪ list_to_set (pair <$> out) /\
  (forall d, d ∈ targets -> pair d ∈ sent') /\
  (forall p k, p ∈ ps -> k ∈ links -> reached sent' p k.1).
Proof.
  unfold send. destruct (deliver_all given sent targets) as [sent1 out1] eqn:E1.
  destruct (deliver_all excluded sent1 _) as [sent2 out2] eqn:E2. intros [= <- <-].
  destruct (deliver_all_new _ _ _ _ _ given_skips E1) as (N1 & D1 & ->).
  destruct (deliver_all_new _ _ _ _ _ excluded_skips E2) as (N2 & D2 & ->).
  split_and!.
  - rewrite fmap_app. apply NoDup_app. split_and!; [done| |done].
    intros x Hx (d & -> & Hd)%list_elem_of_fmap. destruct (D2 d Hd) as [Hn _]. apply Hn.
    by apply elem_of_union_r, elem_of_list_to_set.
  - intros d [Hd|Hd]%elem_of_app; [by apply D1|]. destruct (D2 d Hd) as [Hn _].
    intros Hin. apply Hn. by apply elem_of_union_l.
  - rewrite fmap_app, list_to_set_app_L. by rewrite (assoc_L (∪)).
  - intros [p k] Hd. apply elem_of_union_l.
    refine (deliver_all_covers given (fun s p h => (p, h) ∈ s) sent targets _ out1 given_skips _ _ E1 p k Hd).
    + intros ??? Hb. by apply bool_decide_eq_true in Hb.
    + set_solver.
  - intros p k Hp Hk.
    refine (deliver_all_covers excluded reached _ _ _ out2 excluded_skips excluded_reached reached_mono E2 p k _).
    apply list_elem_of_bind. exists p. split; [|done]. apply list_elem_of_bind. exists k.
    split; [|done]. by apply list_elem_of_singleton.
Qed.

End Flood.

(** ** The tracker as an implementation *)

(** The record the sent list stands for. *)
Definition abs (s : Tracker.t) : Flood.record :=
  list_to_set (omap (fun x => (fun h => (x.1, h)) <$> handle_of s x.2)
    (Tracker.packets_connections_sent_list s)).

Lemma elem_of_abs s p h : (p, h) ∈ abs s <-> was_sent s p h.
Proof.
  unfold abs. rewrite elem_of_list_to_set, list_elem_of_omap. split.
  - intros ([p' c] & Hin & Hx). cbn in Hx. destruct (handle_of s c) as [h'|] eqn:E; [|done].
    cbn in Hx. injection Hx as <- <-. by exists c.
  - intros (c & Hin & Hh). exists (p, c). split; [done|]. cbn. by rewrite Hh.
Qed.

Definition link_of (c : BleConnection.t) : Flood.link :=
  (BleConnection.connection_handle c, BleConnection.getRole c =? HCI_ROLE_SLAVE).

(** The links of the given handles whose connection is available. *)
Definition links_of (s : Tracker.t) (handles : list Z) : list Flood.link :=
  omap (fun h => n ← Tracker.connections s !! h;
                 if Tracker.send_available (node_val n) then Some (link_of (node_val n)) else None) handles.

Definition links (s : Tracker.t) : list Flood.link := links_of s (map_sorted (Tracker.connections s)).*1.

(** The targeted packets, with the link of the connection pointed to. *)
Definition targets_of (s : Tracker.t) (l : list (Z * Z)) : list Flood.delivery :=
  omap (fun x => kv ← Tracker.node_at (Tracker.connections s) x.2; Some (x.1, link_of kv.2)) l.

(** The blocks that deliveries put behind what waits for a handle. *)
Definition blocks (data : Z -> bytes) (out : list Flood.delivery) (slave : bool) (h : Z) : list bytes :=
  (fun d : Flood.delivery => data d.1) <$> filter (fun d : Flood.delivery => d.2 = (h, slave)) out.

Lemma blocks_app data out1 out2 slave h :
  blocks data (out1 ++ out2) slave h = blocks data out1 slave h ++ blocks data out2 slave h.
Proof. unfold blocks. by rewrite filter_app, fmap_app. Qed.

(** The rules of the code decide the rules of the specification. *)
Lemma scan_excluded s p h :
  tracker_ok s ->
  existsb (is_handle s h) (mm_find p (Tracker.packets_connections_sent_list s)) =
    Flood.excluded (abs s) p h.
Proof.
  intros H. unfold Flood.excluded.
  destruct (decide (set_Exists (fun x => x.1 = p) (abs s))) as [Hex|Hno].
  - rewrite (bool_decide_true _ Hex). destruct Hex as ([p' h'] & (c & Hc & _)%elem_of_abs & Heq).
    cbn in Heq. subst p'. rewrite (scan_blocked s p c h H Hc). cbn [andb].
    apply eq_bool_prop_intro. rewrite bool_decide_spec. unfold blocked.
    rewrite Is_true_true, existsb_exists. setoid_rewrite <- list_elem_of_In. split.
    + intros ([q c'] & Hin & [Hle Hh]%andb_true_iff). exists (q, h). cbn in *. split; [|split; [lia|done]].
      apply elem_of_abs. exists c'. split; [done|]. by apply bool_decide_eq_true in Hh.
    + intros ([q h''] & (c' & Hin & Hh)%elem_of_abs & [Hle Heq]). cbn in *. subst h''. exists (q, c').
      split; [done|]. apply andb_true_iff. split; [cbn; lia|]. by apply bool_decide_eq_true.
  - rewrite (bool_decide_false _ Hno), mm_find_absent; [done|apply (ok_sent_sorted s H)|].
    intros c Hin. apply Hno. destruct (ok_sent s H p c Hin) as [_ Hc].
    destruct (handle_of_live s c Hc) as [h' Hh']. exists (p, h'). split; [|done].
    apply elem_of_abs. by exists c.
Qed.

Lemma range_given s p h :
  existsb (is_handle s h) (mm_equal_range p (Tracker.packets_connections_sent_list s)) =
    Flood.given (abs s) p h.
Proof.
  apply eq_bool_prop_intro. unfold Flood.given. rewrite bool_decide_spec, elem_of_abs, <- sent_in_range.
  by rewrite Is_true_true.
Qed.

Lemma packet_needed_given s p c h :
  tracker_ok s -> handle_of s c = Some h ->
  Tracker.packet_needed s (p, c) = Ret (negb (Flood.given (abs s) p h)).
Proof.
  intros H Hh. rewrite <- range_given. unfold Tracker.packet_needed. cbn [fst snd].
  destruct (mm_equal_range p _) as [|x l] eqn:E; [done|]. rewrite <- E.
  unfold handle_of in Hh. unfold Tracker.deref_connection.
  destruct (Tracker.node_at _ c) as [[k v]|]; [|done]. cbn in Hh. injection Hh as <-.
  cbn [mbind outcome_bind]. apply no_match_spec. intros ??. by apply equal_range_live.
Qed.

Section refinement.
Context (P : Platform) (s0 : Tracker.t) (data : Z -> bytes) (Hok0 : tracker_ok s0).

(** A packet of the queues as it was at the start of the round, and its bytes. *)
Definition writable (p : Z) : Prop :=
  exists pkt, Tracker.packet_at s0 p = Some pkt /\
    ProtocolWriter.writePacket (Tracker.peers s0) [] (Some pkt) = Ret (data p).

(** The block passes the assertion on the MTU of the connection. *)
Definition small (p : Z) (c : BleConnection.t) : Prop :=
  asserts_enabled P = true -> zlen (data p) <= BleConnection.getMtu c.

(** The tracker during the round stands for the record, and what it queued
    since the start are the blocks of the deliveries. *)
Record simulates (s : Tracker.t) (sent : Flood.record) (out : list Flood.delivery) : Prop := {
  sim_ok : tracker_ok s;
  sim_frame : send_frame s0 s;
  sim_abs : abs s = sent;
  sim_queued slave h : queued s slave h = queued s0 slave h ++ blocks data out slave h }.

Lemma abs_sent_to s p key n d :
  tracker_ok s -> p ∈ Tracker.packet_addrs s -> Tracker.connections s !! key = Some n ->
  abs (sent_to s p key n d) = {[(p, BleConnection.connection_handle (node_val n))]} ∪ abs s.
Proof.
  intros H Hp Hn. pose proof (sent_to_ok s p key n d H Hp Hn) as H'.
  assert (handle_of s (node_addr n) = Some (BleConnection.connection_handle (node_val n))) as Hh
    by (unfold handle_of; by rewrite (node_at_lookup _ _ _ (ok_connections_inj s H) Hn)).
  pose proof (fun c => handle_of_frame s _ c H H' (sent_to_frame s p key n d)) as Hf.
  apply set_eq. intros [q h]. rewrite elem_of_union, elem_of_singleton, !elem_of_abs.
  unfold was_sent. setoid_rewrite Hf. setoid_rewrite sent_to_sent_list.
  setoid_rewrite elem_of_mm_emplace. naive_solver.
Qed.

(** One delivery. *)
Lemma sim_deliver s sent out p key n :
  simulates s sent out -> writable p -> Tracker.connections s !! key = Some n -> small p (node_val n) ->
  exists pkt b, Tracker.packet_at s p = Some pkt /\
    Tracker.SendPacketToConnection P s pkt key = Ret (deliver s key (node_val n) (data p), b) /\
    simulates (Tracker.mark_sent (deliver s key (node_val n) (data p)) p (node_addr n))
      ({[(p, (link_of (node_val n)).1)]} ∪ sent) (out ++ [(p, link_of (node_val n))]).
Proof.
  intros [H Hf Ha Hq] (pkt & Hp & Hw) Hn Hs. rewrite <- (frame_packet_at _ _ _ Hf) in Hp.
  rewrite <- (frame_peers _ _ Hf) in Hw.
  pose proof (SendPacketToConnection_cases P s p pkt key n H Hp Hn) as Hsend. rewrite Hw in Hsend.
  replace (asserts_enabled P && (zlen (data p) >? BleConnection.getMtu (node_val n))) with false in Hsend
    by (unfold small in Hs; destruct (asserts_enabled P); [specialize (Hs eq_refl); cbn; symmetry; lia|done]).
  destruct Hsend as [b E]. exists pkt, b. split_and!; [done..|].
  assert (p ∈ Tracker.packet_addrs s) as Hpa by (apply packet_at_live; by eexists).
  fold (sent_to s p key n (data p)). split.
  - by apply sent_to_ok.
  - etrans; [exact Hf|]. apply sent_to_frame.
  - rewrite abs_sent_to by done. by rewrite Ha.
  - intros slave h. change (queued (sent_to s p key n (data p)) slave h)
      with (queued (deliver s key (node_val n) (data p)) slave h).
    rewrite queued_deliver, Hq, blocks_app, <- app_assoc by done. do 2 f_equal.
    unfold blocks, link_of. rewrite filter_cons, filter_nil. cbn [snd].
    destruct (decide ((BleConnection.connection_handle (node_val n),
      BleConnection.getRole (node_val n) =? HCI_ROLE_SLAVE) = (h, slave))) as [[= -> ->]|Hne].
    + rewrite bool_decide_true by done. by rewrite eqb_reflx.
    + case_bool_decide as Hh; [|done]. cbn. destruct (Bool.eqb_spec slave
        (BleConnection.getRole (node_val n) =? HCI_ROLE_SLAVE)); [|done]. subst. done.
Qed.

(** The loop over the targeted packets. *)
Lemma sim_targeted l : forall s sent out,
  simulates s sent out ->
  (forall p c, (p, c) ∈ l -> writable p /\
     exists key n, Tracker.connections s0 !! key = Some n /\ node_addr n = c /\ small p (node_val n)) ->
  exists s' sent' out', Flood.deliver_all Flood.given sent (targets_of s0 l) = (sent', out') /\
    Tracker.send_targeted P s l = Ret (s', out'.*1) /\ simulates s' sent' (out ++ out').
Proof.
  induction l as [|[p c] l IH]; intros s sent out Hsim Hl.
  { exists s, sent, []. cbn. by rewrite app_nil_r. }
  destruct (Hl p c) as (Hw & key & n & Hn & <- & Hsm); [by left|].
  assert (forall p c, (p, c) ∈ l -> writable p /\ exists key n,
    Tracker.connections s0 !! key = Some n /\ node_addr n = c /\ small p (node_val n)) as Hl'
    by (intros; apply Hl; by right).
  pose proof (sim_ok _ _ _ Hsim) as H. pose proof (sim_frame _ _ _ Hsim) as Hf.
  destruct (frame_lookup _ _ _ _ Hf Hn) as [d Hd]. set (n' := mkNode _ _) in Hd.
  pose proof (node_at_lookup _ _ _ (ok_connections_inj s H) Hd) as Hat.
  change (node_addr n') with (node_addr n) in Hat.
  unfold targets_of. cbn [omap list_omap snd fst].
  rewrite (node_at_lookup _ _ _ (ok_connections_inj s0 Hok0) Hn). cbn [mbind option_bind snd].
  fold (targets_of s0 l). cbn [Flood.deliver_all Tracker.send_targeted].
  rewrite (packet_needed_given s p (node_addr n) (link_of (node_val n)).1)
    by (try done; unfold handle_of; by rewrite Hat).
  rewrite (sim_abs _ _ _ Hsim). cbn [mbind outcome_bind].
  destruct (Flood.given sent p _); cbn [negb]; [by apply IH|].
  unfold Tracker.deref_connection. rewrite Hat. cbn [mbind outcome_bind].
  destruct (sim_deliver s sent out p key n' Hsim Hw Hd Hsm) as (pkt & b & Hp & E & Hsim').
  unfold Tracker.deref_packet. rewrite Hp. cbn [mbind outcome_bind]. rewrite E. cbn [mbind outcome_bind].
  destruct (IH _ _ _ Hsim' Hl') as (s' & sent' & out' & Eq & Es & Hs').
  change (link_of (node_val n')) with (link_of (node_val n)) in *.
  change (node_addr n') with (node_addr n) in *.
  rewrite Eq, Es. cbn [mbind outcome_bind]. eexists s', sent', _. split_and!; [done..|].
  by rewrite <- app_assoc in Hs'.
Qed.

(** One broadcast packet to the handles. *)
Lemma sim_broadcast_to p handles : forall s sent out,
  simulates s sent out -> writable p ->
  (forall h n, Tracker.connections s0 !! h = Some n ->
     Tracker.send_available (node_val n) = true -> small p (node_val n)) ->
  exists s' sent' out',
    Flood.deliver_all Flood.excluded sent (k ← links_of s0 handles; [(p, k)]) = (sent', out') /\
    Tracker.broadcast_to P s p handles = Ret s' /\ simulates s' sent' (out ++ out').
Proof.
  induction handles as [|h handles IH]; intros s sent out Hsim Hw Hsm.
  { exists s, sent, []. cbn. by rewrite app_nil_r. }
  pose proof (sim_ok _ _ _ Hsim) as H. pose proof (sim_frame _ _ _ Hsim) as Hf.
  pose proof (frame_connections _ _ Hf h) as Hfh. unfold links_of. cbn [omap list_omap Tracker.broadcast_to].
  destruct (Tracker.connections s0 !! h) as [n|] eqn:Hn, (Tracker.connections s !! h) as [n'|] eqn:Hn';
    try done; [|by apply IH].
  destruct Hfh as (Ha & d & Hv). cbn [mbind option_bind].
  assert (Tracker.send_available (node_val n') = Tracker.send_available (node_val n)) as -> by by rewrite Hv.
  destruct (Tracker.send_available (node_val n)) eqn:Hav; [|by apply IH].
  cbn [mbind list_bind app Flood.deliver_all].
  rewrite scan_sendable_spec by (intros ??; by apply mm_find_live). rewrite scan_excluded by done.
  assert (link_of (node_val n') = link_of (node_val n)) as Hlk by by rewrite Hv.
  change (BleConnection.getConnectionHandle (node_val n')) with (link_of (node_val n')).1. rewrite Hlk.
  rewrite (sim_abs _ _ _ Hsim). cbn [mbind outcome_bind andb].
  destruct (Flood.excluded sent p _); cbn [negb]; [by apply IH|].
  destruct (sim_deliver s sent out p h n' Hsim Hw Hn') as (pkt & b & Hp & E & Hsim');
    [specialize (Hsm h n Hn Hav); by rewrite Hv|].
  unfold Tracker.deref_packet. rewrite Hp. cbn [mbind outcome_bind]. rewrite E. cbn [mbind outcome_bind].
  rewrite Hlk in Hsim'. destruct (IH _ _ _ Hsim' Hw Hsm) as (s' & sent' & out' & Eq & Es & Hs').
  unfold links_of in Eq. cbn [mbind] in Eq. rewrite Eq, Es. eexists s', sent', _. split_and!; [done..|].
  by rewrite <- app_assoc in Hs'.
Qed.

(** All broadcast packets. *)
Lemma sim_broadcast handles ps : forall s sent out,
  simulates s sent out ->
  (forall p, p ∈ ps -> writable p /\ forall h n, Tracker.connections s0 !! h = Some n ->
     Tracker.send_available (node_val n) = true -> small p (node_val n)) ->
  exists s' sent' out',
    Flood.deliver_all Flood.excluded sent (p ← ps; k ← links_of s0 handles; [(p, k)]) = (sent', out') /\
    Tracker.send_broadcast P s handles ps = Ret s' /\ simulates s' sent' (out ++ out').
Proof.
  induction ps as [|p ps IH]; intros s sent out Hsim Hps.
  { exists s, sent, []. cbn. by rewrite app_nil_r. }
  destruct (Hps p) as [Hw Hsm]; [by left|].
  destruct (sim_broadcast_to p handles s sent out Hsim Hw Hsm) as (s1 & sent1 & out1 & E1 & Es1 & Hsim1).
  destruct (IH s1 sent1 (out ++ out1) Hsim1) as (s2 & sent2 & out2 & E2 & Es2 & Hsim2);
    [intros; apply Hps; by right|].
  exists s2, sent2, (out1 ++ out2). rewrite app_assoc. split_and!; [| |done].
  - change (p0 ← p :: ps; k ← links_of s0 handles; [(p0, k)]) with
      ((k ← links_of s0 handles; [(p, k)]) ++ (p ← ps; k ← links_of s0 handles; [(p, k)])).
    by rewrite Flood.deliver_all_app, E1, E2.
  - cbn [Tracker.send_broadcast]. by rewrite Es1.
Qed.

(** The packets of both queues can be written, and fit where they go. *)
Definition can_send : Prop :=
  (forall p, p ∈ Tracker.broadcast_packets_to_send_list s0 -> writable p /\
     forall h n, Tracker.connections s0 !! h = Some n ->
       Tracker.send_available (node_val n) = true -> small p (node_val n)) /\
  (forall p c, (p, c) ∈ Tracker.targeted_packets_to_send_list s0 -> writable p /\
     forall h n, Tracker.connections s0 !! h = Some n -> node_addr n = c -> small p (node_val n)).

Lemma simulates_start : simulates s0 (abs s0) [].
Proof. split; [done..|]. intros. by rewrite app_nil_r. Qed.

End refinement.

Lemma sim_sendPackets P s data sent' out :
  tracker_ok s -> can_send P s data ->
  Flood.send (abs s) (targets_of s (Tracker.targeted_packets_to_send_list s))
    (Tracker.broadcast_packets_to_send_list s) (links s) = (sent', out) ->
  exists s', Tracker.sendPackets P s = Ret s' /\ tracker_ok s' /\ abs s' = sent' /\
    (forall slave h, queued s' slave h = queued s slave h ++ blocks data out slave h) /\
    Tracker.broadcast_packets_to_send_list s' = [].
Proof.
  intros H [Hb Ht] E. unfold Flood.send in E.
  destruct (decide (Tracker.broadcast_packets_to_send_list s = [] /\
                    Tracker.targeted_packets_to_send_list s = [])) as [[Eb Et]|Hne].
  { rewrite Eb, Et in E. cbn in E. injection E as <- <-. exists s. unfold Tracker.sendPackets.
    rewrite Eb, Et. split_and!; [done..| |done]. intros. by rewrite app_nil_r. }
  rewrite sendPackets_work by done.
  destruct (sim_targeted P s data H (Tracker.targeted_packets_to_send_list s) s (abs s) []
    (simulates_start s data H)) as (s1 & sent1 & out1 & E1 & Es1 & Hsim1).
  { intros p c Hin. destruct (Ht p c Hin) as [Hw Hsm]. split; [done|].
    destruct (ok_targeted s H p c Hin) as [_ (key & n & Hn & Ha)%elem_of_map_addrs]. eauto 10. }
  rewrite E1 in E. rewrite Es1. cbn [mbind outcome_bind]. cbv zeta.
  set (s2 := Tracker.set_targeted_packets_to_send_list s1 _).
  set (s0 := Tracker.set_targeted_packets_to_send_list s (Tracker.targeted_packets_to_send_list s2)).
  assert (simulates s0 data s2 sent1 out1) as Hsim2.
  { destruct Hsim1 as [H1 Hf1 Ha1 Hq1]. split; [|destruct Hf1; by split|done..].
    apply ok_set_targeted; [|done]. by intros x [_ ?]%list_elem_of_filter. }
  pose proof (sim_frame _ _ _ _ _ Hsim2) as Hf2.
  rewrite (map_sorted_keys _ _ (frame_dom _ _ Hf2)), (frame_broadcast _ _ Hf2).
  destruct (sim_broadcast P s0 data (map_sorted (Tracker.connections s0)).*1
    (Tracker.broadcast_packets_to_send_list s0) s2 sent1 out1 Hsim2 Hb)
    as (s3 & sent3 & out3 & E3 & Es3 & Hsim3).
  change (links_of s0 (map_sorted (Tracker.connections s0)).*1) with (links s) in E3.
  change (Tracker.broadcast_packets_to_send_list s0) with (Tracker.broadcast_packets_to_send_list s) in *.
  rewrite E3 in E. injection E as <- <-. rewrite Es3. cbn [mbind outcome_bind].
  destruct Hsim3 as [H3 Hf3 Ha3 Hq3]. rewrite (frame_broadcast _ _ Hf3). 
  change (Tracker.broadcast_packets_to_send_list s0) with (Tracker.broadcast_packets_to_send_list s).
  rewrite filter_not_in. eexists. split; [done|]. split_and!; [|exact Ha3|exact Hq3|done].
  apply ok_set_broadcast; [|done]. set_solver.
Qed.

(** ** Properties *)

(** C5. Sending refines flooding: for a well-formed tracker whose queued packets
    can be written and fit the MTU, [sendPackets] succeeds, its sent list stands
    for the record after a round of the specification, what it queued for each
    handle and role are exactly the blocks of the round's deliveries, in order,
    and the broadcast queue is empty. *)
Theorem sendPackets_refines P s data :
  tracker_ok s -> can_send P s data ->
  let '(sent', out) :=
    Flood.send (abs s) (targets_of s (Tracker.targeted_packets_to_send_list s))
      (Tracker.broadcast_packets_to_send_list s) (links s) in
  exists s', Tracker.sendPackets P s = Ret s' /\ tracker_ok s' /\ abs s' = sent' /\
    (forall slave h, queued s' slave h = queued s slave h ++ blocks data out slave h) /\
    Tracker.broadcast_packets_to_send_list s' = [].
Proof.
  intros H Hc. destruct (Flood.send _ _ _ _) as [sent' out] eqn:E. by apply sim_sendPackets.
Qed.

Lemma links_available s h n :
  tracker_ok s -> Tracker.connections s !! h = Some n -> Tracker.send_available (node_val n) = true ->
  exists slave, (h, slave) ∈ links s.
Proof.
  intros H Hn Hav. destruct (available_handle s h n H Hn Hav) as [Hh _].
  exists (BleConnection.getRole (node_val n) =? HCI_ROLE_SLAVE). unfold links, links_of.
  apply list_elem_of_omap. exists h. split.
  - apply list_elem_of_fmap. exists (h, n). split; [done|]. by apply elem_of_map_sorted.
  - rewrite Hn. cbn [mbind option_bind]. rewrite Hav. unfold link_of. by rewrite Hh.
Qed.

(** C6. A round of [sendPackets], whatever is queued: no handle is given a
    packet it was given before or twice, the sent list afterwards holds what it
    held and what was delivered, every targeted connection has its packet, and
    every available connection has each broadcast packet or one stored behind
    it (the only reason for which a broadcast is withheld). *)
Theorem round_delivers_once P s data :
  tracker_ok s -> can_send P s data ->
  exists s' out, Tracker.sendPackets P s = Ret s' /\
    (forall slave h, queued s' slave h = queued s slave h ++ blocks data out slave h) /\
    NoDup (Flood.pair <$> out) /\
    (forall p k, (p, k) ∈ out -> ~ was_sent s p k.1) /\
    (forall p h, was_sent s' p h <-> was_sent s p h \/ (p, h) ∈ Flood.pair <$> out) /\
    (forall p c h, (p, c) ∈ Tracker.targeted_packets_to_send_list s -> handle_of s c = Some h ->
       was_sent s' p h) /\
    (forall p h n, p ∈ Tracker.broadcast_packets_to_send_list s ->
       Tracker.connections s !! h = Some n -> Tracker.send_available (node_val n) = true ->
       exists q, p <= q /\ was_sent s' q h).
Proof.
  intros H Hc. destruct (Flood.send (abs s) (targets_of s (Tracker.targeted_packets_to_send_list s))
    (Tracker.broadcast_packets_to_send_list s) (links s)) as [sent' out] eqn:E.
  destruct (Flood.send_correct _ _ _ _ _ _ E) as (Hnd & Hnew & Hsent & Ht & Hb).
  destruct (sim_sendPackets P s data _ _ H Hc E) as (s' & Es & H' & Ha & Hq & _).
  exists s', out. split_and!; [done..| | | |].
  - intros p k Hin Hw%elem_of_abs. exact (Hnew _ Hin Hw).
  - intros p h. rewrite <- !elem_of_abs, Ha, Hsent, elem_of_union, elem_of_list_to_set. done.
  - intros p c h Hin Hh. apply elem_of_abs. rewrite Ha. unfold handle_of in Hh.
    destruct (Tracker.node_at _ c) as [[key v]|] eqn:Ec; [|done]. cbn in Hh. injection Hh as <-.
    apply (Ht (p, link_of v)). unfold targets_of. apply list_elem_of_omap. exists (p, c).
    split; [done|]. cbn. by rewrite Ec.
  - intros p h n Hp Hn Hav. destruct (links_available s h n H Hn Hav) as [slave Hk].
    destruct (Hb p _ Hp Hk) as (q & Hle & Hin). exists q. split; [done|].
    apply elem_of_abs. by rewrite Ha.
Qed.

(** Two packets received from the connections 64 and 65 before a round, and a
    third connection. *)
Definition demo_packet2 : PacketPassAlong.t :=
  PacketPassAlong.setPayload demo_packet [4; 5].

Definition demo_round : Tracker.t :=
  let s := Tracker.set_packets demo_sender
    (<[7 := mkNode 100 demo_packet]> (<[8 := mkNode 101 demo_packet2]> ∅)) in
  let s := Tracker.set_packets_connections_sent_list s [(100, 11); (101, 12)] in
  Tracker.set_broadcast_packets_to_send_list s [100; 101].

Definition demo_data (p : Z) : bytes :=
  let pkt := if p =? 100 then demo_packet else demo_packet2 in
  wire (PacketPassAlong.base pkt) (PacketPassAlong.payload pkt).

Lemma demo_round_can_send : can_send (demo_platform 1000) demo_round demo_data.
Proof.
  split; [|by intros p c ?%elem_of_nil]. intros p Hp.
  split; [apply elem_of_cons in Hp as [->|Hp]; [|apply list_elem_of_singleton in Hp as ->]|].
  { exists (PktPassAlong demo_packet). split; vm_compute; reflexivity. }
  { exists (PktPassAlong demo_packet2). split; vm_compute; reflexivity. }
  intros h n Hn _ _. unfold demo_round, demo_sender in Hn. cbn in Hn.
  repeat (apply lookup_insert_Some in Hn as [[_ <-]|[_ Hn]];
          [unfold demo_data; destruct (p =? 100); vm_compute; discriminate|]).
  by rewrite lookup_empty in Hn.
Qed.

(** The first packet is withheld from 65, which sent the second one. *)
Lemma sendPackets_refines_witness :
  exists s', Tracker.sendPackets (demo_platform 1000) demo_round = Ret s' /\
    queued s' true 64 = [demo_data 101] /\ queued s' true 65 = [] /\
    queued s' false 66 = [demo_data 100; demo_data 101].
Proof.
  pose proof (sendPackets_refines (demo_platform 1000) demo_round demo_data) as R.
  destruct (Flood.send _ _ _ _) as [sent' out] eqn:E.
  destruct R as (s' & Es & _ & _ & Hq & _); [check_ok|exact demo_round_can_send|].
  exists s'. rewrite !Hq. vm_compute in E. injection E as _ <-. split; [exact Es|].
  split_and!; vm_compute; reflexivity.
Defined.

Lemma round_delivers_once_witness :
  exists s' out, Tracker.sendPackets (demo_platform 1000) demo_round = Ret s' /\
    NoDup (Flood.pair <$> out) /\ (exists q, 100 <= q /\ was_sent s' q 65).
Proof.
  destruct (round_delivers_once (demo_platform 1000) demo_round demo_data)
    as (s' & out & Es & _ & Hn & _ & _ & _ & Hb); [check_ok|exact demo_round_can_send|].
  exists s', out. split_and!; [exact Es|exact Hn|].
  eapply Hb; [by left|reflexivity|reflexivity].
Defined.
