(* ===== verification/Housekeeping.v ===== *)
(** * Raw packets, signal strength, duplicates and cleanup

    The operations of BLE/BleConnectionTracker.cpp that BTstack's callbacks
    and the main loop's timers start: [notifyRawPacket], [writeRawPacket],
    [requestNextRssi], [getAnyDuplicateHandle] and [cleanupStaleItems]. *)

From stdpp Require Import base numbers list gmap sorting.
From Stdlib Require Import ZArith Lia.
From S2P Require Import Prelude Platform Containers BinaryIO Packets ProtocolWriter BleConnection.
From S2P Require Import Tracker TrackerInv.

(** ** Raw packets *)

Lemma mm_erase_first_sorted {V} (k : Z) (m : list (Z * V)) :
  mm_sorted m -> mm_sorted (mm_erase_first k m).
Proof.
  intros Hs. unfold mm_sorted, mm_erase_first in *. rewrite <- (mm_before_lower_bound k m) in Hs.
  destruct (mm_lower_bound k m) as [|x l]; [by rewrite app_nil_r in *|]. cbn [tail].
  apply StronglySorted_app in Hs as (Hx & H1 & H2). apply StronglySorted_app_2; [|done|].
  - intros y z Hy Hz. apply Hx; set_solver.
  - by apply StronglySorted_inv in H2 as [? _].
Qed.

Section housekeeping.
Context (P : Platform) `{!PlatformLaws P}.
Implicit Types (s : Tracker.t).

Lemma ok_set_raw_packet_to_notify s l :
  mm_sorted l -> tracker_ok s -> tracker_ok (Tracker.set_raw_packet_to_notify s l).
Proof. intros Hl H. ok_split H. Qed.

Lemma ok_set_raw_packet_to_write s l :
  mm_sorted l -> tracker_ok s -> tracker_ok (Tracker.set_raw_packet_to_write s l).
Proof. intros Hl H. ok_split H. Qed.

(** The second half of both operations: the flag of a copy is cleared, or
    another callback is requested. *)
Lemma ok_raw_tail s h (l : list (Z * bytes)) a :
  tracker_ok s ->
  outcome_spec (fun f => f = AssertionFailed) tracker_ok
    (match l with
     | [] => let '(s, connection) := Tracker.connections_subscript P s h in
             let _copy := BleConnection.setHasData (node_val connection) false in Ret s
     | _ => Ret (Tracker.emit s a)
     end).
Proof.
  intros H. destruct l; [|by apply ok_emit].
  destruct (Tracker.connections_subscript P s h) as [s1 n] eqn:E. by apply (subscript_spec P) in E as [].
Qed.

Lemma ok_notifyRawPacket s h :
  tracker_ok s ->
  outcome_spec (fun f => f = AssertionFailed) tracker_ok (Tracker.notifyRawPacket P s h).
Proof.
  intros H. unfold Tracker.notifyRawPacket.
  eapply (outcome_spec_bind _ _ tracker_ok); [|intros s1 H1; by apply ok_raw_tail].
  destruct (mm_lower_bound h _) as [|[k data] l] eqn:E; [done|].
  destruct (Tracker.connections_subscript P s h) as [s1 n] eqn:E1.
  apply (subscript_spec P) in E1 as (H1 & _ & Hs & _); [|done]. unfold c_assert.
  destruct (_ && _); [done|]. cbn [mbind outcome_bind].
  destruct (Tracker.send_accepted _); [|by apply ok_emit].
  apply ok_set_raw_packet_to_notify; [|by apply ok_emit].
  apply mm_erase_first_sorted. apply (ok_notify_sorted s1 H1).
Qed.

Lemma ok_writeRawPacket s h :
  tracker_ok s ->
  outcome_spec (fun f => f = AssertionFailed) tracker_ok (Tracker.writeRawPacket P s h).
Proof.
  intros H. unfold Tracker.writeRawPacket.
  eapply (outcome_spec_bind _ _ tracker_ok); [|intros s1 H1; by apply ok_raw_tail].
  destruct (mm_lower_bound h _) as [|[k data] l] eqn:E; [done|].
  destruct (Tracker.connections_subscript P s h) as [s1 n] eqn:E1.
  apply (subscript_spec P) in E1 as (H1 & _ & Hs & _); [|done]. unfold c_assert.
  destruct (_ && _); [done|]. cbn [mbind outcome_bind].
  destruct (Tracker.send_accepted _); [|by apply ok_emit].
  apply ok_set_raw_packet_to_write; [|by apply ok_emit].
  apply mm_erase_first_sorted. apply (ok_write_sorted s1 H1).
Qed.

(** [connections[h]] of a handle that has an entry. *)
Lemma subscript_present s h n :
  Tracker.connections s !! h = Some n -> Tracker.connections_subscript P s h = (s, n).
Proof. intros Hn. unfold Tracker.connections_subscript. by rewrite Hn. Qed.

(** One callback with data at the lower bound of the handle. *)
Lemma notifyRawPacket_step s h n k data l :
  Tracker.connections s !! h = Some n -> BleConnection.hasData (node_val n) = true ->
  mm_lower_bound h (Tracker.raw_packet_to_notify s) = (k, data) :: l ->
  Tracker.send_accepted (att_server_notify P h
    (BleConnection.getBitchatCharacteristicValueHandle (node_val n)) data) = true ->
  Tracker.notifyRawPacket P s h =
    let s1 := Tracker.set_raw_packet_to_notify
      (Tracker.emit s (ServerNotify h
         (BleConnection.getBitchatCharacteristicValueHandle (node_val n)) data))
      (mm_erase_first h (Tracker.raw_packet_to_notify s)) in
    Ret (match mm_lower_bound h (mm_erase_first h (Tracker.raw_packet_to_notify s)) with
         | [] => s1
         | _ => Tracker.emit s1 (RequestToSendNotification h)
         end).
Proof.
  intros Hn Hd Hl Ha. unfold Tracker.notifyRawPacket. rewrite Hl, (subscript_present _ _ _ Hn), Hd.
  unfold c_assert. rewrite andb_false_r. cbn [mbind outcome_bind]. rewrite Ha. cbn [mbind outcome_bind].
  cbv zeta. cbn [Tracker.raw_packet_to_notify Tracker.set_raw_packet_to_notify Tracker.emit
    Tracker.set_actions].
  destruct (mm_lower_bound h (mm_erase_first h _)); [|done]. by rewrite (subscript_present _ _ n).
Qed.

Lemma writeRawPacket_step s h n k data l :
  Tracker.connections s !! h = Some n -> BleConnection.hasData (node_val n) = true ->
  mm_lower_bound h (Tracker.raw_packet_to_write s) = (k, data) :: l ->
  Tracker.send_accepted (gatt_client_write_value_of_characteristic_without_response P h
    (BleConnection.getBitchatCharacteristicValueHandle (node_val n)) data) = true ->
  Tracker.writeRawPacket P s h =
    let s1 := Tracker.set_raw_packet_to_write
      (Tracker.emit s (WriteWithoutResponse h
         (BleConnection.getBitchatCharacteristicValueHandle (node_val n)) data))
      (mm_erase_first h (Tracker.raw_packet_to_write s)) in
    Ret (match mm_lower_bound h (mm_erase_first h (Tracker.raw_packet_to_write s)) with
         | [] => s1
         | _ => Tracker.emit s1 (RequestToWriteWithoutResponse h)
         end).
Proof.
  intros Hn Hd Hl Ha. unfold Tracker.writeRawPacket. rewrite Hl, (subscript_present _ _ _ Hn), Hd.
  unfold c_assert. rewrite andb_false_r. cbn [mbind outcome_bind]. rewrite Ha. cbn [mbind outcome_bind].
  cbv zeta. cbn [Tracker.raw_packet_to_write Tracker.set_raw_packet_to_write Tracker.emit
    Tracker.set_actions].
  destruct (mm_lower_bound h (mm_erase_first h _)); [|done]. by rewrite (subscript_present _ _ n).
Qed.

End housekeeping.

(** ** Signal strength *)

Lemma connections_begin_lookup s k a :
  Tracker.connections_begin s = Some (k, a) ->
  exists n, Tracker.connections s !! k = Some n /\ node_addr n = a.
Proof.
  unfold Tracker.connections_begin. destruct (map_sorted _) as [|[k' n] l] eqn:E; [done|].
  intros [= -> <-]. exists n. split; [|done]. apply elem_of_map_sorted. rewrite E. set_solver.
Qed.

Lemma connections_begin_None s : Tracker.connections_begin s = None <-> Tracker.connections s = ∅.
Proof.
  unfold Tracker.connections_begin. split.
  - destruct (map_sorted _) as [|[]] eqn:E; [|done]. intros _. apply map_empty. intros k.
    destruct (Tracker.connections s !! k) as [n|] eqn:F; [|done].
    apply elem_of_map_sorted in F. rewrite E in F. set_solver.
  - intros ->. done.
Qed.

Lemma connections_next_lookup s h k a :
  Tracker.connections_next s h = Some (k, a) ->
  h < k /\ exists n, Tracker.connections s !! k = Some n /\ node_addr n = a.
Proof.
  unfold Tracker.connections_next. destruct (filter _ _) as [|[k' n] l] eqn:E; [done|].
  intros [= -> <-]. assert ((k, n) ∈ filter (fun kn : Z * node BleConnection.t => h < kn.1)
    (map_sorted (Tracker.connections s))) as [Hlt Hin]%list_elem_of_filter by (rewrite E; set_solver).
  split; [done|]. exists n. by rewrite <- elem_of_map_sorted.
Qed.

(** With a connection in the map the iterator that is followed is valid. *)
Lemma ok_requestNextRssi s restart :
  tracker_ok s -> Tracker.connections s <> ∅ ->
  exists h s' more, Tracker.requestNextRssi s restart = Ret (s', more) /\ tracker_ok s' /\
    Tracker.actions s' = Tracker.actions s ++ [ReadRssi h] /\
    is_Some (Tracker.connections s !! h) /\
    more = negb (bool_decide (Tracker.connections_next s h = None)).
Proof.
  intros H Hne. unfold Tracker.requestNextRssi. cbv zeta.
  match goal with |- context [match ?it with Some _ => _ | None => _ end] => set (iterator := it) end.
  assert (exists h n, iterator = Some (h, node_addr n) /\ Tracker.connections s !! h = Some n)
    as (h & n & -> & Hn).
  { assert (exists h n, Tracker.connections_begin s = Some (h, node_addr n) /\
      Tracker.connections s !! h = Some n) as (h0 & n0 & Hb & Hn0).
    { destruct (Tracker.connections_begin s) as [[h a]|] eqn:E;
        [|by apply connections_begin_None in E].
      destruct (connections_begin_lookup s h a E) as (n & Hn & <-). eauto. }
    unfold iterator. destruct (_ || restart) eqn:Er; [eauto|].
    apply orb_false_iff in Er as [Er _]. apply bool_decide_eq_false_1 in Er.
    destruct (Tracker.rssi_iterator s) as [[[h a]|]|] eqn:Ei; cbn in *; [|done|rewrite Hb; eauto].
    destruct (ok_rssi s H h a Ei) as (n & Hn & <-). eauto. }
  rewrite Hn, decide_True by done. eexists h, _, _. split; [done|].
  split; [|split; [done|split; [by eexists|done]]].
  ok_split H. intros h' a [= Hnx]. unfold Tracker.connections_next in Hnx. cbn in Hnx.
  by apply (connections_next_lookup s h h' a).
Qed.

(** ** Duplicate connections *)

Section duplicates.
Context (P : Platform).
Implicit Types (s : Tracker.t).

(** [reversed] holds, for peers of entries already passed, a handle. *)
Definition reversed_ok (m : gmap Z Z) (reversed : gmap Z Z) : Prop :=
  forall q h, reversed !! q = Some h -> m !! h = Some q.

Lemma reversed_ok_insert m reversed h q :
  m !! h = Some q -> reversed_ok m reversed -> reversed_ok m (<[q := h]> reversed).
Proof. intros Hm Hr q' h' [[-> ->]|[_ ?]]%lookup_insert_Some; auto. Qed.

Lemma duplicate_loop_sound s items reversed s' h :
  (forall k q, (k, q) ∈ items -> Tracker.handle_peer_map s !! k = Some q) ->
  (forall k q, (k, q) ∈ items -> forall q', reversed !! q' <> Some k) -> NoDup items.*1 ->
  reversed_ok (Tracker.handle_peer_map s) reversed ->
  Tracker.duplicate_loop P s items reversed = (s', h) -> h <> 0 ->
  exists h' q, h' <> h /\ Tracker.handle_peer_map s !! h = Some q /\
    Tracker.handle_peer_map s !! h' = Some q.
Proof.
  revert reversed. induction items as [|[k q] items IH]; intros reversed Hi Hk Hnd Hr E Hne;
    cbn [Tracker.duplicate_loop] in E; [by simplify_eq|].
  apply NoDup_cons in Hnd as [Hnk Hnd].
  assert (Tracker.handle_peer_map s !! k = Some q) as Hkq by (apply Hi; set_solver).
  destruct (default 0 (reversed !! q) =? 0) eqn:Ee; cbn [negb] in E.
  - apply (IH (<[q := k]> reversed)); try done.
    + intros k' q' Hin. apply Hi. set_solver.
    + intros k' q' Hin q'' [[-> ->]|[_ ?]]%lookup_insert_Some.
      * apply Hnk. apply list_elem_of_fmap. by exists (k', q').
      * by apply (Hk k' q' ltac:(set_solver) q'').
    + by apply reversed_ok_insert.
  - destruct (reversed !! q) as [e|] eqn:Eq; [|done]. cbn in E.
    assert (e <> k) as Hek by (intros ->; by apply (Hk k q ltac:(set_solver) q)).
    pose proof (Hr q e Eq) as Heq.
    destruct (Tracker.connections_subscript P (Tracker.connections_subscript P s e).1 k) as [s1 n1].
    destruct (Tracker.connections_subscript P s1 e) as [s2 n2].
    destruct (_ <? _); simplify_eq; [exists k, q|exists e, q]; auto.
Qed.

Lemma duplicate_loop_complete s items reversed s' :
  (forall k q, (k, q) ∈ items -> k <> 0) -> (forall q h, reversed !! q = Some h -> h <> 0) ->
  Tracker.duplicate_loop P s items reversed = (s', 0) ->
  NoDup items.*2 /\ forall k q, (k, q) ∈ items -> reversed !! q = None.
Proof.
  revert reversed. induction items as [|[k q] items IH]; intros reversed Hi Hr E;
    cbn [Tracker.duplicate_loop] in E; [split; [constructor|set_solver]|].
  assert (k <> 0) as Hk by (apply (Hi k q); set_solver).
  destruct (reversed !! q) as [e|] eqn:Eq; cbn in E.
  { assert (e <> 0) as He by eauto. rewrite (proj2 (Z.eqb_neq e 0)) in E by done. cbn in E.
    destruct (Tracker.connections_subscript P (Tracker.connections_subscript P s e).1 k) as [s1 n1].
    destruct (Tracker.connections_subscript P s1 e) as [s2 n2].
    destruct (_ <? _); by simplify_eq. }
  destruct (IH (<[q := k]> reversed)) as [Hnd Hab]; [| |done|].
  - intros k' q' Hin. apply (Hi k' q'). set_solver.
  - intros q' h' [[-> ->]|[_ ?]]%lookup_insert_Some; eauto.
  - split.
    + constructor; [|done]. intros ([k' q'] & Heq & Hin)%list_elem_of_fmap. cbn in Heq. subst q'.
      specialize (Hab _ _ Hin). by rewrite lookup_insert_eq in Hab.
    + intros k' q' [[= -> ->]|Hin]%elem_of_cons; [done|].
      specialize (Hab _ _ Hin). by apply lookup_insert_None in Hab as [? _].
Qed.

Lemma ok_duplicate_loop `{!PlatformLaws P} s items reversed :
  tracker_ok s -> tracker_ok (Tracker.duplicate_loop P s items reversed).1.
Proof.
  intros H. revert reversed. induction items as [|[k q] items IH]; intros reversed;
    cbn [Tracker.duplicate_loop]; [done|]. destruct (negb _); [|apply IH].
  destruct (Tracker.connections_subscript P (Tracker.connections_subscript P s _).1 k)
    as [s1 n1] eqn:E1.
  destruct (Tracker.connections_subscript P s1 _) as [s2 n2] eqn:E2.
  apply (subscript_spec P) in E1 as [H1 _]; [|by apply ok_connections_subscript].
  apply (subscript_spec P) in E2 as [H2 _]; [|done]. by destruct (_ <? _).
Qed.

End duplicates.

(** ** Cleanup *)

Lemma erase_ifM_spec {A} (stale : A -> outcome bool) (f : A -> bool) (l : list A) :
  (forall x, x ∈ l -> stale x = Ret (f x)) ->
  Tracker.erase_ifM stale l = Ret (filter (fun x => f x = false) l).
Proof.
  induction l as [|x l IH]; intros Hl; [done|]. cbn [Tracker.erase_ifM].
  rewrite (Hl x) by set_solver. cbn [mbind outcome_bind].
  rewrite IH by (intros; apply Hl; set_solver). cbn [mbind outcome_bind].
  rewrite filter_cons. by destruct (f x).
Qed.

(** The tests of the cleanup on objects that are there. *)
Definition entry_stale (s : Tracker.t) (now : Z) (item : Z * Z) : bool :=
  match Tracker.packet_at s item.1, Tracker.node_at (Tracker.connections s) item.2 with
  | Some pkt, Some (_, c) =>
    (PacketBase.getPacketTimestamp (packet_base pkt) +u64 ten_minutes_in_ms <? now) ||
    Tracker.connection_stale now c
  | _, _ => false
  end.

Definition stored_stale (s : Tracker.t) (now : Z) (p : Z) : bool :=
  match Tracker.packet_at s p with
  | Some pkt => Tracker.base_stale now (packet_base pkt)
  | None => false
  end.

Lemma packet_connection_stale_live s now p c :
  p ∈ Tracker.packet_addrs s -> c ∈ Tracker.map_addrs (Tracker.connections s) ->
  Tracker.packet_connection_stale s now (p, c) = Ret (entry_stale s now (p, c)).
Proof.
  intros [pkt Hp]%packet_at_live (k & v & Hc)%node_at_live.
  unfold Tracker.packet_connection_stale, entry_stale, Tracker.deref_packet, Tracker.deref_connection.
  cbn [fst snd]. rewrite Hp, Hc. cbn. by destruct (_ <? now).
Qed.

Lemma packet_stale_live s now p :
  p ∈ Tracker.packet_addrs s -> Tracker.packet_stale s now p = Ret (stored_stale s now p).
Proof.
  intros [pkt Hp]%packet_at_live. unfold Tracker.packet_stale, stored_stale, Tracker.deref_packet.
  by rewrite Hp.
Qed.

(** What the cleanup computes when every queued pointer is live. *)
Definition cleaned (now : Z) (s : Tracker.t) : Tracker.t :=
  let s1 := Tracker.set_packets_connections_sent_list s
    (filter (fun x => entry_stale s now x = false) (Tracker.packets_connections_sent_list s)) in
  let s2 := Tracker.set_packets_peers_sent_list s1
    (filter (fun x => stored_stale s now x.1 = false) (Tracker.packets_peers_sent_list s)) in
  let s3 := Tracker.set_broadcast_packets_to_send_list s2
    (filter (fun p => stored_stale s now p = false) (Tracker.broadcast_packets_to_send_list s)) in
  let s4 := Tracker.set_targeted_packets_to_send_list s3
    (filter (fun x => entry_stale s now x = false) (Tracker.targeted_packets_to_send_list s)) in
  let s5 := Tracker.set_connections s4
    (filter (fun kv => Tracker.connection_stale now (node_val kv.2) = false) (Tracker.connections s)) in
  let s6 := Tracker.set_available_neighbours s5
    (filter (fun kv => Tracker.connection_stale now kv.2 = false) (Tracker.available_neighbours s)) in
  let s7 := Tracker.set_messages s6
    (filter (fun kv => Tracker.base_stale now (Message.base (node_val kv.2)) = false)
       (Tracker.messages s)) in
  Tracker.set_packets s7
    (filter (fun kv => Tracker.base_stale now (PacketPassAlong.base (node_val kv.2)) = false)
       (Tracker.packets s)).

Lemma cleanupStaleItems_cleaned P s :
  tracker_ok s -> Tracker.cleanupStaleItems P s = Ret (cleaned (Tracker.getTimeMs P s) s).
Proof.
  intros H. unfold Tracker.cleanupStaleItems. cbv zeta. set (now := Tracker.getTimeMs P s).
  rewrite (erase_ifM_spec _ (entry_stale s now));
    [|intros [p c] Hin; apply packet_connection_stale_live; by eapply ok_sent].
  cbn [mbind outcome_bind].
  rewrite (erase_ifM_spec _ (fun item => stored_stale s now item.1));
    [|intros [p q] Hin; apply (packet_stale_live s now p); by eapply ok_sent_peers].
  cbn [mbind outcome_bind].
  rewrite (erase_ifM_spec _ (stored_stale s now));
    [|intros p Hin; apply (packet_stale_live s now p); by eapply ok_broadcast].
  cbn [mbind outcome_bind].
  rewrite (erase_ifM_spec _ (entry_stale s now));
    [|intros [p c] Hin; apply (packet_connection_stale_live s now p c); by eapply ok_targeted].
  done.
Qed.

Lemma map_addrs_filter {K A} `{Countable K} (f : K * node A -> Prop) `{!forall x, Decision (f x)}
    (m : gmap K (node A)) a k n :
  addrs_inj m -> m !! k = Some n -> node_addr n = a ->
  a ∈ Tracker.map_addrs (filter f m) <-> f (k, n).
Proof.
  intros Hm Hk Ha. rewrite elem_of_map_addrs. split.
  - intros (k' & n' & Hk' & Ha'). apply map_lookup_filter_Some in Hk' as [Hk' Hf].
    assert (k' = k) as -> by (eapply Hm; [exact Hk'|exact Hk|congruence]). congruence.
  - intros Hf. exists k, n. by rewrite map_lookup_filter_Some.
Qed.

(** Which packets stay live. *)
Lemma cleaned_packet_addrs s now p :
  tracker_ok s -> p ∈ Tracker.packet_addrs s ->
  p ∈ Tracker.packet_addrs (cleaned now s) <->
    p = node_addr (Tracker.announce s) \/ stored_stale s now p = false.
Proof.
  intros H Hp. unfold stored_stale, Tracker.packet_at, Tracker.packet_addrs in *. cbn.
  rewrite !elem_of_union, elem_of_singleton in *.
  pose proof (ok_announce_messages s H) as Ham. pose proof (ok_announce_packets s H) as Hap.
  pose proof (ok_messages_packets s H) as Hmp. case_decide as Ha; [subst; tauto|].
  destruct Hp as [[->|Hm]|Hk]; [done| |].
  - pose proof Hm as (k & v & E)%node_at_live. rewrite E. cbn. apply node_at_Some in E.
    rewrite (map_addrs_filter _ _ p k (mkNode p v)) by (try apply (ok_messages_inj s H); done). cbn.
    split; [|tauto]. intros [[?|?]|Hk]; [by subst|tauto|]. exfalso.
    apply elem_of_map_addrs in Hk as (k' & n' & [Hk' _]%map_lookup_filter_Some & <-).
    apply map_addrs_lookup in Hk'. set_solver.
  - assert (p ∉ Tracker.map_addrs (Tracker.messages s)) as Hnm by set_solver.
    rewrite (proj2 (node_at_None _ _) Hnm).
    pose proof Hk as (k & v & E)%node_at_live. rewrite E. cbn. apply node_at_Some in E.
    rewrite (map_addrs_filter _ (Tracker.packets s) p k (mkNode p v))
      by (try apply (ok_packets_inj s H); done). cbn.
    split; [|tauto]. intros [[?|Hm]|?]; [by subst| |tauto]. exfalso.
    apply elem_of_map_addrs in Hm as (k' & n' & [Hk' _]%map_lookup_filter_Some & <-).
    apply map_addrs_lookup in Hk'. done.
Qed.

Lemma cleaned_connection_addrs s now c k v :
  tracker_ok s -> Tracker.node_at (Tracker.connections s) c = Some (k, v) ->
  Tracker.connection_stale now v = false ->
  c ∈ Tracker.map_addrs (Tracker.connections (cleaned now s)).
Proof.
  intros H E Hs. apply node_at_Some in E. cbn.
  by rewrite (map_addrs_filter _ (Tracker.connections s) c k (mkNode c v))
    by (try apply (ok_connections_inj s H); done).
Qed.

(** An entry that stays refers to a connection that stays. *)
Lemma entry_kept_connection s now p c :
  tracker_ok s -> p ∈ Tracker.packet_addrs s -> c ∈ Tracker.map_addrs (Tracker.connections s) ->
  entry_stale s now (p, c) = false ->
  c ∈ Tracker.map_addrs (Tracker.connections (cleaned now s)).
Proof.
  intros H [pkt Hp]%packet_at_live (k & v & Hc)%node_at_live He.
  unfold entry_stale in He. cbn in He. rewrite Hp, Hc in He. apply orb_false_iff in He as [_ He].
  by eapply cleaned_connection_addrs.
Qed.

(** Entries whose packet is erased are erased themselves. *)
Definition cleanup_consistent (s : Tracker.t) (now : Z) : Prop :=
  forall p c,
    (p, c) ∈ Tracker.packets_connections_sent_list s \/
      (p, c) ∈ Tracker.targeted_packets_to_send_list s ->
    p <> node_addr (Tracker.announce s) -> stored_stale s now p = true ->
    entry_stale s now (p, c) = true.

Lemma entry_kept_packet s now p c :
  tracker_ok s -> cleanup_consistent s now ->
  (p, c) ∈ Tracker.packets_connections_sent_list s \/
    (p, c) ∈ Tracker.targeted_packets_to_send_list s ->
  p ∈ Tracker.packet_addrs s -> entry_stale s now (p, c) = false ->
  p ∈ Tracker.packet_addrs (cleaned now s).
Proof.
  intros H Hc Hin Hp He. apply cleaned_packet_addrs; [done..|].
  destruct (decide (p = node_addr (Tracker.announce s))); [by left|right].
  destruct (stored_stale s now p) eqn:E; [|done]. rewrite (Hc p c) in He; done.
Qed.

(** The round of signal strength requests is not at a connection that is
    erased. *)
Definition rssi_stays (s : Tracker.t) (now : Z) : Prop :=
  forall h a n, Tracker.rssi_iterator s = Some (Some (h, a)) -> Tracker.connections s !! h = Some n ->
    Tracker.connection_stale now (node_val n) = false.

Lemma ok_cleaned s now :
  tracker_ok s -> cleanup_consistent s now -> rssi_stays s now -> tracker_ok (cleaned now s).
Proof.
  intros H Hc Hr.
  assert (forall p, p ∈ Tracker.packet_addrs s -> stored_stale s now p = false ->
            p ∈ Tracker.packet_addrs (cleaned now s)) as Hst
    by (intros; apply cleaned_packet_addrs; auto).
  pose proof (fun p c => entry_kept_packet s now p c H Hc) as Hkp.
  pose proof (fun p c => entry_kept_connection s now p c H) as Hkc.
  destruct H. split; try assumption.
  - eapply addrs_inj_subseteq; [apply map_filter_subseteq|done].
  - eapply addrs_inj_subseteq; [apply map_filter_subseteq|done].
  - eapply addrs_inj_subseteq; [apply map_filter_subseteq|done].
  - intros (k & n & [Hk _]%map_lookup_filter_Some & Ha)%elem_of_map_addrs.
    apply ok_announce_messages, elem_of_map_addrs. eauto.
  - intros (k & n & [Hk _]%map_lookup_filter_Some & Ha)%elem_of_map_addrs.
    apply ok_announce_packets, elem_of_map_addrs. eauto.
  - intros a (k & n & [Hk _]%map_lookup_filter_Some & Ha)%elem_of_map_addrs
      (k' & n' & [Hk' _]%map_lookup_filter_Some & Ha')%elem_of_map_addrs.
    apply (ok_messages_packets a); apply elem_of_map_addrs; eauto.
  - intros k n [Hk _]%map_lookup_filter_Some. eauto.
  - intros k n [Hk _]%map_lookup_filter_Some. eauto.
  - intros k n q [Hk _]%map_lookup_filter_Some. eauto.
  - by apply StronglySorted_filter.
  - intros p c [He Hin]%list_elem_of_filter. destruct (ok_sent p c Hin) as [Hp Hcc].
    split; [by apply (Hkp p c); [left|..]|by apply (Hkc p c)].
  - intros p q [He Hin]%list_elem_of_filter. destruct (ok_sent_peers p q Hin). split; [by apply Hst|done].
  - intros p [He Hin]%list_elem_of_filter. apply Hst; [by apply ok_broadcast|done].
  - intros p c [He Hin]%list_elem_of_filter. destruct (ok_targeted p c Hin) as [Hp Hcc].
    split; [by apply (Hkp p c); [right|..]|by apply (Hkc p c)].
  - intros h n [Hk _]%map_lookup_filter_Some. eauto.
  - intros k c [Hk _]%map_lookup_filter_Some. eauto.
  - intros h a Ha. destruct (ok_rssi h a Ha) as (n & Hn & Hna). exists n. split; [|done].
    apply map_lookup_filter_Some. split; [done|]. by apply (Hr h a n).
Qed.

(** The conditions are necessary. *)
Lemma cleaned_ok_consistent s now :
  tracker_ok s -> tracker_ok (cleaned now s) -> cleanup_consistent s now /\ rssi_stays s now.
Proof.
  intros H H'. split.
  - intros p c Hin Hne Hst. destruct (entry_stale s now (p, c)) eqn:He; [done|]. exfalso.
    assert (p ∈ Tracker.packet_addrs s) as Hp
      by (destruct Hin as [Hin|Hin]; [by eapply ok_sent|by eapply ok_targeted]).
    assert (p ∈ Tracker.packet_addrs (cleaned now s)) as Hp'.
    { destruct Hin as [Hin|Hin]; [eapply (ok_sent _ H' p c)|eapply (ok_targeted _ H' p c)];
        by apply list_elem_of_filter. }
    apply cleaned_packet_addrs in Hp' as [?|?]; [done|congruence|done|done].
  - intros h a n Hr Hn. destruct (ok_rssi _ H' h a Hr) as (n' & [Hn' Hs]%map_lookup_filter_Some & _).
    cbn in Hs. congruence.
Qed.

(** ** Properties *)


(** A connected neighbour that has data to send. *)
Definition demo_link (h role : Z) : BleConnection.t :=
  BleConnection.setHasData
    (BleConnection.setBitchatCharacteristicValueHandle
       (BleConnection.setRole
          (BleConnection.setConnected (BleConnection.setConnectionHandle BleConnection.make h) true)
          role) 9) true.

Definition demo_links : Tracker.t :=
  Tracker.set_connections (Tracker.make 1)
    (<[64 := mkNode 11 (demo_link 64 HCI_ROLE_SLAVE)]>
     (<[65 := mkNode 12 (demo_link 65 HCI_ROLE_SLAVE)]> ∅)).

(** The clock after its offset was changed by [d]. *)
Lemma shifted_clock P s d :
  Tracker.getTimeMs P (Tracker.set_timestamp_offset_ms s (Tracker.timestamp_offset_ms s +u64 d)) =
    u64 (Tracker.getTimeMs P s + d).
Proof.
  unfold Tracker.getTimeMs, Tracker.getTimeMs_at. cbn. unfold u64.
  rewrite !Zplus_mod_idemp_l. f_equal. lia.
Qed.

(** C23. Notifications leave in order: when data waits for a handle, its
    connection is flagged and BTstack accepts, one callback sends the oldest
    block of that handle and removes it; the blocks of every other handle stay
    as they are. *)
Theorem notify_sends_oldest P s h n d ds :
  tracker_ok s -> Tracker.connections s !! h = Some n ->
  BleConnection.hasData (node_val n) = true ->
  mm_values (Tracker.raw_packet_to_notify s) h = d :: ds ->
  Tracker.send_accepted (att_server_notify P h
    (BleConnection.getBitchatCharacteristicValueHandle (node_val n)) d) = true ->
  exists s' more, Tracker.notifyRawPacket P s h = Ret s' /\
    Tracker.actions s' = Tracker.actions s ++
      ServerNotify h (BleConnection.getBitchatCharacteristicValueHandle (node_val n)) d :: more /\
    mm_values (Tracker.raw_packet_to_notify s') h = ds /\
    forall h', h' <> h ->
      mm_values (Tracker.raw_packet_to_notify s') h' = mm_values (Tracker.raw_packet_to_notify s) h'.
Proof.
  intros H Hn Hd Hv Ha. pose proof (ok_notify_sorted s H) as Hs.
  destruct (mm_lower_bound_present h (Tracker.raw_packet_to_notify s) Hs) as (d' & l & Hl);
    [by rewrite Hv|].
  destruct (mm_erase_first_present h d' (Tracker.raw_packet_to_notify s) Hs (ex_intro _ l Hl))
    as [He Ho]. rewrite Hv in He. simplify_eq.
  rewrite (notifyRawPacket_step P s h n h d' l Hn Hd Hl Ha). cbv zeta.
  destruct (mm_lower_bound h (mm_erase_first _ _)); [exists (Tracker.set_raw_packet_to_notify
    (Tracker.emit s (ServerNotify h (BleConnection.getBitchatCharacteristicValueHandle (node_val n)) d'))
    (mm_erase_first h (Tracker.raw_packet_to_notify s))), []|eexists _, [_]];
    (split; [reflexivity|]); cbn; (split; [by rewrite <- ?app_assoc|]); done.
Qed.

Lemma notify_sends_oldest_witness :
  let s := Tracker.set_raw_packet_to_notify demo_links [(64, [1]); (64, [2]); (65, [3])] in
  exists s' more, Tracker.notifyRawPacket (demo_platform 0) s 64 = Ret s' /\
    Tracker.actions s' = Tracker.actions s ++ ServerNotify 64 9 [1] :: more /\
    mm_values (Tracker.raw_packet_to_notify s') 64 = [[2]] /\
    forall h', h' <> 64 ->
      mm_values (Tracker.raw_packet_to_notify s') h' = mm_values (Tracker.raw_packet_to_notify s) h'.
Proof.
  intros s. apply (notify_sends_oldest (demo_platform 0) s 64 (mkNode 11 (demo_link 64 HCI_ROLE_SLAVE)));
    [check_ok|reflexivity..].
Defined.

(** Writes leave in order, like notifications. *)
Lemma write_sends_oldest P s h n d ds :
  tracker_ok s -> Tracker.connections s !! h = Some n ->
  BleConnection.hasData (node_val n) = true ->
  mm_values (Tracker.raw_packet_to_write s) h = d :: ds ->
  Tracker.send_accepted (gatt_client_write_value_of_characteristic_without_response P h
    (BleConnection.getBitchatCharacteristicValueHandle (node_val n)) d) = true ->
  exists s' more, Tracker.writeRawPacket P s h = Ret s' /\
    Tracker.actions s' = Tracker.actions s ++
      WriteWithoutResponse h (BleConnection.getBitchatCharacteristicValueHandle (node_val n)) d :: more /\
    mm_values (Tracker.raw_packet_to_write s') h = ds /\
    Tracker.packets s' = Tracker.packets s /\
    forall h', h' <> h ->
      mm_values (Tracker.raw_packet_to_write s') h' = mm_values (Tracker.raw_packet_to_write s) h'.
Proof.
  intros H Hn Hd Hv Ha. pose proof (ok_write_sorted s H) as Hs.
  destruct (mm_lower_bound_present h (Tracker.raw_packet_to_write s) Hs) as (d' & l & Hl);
    [by rewrite Hv|].
  destruct (mm_erase_first_present h d' (Tracker.raw_packet_to_write s) Hs (ex_intro _ l Hl))
    as [He Ho]. rewrite Hv in He. simplify_eq.
  rewrite (writeRawPacket_step P s h n h d' l Hn Hd Hl Ha). cbv zeta.
  destruct (mm_lower_bound h (mm_erase_first _ _)); [exists (Tracker.set_raw_packet_to_write
    (Tracker.emit s
       (WriteWithoutResponse h (BleConnection.getBitchatCharacteristicValueHandle (node_val n)) d'))
    (mm_erase_first h (Tracker.raw_packet_to_write s))), []|eexists _, [_]];
    (split; [reflexivity|]); cbn; (split; [by rewrite <- ?app_assoc|]); done.
Qed.

Lemma write_sends_oldest_witness :
  let s := Tracker.set_raw_packet_to_write demo_links [(64, [1]); (64, [2]); (65, [3])] in
  exists s' more, Tracker.writeRawPacket (demo_platform 0) s 64 = Ret s' /\
    Tracker.actions s' = Tracker.actions s ++ WriteWithoutResponse 64 9 [1] :: more /\
    mm_values (Tracker.raw_packet_to_write s') 64 = [[2]] /\
    Tracker.packets s' = Tracker.packets s /\
    forall h', h' <> 64 ->
      mm_values (Tracker.raw_packet_to_write s') h' = mm_values (Tracker.raw_packet_to_write s) h'.
Proof.
  intros s. apply (write_sends_oldest (demo_platform 0) s 64 (mkNode 11 (demo_link 64 HCI_ROLE_SLAVE)));
    [check_ok|reflexivity..].
Defined.

(** C19. A callback for a handle with nothing waiting (its connection flagged as
    having data, as it stays once it had any, and the block accepted by BTstack)
    takes what waits for the next higher handle: [equal_range(h).first] is then the first block of
    another connection, which is sent to [h] and removed, so the connection it
    was meant for never gets it. *)
Theorem notify_sends_foreign_data P s h n k d ds l :
  tracker_ok s -> Tracker.connections s !! h = Some n ->
  BleConnection.hasData (node_val n) = true ->
  mm_values (Tracker.raw_packet_to_notify s) h = [] ->
  mm_lower_bound h (Tracker.raw_packet_to_notify s) = (k, d) :: l ->
  mm_values (Tracker.raw_packet_to_notify s) k = d :: ds ->
  Tracker.send_accepted (att_server_notify P h
    (BleConnection.getBitchatCharacteristicValueHandle (node_val n)) d) = true ->
  exists s' more, Tracker.notifyRawPacket P s h = Ret s' /\ k <> h /\
    Tracker.actions s' = Tracker.actions s ++
      ServerNotify h (BleConnection.getBitchatCharacteristicValueHandle (node_val n)) d :: more /\
    mm_values (Tracker.raw_packet_to_notify s') k = ds.
Proof.
  intros H Hn Hd Hv Hl Hk Ha.
  assert (k <> h) as Hne by (intros ->; congruence).
  assert (mm_values (mm_erase_first h (Tracker.raw_packet_to_notify s)) k = ds) as He.
  { unfold mm_erase_first. rewrite Hl. cbn [tail].
    pose proof (mm_before_lower_bound h (Tracker.raw_packet_to_notify s)) as Hm. rewrite Hl in Hm.
    rewrite <- Hm in Hk. unfold mm_values, mm_equal_range in *. rewrite !filter_app in *.
    rewrite (filter_none _ (mm_before _ _)) in * by
      (intros p Hp Hpk%key_equiv_spec; pose proof (mm_before_less _ _ _ Hp) as Hlt;
       assert ((k, d) ∈ mm_lower_bound h (Tracker.raw_packet_to_notify s)) as Hin
         by (rewrite Hl; apply list_elem_of_here);
       apply (mm_lower_bound_ge h _ _ (ok_notify_sorted s H)) in Hin as [_ Hge];
       cbn in Hge; rewrite <- Hpk in Hge; congruence).
    rewrite filter_cons, decide_True in Hk by by apply key_equiv_spec. cbn in Hk. by simplify_eq. }
  rewrite (notifyRawPacket_step P s h n k d l Hn Hd Hl Ha). cbv zeta.
  destruct (mm_lower_bound h (mm_erase_first _ _)); [exists (Tracker.set_raw_packet_to_notify
    (Tracker.emit s (ServerNotify h (BleConnection.getBitchatCharacteristicValueHandle (node_val n)) d))
    (mm_erase_first h (Tracker.raw_packet_to_notify s))), []|eexists _, [_]];
    (split; [reflexivity|]); (split; [done|]); cbn; (split; [by rewrite <- ?app_assoc|]); done.
Qed.

Lemma notify_sends_foreign_data_witness :
  let s := Tracker.set_raw_packet_to_notify demo_links [(65, [3]); (65, [4])] in
  exists s' more, Tracker.notifyRawPacket (demo_platform 0) s 64 = Ret s' /\ 65 <> 64 /\
    Tracker.actions s' = Tracker.actions s ++ ServerNotify 64 9 [3] :: more /\
    mm_values (Tracker.raw_packet_to_notify s') 65 = [[4]].
Proof.
  intros s. apply (notify_sends_foreign_data (demo_platform 0) s 64
    (mkNode 11 (demo_link 64 HCI_ROLE_SLAVE)) 65 [3] [[4]] [(65, [4])]);
    [check_ok|reflexivity..].
Defined.

(** C30. Signal strength requests: with at least one connection in the map, a
    step of the round (restarted or not) reads the strength of a connection
    that is there, keeps the tracker well-formed, and reports more work
    exactly when a higher handle remains. *)
Theorem requestNextRssi_safe s restart :
  tracker_ok s -> Tracker.connections s <> ∅ ->
  exists h s' more, Tracker.requestNextRssi s restart = Ret (s', more) /\ tracker_ok s' /\
    Tracker.actions s' = Tracker.actions s ++ [ReadRssi h] /\
    is_Some (Tracker.connections s !! h) /\
    more = negb (bool_decide (Tracker.connections_next s h = None)).
Proof. apply ok_requestNextRssi. Qed.

Lemma requestNextRssi_safe_witness :
  exists h s' more, Tracker.requestNextRssi demo_links false = Ret (s', more) /\ tracker_ok s' /\
    Tracker.actions s' = Tracker.actions demo_links ++ [ReadRssi h] /\
    is_Some (Tracker.connections demo_links !! h) /\
    more = negb (bool_decide (Tracker.connections_next demo_links h = None)).
Proof. apply (requestNextRssi_safe demo_links false); [check_ok|vm_compute; discriminate]. Defined.

(** Without any connection the request dereferences [end()], whatever the
    iterator was left at by earlier rounds. *)
Theorem requestNextRssi_empty_faults s restart :
  tracker_ok s -> Tracker.connections s = ∅ ->
  Tracker.requestNextRssi s restart = Fault EndIterator.
Proof.
  intros H Hc. unfold Tracker.requestNextRssi. cbv zeta.
  rewrite (proj2 (connections_begin_None s) Hc).
  destruct (Tracker.rssi_iterator s) as [[[h a]|]|] eqn:E; cbn; [|done..].
  destruct (ok_rssi s H h a E) as (n & Hn & _). by rewrite Hc, lookup_empty in Hn.
Qed.

Lemma requestNextRssi_empty_faults_witness :
  Tracker.requestNextRssi (Tracker.make 1) true = Fault EndIterator.
Proof. apply (requestNextRssi_empty_faults (Tracker.make 1) true); [check_ok|reflexivity]. Defined.

(** C29. Duplicate detection is sound and complete: a non-zero handle returned
    belongs to a peer that is also reached over another handle, and when [0]
    is returned (no handle being zero) no peer is reached twice. *)
Theorem getAnyDuplicateHandle_correct P s :
  (forall h q, Tracker.handle_peer_map s !! h = Some q -> h <> 0) ->
  let h := (Tracker.getAnyDuplicateHandle P s).2 in
  if bool_decide (h = 0)
  then forall h1 h2 q, Tracker.handle_peer_map s !! h1 = Some q ->
         Tracker.handle_peer_map s !! h2 = Some q -> h1 = h2
  else exists h' q, h' <> h /\ Tracker.handle_peer_map s !! h = Some q /\
         Tracker.handle_peer_map s !! h' = Some q.
Proof.
  intros Hz. unfold Tracker.getAnyDuplicateHandle.
  destruct (Tracker.duplicate_loop P s _ ∅) as [s' h] eqn:E. cbn [snd]. case_bool_decide as Hh.
  - subst h. apply duplicate_loop_complete in E as [Hnd _].
    + intros h1 h2 q H1 H2. rewrite <- elem_of_map_sorted in H1, H2.
      apply list_elem_of_lookup in H1 as [i1 H1]. apply list_elem_of_lookup in H2 as [i2 H2].
      assert (i1 = i2) as -> by (eapply NoDup_lookup; [exact Hnd| |];
        rewrite list_lookup_fmap, ?H1, ?H2; reflexivity). congruence.
    + intros k q Hin. apply elem_of_map_sorted in Hin. by apply Hz in Hin.
    + intros q h. by rewrite lookup_empty.
  - eapply duplicate_loop_sound in E; try done.
    + intros k q Hin. by apply elem_of_map_sorted.
    + apply NoDup_map_sorted.
Qed.

Lemma getAnyDuplicateHandle_correct_witness :
  let s := Tracker.set_handle_peer_map demo_links (<[64 := 5]> (<[65 := 5]> ∅)) in
  exists h' q, h' <> 65 /\ Tracker.handle_peer_map s !! 65 = Some q /\
    Tracker.handle_peer_map s !! h' = Some q.
Proof.
  intros s. apply (getAnyDuplicateHandle_correct (demo_platform 0) s).
  intros h q Hin. unfold s in Hin. cbn in Hin.
  apply lookup_insert_Some in Hin as [[<- _]|[_ Hin]]; [lia|].
  apply lookup_insert_Some in Hin as [[<- _]|[_ Hin]]; [lia|]. by rewrite lookup_empty in Hin.
Defined.

(** C31. Cleanup: from a well-formed tracker [cleanupStaleItems] follows only
    live pointers and returns, and the tracker it leaves is well-formed exactly
    when every entry of the sent list and of the targeted queue whose packet is
    erased (the announce packet never is) is erased as well, and the round of
    signal strength requests is not at an erased connection. *)
Theorem cleanup_well_formed P s :
  tracker_ok s ->
  exists s', Tracker.cleanupStaleItems P s = Ret s' /\
    (tracker_ok s' <->
     cleanup_consistent s (Tracker.getTimeMs P s) /\ rssi_stays s (Tracker.getTimeMs P s)).
Proof.
  intros H. eexists. split; [by apply cleanupStaleItems_cleaned|].
  split; [by apply cleaned_ok_consistent|]. intros []. by apply ok_cleaned.
Qed.

(** A quarter of an hour after the start: an announce and an old packet were
    sent to the connection 64, the connection 65 is long gone. *)
Definition demo_old : Tracker.t :=
  let s := Tracker.set_connections demo_links
    (<[64 := mkNode 11 (demo_link 64 HCI_ROLE_SLAVE)]>
     (<[65 := mkNode 12 (BleConnection.setConnected (demo_link 65 HCI_ROLE_SLAVE) false)]> ∅)) in
  let s := Tracker.set_packets s {[ 7 := mkNode 100 (PacketPassAlong.make 0x05 7 1000 0 5 0 []) ]} in
  let s := Tracker.set_packets_connections_sent_list s [(1, 11); (100, 11); (100, 12)] in
  Tracker.set_rssi_iterator s (Some (Some (64, 11))).

Lemma cleanup_well_formed_witness :
  exists s', Tracker.cleanupStaleItems (demo_platform 900000000) demo_old = Ret s' /\ tracker_ok s' /\
    Tracker.packets s' = ∅ /\ dom (Tracker.connections s') = {[64]}.
Proof.
  destruct (cleanup_well_formed (demo_platform 900000000) demo_old) as (s' & E & Hiff); [check_ok|].
  exists s'. split; [exact E|]. split.
  - apply Hiff. split.
    + intros p c [Hin|Hin] Hne Hst; [|by apply elem_of_nil in Hin].
      repeat (apply elem_of_cons in Hin as [[= -> ->]|Hin]; [vm_compute in Hst |- *; congruence|]).
      by apply elem_of_nil in Hin.
    + intros h a n [= <- <-] [= <-]. reflexivity.
  - vm_compute in E. injection E as <-. split; vm_compute; reflexivity.
Defined.

(** C33. The cleanup compares a stored packet's time in seconds with the clock
    in milliseconds, and the sent list's time in milliseconds: a packet that
    is not ten minutes old is erased while its entry in the sent list stays,
    so the tracker is left with a pointer to a freed packet. *)
Theorem cleanup_leaves_dangling P s p c pkt k v :
  tracker_ok s -> (p, c) ∈ Tracker.packets_connections_sent_list s ->
  p <> node_addr (Tracker.announce s) -> Tracker.packet_at s p = Some pkt ->
  Tracker.node_at (Tracker.connections s) c = Some (k, v) -> BleConnection.connected v = true ->
  Tracker.getTimeMs P s <=
    PacketBase.packet_timestamp (packet_base pkt) +u64 ten_minutes_in_ms ->
  PacketBase.packet_timestamp (packet_base pkt) / 1000 +u64 ten_minutes_in_ms <
    Tracker.getTimeMs P s ->
  exists s', Tracker.cleanupStaleItems P s = Ret s' /\
    (p, c) ∈ Tracker.packets_connections_sent_list s' /\ p ∉ Tracker.packet_addrs s'.
Proof.
  intros H Hin Hne Hp Hc Hcon Hnow Hst. eexists. split; [by apply cleanupStaleItems_cleaned|].
  assert (p ∈ Tracker.packet_addrs s) as Hlive by (apply packet_at_live; by eexists). split.
  - apply list_elem_of_filter. split; [|done]. unfold entry_stale. cbn [fst snd]. rewrite Hp, Hc.
    unfold Tracker.connection_stale, BleConnection.isConnected. rewrite Hcon. cbn [negb andb].
    rewrite orb_false_r. unfold PacketBase.getPacketTimestamp. lia.
  - rewrite cleaned_packet_addrs by done. intros [?|Hs]; [done|].
    unfold stored_stale in Hs. rewrite Hp in Hs.
    unfold Tracker.base_stale, PacketBase.getPacketTimestampMs in Hs. lia.
Qed.

(** A packet of two seconds ago, on a repeater whose clock was set by a peer. *)
Definition demo_recent : Tracker.t :=
  let p := PacketPassAlong.make 0x05 7 1755685600000 0 5 0 [] in
  let s := Tracker.set_packets demo_links {[ 7 := mkNode 100 p ]} in
  let s := Tracker.set_packets_connections_sent_list s [(100, 11)] in
  Tracker.set_timestamp_offset_ms s 1755685601000.

Lemma cleanup_leaves_dangling_witness :
  exists s', Tracker.cleanupStaleItems (demo_platform 1000000) demo_recent = Ret s' /\
    (100, 11) ∈ Tracker.packets_connections_sent_list s' /\ 100 ∉ Tracker.packet_addrs s'.
Proof.
  apply (cleanup_leaves_dangling (demo_platform 1000000) demo_recent 100 11
    (PktPassAlong (PacketPassAlong.make 0x05 7 1755685600000 0 5 0 [])) 64 (demo_link 64 HCI_ROLE_SLAVE));
    [check_ok|apply list_elem_of_here|discriminate|vm_compute; reflexivity..|
     vm_compute; discriminate|vm_compute; reflexivity].
Defined.

(** C28. The clock follows the announces: after an announce has been processed
    the tracker's clock is not behind its timestamp and at most the message
    timeout ahead of it; it is set to the timestamp, or left as it was. *)
Theorem clock_follows_announce P s ts :
  0 <= ts < 2 ^ 63 -> 0 <= Tracker.getTimeMs P s < 2 ^ 63 ->
  exists s', Tracker.possiblyUpdateTimeOffset P s ts = Ret s' /\
    (s' = s \/ Tracker.getTimeMs P s' = ts) /\
    ts <= Tracker.getTimeMs P s' <= ts + MESSAGE_TIMEOUT.
Proof.
  intros Ht Hn. unfold Tracker.possiblyUpdateTimeOffset. cbv zeta.
  set (now := Tracker.getTimeMs P s) in *. rewrite !i64_small by lia. rewrite decide_True by lia.
  destruct (Z.abs (ts - now) >? MESSAGE_TIMEOUT) eqn:Eg, (ts >? now) eqn:El; cbn [orb].
  4: { exists s. split; [done|]. split; [by left|]. fold now.
       rewrite Z.gtb_ltb, Z.ltb_ge in Eg, El. lia. }
  all: eexists; split; [reflexivity|]; rewrite shifted_clock; fold now;
    replace (now + (ts - now)) with ts by lia; rewrite (u64_small ts) by lia;
    unfold MESSAGE_TIMEOUT; split; [by right|lia].
Qed.

Lemma clock_follows_announce_witness :
  exists s', Tracker.possiblyUpdateTimeOffset (demo_platform 1000000) demo_links 1755685600000 = Ret s' /\
    (s' = demo_links \/ Tracker.getTimeMs (demo_platform 1000000) s' = 1755685600000) /\
    1755685600000 <= Tracker.getTimeMs (demo_platform 1000000) s' <= 1755685600000 + MESSAGE_TIMEOUT.
Proof.
  apply (clock_follows_announce (demo_platform 1000000) demo_links 1755685600000);
    vm_compute; split; congruence || reflexivity.
Defined.
