(* ===== verification/Processor.v ===== *)
(** * Parsing and dispatch of incoming packets

    [ProtocolProcessor] (Bitchat/ProtocolProcessor.h, .cpp): a packet written
    by a neighbour is parsed, its sender recorded, and the packet stored and
    queued for broadcast when it is new and may travel on. *)

From stdpp Require Import base numbers list gmap strings.
From Stdlib Require Import ZArith Lia.
From S2P Require Import Prelude Platform Containers BinaryIO Packets ProtocolWriter BleConnection.
From S2P Require Import Tracker.

(** ** The state of [processMessage] and its early returns

    A step of [processMessage] moves the reader, the message under
    construction and the tracker; [None] is a [return false]. *)

Record pstate : Type := mkPstate {
  ps_tracker : Tracker.t;
  ps_reader : BinaryReader.t;
  ps_message : Message.t }.

Definition parser (A : Type) : Type := pstate -> outcome (pstate * option A).

#[export] Instance parser_ret : MRet parser := fun A a st => Ret (st, Some a).

#[export] Instance parser_bind : MBind parser := fun A B k m st =>
  match m st with
  | Fault f => Fault f
  | Ret (st, None) => Ret (st, None)
  | Ret (st, Some a) => k a st
  end.

Definition p_read {A} (read : BinaryReader.t -> outcome (A * BinaryReader.t)) : parser A :=
  fun st =>
    '(a, r) ← read (ps_reader st);
    Ret (mkPstate (ps_tracker st) r (ps_message st), Some a).

(** [read_data], and [return false] on [nullptr]. *)
Definition p_data (len : Z) : parser bytes := fun st =>
  '(o, r) ← BinaryReader.read_data (ps_reader st) len;
  Ret (mkPstate (ps_tracker st) r (ps_message st), o).

(** A length byte and the block it announces. *)
Definition p_string8 : parser bytes :=
  len ← p_read BinaryReader.read_uint8;
  p_data len.

Definition p_message (f : Message.t -> Message.t) : parser unit := fun st =>
  Ret (mkPstate (ps_tracker st) (ps_reader st) (f (ps_message st)), Some tt).

Definition p_tracker (f : Tracker.t -> Tracker.t) : parser unit := fun st =>
  Ret (mkPstate (f (ps_tracker st)) (ps_reader st) (ps_message st), Some tt).

(** [if (message.test()) { ... }] *)
Definition p_when (test : Message.t -> bool) (body : parser unit) : parser unit := fun st =>
  if test (ps_message st) then body st else Ret (st, Some tt).

Module Processor.

Definition stringForType (type : Z) : string :=
  match PacketType_of type with
  | Some type_announce => "Announce"
  | Some type_leave => "Leave"
  | Some type_message => "Message"
  | Some type_fragment_start => "FRAGMENT_START"
  | Some fragmentContinue => "FRAGMENT_CONTINUE"
  | Some fragmentEnd => "FRAGMENT_END"
  | Some channelAnnounce => "CHANNEL_ANNOUNCE"
  | Some channelRetention => "CHANNEL_RETENTION"
  | Some deliveryAck => "DELIVERY_ACK"
  | Some deliveryStatusRequest => "DELIVERY_STATUS_REQUEST"
  | Some readReceipt => "READ_RECEIPT"
  | Some noiseHandshakeInit => "NOISE_HANDSHAKE_INIT"
  | Some noiseHandshakeResp => "NOISE_HANDSHAKE_RESP"
  | Some noiseEncrypted => "NOISE_ENCRYPTED"
  | Some noiseIdentityAnnounce => "NOISE_IDENTITY_ANNOUNCE"
  | Some channelKeyVerifyRequest => "CHANNEL_KEY_VERIFY_REQUEST"
  | Some channelKeyVerifyResponse => "CHANNEL_KEY_VERIFY_RESPONSE"
  | Some channelPasswordUpdate => "CHANNEL_PASSWORD_UPDATE"
  | Some channelMetadata => "CHANNEL_METADATA"
  | Some handshakeRequest => "HANDSHAKE_REQUEST"
  | Some versionHello => "VERSION_HELLO"
  | Some versionAck => "VERSION_ACK"
  | _ => "UnknownType"
  end.

Definition updateOrStorePeerName (s : Tracker.t) (sender : Z) (peer_name : bytes) (ttl : Z)
    (connection : BleConnection.t) : Tracker.t :=
  let s := Tracker.checkSenderInPeers s sender in
  let s := Tracker.update_peer s sender (fun peer => Peer.updateName peer peer_name) in
  let peer := default Peer.make (Tracker.peers s !! sender) in
  if ttl >=? Peer.getAnnounceTtl peer then
    let s := Tracker.update_peer s sender (fun peer => Peer.setAnnounceTtl peer ttl) in
    Tracker.setConnectionHandleForPeer s (BleConnection.getConnectionHandle connection) sender
  else s.

Definition updateOrStorePeerNoisePublicKey (s : Tracker.t) (sender : Z) (public_key : bytes)
    : Tracker.t :=
  let s := Tracker.checkSenderInPeers s sender in
  Tracker.update_peer s sender (fun peer => Peer.updateNoisePublicKey peer public_key).

(** [c & '@' ? c + 9 : c] *)
Definition hex_digit (c : Z) : Z := if has_flag c 0x40 then c + 9 else c.

(** The loop over the sixteen digits of a peer id. *)
Fixpoint parse_peer_id (sender_peer_id : bytes) (shift_by peer_id : Z) : Z :=
  match sender_peer_id with
  | c0 :: c1 :: rest =>
    let uint8 := u8 (Z.shiftl (hex_digit c0) 4) in
    let uint8 := u8 (Z.lor uint8 (Z.land (hex_digit c1) 15)) in
    parse_peer_id rest (shift_by - 8) (Z.lor peer_id (u64 (Z.shiftl uint8 shift_by)))
  | _ => peer_id
  end.

(** [for (int i = 0; i < number_of_mentions; i++)] *)
Fixpoint parse_mentions (number_of_mentions : nat) : parser unit :=
  match number_of_mentions with
  | O => mret tt
  | S n =>
    mention ← p_string8;
    _ ← p_message (fun m => Message.addMention m mention);
    parse_mentions n
  end.

Definition parse_message_body : parser unit :=
  flags ← p_read BinaryReader.read_uint8;
  _ ← p_message (fun m => Message.setMessageFlags m flags);
  timestamp ← p_read BinaryReader.read_uint64;
  _ ← p_message (fun m => Message.setMessageTimestamp m timestamp);
  id ← p_string8;
  _ ← p_message (fun m => Message.setMessageId m id);
  sender ← p_string8;
  _ ← p_message (fun m => Message.setSenderNickname m sender);
  content_len ← p_read BinaryReader.read_uint16;
  content ← p_data content_len;
  _ ← p_message (fun m =>
        if Message.isEncrypted m then Message.setEncryptedContent m content
        else Message.setContent m content);
  _ ← p_when Message.hasOriginalSender (
        original_sender ← p_string8;
        p_message (fun m => Message.setOriginalSenderNickname m original_sender));
  _ ← p_when Message.hasRecipientNickname (
        recipient_nickname ← p_string8;
        p_message (fun m => Message.setRecipientNickname m recipient_nickname));
  _ ← p_when Message.hasSenderPeerID (
        sender_peer_id_len ← p_read BinaryReader.read_uint8;
        sender_peer_id ← p_data sender_peer_id_len;
        if sender_peer_id_len =? 16 then
          let peer_id := parse_peer_id sender_peer_id 56 0 in
          _ ← p_tracker (fun s => Tracker.checkSenderInPeers s peer_id);
          p_message (fun m => Message.setSenderPeer m (Some peer_id))
        else mret tt);
  _ ← p_when Message.hasMentions (
        number_of_mentions ← p_read BinaryReader.read_uint8;
        parse_mentions (Z.to_nat number_of_mentions));
  p_when Message.hasChannel (
    channel ← p_string8;
    p_message (fun m => Message.setChannel m channel)).

Definition processMessage (s : Tracker.t) (message : Message.t) (payload : bytes)
    (payload_length : Z) : outcome (Tracker.t * Message.t * bool) :=
  if payload_length <? 13 then Ret (s, message, false)
  else
    '(st, r) ← parse_message_body
                 (mkPstate s (BinaryReader.make 0 payload payload_length) message);
    Ret (ps_tracker st, ps_message st, bool_decide (is_Some r)).

(** The header, the payload after decompression, and the signature of an
    incoming packet; [None] when [processWrite] returns before the [switch]. *)
Record incoming : Type := mkIncoming {
  in_type : Z;
  in_ttl : Z;
  in_timestamp_ms : Z;
  in_packet_flags : Z;
  in_sender : Z;
  in_recipient : Z;
  in_payload : bytes;
  in_payload_length : Z;
  in_packet_signature : bytes }.

(** From the original size of a compressed payload to the padding byte. *)
Definition readBody (P : Platform) (buffer : bytes) (buffer_size : Z)
    (type ttl timestamp_ms packet_flags payload_length sender recipient : Z)
    (reader : BinaryReader.t) : outcome (option incoming) :=
  '(originalSize, payload_length, reader) ←
    (if has_flag packet_flags packet_flag_is_compressed then
       '(originalSize, reader) ← BinaryReader.read_uint16 reader;
       Ret (originalSize, payload_length -u16 2, reader)
     else Ret (0, payload_length, reader));
  '(payload, reader) ← BinaryReader.read_data reader payload_length;
  match payload with
  | None => Ret None
  | Some payload =>
    let '(payload, payload_length) :=
      if has_flag packet_flags packet_flag_is_compressed then
        match zlib_decompress P payload originalSize with
        | Some decompressed =>
          if zlen decompressed >? 0 then (decompressed, u16 (zlen decompressed))
          else (payload, payload_length)
        | None => (payload, payload_length)
        end
      else (payload, payload_length) in
    packet_signature ←
      (if has_flag packet_flags packet_flag_has_signature then
         '(signature, reader) ← BinaryReader.read_data reader 64;
         match signature with
         | None => Fault NullPointer (* [memcpy] from the null pointer *)
         | Some signature => Ret signature
         end
       else Ret []);
    padding_to_remove ← buf_get buffer (buffer_size - 1);
    Ret (Some (mkIncoming type ttl timestamp_ms packet_flags sender recipient payload
                 payload_length packet_signature))
  end.

Definition readPacket (P : Platform) (offset : Z) (buffer : bytes) (buffer_size : Z)
    : outcome (option incoming) :=
  let reader := BinaryReader.make offset buffer buffer_size in
  '(version, reader) ← BinaryReader.read_uint8 reader;
  if negb (version =? 1) then Ret None
  else
    '(type, reader) ← BinaryReader.read_uint8 reader;
    '(ttl, reader) ← BinaryReader.read_uint8 reader;
    '(timestamp_ms, reader) ← BinaryReader.read_uint64 reader;
    '(packet_flags, reader) ← BinaryReader.read_uint8 reader;
    '(payload_length, reader) ← BinaryReader.read_uint16 reader;
    '(sender, reader) ← BinaryReader.read_uint64 reader;
    '(recipient, reader) ←
      (if has_flag packet_flags packet_flag_has_recipient
       then BinaryReader.read_uint64 reader else Ret (0, reader));
    readBody P buffer buffer_size type ttl timestamp_ms packet_flags payload_length sender
      recipient reader.

(** The packet types that reach the pass-along code of the [switch]. *)
Definition passes_along (ty : PacketType) : bool :=
  match ty with
  | type_announce | type_fragment_start | fragmentContinue | fragmentEnd | deliveryAck
  | deliveryStatusRequest | readReceipt | noiseHandshakeInit | noiseHandshakeResp
  | noiseEncrypted | channelKeyVerifyRequest | channelKeyVerifyResponse
  | channelPasswordUpdate | channelMetadata => true
  | _ => false
  end.

Definition passAlong (P : Platform) (s : Tracker.t) (connection_addr : Z) (i : incoming)
    : outcome Tracker.t :=
  if in_ttl i <? 1 then Ret s
  else
    let s := Tracker.checkSenderInPeers s (in_sender i) in
    let pass_along := PacketPassAlong.make (in_type i) (in_ttl i) (in_timestamp_ms i)
      (in_packet_flags i) (in_sender i) (in_recipient i) (in_packet_signature i) in
    let pass_along := PacketPassAlong.setPayload pass_along (in_payload i) in
    match Tracker.storePacketAndReturnIfNew P s pass_along with
    | (s, Some stored_packet) =>
      Tracker.enqueueBroadcastPacketFrom s stored_packet connection_addr (in_sender i)
    | (s, None) => Ret s
    end.

Definition dispatch (P : Platform) (s : Tracker.t) (connection : BleConnection.t)
    (connection_addr : Z) (i : incoming) : outcome Tracker.t :=
  match PacketType_of (in_type i) with
  | Some noiseIdentityAnnounce =>
    Ret (updateOrStorePeerNoisePublicKey s (in_sender i) (in_payload i))
  | Some type_message =>
    let s := Tracker.checkSenderInPeers s (in_sender i) in
    let message := Message.make (in_ttl i) (in_timestamp_ms i) (in_packet_flags i) (in_sender i)
      (in_recipient i) (in_packet_signature i) in
    '(s, message, ok) ← processMessage s message (in_payload i) (in_payload_length i);
    if ok : bool then
      match Tracker.storeMessageAndReturnIfNew P s message with
      | (s, Some stored_message) =>
        Tracker.enqueueBroadcastPacketFrom s stored_message connection_addr (in_sender i)
      | (s, None) => Ret s
      end
    else Ret s
  | Some type_announce =>
    let s := updateOrStorePeerName s (in_sender i) (in_payload i) (in_ttl i) connection in
    s ← Tracker.possiblyUpdateTimeOffset P s (in_timestamp_ms i);
    passAlong P s connection_addr i
  | Some ty => if passes_along ty then passAlong P s connection_addr i else Ret s
  | None => Ret s
  end.

(** [connection] is the object the reference parameter is bound to and
    [connection_addr] its address. *)
Definition processWrite (P : Platform) (s : Tracker.t) (connection : BleConnection.t)
    (connection_addr : Z) (offset : Z) (buffer : bytes) (buffer_size : Z) : outcome Tracker.t :=
  i ← readPacket P offset buffer buffer_size;
  match i with
  | None => Ret s
  | Some i => dispatch P s connection connection_addr i
  end.

End Processor.

(** ** The hexadecimal peer id *)

(** The two digits the writer produces for a byte are read back as the byte:
    checked on the 256 bytes. *)
Definition hex_byte_ok (n : nat) : bool :=
  match BinaryWriter.write_uint8_hex16 [] (Z.of_nat n) with
  | [c0; c1] =>
    u8 (Z.lor (u8 (Z.shiftl (Processor.hex_digit c0) 4)) (Z.land (Processor.hex_digit c1) 15))
      =? Z.of_nat n
  | _ => false
  end.

Lemma hex_byte_roundtrip b :
  0 <= b < 2 ^ 8 ->
  exists c0 c1, BinaryWriter.write_uint8_hex16 [] b = [c0; c1] /\
    u8 (Z.lor (u8 (Z.shiftl (Processor.hex_digit c0) 4)) (Z.land (Processor.hex_digit c1) 15)) = b.
Proof.
  intros Hb. assert (forallb hex_byte_ok (seq 0 256) = true) as H by by vm_compute.
  rewrite forallb_forall in H. specialize (H (Z.to_nat b)).
  unfold hex_byte_ok in H. rewrite Z2Nat.id in H by lia.
  destruct (BinaryWriter.write_uint8_hex16 [] b) as [|c0 [|c1 [|]]] eqn:E;
    try discriminate E. exists c0, c1. split; [done|]. apply Z.eqb_eq, H, in_seq. lia.
Qed.

Lemma parse_peer_id_hex n v x :
  (n <= 8)%nat -> 0 <= x < 2 ^ (64 - 8 * Z.of_nat n) ->
  Processor.parse_peer_id (hex_text n v) (8 * (Z.of_nat n - 1)) (x * 2 ^ (8 * Z.of_nat n)) =
    x * 2 ^ (8 * Z.of_nat n) + v mod 2 ^ (8 * Z.of_nat n).
Proof.
  revert x. induction n as [|n IH]; intros x Hn Hx.
  { simpl. rewrite Z.mod_1_r. lia. }
  cbn [hex_text]. set (b := u8 (Z.shiftr v (8 * Z.of_nat n))).
  assert (0 <= b < 2 ^ 8) as Hb by apply u8_range.
  destruct (hex_byte_roundtrip b Hb) as (c0 & c1 & -> & Hc).
  cbn [app Processor.parse_peer_id]. rewrite Hc.
  replace (Z.of_nat (S n) - 1) with (Z.of_nat n) by lia.
  replace (8 * Z.of_nat (S n)) with (8 + 8 * Z.of_nat n) in * by lia.
  replace (2 ^ (8 + 8 * Z.of_nat n)) with (2 ^ 8 * 2 ^ (8 * Z.of_nat n))
    by (rewrite Z.pow_add_r by lia; done).
  assert (2 ^ (64 - 8 * Z.of_nat n) = 2 ^ 8 * 2 ^ (64 - (8 + 8 * Z.of_nat n))) as Hw
    by (rewrite <- Z.pow_add_r by lia; f_equal; lia).
  assert (0 < 2 ^ (8 * Z.of_nat n)) by (apply Z.pow_pos_nonneg; lia).
  assert (2 ^ (8 * Z.of_nat n) <= 2 ^ 56) by (apply Z.pow_le_mono_r; lia).
  rewrite Z.shiftl_mul_pow2 by lia. rewrite u64_small by nia.
  rewrite (lor_low x (b * 2 ^ (8 * Z.of_nat n)) (8 + 8 * Z.of_nat n));
    [|rewrite Z.pow_add_r by lia; ring|lia|rewrite Z.pow_add_r by lia; nia].
  replace (x * (2 ^ 8 * 2 ^ (8 * Z.of_nat n)) + b * 2 ^ (8 * Z.of_nat n))
    with ((x * 2 ^ 8 + b) * 2 ^ (8 * Z.of_nat n)) by ring.
  replace (8 * Z.of_nat n - 8) with (8 * (Z.of_nat n - 1)) by lia.
  rewrite IH by lia.
  rewrite (Z.mul_comm (2 ^ 8)), Z.rem_mul_r by lia.
  subst b. unfold u8. rewrite Z.shiftr_div_pow2 by lia. ring.
Qed.

Lemma length_hex_text n v : length (hex_text n v) = (2 * n)%nat.
Proof. induction n as [|n IH]; [done|]. cbn [hex_text]. rewrite length_app, IH. simpl. lia. Qed.

Lemma write_uint64_hex16_spec vector v :
  BinaryWriter.write_uint64_hex16 vector v = vector ++ hex_text 8 v.
Proof.
  unfold BinaryWriter.write_uint64_hex16, BinaryWriter.write_uint8_hex16.
  cbn -[BinaryWriter.hexify u8 Z.shiftr Z.land]. rewrite Z.shiftr_0_r. by rewrite <- !app_assoc.
Qed.

Lemma parse_peer_id_roundtrip v :
  0 <= v < 2 ^ 64 -> Processor.parse_peer_id (hex_text 8 v) 56 0 = v.
Proof.
  intros Hv. pose proof (parse_peer_id_hex 8 v 0 ltac:(lia) ltac:(simpl; lia)) as H.
  change (8 * (Z.of_nat 8 - 1)) with 56 in H. change (8 * Z.of_nat 8) with 64 in H.
  rewrite Z.mul_0_l, Z.add_0_l, Z.mod_small in H by lia. exact H.
Qed.
