(* ===== verification/ProcessorInv.v ===== *)
(** * Safety of the processor

    On any bytes a neighbour sends, [processWrite]
    (Bitchat/ProtocolProcessor.cpp) reads inside the buffer and keeps the
    tracker well-formed; the faults that remain are named. *)

From stdpp Require Import base numbers list gmap.
From Stdlib Require Import ZArith Lia.
From S2P Require Import Prelude Platform Containers BinaryIO Packets ProtocolWriter BleConnection.
From S2P Require Import Tracker TrackerInv Processor.

(** ** Reading a packet *)

(** What is known of an accepted packet. *)
Record incoming_ok (i : Processor.incoming) : Prop := {
  inc_type : 0 <= Processor.in_type i < 2 ^ 8;
  inc_ttl : 0 <= Processor.in_ttl i < 2 ^ 8;
  inc_timestamp : 0 <= Processor.in_timestamp_ms i < 2 ^ 64;
  inc_flags : 0 <= Processor.in_packet_flags i < 2 ^ 8;
  inc_sender : 0 <= Processor.in_sender i < 2 ^ 64;
  inc_recipient : 0 <= Processor.in_recipient i < 2 ^ 64;
  inc_no_recipient :
    has_flag (Processor.in_packet_flags i) packet_flag_has_recipient = false ->
    Processor.in_recipient i = 0;
  inc_payload : bytes_ok (Processor.in_payload i);
  inc_length : Processor.in_payload_length i = zlen (Processor.in_payload i);
  inc_short : zlen (Processor.in_payload i) < 2 ^ 16 }.

Lemma read_uint8_spec r :
  reader_ok r ->
  outcome_spec (fun _ => False) (fun '(v, r') => 0 <= v < 2 ^ 8 /\ reader_ok r')
    (BinaryReader.read_uint8 r).
Proof.
  intros H. destruct (BinaryReader.read_uint8 r) as [[v r']|f] eqn:E.
  - by apply read_uint8_inv in E as [].
  - by rewrite read_uint8_total in E.
Qed.

Lemma read_uint16_spec r :
  reader_ok r ->
  outcome_spec (fun _ => False) (fun '(v, r') => 0 <= v < 2 ^ 16 /\ reader_ok r')
    (BinaryReader.read_uint16 r).
Proof.
  intros H. destruct (BinaryReader.read_uint16 r) as [[v r']|f] eqn:E.
  - by apply read_uint16_inv in E as [].
  - by rewrite read_uint16_total in E.
Qed.

Lemma read_uint64_spec r :
  reader_ok r ->
  outcome_spec (fun _ => False) (fun '(v, r') => 0 <= v < 2 ^ 64 /\ reader_ok r')
    (BinaryReader.read_uint64 r).
Proof.
  intros H. destruct (BinaryReader.read_uint64 r) as [[v r']|f] eqn:E.
  - by apply read_uint64_inv in E as [].
  - by rewrite read_uint64_total in E.
Qed.

Lemma read_data_spec r len :
  reader_ok r -> 0 <= len ->
  outcome_spec (fun _ => False)
    (fun '(o, r') => reader_ok r' /\ from_option (fun l => bytes_ok l /\ zlen l = len) True o)
    (BinaryReader.read_data r len).
Proof.
  intros H Hl. destruct (BinaryReader.read_data r len) as [[o r']|f] eqn:E.
  - apply read_data_inv in E as [? Ho]; [|done..]. split; [done|]. by destruct o.
  - by rewrite read_data_total in E.
Qed.

(** Step through one read that cannot fault. *)
Ltac spec_read lem :=
  eapply outcome_spec_bind;
  [ eapply outcome_spec_mono; [apply lem|intros ? HQ; exact HQ|done]; try done
  | intros [? ?] [? ?] ].

Section read.
Context (P : Platform) `{!PlatformLaws P}.

Lemma readBody_spec buffer size type ttl ts flags len sender recipient r :
  reader_ok r -> 0 <= len < 2 ^ 16 -> 0 < size <= zlen buffer ->
  0 <= type < 2 ^ 8 -> 0 <= ttl < 2 ^ 8 -> 0 <= ts < 2 ^ 64 -> 0 <= flags < 2 ^ 8 ->
  0 <= sender < 2 ^ 64 -> 0 <= recipient < 2 ^ 64 ->
  (has_flag flags packet_flag_has_recipient = false -> recipient = 0) ->
  outcome_spec (fun f => f = NullPointer /\ has_flag flags packet_flag_has_signature = true)
    (from_option incoming_ok True)
    (Processor.readBody P buffer size type ttl ts flags len sender recipient r).
Proof.
  intros Hr Hlen Hsize Hty Httl Hts Hfl Hse Hre Hnr. unfold Processor.readBody.
  eapply (outcome_spec_bind _ _ (fun '(os, l, r') => 0 <= os < 2 ^ 16 /\ 0 <= l < 2 ^ 16 /\ reader_ok r')).
  { destruct (has_flag flags packet_flag_is_compressed); [|cbn; lia || (split; [lia|done])].
    spec_read read_uint16_spec. cbn. split; [done|]. split; [apply u16_range|done]. }
  intros [[os l] r1] (Hos & Hl & Hr1).
  spec_read (read_data_spec r1 l); [lia|]. rename o into payload, t into r2.
  destruct payload as [payload|]; [|done]. cbn in H0. destruct H0 as [Hpok Hpl].
  match goal with |- outcome_spec _ _ (let '(_, _) := ?x in _) =>
    assert (bytes_ok x.1 /\ x.2 = zlen x.1 /\ zlen x.1 < 2 ^ 16) as Hx end.
  { destruct (has_flag flags packet_flag_is_compressed); [|cbn; split; [done|lia]].
    destruct (zlib_decompress P payload os) as [d|] eqn:E; [|cbn; split; [done|lia]].
    apply (zlib_decompress_fits (P := P)) in E as [Hd Hdl].
    destruct (zlen d >? 0) eqn:Ed; cbn; [|split; [done|lia]]. rewrite u16_small by lia.
    split; [done|lia]. }
  match goal with |- outcome_spec _ _ (let '(_, _) := ?x in _) => destruct x as [payload' len'] end.
  cbn [fst snd] in Hx. destruct Hx as (Hx1 & Hx2 & Hx3).
  eapply (outcome_spec_bind _ _ (fun _ => True)).
  { destruct (has_flag flags packet_flag_has_signature); [|done].
    spec_read (read_data_spec r2 64). by destruct o. }
  intros signature _.
  destruct (buf_get_in_bounds buffer (size - 1)) as (pad & -> & _); [lia|].
  cbn. by split.
Qed.

(** On a buffer that owns the size it claims, no read leaves the buffer. *)
Lemma readPacket_spec offset buffer size :
  bytes_ok buffer -> 0 <= offset < 2 ^ 16 -> 0 <= size < 2 ^ 16 -> size <= zlen buffer ->
  outcome_spec (fun f => f = NullPointer) (from_option incoming_ok True)
    (Processor.readPacket P offset buffer size).
Proof.
  intros Hb Ho Hs Hl. unfold Processor.readPacket.
  assert (reader_ok (BinaryReader.make offset buffer size)) as Hr by (split_and!; cbn; try lia; done).
  eapply outcome_spec_bind; [eapply (outcome_spec_mono _ _ (fun '(v, r') => (v = 1 -> 0 < size) /\ reader_ok r'));
    [|intros ? HQ; exact HQ|done]|intros [version r1] [Hv Hr1]].
  { rewrite read_uint8_total by done. destruct (fits _ 1) eqn:E; cbn.
    - split; [|by apply advance_ok]. apply bool_decide_eq_true_1 in E. cbn in E. lia.
    - split; [lia|done]. }
  destruct (version =? 1) eqn:Ev; cbn [negb]; [|done]. apply Z.eqb_eq, Hv in Ev.
  spec_read read_uint8_spec. spec_read read_uint8_spec. spec_read read_uint64_spec.
  spec_read read_uint8_spec. spec_read read_uint16_spec. spec_read read_uint64_spec.
  match goal with |- outcome_spec _ _ (mbind _ (if ?c then _ else _)) =>
    eapply (outcome_spec_bind _ _ (fun '(v, r') =>
      0 <= v < 2 ^ 64 /\ (c = false -> v = 0) /\ reader_ok r')) end.
  { destruct (has_flag _ packet_flag_has_recipient); [|done].
    eapply outcome_spec_mono; [by apply read_uint64_spec|by intros [? ?] [? ?]|done]. }
  intros [recipient r8] (? & ? & Hr8).
  eapply outcome_spec_mono; [apply readBody_spec; done || lia|done|by intros f [-> _]].
Qed.
End read.

(** ** Parsing a message *)

(** Kept by every step of [processMessage] started from the tracker [s0]. *)
Record parsing (s0 : Tracker.t) (st : pstate) : Prop := {
  parsing_reader : reader_ok (ps_reader st);
  parsing_tracker : tracker_ok s0 -> tracker_ok (ps_tracker st);
  parsing_stores : ps_tracker st = Tracker.set_peers s0 (Tracker.peers (ps_tracker st));
  parsing_peers : dom (Tracker.peers s0) ⊆ dom (Tracker.peers (ps_tracker st));
  parsing_type : message_type_ok (ps_message st);
  parsing_sender q :
    Message.sender_peer (ps_message st) = Some q -> q ∈ dom (Tracker.peers (ps_tracker st)) }.

(** A step that faults nowhere, keeps [parsing] and returns a value of [R]. *)
Definition parses {A} (s0 : Tracker.t) (R : A -> Prop) (m : parser A) : Prop :=
  forall st, parsing s0 st ->
    outcome_spec (fun _ => False) (fun '(st', o) => parsing s0 st' /\ from_option R True o) (m st).

Lemma parses_bind {A B} s0 (R : A -> Prop) (Q : B -> Prop) (m : parser A) (k : A -> parser B) :
  parses s0 R m -> (forall a, R a -> parses s0 Q (k a)) -> parses s0 Q (m ≫= k).
Proof.
  intros Hm Hk st Hst. specialize (Hm st Hst). unfold mbind, parser_bind.
  destruct (m st) as [[st' [a|]]|f]; cbn in *; [|done..]. destruct Hm. by apply Hk.
Qed.

Lemma parses_ret {A} s0 (R : A -> Prop) a : R a -> parses s0 R (mret a).
Proof. intros HR st Hst. by split. Qed.

Lemma parses_read {A} s0 (R : A -> Prop) (read : BinaryReader.t -> outcome (A * BinaryReader.t)) :
  (forall r, reader_ok r -> outcome_spec (fun _ => False) (fun '(v, r') => R v /\ reader_ok r') (read r)) ->
  parses s0 R (p_read read).
Proof.
  intros Hread st Hst. pose proof (Hread _ (parsing_reader _ _ Hst)) as Hr. unfold p_read.
  destruct (read (ps_reader st)) as [[v r]|f]; cbn in *; [|done]. destruct Hr, Hst. split; [|done].
  by split.
Qed.

Lemma parses_uint8 s0 : parses s0 (fun v => 0 <= v < 2 ^ 8) (p_read BinaryReader.read_uint8).
Proof. apply parses_read. intros r Hr. by apply read_uint8_spec. Qed.

Lemma parses_uint16 s0 : parses s0 (fun v => 0 <= v < 2 ^ 16) (p_read BinaryReader.read_uint16).
Proof. apply parses_read. intros r Hr. by apply read_uint16_spec. Qed.

Lemma parses_uint64 s0 : parses s0 (fun v => 0 <= v < 2 ^ 64) (p_read BinaryReader.read_uint64).
Proof. apply parses_read. intros r Hr. by apply read_uint64_spec. Qed.

Lemma parses_data s0 len : 0 <= len -> parses s0 (fun _ => True) (p_data len).
Proof.
  intros Hl st Hst. pose proof (read_data_spec _ len (parsing_reader _ _ Hst) Hl) as Hr. unfold p_data.
  destruct (BinaryReader.read_data (ps_reader st) len) as [[o r]|f]; cbn in *; [|done].
  destruct Hr, Hst. split; [by split|]. by destruct o.
Qed.

Lemma parses_string8 s0 : parses s0 (fun _ => True) p_string8.
Proof.
  eapply parses_bind; [apply parses_uint8|]. intros len Hl. apply parses_data. cbv beta in Hl. lia.
Qed.

(** Setting a field other than the base and the sender's peer. *)
Lemma parses_message s0 f :
  (forall m, Message.base (f m) = Message.base m) ->
  (forall m, Message.sender_peer (f m) = Message.sender_peer m) ->
  parses s0 (fun _ => True) (p_message f).
Proof.
  intros Hb Hp st []. split; [|done]. split; cbn; try done.
  - unfold message_type_ok. by rewrite Hb.
  - intros q. rewrite Hp. auto.
Qed.

Lemma parses_when s0 test body :
  parses s0 (fun _ => True) body -> parses s0 (fun _ => True) (p_when test body).
Proof. intros Hb st Hst. unfold p_when. destruct (test _); [by apply Hb|done]. Qed.

(** The peer is made known, then recorded in the message. *)
Lemma parses_sender_peer s0 q :
  parses s0 (fun _ => True)
    (_ ← p_tracker (fun s => Tracker.checkSenderInPeers s q);
     p_message (fun m => Message.setSenderPeer m (Some q))).
Proof.
  intros st []. unfold mbind, parser_bind, p_tracker, p_message. cbn. split; [|done].
  split; cbn; try done.
  - auto using ok_checkSenderInPeers.
  - rewrite parsing_stores0. unfold Tracker.checkSenderInPeers. cbn.
    by destruct (Tracker.peers (ps_tracker st) !! q).
  - etrans; [exact parsing_peers0|]. unfold Tracker.checkSenderInPeers.
    destruct (Tracker.peers (ps_tracker st) !! q); [done|]. cbn. set_solver.
  - intros q' [= <-]. apply checkSenderInPeers_known.
Qed.

Lemma parses_mentions s0 n : parses s0 (fun _ => True) (Processor.parse_mentions n).
Proof.
  induction n as [|n IH]; cbn [Processor.parse_mentions]; [by apply parses_ret|].
  eapply parses_bind; [apply parses_string8|]. intros mention _.
  eapply parses_bind; [by apply parses_message|]. done.
Qed.

Ltac parse_set := eapply parses_bind; [apply parses_message; intros m; reflexivity|intros _ _].
Ltac parse_string8 := eapply parses_bind; [apply parses_string8|intros ? _].

Lemma parses_message_body s0 : parses s0 (fun _ => True) Processor.parse_message_body.
Proof.
  unfold Processor.parse_message_body.
  eapply parses_bind; [apply parses_uint8|intros flags _]. parse_set.
  eapply parses_bind; [apply parses_uint64|intros timestamp _]. parse_set.
  parse_string8. parse_set. parse_string8. parse_set.
  eapply parses_bind; [apply parses_uint16|intros len Hlen].
  eapply parses_bind; [apply parses_data; cbv beta in *; lia|intros content _].
  eapply parses_bind; [apply parses_message; intros m; by destruct (Message.isEncrypted m)|intros _ _].
  eapply parses_bind; [apply parses_when; parse_string8; by apply parses_message|intros _ _].
  eapply parses_bind; [apply parses_when; parse_string8; by apply parses_message|intros _ _].
  eapply parses_bind; [apply parses_when|intros _ _].
  { eapply parses_bind; [apply parses_uint8|intros idlen Hidlen].
    eapply parses_bind; [apply parses_data; cbv beta in *; lia|intros id _].
    destruct (idlen =? 16); [apply parses_sender_peer|by apply parses_ret]. }
  eapply parses_bind; [apply parses_when|intros _ _].
  { eapply parses_bind; [apply parses_uint8|intros count _]. apply parses_mentions. }
  apply parses_when. parse_string8. by apply parses_message.
Qed.

Lemma processMessage_spec s message payload len :
  message_type_ok message -> Message.sender_peer message = None ->
  bytes_ok payload -> 0 <= len < 2 ^ 16 -> len <= zlen payload ->
  outcome_spec (fun _ => False)
    (fun '(s', m', _) => (tracker_ok s -> tracker_ok s') /\ s' = Tracker.set_peers s (Tracker.peers s') /\
       dom (Tracker.peers s) ⊆ dom (Tracker.peers s') /\ message_type_ok m' /\
       forall q, Message.sender_peer m' = Some q -> q ∈ dom (Tracker.peers s'))
    (Processor.processMessage s message payload len).
Proof.
  intros Hty Hsp Hp Hl Hlp. unfold Processor.processMessage. destruct (len <? 13).
  { cbn. split_and!; try done; [by destruct s|]. intros q. by rewrite Hsp. }
  assert (parsing s (mkPstate s (BinaryReader.make 0 payload len) message)) as Hst.
  { assert (reader_ok (BinaryReader.make 0 payload len)) as Hr by (split_and!; cbn; try lia; done).
    split; cbn; try done; [by destruct s|]. intros q. by rewrite Hsp. }
  eapply outcome_spec_bind; [exact (parses_message_body s _ Hst)|].
  intros [st o] [[] _]. cbn. by split_and!.
Qed.

(** ** Dispatch *)

Section dispatch.
Context (P : Platform) `{!PlatformLaws P}.

Lemma checkSenderInPeers_frame s q :
  Tracker.checkSenderInPeers s q =
    Tracker.set_peers s (Tracker.peers (Tracker.checkSenderInPeers s q)).
Proof.
  unfold Tracker.checkSenderInPeers. destruct (Tracker.peers s !! q); [by destruct s|done].
Qed.

Lemma storeMessage_frame s m :
  (Tracker.storeMessageAndReturnIfNew P s m).1 =
    Tracker.set_messages s (Tracker.messages (Tracker.storeMessageAndReturnIfNew P s m).1).
Proof.
  unfold Tracker.storeMessageAndReturnIfNew.
  destruct (Tracker.messages s !! _); [by destruct s|done].
Qed.

Lemma storePacket_frame s p :
  (Tracker.storePacketAndReturnIfNew P s p).1 =
    Tracker.set_packets s (Tracker.packets (Tracker.storePacketAndReturnIfNew P s p).1).
Proof.
  unfold Tracker.storePacketAndReturnIfNew.
  destruct (Tracker.packets s !! _); [by destruct s|done].
Qed.

Lemma passAlong_spec s a i :
  tracker_ok s -> a ∈ Tracker.map_addrs (Tracker.connections s) ->
  Processor.in_type i <> PacketType_value type_message ->
  exists s', Processor.passAlong P s a i = Ret s' /\ tracker_ok s'.
Proof.
  intros H Ha Hty. unfold Processor.passAlong. destruct (_ <? 1); [by eauto|]. cbv zeta.
  set (s1 := Tracker.checkSenderInPeers s _).
  assert (tracker_ok s1) as H1 by by apply ok_checkSenderInPeers.
  assert (a ∈ Tracker.map_addrs (Tracker.connections s1)) as Ha1
    by (unfold s1; by rewrite checkSenderInPeers_frame).
  set (p := PacketPassAlong.setPayload _ _).
  assert (pass_along_type_ok p) as Hp by done.
  pose proof (ok_storePacketAndReturnIfNew P s1 p Hp H1) as H2.
  pose proof (storePacket_frame s1 p) as Hf. pose proof (storePacket_address P s1 p) as Hadr.
  destruct (Tracker.storePacketAndReturnIfNew P s1 p) as [s2 [n|]]; [|by eauto].
  cbn [fst snd] in *. apply ok_enqueueBroadcastPacketFrom; [by apply Hadr| | |done].
  - by rewrite Hf.
  - rewrite Hf. apply checkSenderInPeers_known.
Qed.

Lemma ok_updateOrStorePeerName s sender name ttl c :
  tracker_ok s ->
  tracker_ok (Processor.updateOrStorePeerName s sender name ttl c) /\
  Tracker.connections (Processor.updateOrStorePeerName s sender name ttl c) = Tracker.connections s.
Proof.
  intros H. unfold Processor.updateOrStorePeerName. cbv zeta.
  set (s1 := Tracker.update_peer _ _ _).
  assert (tracker_ok s1) as H1 by (apply ok_update_peer; [done|by apply ok_checkSenderInPeers]).
  assert (Tracker.connections s1 = Tracker.connections s) as Hc
    by (unfold s1; by rewrite checkSenderInPeers_frame).
  destruct (_ >=? _); [|done]. split; [|done].
  apply ok_setConnectionHandleForPeer; [|by apply ok_update_peer].
  cbn. rewrite !dom_alter_L. apply checkSenderInPeers_known.
Qed.

Lemma ok_updateOrStorePeerNoisePublicKey s sender key :
  tracker_ok s -> tracker_ok (Processor.updateOrStorePeerNoisePublicKey s sender key).
Proof. intros H. apply ok_update_peer; [done|]. by apply ok_checkSenderInPeers. Qed.

Lemma passes_along_not_message z ty :
  PacketType_of z = Some ty -> Processor.passes_along ty = true -> z <> PacketType_value type_message.
Proof.
  intros Hz%PacketType_of_Some Hp ->. by destruct ty.
Qed.

(** A message that was parsed is stored and queued. *)
Lemma message_stored s a m sender :
  tracker_ok s -> a ∈ Tracker.map_addrs (Tracker.connections s) -> sender ∈ dom (Tracker.peers s) ->
  message_type_ok m -> (forall q, Message.sender_peer m = Some q -> q ∈ dom (Tracker.peers s)) ->
  exists s', match Tracker.storeMessageAndReturnIfNew P s m with
             | (s, Some stored_message) => Tracker.enqueueBroadcastPacketFrom s stored_message a sender
             | (s, None) => Ret s
             end = Ret s' /\ tracker_ok s'.
Proof.
  intros H Ha Hs Hty Hq.
  pose proof (ok_storeMessageAndReturnIfNew P s m Hty Hq H) as H2.
  pose proof (storeMessage_frame s m) as Hf. pose proof (storeMessage_address P s m) as Hadr.
  destruct (Tracker.storeMessageAndReturnIfNew P s m) as [s2 [n|]]; [|by eauto].
  cbn [fst snd] in *. apply ok_enqueueBroadcastPacketFrom; [by apply Hadr| | |done]; by rewrite Hf.
Qed.

Lemma dispatch_spec s c a i :
  tracker_ok s -> a ∈ Tracker.map_addrs (Tracker.connections s) -> incoming_ok i ->
  outcome_spec (fun f => f = SignedOverflow) tracker_ok (Processor.dispatch P s c a i).
Proof.
  intros H Ha [_ Httl _ _ _ _ _ Hp Hlp Hl]. pose proof (zlen_nonneg (Processor.in_payload i)).
  unfold Processor.dispatch.
  destruct (PacketType_of (Processor.in_type i)) as [ty|] eqn:Ety; [|done].
  assert (Processor.passes_along ty = true -> forall s', tracker_ok s' ->
    Tracker.connections s' = Tracker.connections s ->
    outcome_spec (fun f => f = SignedOverflow) tracker_ok (Processor.passAlong P s' a i)) as Hpass.
  { intros Hpt s' H' Hc. destruct (passAlong_spec s' a i) as (s2 & -> & ?);
      [done|by rewrite Hc|by eapply passes_along_not_message|done]. }
  destruct ty; try done; try (by apply Hpass).
  - destruct (ok_updateOrStorePeerName s (Processor.in_sender i) (Processor.in_payload i)
      (Processor.in_ttl i) c H) as [H1 Hc1]. cbv zeta. revert H1 Hc1.
    generalize (Processor.updateOrStorePeerName s (Processor.in_sender i) (Processor.in_payload i)
      (Processor.in_ttl i) c) as s1. intros s1 H1 Hc1.
    unfold Tracker.possiblyUpdateTimeOffset. case_decide; [|done].
    destruct (_ || _); cbn [mbind outcome_bind]; apply Hpass; try done.
    by apply ok_set_timestamp_offset_ms.
  - cbv zeta. set (s1 := Tracker.checkSenderInPeers s _).
    assert (tracker_ok s1) as H1 by by apply ok_checkSenderInPeers.
    eapply outcome_spec_bind; [eapply outcome_spec_mono;
      [apply (processMessage_spec s1); done || lia|intros ? HQ; exact HQ|done]|].
    intros [[s2 m] ok] (H2 & Hs2 & Hd & Hty & Hq). specialize (H2 H1). destruct ok; [|done].
    destruct (message_stored s2 a m (Processor.in_sender i)) as (s3 & -> & H3); try done.
    + rewrite Hs2. unfold s1. by rewrite checkSenderInPeers_frame.
    + apply Hd. apply checkSenderInPeers_known.
  - by apply ok_updateOrStorePeerNoisePublicKey.
Qed.

End dispatch.

(** ** Properties *)

Lemma processWrite_spec P `{!PlatformLaws P} s c a offset buffer size :
  tracker_ok s -> a ∈ Tracker.map_addrs (Tracker.connections s) ->
  bytes_ok buffer -> 0 <= offset < 2 ^ 16 -> 0 <= size < 2 ^ 16 -> size <= zlen buffer ->
  outcome_spec (fun f => f = NullPointer \/ f = SignedOverflow) tracker_ok
    (Processor.processWrite P s c a offset buffer size).
Proof.
  intros H Ha Hb Ho Hs Hl. unfold Processor.processWrite.
  eapply outcome_spec_bind; [eapply outcome_spec_mono; [by apply readPacket_spec
    |intros ? HQ; exact HQ|by left]|].
  intros [i|] Hi; [|done]. eapply outcome_spec_mono; [by apply dispatch_spec|done|by right].
Qed.

(** C8. Memory safety of the processor: on any bytes, at any offset, with a
    buffer that owns the size it claims and a connection of the tracker,
    [processWrite] reads inside the buffer, follows only live pointers and
    leaves a well-formed tracker; the only faults are the copy of a missing
    signature and the overflow of the clock difference. *)
Theorem processWrite_safe P `{!PlatformLaws P} s c a offset buffer size :
  tracker_ok s -> a ∈ Tracker.map_addrs (Tracker.connections s) ->
  bytes_ok buffer -> 0 <= offset < 2 ^ 16 -> 0 <= size < 2 ^ 16 -> size <= zlen buffer ->
  outcome_spec (fun f => f = NullPointer \/ f = SignedOverflow) tracker_ok
    (Processor.processWrite P s c a offset buffer size).
Proof. by apply processWrite_spec. Qed.

Definition demo_connected : Tracker.t :=
  Tracker.set_connections (Tracker.make 1)
    {[ 64 := mkNode 11 (BleConnection.setConnectionHandle BleConnection.make 64) ]}.

Lemma processWrite_safe_witness :
  let buffer := [1; 4; 7; 0; 0; 1; 2; 3; 4; 5; 6; 0; 0; 2; 9; 9; 9; 9; 9; 9; 9; 9; 1; 2] in
  outcome_spec (fun f => f = NullPointer \/ f = SignedOverflow) tracker_ok
    (Processor.processWrite (demo_platform 1000) demo_connected BleConnection.make 11 0 buffer 24).
Proof.
  intros buffer.
  apply (@processWrite_safe (demo_platform 1000) (demo_platform_laws 1000 ltac:(lia)) demo_connected
           BleConnection.make 11 0 buffer 24);
    [apply tracker_check_ok, (bool_decide_unpack _); vm_compute; exact I
    |apply (bool_decide_unpack _); vm_compute; exact I
    |apply (bool_decide_unpack _); vm_compute; exact I
    |lia|lia|vm_compute; discriminate].
Defined.
