(* ===== verification/RoundTrip.v ===== *)
(** * Writing a packet and reading it back

    The processor of the next hop reads what the protocol writer of this one
    wrote: for packets without signature and compression the fields come back
    unchanged, the time to live one lower, so a relayed packet has the hash
    of the packet it relays and the duplicate check of the next hop works.
    The flags for which this fails are stated too. *)

From stdpp Require Import base numbers list gmap.
From Stdlib Require Import ZArith Lia.
From S2P Require Import Prelude Platform Containers BinaryIO Packets ProtocolWriter BleConnection.
From S2P Require Import Tracker Processor.

(** The ranges of the integer fields of a packet. *)
Definition base_ok (b : PacketBase.t) : Prop :=
  0 <= PacketBase.packet_type b < 2 ^ 8 /\ 0 <= PacketBase.packet_ttl b < 2 ^ 8 /\
  0 <= PacketBase.packet_timestamp b < 2 ^ 64 /\ 0 <= PacketBase.packet_flags b < 2 ^ 8 /\
  0 <= PacketBase.packet_sender_id b < 2 ^ 64 /\
  0 <= PacketBase.packet_recipient_id b < 2 ^ 64.

#[export] Instance base_ok_dec b : Decision (base_ok b).
Proof. unfold base_ok. apply _. Defined.

(** Neither the signature nor the compression flag. *)
Definition plain_flags (flags : Z) : bool :=
  negb (has_flag flags packet_flag_has_signature) && negb (has_flag flags packet_flag_is_compressed).

(** The packet as the next hop reads it. *)
Definition received (b : PacketBase.t) (payload : bytes) : Processor.incoming := {|
  Processor.in_type := PacketBase.packet_type b;
  Processor.in_ttl := PacketBase.packet_ttl b - 1;
  Processor.in_timestamp_ms := PacketBase.packet_timestamp b;
  Processor.in_packet_flags := PacketBase.packet_flags b;
  Processor.in_sender := PacketBase.packet_sender_id b;
  Processor.in_recipient :=
    if PacketBase.hasPacketRecipient b then PacketBase.packet_recipient_id b else 0;
  Processor.in_payload := payload;
  Processor.in_payload_length := zlen payload;
  Processor.in_packet_signature := [] |}.

Lemma take_all_short (n : Z) {A} (l : list A) : zlen l <= n -> take (Z.to_nat n) l = l.
Proof. intros H. apply take_ge. unfold zlen in H. lia. Qed.

Lemma buf_get_last buffer : 0 < zlen buffer -> exists b, buf_get buffer (zlen buffer - 1) = Ret b.
Proof. intros H. destruct (buf_get_in_bounds buffer (zlen buffer - 1)) as (b & Hb & _); [lia|]. eauto. Qed.

Lemma zlen_wire_ge b payload :
  zlen (wire b payload) =
    22 + (if PacketBase.hasPacketRecipient b then 8 else 0) + Z.min 65535 (zlen payload) +
    zlen (wire_signature b) + 1.
Proof.
  unfold wire. rewrite !zlen_app, zlen_wire_header, zlen_take by lia.
  change (zlen [0]) with 1. lia.
Qed.

Lemma wire_short b payload : zlen (wire b payload) < 2 ^ 16 -> zlen payload <= 65535.
Proof.
  rewrite zlen_wire_ge. pose proof (zlen_nonneg (wire_signature b)).
  destruct (PacketBase.hasPacketRecipient b); lia.
Qed.

(** The ranges of a header whose time to live, one lower, fits its byte. *)
Definition header_ok (b : PacketBase.t) : Prop :=
  0 <= PacketBase.packet_type b < 2 ^ 8 /\ 0 < PacketBase.packet_ttl b <= 2 ^ 8 /\
  0 <= PacketBase.packet_timestamp b < 2 ^ 64 /\ 0 <= PacketBase.packet_flags b < 2 ^ 8 /\
  0 <= PacketBase.packet_sender_id b < 2 ^ 64 /\
  0 <= PacketBase.packet_recipient_id b < 2 ^ 64.

Lemma base_header_ok b : base_ok b -> 0 < PacketBase.packet_ttl b -> header_ok b.
Proof. intros (?&?&?&?&?&?) ?. split_and!; try done; lia. Qed.

#[export] Hint Resolve base_header_ok : repeater.

(** The header of a written packet is read back; the body is read at the
    payload. *)
Lemma readPacket_wire_header P b payload :
  header_ok b -> zlen (wire b payload) < 2 ^ 16 ->
  exists r pre,
    Processor.readPacket P 0 (wire b payload) (zlen (wire b payload)) =
      Processor.readBody P (wire b payload) (zlen (wire b payload)) (PacketBase.packet_type b)
        (PacketBase.packet_ttl b - 1) (PacketBase.packet_timestamp b) (PacketBase.packet_flags b)
        (zlen payload) (PacketBase.packet_sender_id b)
        (if PacketBase.hasPacketRecipient b then PacketBase.packet_recipient_id b else 0) r /\
    reads_at r pre (payload ++ wire_signature b ++ [0]) [].
Proof.
  intros (Hty & Htt & Hts & Hfl & Hse & Hre) Hsz.
  pose proof (wire_short b payload Hsz) as Hpl. pose proof (zlen_nonneg payload) as Hpl0.
  unfold Processor.readPacket. pose proof (reads_at_start (wire b payload) Hsz) as H.
  revert H. generalize (BinaryReader.make 0 (wire b payload) (zlen (wire b payload))).
  intros reader H. unfold wire, wire_header in H. rewrite clamp16_min, Z.min_r in H by lia.
  rewrite (take_all_short 65535 payload) in H by lia. rewrite <- !app_assoc in H.
  read_seg read_uint8_seg H; [lia|]. cbn [negb Z.eqb Pos.eqb].
  read_seg read_uint8_seg H; [lia|].
  read_seg read_uint8_seg H; [lia|].
  read_seg read_uint64_seg H; [lia|].
  read_seg read_uint8_seg H; [lia|].
  read_seg read_uint16_seg H; [lia|].
  read_seg read_uint64_seg H; [lia|].
  unfold PacketBase.hasPacketRecipient in *.
  destruct (has_flag (PacketBase.packet_flags b) packet_flag_has_recipient).
  - read_seg read_uint64_seg H; [lia|]. eauto.
  - cbn [mbind outcome_bind app] in *. eauto.
Qed.

Lemma wire_last b payload : exists pad, buf_get (wire b payload) (zlen (wire b payload) - 1) = Ret pad.
Proof.
  apply buf_get_last. rewrite zlen_wire_ge. pose proof (zlen_nonneg payload).
  pose proof (zlen_nonneg (wire_signature b)). destruct (PacketBase.hasPacketRecipient b); lia.
Qed.

Lemma readPacket_wire P b payload :
  header_ok b -> plain_flags (PacketBase.packet_flags b) = true ->
  zlen (wire b payload) < 2 ^ 16 ->
  Processor.readPacket P 0 (wire b payload) (zlen (wire b payload)) =
    Ret (Some (received b payload)).
Proof.
  intros Hb Hpf Hsz. apply andb_true_iff in Hpf as [Hns%negb_true_iff Hnc%negb_true_iff].
  destruct (readPacket_wire_header P b payload Hb Hsz) as (r & pre & -> & H).
  destruct (wire_last b payload) as [pad Hpad].
  unfold Processor.readBody. rewrite Hnc, Hns. cbn [mbind outcome_bind].
  read_seg read_data_seg H. rewrite Hpad. done.
Qed.

(** With the signature flag and a 64 byte signature, the length byte that the
    writer puts in front is read as the first byte of the signature. *)
Lemma readPacket_wire_signed P b payload :
  base_ok b -> 0 < PacketBase.packet_ttl b ->
  has_flag (PacketBase.packet_flags b) packet_flag_has_signature = true ->
  has_flag (PacketBase.packet_flags b) packet_flag_is_compressed = false ->
  zlen (PacketBase.packet_signature b) = 64 -> zlen (wire b payload) < 2 ^ 16 ->
  exists i, Processor.readPacket P 0 (wire b payload) (zlen (wire b payload)) = Ret (Some i) /\
    Processor.in_packet_signature i = 64 :: take 63 (PacketBase.packet_signature b).
Proof.
  intros Hb Htt Hsg Hnc Hl Hsz.
  destruct (readPacket_wire_header P b payload (base_header_ok b Hb Htt) Hsz) as (r & pre & -> & H).
  destruct (wire_last b payload) as [pad Hpad].
  unfold Processor.readBody. rewrite Hnc. cbn [mbind outcome_bind].
  read_seg read_data_seg H. rewrite Hsg.
  unfold wire_signature, PacketBase.hasPacketSignature in H. rewrite Hsg in H.
  unfold string8 in H. rewrite (take_all_short 255 (PacketBase.packet_signature b)) in H by lia.
  rewrite clamp8_min, Hl in H.
  rewrite <- (take_drop 63 (PacketBase.packet_signature b)) in H.
  assert (be_bytes 1 (Z.min 255 64) ++ take 63 (PacketBase.packet_signature b) =
          64 :: take 63 (PacketBase.packet_signature b)) as E by done.
  rewrite (app_assoc (be_bytes 1 _) (take 63 _)), E, <- app_assoc in H.
  destruct (read_data_seg _ _ _ _ _ H) as (r' & E' & _).
  replace (zlen (64 :: take 63 (PacketBase.packet_signature b))) with 64 in E'
    by (rewrite zlen_cons; unfold zlen in *; rewrite length_take; lia).
  rewrite E'. cbn [mbind outcome_bind]. rewrite Hpad. eexists. split; done.
Qed.

(** With the compression flag the first two payload bytes are read as the
    original size, the rest as compressed data. *)
Lemma readPacket_wire_compressed P b payload :
  base_ok b -> 0 < PacketBase.packet_ttl b -> bytes_ok payload ->
  has_flag (PacketBase.packet_flags b) packet_flag_has_signature = false ->
  has_flag (PacketBase.packet_flags b) packet_flag_is_compressed = true ->
  2 <= zlen payload -> zlen (wire b payload) < 2 ^ 16 ->
  zlib_decompress P (drop 2 payload) (be_value (take 2 payload)) = None ->
  exists i, Processor.readPacket P 0 (wire b payload) (zlen (wire b payload)) = Ret (Some i) /\
    Processor.in_payload i = drop 2 payload.
Proof.
  intros Hb Htt Hok Hns Hc Hl Hsz Hz.
  destruct (readPacket_wire_header P b payload (base_header_ok b Hb Htt) Hsz) as (r & pre & -> & H).
  destruct (wire_last b payload) as [pad Hpad]. pose proof (wire_short b payload Hsz).
  unfold Processor.readBody. rewrite Hc, Hns.
  rewrite <- (take_drop 2 payload) in H at 1. rewrite <- app_assoc in H.
  assert (length (take 2 payload) = 2%nat) as H2 by (rewrite length_take; unfold zlen in Hl; lia).
  assert (zlen (take 2 payload) = 2) as Hz2 by (unfold zlen; lia).
  rewrite (read_uint16_at _ _ _ _ (reads_at_prefix _ _ _ _ _ H) H2) by (by apply Forall_take).
  cbn [mbind outcome_bind]. apply reads_at_advance in H. rewrite Hz2 in H.
  destruct (read_data_seg _ _ _ _ _ H) as (r' & E' & _).
  replace (zlen payload -u16 2) with (zlen (drop 2 payload))
    by (rewrite u16_small by lia; unfold zlen in *; rewrite length_drop; lia).
  rewrite E'. cbn [mbind outcome_bind]. rewrite Hz, Hpad. eexists. split; done.
Qed.

(** ** The payload of a message *)

(** Closed form of [writeMessagePayload], for a message whose sender peer, if
    it has one, is stored under its id. *)
Definition message_wire (m : Message.t) : bytes :=
  be_bytes 1 (Message.message_flags m) ++ be_bytes 8 (Message.message_timestamp m) ++
  string8 (Message.message_id m) ++ string8 (Message.sender_nickname m) ++
  be_bytes 2 (clamp16 (Message.content m)) ++ take (Z.to_nat 65535) (Message.content m) ++
  (if Message.hasOriginalSender m then string8 (Message.original_sender_nickname m) else []) ++
  (if Message.hasRecipientNickname m then string8 (Message.recipient_nickname m) else []) ++
  (if Message.hasSenderPeerID m
   then be_bytes 1 16 ++ hex_text 8 (default 0 (Message.sender_peer m)) else []) ++
  (if Message.hasMentions m
   then be_bytes 1 (clamp8 (Message.mentions m)) ++ concat (string8 <$> Message.mentions m) else []) ++
  (if Message.hasChannel m then string8 (Message.channel m) else []).

(** The same with other digits of the sender's id, as another writer may send
    them. *)
Definition message_wire_with (id : bytes) (m : Message.t) : bytes :=
  be_bytes 1 (Message.message_flags m) ++ be_bytes 8 (Message.message_timestamp m) ++
  string8 (Message.message_id m) ++ string8 (Message.sender_nickname m) ++
  be_bytes 2 (clamp16 (Message.content m)) ++ take (Z.to_nat 65535) (Message.content m) ++
  (if Message.hasOriginalSender m then string8 (Message.original_sender_nickname m) else []) ++
  (if Message.hasRecipientNickname m then string8 (Message.recipient_nickname m) else []) ++
  (if Message.hasSenderPeerID m then be_bytes 1 (zlen id) ++ id else []) ++
  (if Message.hasMentions m
   then be_bytes 1 (clamp8 (Message.mentions m)) ++ concat (string8 <$> Message.mentions m) else []) ++
  (if Message.hasChannel m then string8 (Message.channel m) else []).

Lemma zlen_hex_text k : zlen (hex_text 8 k) = 16.
Proof. unfold zlen. by rewrite length_hex_text. Qed.

Lemma message_wire_hex m :
  message_wire_with (hex_text 8 (default 0 (Message.sender_peer m))) m = message_wire m.
Proof. unfold message_wire_with, message_wire. by rewrite zlen_hex_text. Qed.

(** The sender peer of a message that announces one. *)
Definition sender_peer_ok (peers : gmap Z Peer.t) (m : Message.t) : Prop :=
  Message.hasSenderPeerID m = true ->
  exists k p, Message.sender_peer m = Some k /\ peers !! k = Some p /\ Peer.id p = k /\ 0 <= k < 2 ^ 64.

Lemma write_content_spec vector content :
  BinaryWriter.write_data vector content (clamp16 content) =
    Ret (vector ++ take (Z.to_nat 65535) content).
Proof.
  pose proof (zlen_nonneg content). rewrite clamp16_min, write_data_prefix by lia.
  by rewrite (take_clamp 65535).
Qed.

Lemma write_when_string8 (c : bool) vector s :
  (if c then ProtocolWriter.write_string8 vector s else Ret vector) =
    Ret (vector ++ if c then string8 s else []).
Proof. destruct c; [apply write_string8_spec|by rewrite app_nil_r]. Qed.

Lemma writeMessagePayload_spec peers vector m :
  sender_peer_ok peers m ->
  ProtocolWriter.writeMessagePayload peers vector m = Ret (vector ++ message_wire m).
Proof.
  intros Hsp. unfold ProtocolWriter.writeMessagePayload, message_wire. cbv zeta.
  rewrite !write_string8_spec. cbn [mbind outcome_bind].
  rewrite !write_string8_spec. cbn [mbind outcome_bind].
  rewrite write_content_spec. cbn [mbind outcome_bind].
  rewrite write_when_string8. cbn [mbind outcome_bind].
  rewrite write_when_string8. cbn [mbind outcome_bind].
  destruct (Message.hasSenderPeerID m) eqn:Hpeer.
  - destruct (Hsp Hpeer) as (k & p & Hk & Hp & Hid & _).
    unfold Message.getSenderPeer. rewrite Hk. cbn [default]. cbn [deref_peer]. rewrite Hp.
    cbn [mbind outcome_bind]. rewrite write_uint64_hex16_spec. unfold Peer.getId. rewrite Hid.
    destruct (Message.hasMentions m); rewrite ?write_mentions_spec; cbn [mbind outcome_bind];
      destruct (Message.hasChannel m); rewrite ?write_string8_spec;
      autorewrite with repeater; rewrite <- ?app_assoc, ?app_nil_l, ?app_nil_r; done.
  - cbn [mbind outcome_bind].
    destruct (Message.hasMentions m); rewrite ?write_mentions_spec; cbn [mbind outcome_bind];
      destruct (Message.hasChannel m); rewrite ?write_string8_spec;
      autorewrite with repeater; rewrite <- ?app_assoc, ?app_nil_l, ?app_nil_r; done.
Qed.

(** ** Parsing it *)

Lemma parser_bind_ret {A B} (m : parser A) (k : A -> parser B) st st' a :
  m st = Ret (st', Some a) -> (m ≫= k) st = k a st'.
Proof. intros H. unfold mbind, parser_bind. by rewrite H. Qed.

Lemma p_read_ret {A} read st (a : A) r :
  read (ps_reader st) = Ret (a, r) ->
  p_read read st = Ret (mkPstate (ps_tracker st) r (ps_message st), Some a).
Proof. intros H. unfold p_read. by rewrite H. Qed.

Lemma p_string8_seg st pre s rest post :
  zlen s <= 255 -> reads_at (ps_reader st) pre (string8 s ++ rest) post ->
  exists r' pre', p_string8 st = Ret (mkPstate (ps_tracker st) r' (ps_message st), Some s) /\
    reads_at r' pre' rest post.
Proof.
  intros Hs H. unfold string8 in H. rewrite (take_all_short 255 s Hs) in H.
  rewrite clamp8_min, Z.min_r in H by lia. rewrite <- app_assoc in H.
  assert (0 <= zlen s < 2 ^ 8) as Hr by (pose proof (zlen_nonneg s); lia).
  destruct (read_uint8_seg _ _ _ _ _ Hr H) as (r1 & E1 & H1).
  destruct (read_data_seg _ _ _ _ _ H1) as (r2 & E2 & H2).
  exists r2, ((pre ++ be_bytes 1 (zlen s)) ++ s). split; [|done].
  unfold p_string8. erewrite parser_bind_ret by by apply p_read_ret.
  unfold p_data. cbn [ps_reader]. by rewrite E2.
Qed.

Lemma p_when_string8_seg (test : Message.t -> bool) set st c pre s rest post :
  test (ps_message st) = c -> zlen s <= 255 ->
  reads_at (ps_reader st) pre ((if c then string8 s else []) ++ rest) post ->
  exists r' pre',
    p_when test (x ← p_string8; p_message (fun m => set m x)) st =
      Ret (mkPstate (ps_tracker st) r' (if c then set (ps_message st) s else ps_message st), Some tt) /\
    reads_at r' pre' rest post.
Proof.
  intros Ht Hs H. unfold p_when. rewrite Ht. destruct c.
  - destruct (p_string8_seg _ _ _ _ _ Hs H) as (r' & pre' & E & H').
    exists r', pre'. split; [|done]. erewrite parser_bind_ret by exact E. done.
  - exists (ps_reader st), pre. by destruct st.
Qed.

Lemma parse_mentions_seg ms st pre rest post :
  Forall (fun s => zlen s <= 255) ms ->
  reads_at (ps_reader st) pre (concat (string8 <$> ms) ++ rest) post ->
  exists r' pre',
    Processor.parse_mentions (length ms) st =
      Ret (mkPstate (ps_tracker st) r' (foldl Message.addMention (ps_message st) ms), Some tt) /\
    reads_at r' pre' rest post.
Proof.
  revert st pre. induction ms as [|s ms IH]; intros st pre Hms H.
  - exists (ps_reader st), pre. by destruct st.
  - apply Forall_cons in Hms as [Hs Hms]. cbn [fmap list_fmap concat] in H. rewrite <- app_assoc in H.
    destruct (p_string8_seg _ _ _ _ _ Hs H) as (r1 & pre1 & E1 & H1).
    cbn [length Processor.parse_mentions]. erewrite parser_bind_ret by exact E1.
    erewrite parser_bind_ret by done.
    destruct (IH (mkPstate (ps_tracker st) r1 (Message.addMention (ps_message st) s)) pre1 Hms H1)
      as (r2 & pre2 & E2 & H2). by exists r2, pre2.
Qed.

(** The fields fit the lengths the format can express. *)
Definition message_ok (m : Message.t) : Prop :=
  0 <= Message.message_flags m < 2 ^ 8 /\ 0 <= Message.message_timestamp m < 2 ^ 64 /\
  zlen (Message.message_id m) <= 255 /\ zlen (Message.sender_nickname m) <= 255 /\
  zlen (Message.content m) <= 65535 /\ zlen (Message.original_sender_nickname m) <= 255 /\
  zlen (Message.recipient_nickname m) <= 255 /\ zlen (Message.mentions m) <= 255 /\
  Forall (fun s => zlen s <= 255) (Message.mentions m) /\ zlen (Message.channel m) <= 255.

#[export] Instance message_ok_dec m : Decision (message_ok m).
Proof. unfold message_ok. apply _. Defined.

(** The message a parser builds from [message_wire_with id m] on the base [b];
    [peer] is the sender's peer it finds. *)
Definition parsed_with (peer : option Z) (b : PacketBase.t) (m : Message.t) : Message.t := {|
  Message.base := b;
  Message.message_flags := Message.message_flags m;
  Message.message_timestamp := Message.message_timestamp m;
  Message.message_id := Message.message_id m;
  Message.sender_nickname := Message.sender_nickname m;
  Message.original_sender_nickname :=
    if Message.hasOriginalSender m then Message.original_sender_nickname m else [];
  Message.content := if Message.isEncrypted m then [] else Message.content m;
  Message.encrypted_content := if Message.isEncrypted m then Message.content m else [];
  Message.recipient_nickname :=
    if Message.hasRecipientNickname m then Message.recipient_nickname m else [];
  Message.sender_peer := if Message.hasSenderPeerID m then peer else None;
  Message.mentions := if Message.hasMentions m then Message.mentions m else [];
  Message.channel := if Message.hasChannel m then Message.channel m else [] |}.

Definition parsed_message (b : PacketBase.t) (m : Message.t) : Message.t :=
  parsed_with (Some (default 0 (Message.sender_peer m))) b m.

(** ... and the peer it makes known on the way. *)
Definition tracker_with (peer : option Z) (s : Tracker.t) (m : Message.t) : Tracker.t :=
  if Message.hasSenderPeerID m
  then match peer with Some q => Tracker.checkSenderInPeers s q | None => s end else s.

Definition parsed_tracker (s : Tracker.t) (m : Message.t) : Tracker.t :=
  tracker_with (Some (default 0 (Message.sender_peer m))) s m.

(** The peer that an id names: only sixteen digits name one. *)
Definition id_peer (id : bytes) : option Z :=
  if zlen id =? 16 then Some (Processor.parse_peer_id id 56 0) else None.

Lemma foldl_addMention m ms :
  foldl Message.addMention m ms =
    Message.mk (Message.base m) (Message.message_flags m) (Message.message_timestamp m)
      (Message.message_id m) (Message.sender_nickname m) (Message.original_sender_nickname m)
      (Message.content m) (Message.encrypted_content m) (Message.recipient_nickname m)
      (Message.sender_peer m) (Message.mentions m ++ ms) (Message.channel m).
Proof.
  revert m. induction ms as [|s ms IH]; intros m; cbn [foldl].
  - rewrite app_nil_r. by destruct m.
  - rewrite IH. unfold Message.addMention at 1 2 3 4 5 6 7 8 9 10. cbn. by rewrite <- app_assoc.
Qed.

Lemma parse_sender_peer_seg st (c : bool) id pre rest post :
  Message.hasSenderPeerID (ps_message st) = c -> zlen id < 2 ^ 8 ->
  reads_at (ps_reader st) pre ((if c then be_bytes 1 (zlen id) ++ id else []) ++ rest) post ->
  exists r' pre',
    p_when Message.hasSenderPeerID (
        sender_peer_id_len ← p_read BinaryReader.read_uint8;
        sender_peer_id ← p_data sender_peer_id_len;
        if sender_peer_id_len =? 16 then
          let peer_id := Processor.parse_peer_id sender_peer_id 56 0 in
          _ ← p_tracker (fun s => Tracker.checkSenderInPeers s peer_id);
          p_message (fun m => Message.setSenderPeer m (Some peer_id))
        else mret tt) st =
      Ret (mkPstate (if c then match id_peer id with
                               | Some q => Tracker.checkSenderInPeers (ps_tracker st) q
                               | None => ps_tracker st
                               end else ps_tracker st) r'
             (if c then match id_peer id with
                        | Some q => Message.setSenderPeer (ps_message st) (Some q)
                        | None => ps_message st
                        end else ps_message st), Some tt) /\
    reads_at r' pre' rest post.
Proof.
  intros Hc Hid H. unfold p_when. rewrite Hc. destruct c.
  - rewrite <- app_assoc in H. pose proof (zlen_nonneg id) as Hz.
    destruct (read_uint8_seg _ _ _ _ _ (conj Hz Hid) H) as (r1 & E1 & H1).
    destruct (read_data_seg _ _ _ _ _ H1) as (r2 & E2 & H2).
    exists r2, ((pre ++ be_bytes 1 (zlen id)) ++ id). split; [|done].
    erewrite parser_bind_ret by by apply p_read_ret.
    erewrite parser_bind_ret; cycle 1.
    { unfold p_data. cbn [ps_reader]. rewrite E2. done. }
    unfold id_peer. by destruct (zlen id =? 16).
  - exists (ps_reader st), pre. by destruct st.
Qed.

Lemma parse_mention_list_seg st (c : bool) ms pre rest post :
  Message.hasMentions (ps_message st) = c -> zlen ms <= 255 ->
  Forall (fun s => zlen s <= 255) ms ->
  reads_at (ps_reader st) pre
    ((if c then be_bytes 1 (clamp8 ms) ++ concat (string8 <$> ms) else []) ++ rest) post ->
  exists r' pre',
    p_when Message.hasMentions (
        number_of_mentions ← p_read BinaryReader.read_uint8;
        Processor.parse_mentions (Z.to_nat number_of_mentions)) st =
      Ret (mkPstate (ps_tracker st) r'
             (if c then foldl Message.addMention (ps_message st) ms else ps_message st), Some tt) /\
    reads_at r' pre' rest post.
Proof.
  intros Hc Hl Hms H. unfold p_when. rewrite Hc. destruct c.
  - rewrite <- app_assoc, clamp8_min, Z.min_r in H by lia.
    assert (0 <= zlen ms < 2 ^ 8) as Hr by (pose proof (zlen_nonneg ms); lia).
    destruct (read_uint8_seg _ _ _ _ _ Hr H) as (r1 & E1 & H1).
    destruct (parse_mentions_seg ms (mkPstate (ps_tracker st) r1 (ps_message st)) _ _ _ Hms H1)
      as (r2 & pre2 & E2 & H2).
    exists r2, pre2. split; [|done]. erewrite parser_bind_ret by by apply p_read_ret.
    unfold zlen. rewrite Nat2Z.id. exact E2.
  - exists (ps_reader st), pre. by destruct st.
Qed.

(** Advance the parser over one field: [lem] reads it, [H] is the position. *)
Ltac parse_seg lem H :=
  let r' := fresh "r" in let pre' := fresh "pre" in let E := fresh "E" in let H' := fresh "H" in
  match goal with
  | |- context [@mbind parser _ _ _ _ _ ?st] =>
    edestruct (lem st) as (r' & pre' & E & H'); [.. | exact H |]; cycle -1;
    [ erewrite parser_bind_ret by exact E; clear E H; rename H' into H | .. ]
  end.

Ltac parse_read lem H :=
  let r' := fresh "r" in let E := fresh "E" in let H' := fresh "H" in
  edestruct lem as (r' & E & H'); [.. | exact H |]; cycle -1;
  [ erewrite parser_bind_ret by (apply p_read_ret; exact E); clear E H; rename H' into H
  | .. ].

Ltac parse_set := erewrite parser_bind_ret by reflexivity.

(** The flag tests see the flags that were read first. *)
Ltac same_flags :=
  cbn [ps_message ps_tracker ps_reader];
  repeat match goal with
  | |- context [if ?c then _ else _] => destruct c
  | |- context [match id_peer ?id with _ => _ end] => destruct (id_peer id)
  end; rewrite ?foldl_addMention; reflexivity.

Lemma parse_message_body_with s b m id reader pre post :
  message_ok m -> zlen id < 2 ^ 8 ->
  reads_at reader pre (message_wire_with id m) post ->
  exists r', Processor.parse_message_body (mkPstate s reader (Message.of_base b)) =
    Ret (mkPstate (tracker_with (id_peer id) s m) r' (parsed_with (id_peer id) b m), Some tt).
Proof.
  intros (Hfl & Hts & Hid & Hnick & Hcon & Horig & Hrec & Hmn & Hms & Hch) Hk H.
  unfold Processor.parse_message_body, message_wire_with in *.
  rewrite (take_all_short 65535 (Message.content m) Hcon) in H.
  rewrite clamp16_min, Z.min_r in H by lia.
  rewrite <- (app_nil_r (if Message.hasChannel m then _ else _)) in H.
  parse_read read_uint8_seg H; [|lia]. parse_set.
  parse_read read_uint64_seg H; [|lia]. parse_set.
  parse_seg p_string8_seg H; [|done]. parse_set.
  parse_seg p_string8_seg H; [|done]. parse_set.
  parse_read read_uint16_seg H; [|pose proof (zlen_nonneg (Message.content m)); lia].
  destruct (read_data_seg _ _ _ _ _ H) as (r5 & E5 & H5).
  erewrite parser_bind_ret by (unfold p_data; cbn [ps_reader]; rewrite E5; reflexivity).
  clear H E5. parse_set. cbv beta. cbn [ps_message].
  match goal with
  | |- context [Message.isEncrypted ?x] => change (Message.isEncrypted x) with (Message.isEncrypted m)
  end.
  parse_seg (p_when_string8_seg Message.hasOriginalSender Message.setOriginalSenderNickname) H5;
    [|same_flags|done].
  parse_seg (p_when_string8_seg Message.hasRecipientNickname Message.setRecipientNickname) H5;
    [|same_flags|done].
  parse_seg parse_sender_peer_seg H5; [|same_flags|done].
  parse_seg parse_mention_list_seg H5; [|same_flags|done|done].
  match goal with
  | |- context [p_when Message.hasChannel _ ?st] =>
    edestruct (p_when_string8_seg Message.hasChannel Message.setChannel st) as (r' & pre' & E & _);
      [| |exact H5|exists r'; rewrite E]; [same_flags|done|]
  end.
  do 2 f_equal. unfold tracker_with, parsed_with. cbn [ps_message ps_tracker].
  rewrite foldl_addMention.
  destruct (Message.isEncrypted m), (Message.hasOriginalSender m), (Message.hasRecipientNickname m),
    (Message.hasSenderPeerID m), (Message.hasMentions m), (Message.hasChannel m), (id_peer id); reflexivity.
Qed.

Lemma parse_message_body_wire s b m reader pre post :
  message_ok m -> 0 <= default 0 (Message.sender_peer m) < 2 ^ 64 ->
  reads_at reader pre (message_wire m) post ->
  exists r', Processor.parse_message_body (mkPstate s reader (Message.of_base b)) =
    Ret (mkPstate (parsed_tracker s m) r' (parsed_message b m), Some tt).
Proof.
  intros Hm Hk. rewrite <- message_wire_hex. intros H.
  destruct (parse_message_body_with s b m (hex_text 8 (default 0 (Message.sender_peer m)))
    reader pre post Hm) as [r' E];
    [by rewrite zlen_hex_text|exact H|]. exists r'. rewrite E. unfold id_peer.
  by rewrite zlen_hex_text, parse_peer_id_roundtrip.
Qed.

(** ** One hop *)

(** A stored pass-along packet as [passAlong] makes them: the recipient is [0]
    without its flag, and the type is not that of messages. *)
Definition pass_along_ok (p : PacketPassAlong.t) : Prop :=
  base_ok (PacketPassAlong.base p) /\ 0 < PacketBase.packet_ttl (PacketPassAlong.base p) /\
  zlen (PacketPassAlong.payload p) < 2 ^ 15 /\
  PacketBase.packet_type (PacketPassAlong.base p) <> PacketType_value type_message /\
  (PacketBase.hasPacketRecipient (PacketPassAlong.base p) = false ->
   PacketBase.packet_recipient_id (PacketPassAlong.base p) = 0).

#[export] Instance pass_along_ok_dec p : Decision (pass_along_ok p).
Proof. unfold pass_along_ok. apply _. Defined.

Lemma writePacket_pass_along peers p :
  pass_along_ok p ->
  ProtocolWriter.writePacket peers [] (Some (PktPassAlong p)) =
    Ret (wire (PacketPassAlong.base p) (PacketPassAlong.payload p)).
Proof.
  intros (_ & _ & Hl & Hty & _).
  by rewrite (writePacket_spec peers [] _ _ (write_payload_pass_along peers p ltac:(lia) Hty)).
Qed.

Lemma zlen_string8 s : zlen (string8 s) = 1 + Z.min 255 (zlen s).
Proof.
  unfold string8. rewrite zlen_app, zlen_take by lia. unfold zlen at 1. by rewrite length_be_bytes.
Qed.

Lemma zlen_wire_bound b payload : zlen payload < 2 ^ 15 -> zlen (wire b payload) < 2 ^ 16.
Proof.
  intros Hl. rewrite zlen_wire_ge. unfold wire_signature.
  destruct (PacketBase.hasPacketRecipient b), (PacketBase.hasPacketSignature b);
    rewrite ?zlen_string8; change (zlen (@nil Z)) with 0; lia.
Qed.

(** The pass-along packet that the next hop builds. *)
Definition rebuilt (i : Processor.incoming) : PacketPassAlong.t :=
  PacketPassAlong.setPayload
    (PacketPassAlong.make (Processor.in_type i) (Processor.in_ttl i) (Processor.in_timestamp_ms i)
       (Processor.in_packet_flags i) (Processor.in_sender i) (Processor.in_recipient i)
       (Processor.in_packet_signature i))
    (Processor.in_payload i).

Lemma hash_ignores_ttl P p q :
  PacketPassAlong.payload p = PacketPassAlong.payload q ->
  PacketBase.packet_type (PacketPassAlong.base p) = PacketBase.packet_type (PacketPassAlong.base q) ->
  PacketBase.packet_flags (PacketPassAlong.base p) = PacketBase.packet_flags (PacketPassAlong.base q) ->
  PacketBase.packet_timestamp (PacketPassAlong.base p) =
    PacketBase.packet_timestamp (PacketPassAlong.base q) ->
  PacketBase.packet_sender_id (PacketPassAlong.base p) =
    PacketBase.packet_sender_id (PacketPassAlong.base q) ->
  PacketBase.packet_recipient_id (PacketPassAlong.base p) =
    PacketBase.packet_recipient_id (PacketPassAlong.base q) ->
  PacketPassAlong.getPacketHash P p = PacketPassAlong.getPacketHash P q.
Proof.
  intros H1 H2 H3 H4 H5 H6. unfold PacketPassAlong.getPacketHash, PacketPassAlong.meta_buffer.
  unfold PacketBase.getPacketType, PacketBase.getPacketFlags, PacketBase.getPacketTimestamp,
    PacketBase.getPacketSenderId, PacketBase.getPacketRecipientId.
  by rewrite H1, H2, H3, H4, H5, H6.
Qed.

Lemma rebuilt_hash P p :
  pass_along_ok p ->
  PacketPassAlong.getPacketHash P
    (rebuilt (received (PacketPassAlong.base p) (PacketPassAlong.payload p))) =
  PacketPassAlong.getPacketHash P p.
Proof.
  intros (_ & _ & _ & _ & Hr). apply hash_ignores_ttl; try done.
  cbn. destruct (PacketBase.hasPacketRecipient (PacketPassAlong.base p)); [done|]. by rewrite Hr.
Qed.
