(* ===== verification/Relay.v ===== *)
(** * Relaying: what the next hop does with what this one wrote

    A stored packet is written by [ProtocolWriter] and handed to the
    [ProtocolProcessor] of a neighbour.  The theorems follow a packet over one
    hop (round trip, storing, duplicate detection), and through the cases the
    format does not preserve. *)

From stdpp Require Import base numbers list gmap.
From Stdlib Require Import ZArith Lia.
From S2P Require Import Prelude Platform Containers BinaryIO Packets ProtocolWriter BleConnection.
From S2P Require Import Tracker TrackerInv Sending Processor ProcessorInv RoundTrip.

(** ** Helper lemmas *)

Lemma dispatch_pass_along P s c a i ty :
  PacketType_of (Processor.in_type i) = Some ty -> Processor.passes_along ty = true ->
  ty <> type_announce ->
  Processor.dispatch P s c a i = Processor.passAlong P s a i.
Proof. intros Hty Hp Ha. unfold Processor.dispatch. rewrite Hty. by destruct ty. Qed.

(** The stored copy of a packet one hop on. *)
Definition hop_copy (p : PacketPassAlong.t) : PacketPassAlong.t :=
  rebuilt (received (PacketPassAlong.base p) (PacketPassAlong.payload p)).

Lemma hop_copy_hash P p :
  pass_along_ok p -> PacketPassAlong.getPacketHash P (hop_copy p) = PacketPassAlong.getPacketHash P p.
Proof. apply rebuilt_hash. Qed.

Lemma passAlong_rebuilt P s a i :
  Processor.passAlong P s a i =
    if Processor.in_ttl i <? 1 then Ret s
    else
      match Tracker.storePacketAndReturnIfNew P
              (Tracker.checkSenderInPeers s (Processor.in_sender i)) (rebuilt i) with
      | (s, Some stored_packet) =>
        Tracker.enqueueBroadcastPacketFrom s stored_packet a (Processor.in_sender i)
      | (s, None) => Ret s
      end.
Proof. reflexivity. Qed.

Lemma processWrite_relayed P peers p s c a ty w :
  pass_along_ok p -> plain_flags (PacketBase.packet_flags (PacketPassAlong.base p)) = true ->
  PacketType_of (PacketBase.packet_type (PacketPassAlong.base p)) = Some ty ->
  Processor.passes_along ty = true -> ty <> type_announce ->
  ProtocolWriter.writePacket peers [] (Some (PktPassAlong p)) = Ret w ->
  Processor.processWrite P s c a 0 w (zlen w) =
    Processor.passAlong P s a (received (PacketPassAlong.base p) (PacketPassAlong.payload p)).
Proof.
  intros Hok Hpf Hty Hpa Hna Hw. rewrite writePacket_pass_along in Hw by done. inv_outcome.
  destruct Hok as (Hb & Htt & Hl & _).
  unfold Processor.processWrite. rewrite readPacket_wire by (try apply zlen_wire_bound; auto with repeater).
  cbn [mbind outcome_bind]. by apply (dispatch_pass_along _ _ _ _ _ ty).
Qed.

(** The header fields of an accepted packet are those that were read. *)
Lemma readBody_fields P buffer size type ttl ts flags len sender recipient r i :
  Processor.readBody P buffer size type ttl ts flags len sender recipient r = Ret (Some i) ->
  Processor.in_type i = type /\ Processor.in_ttl i = ttl /\ Processor.in_timestamp_ms i = ts /\
  Processor.in_packet_flags i = flags /\ Processor.in_sender i = sender /\
  Processor.in_recipient i = recipient.
Proof.
  unfold Processor.readBody. intros H.
  match type of H with mbind _ ?m = _ => destruct m as [[[??]?]|]; [|discriminate H] end.
  cbn [mbind outcome_bind] in H.
  match type of H with mbind _ ?m = _ => destruct m as [[[payload|] ?]|]; try discriminate H end.
  cbn [mbind outcome_bind] in H.
  match type of H with context [let '(_, _) := ?m in _] => destruct m end.
  match type of H with mbind _ ?m = _ => destruct m; [|discriminate H] end.
  cbn [mbind outcome_bind] in H.
  match type of H with mbind _ ?m = _ => destruct m; [|discriminate H] end.
  cbn [mbind outcome_bind] in H. by simplify_eq.
Qed.

(** ** One hop *)

(** C2. Round trip of a relayed packet: a stored pass-along packet without
    signature and compression is written without fault, and the next hop
    reads back its type, timestamp, flags, sender, recipient and payload
    unchanged and its time to live decremented. *)
Theorem relay_roundtrip P peers p :
  pass_along_ok p -> plain_flags (PacketBase.packet_flags (PacketPassAlong.base p)) = true ->
  exists w,
    ProtocolWriter.writePacket peers [] (Some (PktPassAlong p)) = Ret w /\
    Processor.readPacket P 0 w (zlen w) =
      Ret (Some (received (PacketPassAlong.base p) (PacketPassAlong.payload p))).
Proof.
  intros Hok Hpf. eexists. split; [by apply writePacket_pass_along|].
  destruct Hok as (Hb & Htt & Hl & _). apply readPacket_wire; [auto with repeater|done|by apply zlen_wire_bound].
Qed.

(** A fragment with a recipient, as a neighbour would have sent it. *)
Definition demo_fragment : PacketPassAlong.t :=
  PacketPassAlong.setPayload
    (PacketPassAlong.make 0x05 7 1755685600000 0x01 0x1122334455667788 0x99AABBCCDDEEFF00 [])
    [1; 2; 3; 4; 5; 6; 7; 8].

Lemma relay_roundtrip_witness :
  exists w,
    ProtocolWriter.writePacket ∅ [] (Some (PktPassAlong demo_fragment)) = Ret w /\
    Processor.readPacket (demo_platform 1000) 0 w (zlen w) =
      Ret (Some (received (PacketPassAlong.base demo_fragment) (PacketPassAlong.payload demo_fragment))).
Proof.
  apply (relay_roundtrip (demo_platform 1000) ∅ demo_fragment);
    [apply (bool_decide_unpack _); vm_compute; exact I | reflexivity].
Defined.

(** C11. Duplicate suppression across a hop: when a repeater already holds the
    packet (under its hash), the relayed copy of a pass-along packet other than
    an announce, unsigned and uncompressed, changes nothing but the peers, where
    its sender becomes known; and not even that when its time to live is used
    up. *)
Theorem relayed_copy_is_duplicate P peers p s c a ty w :
  pass_along_ok p -> plain_flags (PacketBase.packet_flags (PacketPassAlong.base p)) = true ->
  PacketType_of (PacketBase.packet_type (PacketPassAlong.base p)) = Some ty ->
  Processor.passes_along ty = true -> ty <> type_announce ->
  ProtocolWriter.writePacket peers [] (Some (PktPassAlong p)) = Ret w ->
  is_Some (Tracker.packets s !! PacketPassAlong.getPacketHash P p) ->
  Processor.processWrite P s c a 0 w (zlen w) =
    Ret (if PacketBase.packet_ttl (PacketPassAlong.base p) <=? 1 then s
         else Tracker.checkSenderInPeers s (PacketBase.packet_sender_id (PacketPassAlong.base p))).
Proof.
  intros Hok Hpf Hty Hpa Hna Hw [n Hn].
  rewrite (processWrite_relayed _ _ _ _ _ _ _ _ Hok Hpf Hty Hpa Hna Hw).
  rewrite passAlong_rebuilt. cbn [Processor.in_ttl Processor.in_sender received].
  replace (PacketBase.packet_ttl (PacketPassAlong.base p) - 1 <? 1)
    with (PacketBase.packet_ttl (PacketPassAlong.base p) <=? 1) by lia.
  destruct (_ <=? 1); [done|]. fold (hop_copy p). unfold Tracker.storePacketAndReturnIfNew.
  rewrite hop_copy_hash by done. unfold Tracker.checkSenderInPeers.
  destruct (Tracker.peers s !! _); cbn; by rewrite Hn.
Qed.

(** A tracker that has just taken the fragment in. *)
Definition demo_holder : Tracker.t :=
  Tracker.set_packets (Tracker.make 1)
    {[ PacketPassAlong.getPacketHash (demo_platform 1000) demo_fragment := mkNode 2 demo_fragment ]}.

Definition demo_fragment_wire : bytes :=
  wire (PacketPassAlong.base demo_fragment) (PacketPassAlong.payload demo_fragment).

Lemma relayed_copy_is_duplicate_witness :
  Processor.processWrite (demo_platform 1000) demo_holder BleConnection.make 9 0
      demo_fragment_wire (zlen demo_fragment_wire) =
    Ret (Tracker.checkSenderInPeers demo_holder 0x1122334455667788).
Proof.
  apply (relayed_copy_is_duplicate (demo_platform 1000) ∅ demo_fragment demo_holder
           BleConnection.make 9 type_fragment_start demo_fragment_wire);
    [apply (bool_decide_unpack _); vm_compute; exact I
    | reflexivity | reflexivity | reflexivity | discriminate | vm_compute; reflexivity
    | apply (bool_decide_unpack _); vm_compute; exact I].
Defined.

(** The fields a stored copy shares with the packet it copies. *)
Definition same_but_ttl (p q : PacketPassAlong.t) : Prop :=
  PacketPassAlong.payload q = PacketPassAlong.payload p /\
  PacketBase.packet_type (PacketPassAlong.base q) = PacketBase.packet_type (PacketPassAlong.base p) /\
  PacketBase.packet_timestamp (PacketPassAlong.base q) =
    PacketBase.packet_timestamp (PacketPassAlong.base p) /\
  PacketBase.packet_flags (PacketPassAlong.base q) =
    PacketBase.packet_flags (PacketPassAlong.base p) /\
  PacketBase.packet_sender_id (PacketPassAlong.base q) =
    PacketBase.packet_sender_id (PacketPassAlong.base p) /\
  PacketBase.packet_recipient_id (PacketPassAlong.base q) =
    PacketBase.packet_recipient_id (PacketPassAlong.base p) /\
  PacketBase.packet_ttl (PacketPassAlong.base q) =
    PacketBase.packet_ttl (PacketPassAlong.base p) - 1.

(** The tracker [s'] that holds the copy [q] of [p], which arrived on the
    connection at address [a], in node [n]: under the hash of the original, at
    the end of the broadcast queue, with the entries that keep it from being
    sent back; messages, connections and the targeted queue are untouched. *)
Definition taken_in_as (P : Platform) (p q : PacketPassAlong.t) (n : Z) (s : Tracker.t) (a : Z)
    (s' : Tracker.t) : Prop :=
  Tracker.packets s' = <[PacketPassAlong.getPacketHash P p := mkNode n q]> (Tracker.packets s) /\
  Tracker.broadcast_packets_to_send_list s' = Tracker.broadcast_packets_to_send_list s ++ [n] /\
  Tracker.packets_connections_sent_list s' =
    mm_emplace n a (Tracker.packets_connections_sent_list s) /\
  Tracker.packets_peers_sent_list s' =
    mm_emplace n (PacketBase.packet_sender_id (PacketPassAlong.base p))
      (Tracker.packets_peers_sent_list s) /\
  is_Some (Tracker.peers s' !! PacketBase.packet_sender_id (PacketPassAlong.base p)) /\
  Tracker.messages s' = Tracker.messages s /\ Tracker.connections s' = Tracker.connections s /\
  Tracker.targeted_packets_to_send_list s' = Tracker.targeted_packets_to_send_list s.

(** The whole tracker after that. *)
Definition with_copy (P : Platform) (p q : PacketPassAlong.t) (n : Z) (s : Tracker.t) (a : Z)
    : Tracker.t :=
  let sender := PacketBase.packet_sender_id (PacketPassAlong.base p) in
  let s1 := Tracker.checkSenderInPeers s sender in
  let s2 := Tracker.set_packets s1
    (<[PacketPassAlong.getPacketHash P p := mkNode n q]> (Tracker.packets s)) in
  let s3 := Tracker.set_packets_connections_sent_list s2
    (mm_emplace n a (Tracker.packets_connections_sent_list s)) in
  let s4 := Tracker.set_packets_peers_sent_list s3
    (mm_emplace n sender (Tracker.packets_peers_sent_list s)) in
  Tracker.set_broadcast_packets_to_send_list s4 (Tracker.broadcast_packets_to_send_list s ++ [n]).

Lemma with_copy_taken_in P p q n s a : taken_in_as P p q n s a (with_copy P p q n s a).
Proof.
  unfold taken_in_as, with_copy. cbn.
  pose proof (checkSenderInPeers_known s (PacketBase.packet_sender_id (PacketPassAlong.base p)))
    as Hk%elem_of_dom. split_and!; try done; by rewrite checkSenderInPeers_frame.
Qed.

Lemma hop_copy_same p :
  pass_along_ok p -> 1 < PacketBase.packet_ttl (PacketPassAlong.base p) -> same_but_ttl p (hop_copy p).
Proof.
  intros Hok Htt. unfold same_but_ttl. cbn. split_and!; try done. destruct Hok as (_ & _ & _ & _ & Hr).
  destruct (PacketBase.hasPacketRecipient (PacketPassAlong.base p)); [done|]. by rewrite Hr.
Qed.

(** A packet that is new can be read where it was stored. *)
Lemma storePacket_new P `{!PlatformLaws P} s p :
  Tracker.packets s !! PacketPassAlong.getPacketHash P p = None ->
  let s' := Tracker.set_packets s (<[PacketPassAlong.getPacketHash P p :=
              mkNode (new_node P (Tracker.live s)) p]> (Tracker.packets s)) in
  Tracker.storePacketAndReturnIfNew P s p = (s', Some (new_node P (Tracker.live s))) /\
  Tracker.packet_at s' (new_node P (Tracker.live s)) = Some (PktPassAlong p).
Proof.
  intros Hn s'. unfold Tracker.storePacketAndReturnIfNew. rewrite Hn. split; [done|].
  pose proof (new_node_fresh (P := P) (Tracker.live s)) as Hf.
  unfold Tracker.live at 2 in Hf. unfold Tracker.packet_addrs in Hf. unfold Tracker.packet_at, s'. cbn.
  rewrite decide_False by set_solver.
  rewrite (proj2 (node_at_None (Tracker.messages s) _)) by set_solver.
  pose proof (node_at_insert_fresh (Tracker.packets s) (PacketPassAlong.getPacketHash P p)
    (mkNode (new_node P (Tracker.live s)) p)) as E. cbn in E. rewrite E by set_solver. done.
Qed.

(** The node is the one the allocator gives. *)
Lemma relayed_copy_stored P `{!PlatformLaws P} peers p s c a ty w :
  pass_along_ok p -> plain_flags (PacketBase.packet_flags (PacketPassAlong.base p)) = true ->
  PacketType_of (PacketBase.packet_type (PacketPassAlong.base p)) = Some ty ->
  Processor.passes_along ty = true -> ty <> type_announce ->
  ProtocolWriter.writePacket peers [] (Some (PktPassAlong p)) = Ret w ->
  Tracker.packets s !! PacketPassAlong.getPacketHash P p = None ->
  1 < PacketBase.packet_ttl (PacketPassAlong.base p) ->
  let n := new_node P (Tracker.live s) in
  Processor.processWrite P s c a 0 w (zlen w) = Ret (with_copy P p (hop_copy p) n s a) /\
  Tracker.packet_at (with_copy P p (hop_copy p) n s a) n = Some (PktPassAlong (hop_copy p)).
Proof.
  intros Hok Hpf Hty Hpa Hna Hw Hn Htt.
  rewrite (processWrite_relayed _ _ _ _ _ _ _ _ Hok Hpf Hty Hpa Hna Hw), passAlong_rebuilt.
  fold (hop_copy p). cbn [Processor.in_ttl Processor.in_sender received].
  rewrite (proj2 (Z.ltb_ge _ 1)) by lia. unfold with_copy.
  set (sender := PacketBase.packet_sender_id (PacketPassAlong.base p)).
  pose proof (checkSenderInPeers_frame s sender) as Hs1. revert Hs1.
  generalize (Tracker.checkSenderInPeers s sender) as s1. intros s1 Hs1.
  assert (Tracker.live s1 = Tracker.live s) as <- by by rewrite Hs1.
  destruct (storePacket_new P s1 (hop_copy p)) as [E Hat];
    [rewrite hop_copy_hash, Hs1 by done; exact Hn|].
  rewrite hop_copy_hash in E, Hat by done. rewrite E.
  assert (Tracker.packets s1 = Tracker.packets s) as Hp1 by by rewrite Hs1. rewrite Hp1 in Hat |- *.
  split; [|exact Hat].
  unfold Tracker.enqueueBroadcastPacketFrom, Tracker.enqueueBroadcastPacket, Tracker.deref_packet.
  match goal with |- context [Tracker.packet_at ?s2 ?a2] =>
    change (Tracker.packet_at s2 a2) with (Tracker.packet_at (Tracker.set_packets s1
      (<[PacketPassAlong.getPacketHash P p := mkNode (new_node P (Tracker.live s1)) (hop_copy p)]>
         (Tracker.packets s))) (new_node P (Tracker.live s1))) end.
  rewrite Hat. cbn [mbind outcome_bind].
  rewrite (proj2 (Z.gtb_lt (PacketBase.getPacketTtl (packet_base (PktPassAlong (hop_copy p)))) 0))
    by (cbn; lia).
  cbn. by rewrite Hs1.
Qed.

(** C10. A new packet is taken in and queued: a relayed pass-along packet other
    than an announce, unsigned and uncompressed, with a time to live above one,
    that the receiver does not hold is stored under the hash of the original in
    a fresh node, appended to the broadcast queue, and marked as already sent to
    the connection and the peer it came from, and its sender is made known as a
    peer; this is the whole resulting tracker, nothing else changes. *)
Theorem relayed_copy_is_queued P `{!PlatformLaws P} peers p s c a ty w :
  pass_along_ok p -> plain_flags (PacketBase.packet_flags (PacketPassAlong.base p)) = true ->
  PacketType_of (PacketBase.packet_type (PacketPassAlong.base p)) = Some ty ->
  Processor.passes_along ty = true -> ty <> type_announce ->
  ProtocolWriter.writePacket peers [] (Some (PktPassAlong p)) = Ret w ->
  Tracker.packets s !! PacketPassAlong.getPacketHash P p = None ->
  1 < PacketBase.packet_ttl (PacketPassAlong.base p) ->
  exists q n, same_but_ttl p q /\ (n ∉ Tracker.live s) /\
    Processor.processWrite P s c a 0 w (zlen w) = Ret (with_copy P p q n s a).
Proof.
  intros Hok Hpf Hty Hpa Hna Hw Hn Htt. exists (hop_copy p), (new_node P (Tracker.live s)).
  split; [by apply hop_copy_same|]. split; [apply new_node_fresh|].
  by destruct (relayed_copy_stored P peers p s c a ty w) as [E _].
Qed.

Lemma relayed_copy_is_queued_witness :
  exists q n, same_but_ttl demo_fragment q /\ (n ∉ Tracker.live (Tracker.make 1)) /\
    Processor.processWrite (demo_platform 1000) (Tracker.make 1) BleConnection.make 9 0
      demo_fragment_wire (zlen demo_fragment_wire) =
    Ret (with_copy (demo_platform 1000) demo_fragment q n (Tracker.make 1) 9).
Proof.
  apply (@relayed_copy_is_queued (demo_platform 1000) (demo_platform_laws 1000 ltac:(lia)) ∅
           demo_fragment (Tracker.make 1) BleConnection.make 9 type_fragment_start demo_fragment_wire);
    [apply (bool_decide_unpack _); vm_compute; exact I
    | reflexivity | reflexivity | reflexivity | discriminate | vm_compute; reflexivity
    | vm_compute; reflexivity | vm_compute; reflexivity].
Defined.

(** ** Messages *)

(** The base of the message that the next hop builds. *)
Definition hop_base (b : PacketBase.t) : PacketBase.t :=
  PacketBase.make (PacketBase.packet_type b) (PacketBase.packet_ttl b - 1)
    (PacketBase.packet_timestamp b) (PacketBase.packet_flags b) (PacketBase.packet_sender_id b)
    (if PacketBase.hasPacketRecipient b then PacketBase.packet_recipient_id b else 0) [].

(** A stored message that the format can express. *)
Definition message_relayable (peers : gmap Z Peer.t) (m : Message.t) : Prop :=
  message_ok m /\ message_type_ok m /\ base_ok (Message.base m) /\
  0 < PacketBase.packet_ttl (Message.base m) /\
  plain_flags (PacketBase.packet_flags (Message.base m)) = true /\
  sender_peer_ok peers m /\ 0 <= default 0 (Message.sender_peer m) < 2 ^ 64 /\
  zlen (wire (Message.base m) (message_wire m)) < 2 ^ 16.

Lemma writePacket_message peers m :
  message_type_ok m -> sender_peer_ok peers m ->
  ProtocolWriter.writePacket peers [] (Some (PktMessage m)) = Ret (wire (Message.base m) (message_wire m)).
Proof.
  intros Hty Hsp. rewrite (writePacket_spec peers [] _ (message_wire m)); [done|].
  unfold ProtocolWriter.write_payload, PacketBase.getPacketType. cbn [packet_base]. rewrite Hty.
  change (PacketType_of (PacketType_value type_message)) with (Some type_message).
  cbn [cast_Message mbind outcome_bind]. by rewrite writeMessagePayload_spec.
Qed.

Lemma zlen_message_wire id m : 13 <= zlen (message_wire_with id m).
Proof.
  unfold message_wire_with. rewrite !zlen_app, !zlen_string8.
  replace (zlen (be_bytes 1 _)) with 1 by (unfold zlen; by rewrite length_be_bytes).
  replace (zlen (be_bytes 8 _)) with 8 by (unfold zlen; by rewrite length_be_bytes).
  replace (zlen (be_bytes 2 _)) with 2 by (unfold zlen; by rewrite length_be_bytes).
  pose proof (zlen_nonneg (Message.message_id m)). pose proof (zlen_nonneg (Message.sender_nickname m)).
  repeat match goal with |- context [zlen ?l] => 
    lazymatch l with
    | Message.message_id _ => fail
    | Message.sender_nickname _ => fail
    | _ => pose proof (zlen_nonneg l); generalize dependent (zlen l); intros
    end end. lia.
Qed.

Lemma processMessage_with s b m id :
  message_ok m -> zlen id < 2 ^ 8 -> zlen (message_wire_with id m) < 2 ^ 16 ->
  Processor.processMessage s (Message.of_base b) (message_wire_with id m)
      (zlen (message_wire_with id m)) =
    Ret (tracker_with (id_peer id) s m, parsed_with (id_peer id) b m, true).
Proof.
  intros Hm Hk Hl. unfold Processor.processMessage.
  rewrite (proj2 (Z.ltb_ge _ 13)) by apply zlen_message_wire.
  destruct (parse_message_body_with s b m id
    (BinaryReader.make 0 (message_wire_with id m) (zlen (message_wire_with id m))) [] []) as [r' E];
    [done..|by apply reads_at_start|].
  rewrite E. done.
Qed.

Lemma id_peer_hex k : 0 <= k < 2 ^ 64 -> id_peer (hex_text 8 k) = Some k.
Proof. intros Hk. unfold id_peer. by rewrite zlen_hex_text, parse_peer_id_roundtrip. Qed.

Lemma processMessage_wire s b m :
  message_ok m -> 0 <= default 0 (Message.sender_peer m) < 2 ^ 64 -> zlen (message_wire m) < 2 ^ 16 ->
  Processor.processMessage s (Message.of_base b) (message_wire m) (zlen (message_wire m)) =
    Ret (parsed_tracker s m, parsed_message b m, true).
Proof.
  intros Hm Hk. rewrite <- message_wire_hex. intros Hl.
  rewrite processMessage_with by (rewrite ?zlen_hex_text; done). by rewrite id_peer_hex.
Qed.

(** A message as [processMessage] builds them: fields without their flag are
    empty, and the content is not encrypted. *)
Definition message_normal (m : Message.t) : Prop :=
  Message.isEncrypted m = false /\ Message.encrypted_content m = [] /\
  (Message.hasOriginalSender m = false -> Message.original_sender_nickname m = []) /\
  (Message.hasRecipientNickname m = false -> Message.recipient_nickname m = []) /\
  (Message.hasSenderPeerID m = false -> Message.sender_peer m = None) /\
  (Message.hasMentions m = false -> Message.mentions m = []) /\
  (Message.hasChannel m = false -> Message.channel m = []).

(** [m] on another base. *)
Definition rebase (b : PacketBase.t) (m : Message.t) : Message.t :=
  Message.mk b (Message.message_flags m) (Message.message_timestamp m) (Message.message_id m)
    (Message.sender_nickname m) (Message.original_sender_nickname m) (Message.content m)
    (Message.encrypted_content m) (Message.recipient_nickname m) (Message.sender_peer m)
    (Message.mentions m) (Message.channel m).

Lemma parsed_message_normal peers b m :
  message_normal m -> sender_peer_ok peers m -> parsed_message b m = rebase b m.
Proof.
  intros (He & Hec & Ho & Hr & Hp & Hme & Hc) Hsp. unfold parsed_message, parsed_with, rebase.
  rewrite He, Hec.
  assert ((if Message.hasSenderPeerID m then Some (default 0 (Message.sender_peer m)) else None) =
          Message.sender_peer m) as ->.
  { destruct (Message.hasSenderPeerID m) eqn:E; [|by rewrite Hp].
    destruct (Hsp E) as (k & p & -> & _). done. }
  destruct (Message.hasOriginalSender m), (Message.hasRecipientNickname m), (Message.hasMentions m),
    (Message.hasChannel m); rewrite ?Ho, ?Hr, ?Hme, ?Hc by done; done.
Qed.

(** The base of the message that the processor starts to fill. *)
Lemma received_base m payload :
  message_type_ok m ->
  let i := received (Message.base m) payload in
  Message.make (Processor.in_ttl i) (Processor.in_timestamp_ms i) (Processor.in_packet_flags i)
    (Processor.in_sender i) (Processor.in_recipient i) (Processor.in_packet_signature i) =
  Message.of_base (hop_base (Message.base m)).
Proof. intros Hty. unfold hop_base. by rewrite Hty. Qed.

(** C3. Round trip of a relayed message: a stored message that is not
    encrypted, signed or compressed, whose payload stays below 64K and whose
    sender peer is known when its flag promises one, is written without fault, and the next hop
    parses it back to the same message (flags, timestamp, id, nicknames,
    content, sender peer, mentions and channel) with its time to live
    decremented, learning the sender's peer on the way. *)
Theorem message_relay_roundtrip P peers s m :
  message_relayable peers m -> message_normal m ->
  exists w i,
    ProtocolWriter.writePacket peers [] (Some (PktMessage m)) = Ret w /\
    Processor.readPacket P 0 w (zlen w) = Ret (Some i) /\
    Processor.in_type i = PacketType_value type_message /\
    Processor.processMessage s
      (Message.make (Processor.in_ttl i) (Processor.in_timestamp_ms i) (Processor.in_packet_flags i)
         (Processor.in_sender i) (Processor.in_recipient i) (Processor.in_packet_signature i))
      (Processor.in_payload i) (Processor.in_payload_length i) =
    Ret (parsed_tracker s m, rebase (hop_base (Message.base m)) m, true).
Proof.
  intros (Hm & Hty & Hb & Htt & Hpf & Hsp & Hk & Hsz) Hn.
  exists (wire (Message.base m) (message_wire m)), (received (Message.base m) (message_wire m)).
  split; [by apply writePacket_message|]. split; [apply readPacket_wire; auto with repeater|]. split; [done|].
  rewrite <- (parsed_message_normal peers) by done.
  rewrite received_base by done. apply processMessage_wire; [done..|]. pose proof (zlen_wire_ge (Message.base m) (message_wire m)).
  pose proof (zlen_nonneg (wire_signature (Message.base m))).
  destruct (PacketBase.hasPacketRecipient (Message.base m)); lia.
Qed.

(** A channel message that mentions a nickname and names its sender's peer. *)
Definition demo_message : Message.t :=
  let m := Message.make 7 1755685600000 0 0x1122334455667788 0 [] in
  let m := Message.setMessageFlags m 0x70 in
  let m := Message.setMessageTimestamp m 1755685600000 in
  let m := Message.setMessageId m [49; 50; 51] in
  let m := Message.setSenderNickname m [97; 100; 97; 109] in
  let m := Message.setContent m [104; 105] in
  let m := Message.setSenderPeer m (Some 0x1122334455667788) in
  let m := Message.addMention m [98; 111; 98] in
  Message.setChannel m [35; 99].

Definition demo_peers : gmap Z Peer.t :=
  {[ 0x1122334455667788 := Peer.setId Peer.make 0x1122334455667788 ]}.

Lemma demo_message_relayable : message_relayable demo_peers demo_message.
Proof.
  split; [apply (bool_decide_unpack _); vm_compute; exact I|].
  split; [reflexivity|].
  split; [apply (bool_decide_unpack _); vm_compute; exact I|].
  split; [vm_compute; reflexivity|]. split; [reflexivity|].
  split; [|split; [vm_compute; split; [discriminate|reflexivity]|vm_compute; reflexivity]].
  intros _. exists 0x1122334455667788, (Peer.setId Peer.make 0x1122334455667788).
  split; [reflexivity|]. split; [vm_compute; reflexivity|]. split; [reflexivity|lia].
Qed.

Lemma message_relay_roundtrip_witness :
  exists w i,
    ProtocolWriter.writePacket demo_peers [] (Some (PktMessage demo_message)) = Ret w /\
    Processor.readPacket (demo_platform 1000) 0 w (zlen w) = Ret (Some i) /\
    Processor.in_type i = PacketType_value type_message /\
    Processor.processMessage (Tracker.make 1)
      (Message.make (Processor.in_ttl i) (Processor.in_timestamp_ms i) (Processor.in_packet_flags i)
         (Processor.in_sender i) (Processor.in_recipient i) (Processor.in_packet_signature i))
      (Processor.in_payload i) (Processor.in_payload_length i) =
    Ret (parsed_tracker (Tracker.make 1) demo_message,
         rebase (hop_base (Message.base demo_message)) demo_message, true).
Proof.
  apply (message_relay_roundtrip (demo_platform 1000) demo_peers (Tracker.make 1) demo_message);
    [exact demo_message_relayable|split_and!; reflexivity || discriminate].
Defined.

(** What a repeater does with a message it is sent, up to the store. *)
Lemma processWrite_message_with P s c a b m id :
  message_ok m -> PacketBase.packet_type b = PacketType_value type_message -> header_ok b ->
  plain_flags (PacketBase.packet_flags b) = true -> zlen id < 2 ^ 8 ->
  zlen (wire b (message_wire_with id m)) < 2 ^ 16 ->
  Processor.processWrite P s c a 0 (wire b (message_wire_with id m))
      (zlen (wire b (message_wire_with id m))) =
    match Tracker.storeMessageAndReturnIfNew P
            (tracker_with (id_peer id) (Tracker.checkSenderInPeers s (PacketBase.packet_sender_id b)) m)
            (parsed_with (id_peer id) (hop_base b) m) with
    | (s, Some stored_message) =>
      Tracker.enqueueBroadcastPacketFrom s stored_message a (PacketBase.packet_sender_id b)
    | (s, None) => Ret s
    end.
Proof.
  intros Hm Hty Hb Hpf Hk Hsz. unfold Processor.processWrite. rewrite readPacket_wire by done.
  cbn [mbind outcome_bind]. unfold Processor.dispatch. cbn [Processor.in_type received]. rewrite Hty.
  change (PacketType_of (PacketType_value type_message)) with (Some type_message). cbv zeta.
  match goal with |- context [Processor.processMessage ?s1 ?m1 _ _] =>
    replace m1 with (Message.of_base (hop_base b)) by (unfold hop_base; by rewrite Hty) end.
  cbn [Processor.in_payload Processor.in_payload_length Processor.in_sender received].
  rewrite processMessage_with; [done..|]. pose proof (zlen_wire_ge b (message_wire_with id m)).
  pose proof (zlen_nonneg (wire_signature b)). destruct (PacketBase.hasPacketRecipient b); lia.
Qed.





(** ** What the format does not preserve *)

(** C35. Signed packets are damaged: the writer puts a length byte in front of
    the signature and the reader takes 64 bytes from there, so the next hop
    holds the byte 64 followed by the first 63 bytes of the signature. *)
Theorem signed_relay_shifts_signature P peers p :
  pass_along_ok p ->
  has_flag (PacketBase.packet_flags (PacketPassAlong.base p)) packet_flag_has_signature = true ->
  has_flag (PacketBase.packet_flags (PacketPassAlong.base p)) packet_flag_is_compressed = false ->
  zlen (PacketBase.packet_signature (PacketPassAlong.base p)) = 64 ->
  exists w i,
    ProtocolWriter.writePacket peers [] (Some (PktPassAlong p)) = Ret w /\
    Processor.readPacket P 0 w (zlen w) = Ret (Some i) /\
    Processor.in_packet_signature i =
      64 :: take 63 (PacketBase.packet_signature (PacketPassAlong.base p)).
Proof.
  intros Hok Hs Hc Hl. pose proof (writePacket_pass_along peers p Hok) as Hw.
  destruct Hok as (Hb & Htt & Hpl & _).
  destruct (readPacket_wire_signed P _ (PacketPassAlong.payload p) Hb Htt Hs Hc Hl) as (i & Hr & Hi);
    [by apply zlen_wire_bound|]. eauto.
Qed.

Definition demo_signed : PacketPassAlong.t :=
  PacketPassAlong.setPayload
    (PacketPassAlong.make 0x05 7 1755685600000 0x02 0x1122334455667788 0 (Z.of_nat <$> seq 0 64))
    [1; 2; 3].

Lemma signed_relay_shifts_signature_witness :
  exists w i,
    ProtocolWriter.writePacket ∅ [] (Some (PktPassAlong demo_signed)) = Ret w /\
    Processor.readPacket (demo_platform 1000) 0 w (zlen w) = Ret (Some i) /\
    Processor.in_packet_signature i = 64 :: take 63 (Z.of_nat <$> seq 0 64).
Proof.
  apply (signed_relay_shifts_signature (demo_platform 1000) ∅ demo_signed);
    [apply (bool_decide_unpack _); vm_compute; exact I | reflexivity ..].
Defined.

(** C36. Compressed packets are damaged: a repeater stores the decompressed
    payload but keeps the compression flag and writes no original size, so the
    next hop takes the first two payload bytes for the size and, the rest
    being no compressed data, drops them. *)
Theorem compressed_relay_drops_bytes P peers p :
  pass_along_ok p -> bytes_ok (PacketPassAlong.payload p) -> 2 <= zlen (PacketPassAlong.payload p) ->
  has_flag (PacketBase.packet_flags (PacketPassAlong.base p)) packet_flag_has_signature = false ->
  has_flag (PacketBase.packet_flags (PacketPassAlong.base p)) packet_flag_is_compressed = true ->
  zlib_decompress P (drop 2 (PacketPassAlong.payload p))
    (be_value (take 2 (PacketPassAlong.payload p))) = None ->
  exists w i,
    ProtocolWriter.writePacket peers [] (Some (PktPassAlong p)) = Ret w /\
    Processor.readPacket P 0 w (zlen w) = Ret (Some i) /\
    Processor.in_payload i = drop 2 (PacketPassAlong.payload p).
Proof.
  intros Hok Hbo H2 Hs Hc Hz. pose proof (writePacket_pass_along peers p Hok) as Hw.
  destruct Hok as (Hb & Htt & Hpl & _).
  destruct (readPacket_wire_compressed P _ (PacketPassAlong.payload p) Hb Htt Hbo Hs Hc H2)
    as (i & Hr & Hi); [by apply zlen_wire_bound|done|]. eauto.
Qed.

Definition demo_compressed : PacketPassAlong.t :=
  PacketPassAlong.setPayload (PacketPassAlong.make 0x05 7 1755685600000 0x04 0x1122334455667788 0 [])
    [104; 101; 108; 108; 111].

Lemma compressed_relay_drops_bytes_witness :
  exists w i,
    ProtocolWriter.writePacket ∅ [] (Some (PktPassAlong demo_compressed)) = Ret w /\
    Processor.readPacket (demo_platform 1000) 0 w (zlen w) = Ret (Some i) /\
    Processor.in_payload i = [108; 108; 111].
Proof.
  apply (compressed_relay_drops_bytes (demo_platform 1000) ∅ demo_compressed);
    [apply (bool_decide_unpack _); vm_compute; exact I
    |apply (bool_decide_unpack _); vm_compute; exact I
    |vm_compute; discriminate|reflexivity..].
Defined.

(** C37. Encrypted content is lost: the parser keeps the content of an
    encrypted message apart from the field that the writer relays, and leaves
    that one empty; so a stored encrypted message, whatever its encrypted
    content, is written without it, and the next hop parses an encrypted
    message of the same id without any content. *)
Theorem encrypted_content_dropped P peers s m :
  message_relayable peers m -> Message.isEncrypted m = true -> Message.content m = [] ->
  exists w i s' m',
    ProtocolWriter.writePacket peers [] (Some (PktMessage m)) = Ret w /\
    Processor.readPacket P 0 w (zlen w) = Ret (Some i) /\
    Processor.processMessage s
      (Message.make (Processor.in_ttl i) (Processor.in_timestamp_ms i) (Processor.in_packet_flags i)
         (Processor.in_sender i) (Processor.in_recipient i) (Processor.in_packet_signature i))
      (Processor.in_payload i) (Processor.in_payload_length i) = Ret (s', m', true) /\
    Message.message_id m' = Message.message_id m /\ Message.isEncrypted m' = true /\
    Message.encrypted_content m' = [] /\ Message.content m' = [].
Proof.
  intros (Hm & Hty & Hb & Htt & Hpf & Hsp & Hk & Hsz) He Hc.
  exists (wire (Message.base m) (message_wire m)), (received (Message.base m) (message_wire m)).
  exists (parsed_tracker s m), (parsed_message (hop_base (Message.base m)) m).
  split; [by apply writePacket_message|]. split; [apply readPacket_wire; auto with repeater|]. split.
  - rewrite received_base by done. apply processMessage_wire; [done..|].
    pose proof (zlen_wire_ge (Message.base m) (message_wire m)).
    pose proof (zlen_nonneg (wire_signature (Message.base m))).
    destruct (PacketBase.hasPacketRecipient (Message.base m)); lia.
  - cbn. rewrite He. done.
Qed.

(** An encrypted message as the parser stores it. *)
Definition demo_encrypted : Message.t :=
  Message.setEncryptedContent (Message.setMessageId (Message.setMessageFlags
    (Message.make 7 1755685600000 0 0x1122334455667788 0 []) 0x80) [49; 50]) [1; 2; 3].

Lemma encrypted_content_dropped_witness :
  exists w i s' m',
    ProtocolWriter.writePacket ∅ [] (Some (PktMessage demo_encrypted)) = Ret w /\
    Processor.readPacket (demo_platform 1000) 0 w (zlen w) = Ret (Some i) /\
    Processor.processMessage (Tracker.make 1)
      (Message.make (Processor.in_ttl i) (Processor.in_timestamp_ms i) (Processor.in_packet_flags i)
         (Processor.in_sender i) (Processor.in_recipient i) (Processor.in_packet_signature i))
      (Processor.in_payload i) (Processor.in_payload_length i) = Ret (s', m', true) /\
    Message.message_id m' = [49; 50] /\ Message.isEncrypted m' = true /\
    Message.encrypted_content m' = [] /\ Message.content m' = [].
Proof.
  apply (encrypted_content_dropped (demo_platform 1000) ∅ (Tracker.make 1) demo_encrypted);
    [|reflexivity..].
  split; [apply (bool_decide_unpack _); vm_compute; exact I|].
  split; [reflexivity|].
  split; [apply (bool_decide_unpack _); vm_compute; exact I|].
  split; [vm_compute; reflexivity|]. split; [reflexivity|].
  split; [discriminate|split; [vm_compute; split; [discriminate|reflexivity]|vm_compute; reflexivity]].
Defined.

(** A packet whose flags promise a signature and that ends after its
    header makes the processor copy 64 bytes from a null pointer, whatever the
    state, type, time to live and sender. *)
Theorem missing_signature_faults P s c a ty ttl b0 b1 b2 b3 b4 b5 b6 b7 :
  Processor.processWrite P s c a 0
    ([1; ty; ttl] ++ [0; 0; 0; 0; 0; 0; 0; 0] ++ [packet_flag_has_signature] ++ [0; 0] ++
     [b0; b1; b2; b3; b4; b5; b6; b7]) 22 = Fault NullPointer.
Proof. reflexivity. Qed.

(** Truncated packets are accepted: reads past the end give zeros, so
    three bytes are a packet with an empty payload from sender [0]. *)
Lemma truncated_packet_accepted P ty ttl :
  Processor.readPacket P 0 [1; ty; ttl] 3 =
    Ret (Some (Processor.mkIncoming ty ttl 0 0 0 0 [] 0 [])).
Proof. reflexivity. Qed.

(** A message that is new can be read where it was stored. *)
Lemma storeMessage_new P `{!PlatformLaws P} s m :
  Tracker.messages s !! Message.message_id m = None ->
  let s' := Tracker.set_messages s (<[Message.message_id m :=
              mkNode (new_node P (Tracker.live s)) m]> (Tracker.messages s)) in
  Tracker.storeMessageAndReturnIfNew P s m = (s', Some (new_node P (Tracker.live s))) /\
  Tracker.packet_at s' (new_node P (Tracker.live s)) = Some (PktMessage m).
Proof.
  intros Hn s'. unfold Tracker.storeMessageAndReturnIfNew, Message.getMessageId. rewrite Hn.
  split; [done|]. pose proof (new_node_fresh (P := P) (Tracker.live s)) as Hf.
  unfold Tracker.live at 2 in Hf. unfold Tracker.packet_addrs in Hf. unfold Tracker.packet_at, s'. cbn.
  rewrite decide_False by set_solver.
  pose proof (node_at_insert_fresh (Tracker.messages s) (Message.message_id m)
    (mkNode (new_node P (Tracker.live s)) m)) as E. cbn in E. rewrite E by set_solver. done.
Qed.

(** A message that announces a sender's peer and has none cannot be written. *)
Lemma writePacket_no_peer peers m :
  message_type_ok m -> Message.hasSenderPeerID m = true -> Message.sender_peer m = None ->
  ProtocolWriter.writePacket peers [] (Some (PktMessage m)) = Fault NullPointer.
Proof.
  intros Hty Hh Hp. apply writePacket_fault.
  unfold ProtocolWriter.write_payload, PacketBase.getPacketType. cbn [packet_base]. rewrite Hty.
  change (PacketType_of (PacketType_value type_message)) with (Some type_message).
  cbn [cast_Message mbind outcome_bind]. unfold ProtocolWriter.writeMessagePayload. cbv zeta.
  rewrite !write_string8_spec. cbn [mbind outcome_bind].
  rewrite !write_string8_spec. cbn [mbind outcome_bind].
  rewrite write_content_spec. cbn [mbind outcome_bind].
  rewrite write_when_string8. cbn [mbind outcome_bind].
  rewrite write_when_string8. cbn [mbind outcome_bind].
  unfold Message.getSenderPeer. by rewrite Hh, Hp.
Qed.

(** The tracker with the message [m], which came over the connection at [a], in
    node [n]: stored and queued. *)
Definition with_message (m : Message.t) (n sender : Z) (s : Tracker.t) (a : Z) : Tracker.t :=
  let s1 := Tracker.set_messages s (<[Message.message_id m := mkNode n m]> (Tracker.messages s)) in
  let s2 := Tracker.set_packets_connections_sent_list s1
    (mm_emplace n a (Tracker.packets_connections_sent_list s)) in
  let s3 := Tracker.set_packets_peers_sent_list s2
    (mm_emplace n sender (Tracker.packets_peers_sent_list s)) in
  Tracker.set_broadcast_packets_to_send_list s3 (Tracker.broadcast_packets_to_send_list s ++ [n]).

Lemma stored_and_queued P `{!PlatformLaws P} s a m sender :
  Tracker.messages s !! Message.message_id m = None ->
  0 < PacketBase.packet_ttl (Message.base m) ->
  let n := new_node P (Tracker.live s) in
  match Tracker.storeMessageAndReturnIfNew P s m with
  | (s, Some stored_message) => Tracker.enqueueBroadcastPacketFrom s stored_message a sender
  | (s, None) => Ret s
  end = Ret (with_message m n sender s a) /\
  Tracker.packet_at (with_message m n sender s a) n = Some (PktMessage m).
Proof.
  intros Hn Htt n. destruct (storeMessage_new P s m Hn) as [-> Hat]. split; [|exact Hat].
  unfold Tracker.enqueueBroadcastPacketFrom, Tracker.enqueueBroadcastPacket, Tracker.deref_packet.
  match goal with |- context [Tracker.packet_at ?s2 ?a2] =>
    change (Tracker.packet_at s2 a2) with (Tracker.packet_at (Tracker.set_messages s
      (<[Message.message_id m := mkNode (new_node P (Tracker.live s)) m]> (Tracker.messages s)))
      (new_node P (Tracker.live s))) end.
  rewrite Hat. cbn [mbind outcome_bind].
  by rewrite (proj2 (Z.gtb_lt (PacketBase.getPacketTtl (packet_base (PktMessage m))) 0)).
Qed.

(** Two connected neighbours. *)
Definition demo_pair : Tracker.t :=
  let con h := BleConnection.setMtu (BleConnection.setBitchatCharacteristicValueHandle
    (BleConnection.setConnected (BleConnection.setConnectionHandle BleConnection.make h) true) 9) 512 in
  Tracker.set_connections (Tracker.make 1)
    (<[64 := mkNode 11 (con 64)]> (<[65 := mkNode 12 (con 65)]> ∅)).

(** C39. A message with a sender id that is not sixteen digits long, which a
    neighbour sends unsigned and uncompressed with a time to live above one to
    an idle repeater that does not hold its id, is stored without a sender peer;
    when another connection is available, and was sent no packet at a higher
    address, the next sending round reads the id through a null pointer. *)
Theorem short_sender_id_crashes_relay P `{!PlatformLaws P} Q s c a b m id h n :
  tracker_ok s -> a ∈ Tracker.map_addrs (Tracker.connections s) ->
  message_ok m -> Message.hasSenderPeerID m = true -> zlen id < 2 ^ 8 -> zlen id <> 16 ->
  PacketBase.packet_type b = PacketType_value type_message -> base_ok b ->
  1 < PacketBase.packet_ttl b -> plain_flags (PacketBase.packet_flags b) = true ->
  let w := wire b (message_wire_with id m) in
  zlen w < 2 ^ 16 ->
  Tracker.messages s !! Message.message_id m = None ->
  Tracker.broadcast_packets_to_send_list s = [] -> Tracker.targeted_packets_to_send_list s = [] ->
  Tracker.connections s !! h = Some n -> Tracker.send_available (node_val n) = true ->
  handle_of s a <> Some h ->
  (forall q c', (q, c') ∈ Tracker.packets_connections_sent_list s -> handle_of s c' = Some h ->
     q < new_node P (Tracker.live s)) ->
  exists s', Processor.processWrite P s c a 0 w (zlen w) = Ret s' /\
    Tracker.sendPackets Q s' = Fault NullPointer.
Proof.
  intros H Ha Hm Hh Hid H16 Hty Hb Htt Hpf w Hsz Hnew Hbr Htg Hn Hav Hne Hsent.
  unfold w. rewrite processWrite_message_with by auto with lia repeater.
  unfold id_peer, tracker_with. rewrite (proj2 (Z.eqb_neq _ _) H16), Hh.
  set (sender := PacketBase.packet_sender_id b).
  pose proof (checkSenderInPeers_frame s sender) as Hs1.
  pose proof (checkSenderInPeers_known s sender) as Hk.
  pose proof (ok_checkSenderInPeers s sender H) as H1. revert Hs1 Hk H1.
  generalize (Tracker.checkSenderInPeers s sender) as s1. intros s1 Hs1 Hk H1.
  set (m1 := parsed_with None (hop_base b) m).
  destruct (stored_and_queued P s1 a m1 sender) as [E Hat]; [by rewrite Hs1|cbn; lia|].
  destruct (message_stored P s1 a m1 sender) as (s2 & E2 & H2); try done; [by rewrite Hs1| |].
  { cbn. rewrite Hh. done. }
  rewrite E in E2. injection E2 as <-. eexists. split; [exact E|].
  apply (sendPackets_single_fault Q _ (new_node P (Tracker.live s1))); [by rewrite Hs1; cbn; rewrite Hbr
    |by rewrite Hs1|].
  eapply (broadcast_to_unwritable Q _ _ a (PktMessage m1) _ _ h n); [done|done| | | |by rewrite Hs1|done|].
  - apply writePacket_no_peer; [done|done|]. cbn. by rewrite Hh.
  - apply elem_of_mm_emplace. by left.
  - apply list_elem_of_fmap. exists (h, n). split; [done|]. apply elem_of_map_sorted. by rewrite Hs1.
  - apply not_true_is_false. unfold blocked. rewrite existsb_exists. setoid_rewrite <- list_elem_of_In.
    intros ([q c'] & Hin & [Hle%Z.leb_le Hh'%bool_decide_eq_true]%andb_true_iff). cbn in Hle, Hh'.
    assert (handle_of s c' = Some h) as Hc' by (unfold handle_of in *; by rewrite Hs1 in Hh').
    apply elem_of_mm_emplace in Hin as [[= -> ->]|Hin]; [done|].
    rewrite Hs1 in Hin, Hle. specialize (Hsent q c' Hin Hc'). change (Tracker.live _) with (Tracker.live s) in Hle. lia.
Qed.

(** A sender id of one byte. *)
Lemma short_sender_id_crashes_relay_witness :
  let b := PacketBase.make (PacketType_value type_message) 7 1755685600000 0 5 0 [] in
  let m := Message.setMessageFlags (Message.setMessageId (Message.of_base b) [49]) 0x10 in
  let w := wire b (message_wire_with [65] m) in
  exists s', Processor.processWrite (demo_platform 1000) demo_pair BleConnection.make 11 0 w (zlen w) =
      Ret s' /\
    Tracker.sendPackets (demo_platform 1000) s' = Fault NullPointer.
Proof.
  intros b m.
  apply (@short_sender_id_crashes_relay (demo_platform 1000) (demo_platform_laws 1000 ltac:(lia))
    (demo_platform 1000) demo_pair BleConnection.make 11 b m [65] 65
    (mkNode 12 (BleConnection.setMtu (BleConnection.setBitchatCharacteristicValueHandle
      (BleConnection.setConnected (BleConnection.setConnectionHandle BleConnection.make 65) true) 9) 512)));
    [check_ok|apply (bool_decide_unpack _); vm_compute; exact I
    |apply (bool_decide_unpack _); vm_compute; exact I|reflexivity|vm_compute; reflexivity
    |discriminate|reflexivity|apply (bool_decide_unpack _); vm_compute; exact I|vm_compute; reflexivity
    |reflexivity|vm_compute; reflexivity|reflexivity|reflexivity|reflexivity|reflexivity|reflexivity
    |vm_compute; discriminate|].
  intros q c' Hin. by apply elem_of_nil in Hin.
Defined.
