(* ===== verification/Typing.v ===== *)
(** * Types of the stored data

    What every packet, message and queued block of the tracker satisfies: the
    integer fields fit the widths of their C++ types, strings the lengths the
    wire format can express, fields without their flag are empty, only packets
    with a time to live are queued, and every block queued for BTstack is the
    wire form of such a packet.  The processor establishes the types on any
    bytes it is given; the operations of BLE/BleConnectionTracker.cpp keep
    them. *)

From stdpp Require Import base numbers list gmap.
From Stdlib Require Import ZArith Lia.
From S2P Require Import Prelude Platform Containers BinaryIO Packets ProtocolWriter BleConnection.
From S2P Require Import Tracker TrackerInv Sending Housekeeping Processor ProcessorInv RoundTrip Relay.

(** ** Packets and messages *)

(** A pass-along packet as the processor stores them. *)
Record pass_along_typed (p : PacketPassAlong.t) : Prop := {
  typed_base : base_ok (PacketPassAlong.base p);
  typed_ttl : 0 < PacketBase.packet_ttl (PacketPassAlong.base p);
  typed_type : pass_along_type_ok p;
  typed_no_recipient : PacketBase.hasPacketRecipient (PacketPassAlong.base p) = false ->
    PacketBase.packet_recipient_id (PacketPassAlong.base p) = 0;
  typed_payload : bytes_ok (PacketPassAlong.payload p);
  typed_payload_length : zlen (PacketPassAlong.payload p) < 2 ^ 16 }.

(** The fields of a message without their flag are empty; [k] bounds the
    number of mentions while they are being parsed. *)
Record message_fields (k : Z) (m : Message.t) : Prop := {
  fields_flags : 0 <= Message.message_flags m < 2 ^ 8;
  fields_timestamp : 0 <= Message.message_timestamp m < 2 ^ 64;
  fields_id : zlen (Message.message_id m) <= 255;
  fields_nickname : zlen (Message.sender_nickname m) <= 255;
  fields_content : zlen (Message.content m) <= 65535;
  fields_original : zlen (Message.original_sender_nickname m) <= 255;
  fields_recipient : zlen (Message.recipient_nickname m) <= 255;
  fields_mentions : zlen (Message.mentions m) <= k;
  fields_mention : Forall (fun s => zlen s <= 255) (Message.mentions m);
  fields_channel : zlen (Message.channel m) <= 255;
  fields_encrypted : Message.isEncrypted m = true -> Message.content m = [];
  fields_plain : Message.isEncrypted m = false -> Message.encrypted_content m = [];
  fields_no_original :
    Message.hasOriginalSender m = false -> Message.original_sender_nickname m = [];
  fields_no_recipient : Message.hasRecipientNickname m = false -> Message.recipient_nickname m = [];
  fields_no_peer : Message.hasSenderPeerID m = false -> Message.sender_peer m = None;
  fields_peer q : Message.sender_peer m = Some q -> 0 <= q < 2 ^ 64;
  fields_no_mentions : Message.hasMentions m = false -> Message.mentions m = [];
  fields_no_channel : Message.hasChannel m = false -> Message.channel m = [] }.

Record message_typed (m : Message.t) : Prop := {
  message_base : base_ok (Message.base m);
  message_fields_ok : message_fields 255 m }.

Lemma message_fields_mono k k' m : message_fields k m -> k <= k' -> message_fields k' m.
Proof. intros [] Hk. split; try done. lia. Qed.

Lemma message_fields_message_ok m : message_fields 255 m -> message_ok m.
Proof. by intros []. Qed.

(** A typed message that is not encrypted has the normal form that comes back
    unchanged from the next hop. *)
Lemma message_fields_normal m :
  message_fields 255 m -> Message.isEncrypted m = false -> message_normal m.
Proof. intros [] He. unfold message_normal. split_and!; auto. Qed.

(** ** Parsing a message establishes its types *)

(** A step of the parser takes messages of [R] to messages of [Q]. *)
Definition takes {A} (R : Message.t -> Prop) (m : parser A) (Q : A -> Message.t -> Prop) : Prop :=
  forall st st' a, reader_ok (ps_reader st) -> R (ps_message st) -> m st = Ret (st', Some a) ->
    reader_ok (ps_reader st') /\ Q a (ps_message st').

Lemma takes_bind {A B} R (Q : A -> Message.t -> Prop) (S : B -> Message.t -> Prop) m k :
  takes R m Q -> (forall a, takes (Q a) (k a) S) -> takes R (m ≫= k) S.
Proof.
  intros Hm Hk st st' b Hr HR E. unfold mbind, parser_bind in E.
  destruct (m st) as [[st1 [a|]]|] eqn:E1; try discriminate E.
  destruct (Hm _ _ _ Hr HR E1) as [Hr1 HQ]. exact (Hk a _ _ _ Hr1 HQ E).
Qed.

(** A step that reads a value and leaves the message alone. *)
Lemma takes_bind_read {A B} R (V : A -> Prop) (S : B -> Message.t -> Prop) (m : parser A) k :
  takes R m (fun a x => V a /\ R x) -> (forall a, V a -> takes R (k a) S) -> takes R (m ≫= k) S.
Proof.
  intros Hm Hk. eapply takes_bind; [exact Hm|]. intros a st st' b Hr [HV HR]. by apply (Hk a HV).
Qed.

Lemma takes_post {A} R (Q Q' : A -> Message.t -> Prop) m :
  takes R m Q -> (forall a x, Q a x -> Q' a x) -> takes R m Q'.
Proof. intros Hm HQ st st' a Hr HR E. destruct (Hm _ _ _ Hr HR E). auto. Qed.

Lemma takes_ret {A} (R : Message.t -> Prop) (a : A) : takes R (mret a) (fun _ => R).
Proof. intros st st' a' Hr HR [= <- <-]. done. Qed.

Lemma takes_read {A} R (read : BinaryReader.t -> outcome (A * BinaryReader.t)) V :
  (forall r, reader_ok r -> outcome_spec (fun _ => False) (fun '(v, r') => V v /\ reader_ok r') (read r)) ->
  takes R (p_read read) (fun v m => V v /\ R m).
Proof.
  intros Hread st st' a Hr HR E. specialize (Hread _ Hr). unfold p_read in E.
  destruct (read (ps_reader st)) as [[v r]|]; [|done]. cbn in *. simplify_eq. cbn. tauto.
Qed.

Lemma takes_data R len :
  0 <= len -> takes R (p_data len) (fun l m => zlen l = len /\ R m).
Proof.
  intros Hl st st' a Hr HR E. pose proof (read_data_spec _ len Hr Hl) as Hd. unfold p_data in E.
  destruct (BinaryReader.read_data _ len) as [[o r]|]; [|done]. cbn in *. simplify_eq. cbn in *. tauto.
Qed.

Lemma takes_string8 R : takes R p_string8 (fun l m => zlen l <= 255 /\ R m).
Proof.
  eapply takes_bind_read; [apply takes_read, read_uint8_spec|]. intros len Hl.
  eapply takes_post; [apply takes_data; cbv beta in *; lia|]. intros l m [? ?]. cbv beta in *.
  split; [lia|done].
Qed.

Lemma takes_message R f (Q : Message.t -> Prop) :
  (forall m, R m -> Q (f m)) -> takes R (p_message f) (fun _ => Q).
Proof. intros Hf st st' a Hr HR [= <- <-]. cbn. auto. Qed.

Lemma takes_tracker R f : takes R (p_tracker f) (fun _ => R).
Proof. intros st st' a Hr HR [= <- <-]. done. Qed.

Lemma takes_when R test body :
  takes (fun m => test m = true /\ R m) body (fun _ => R) -> takes R (p_when test body) (fun _ => R).
Proof.
  intros Hb st st' a Hr HR E. unfold p_when in E. destruct (test (ps_message st)) eqn:Et.
  - by eapply Hb.
  - by simplify_eq.
Qed.

(** A string field behind a flag. *)
Lemma takes_when_string8 R test set :
  (forall m s, zlen s <= 255 -> test m = true -> R m -> R (set m s)) ->
  takes R (p_when test (x ← p_string8; p_message (fun m => set m x))) (fun _ => R).
Proof.
  intros Hs. apply takes_when. eapply takes_bind_read; [apply takes_string8|]. intros s Hl.
  apply takes_message. intros m [Ht HR]. auto.
Qed.

Lemma lor_range a b n : 0 < n -> 0 <= a < 2 ^ n -> 0 <= b < 2 ^ n -> 0 <= Z.lor a b < 2 ^ n.
Proof.
  intros Hn Ha Hb. assert (0 <= Z.lor a b) by (apply Z.lor_nonneg; lia). split; [done|].
  destruct (Z.eq_dec (Z.lor a b) 0) as [->|]; [lia|]. apply Z.log2_lt_pow2; [lia|].
  assert (forall x, 0 <= x < 2 ^ n -> Z.log2 x < n) as Hlog.
  { intros x Hx. destruct (Z.eq_dec x 0) as [->|]; [done|]. apply Z.log2_lt_pow2; lia. }
  rewrite Z.log2_lor by lia. apply Z.max_lub_lt; auto.
Qed.

Lemma parse_peer_id_range n : forall l shift acc,
  (length l <= n)%nat -> 0 <= acc < 2 ^ 64 -> 0 <= Processor.parse_peer_id l shift acc < 2 ^ 64.
Proof.
  induction n as [|n IH]; intros [|c0 [|c1 l]] shift acc Hl Ha; cbn in Hl |- *; try done; try lia.
  apply IH; [lia|]. apply lor_range; [lia|done|apply u64_range].
Qed.

(** The base of the message and the types of its fields, while it is parsed. *)
Definition parsed_fields (b : PacketBase.t) (k : Z) (m : Message.t) : Prop :=
  Message.base m = b /\ message_fields k m.

(** Close the clauses of the types that a setter does not touch. *)
Ltac fields :=
  intros; repeat match goal with H : _ /\ _ |- _ => destruct H | H : parsed_fields _ _ _ |- _ => destruct H end;
  split; [done|]; match goal with H : message_fields _ _ |- _ => destruct H end;
  split; cbn; try done; try lia.

Lemma takes_mentions b n : forall k,
  takes (fun m => Message.hasMentions m = true /\ parsed_fields b k m)
    (Processor.parse_mentions n) (fun _ => parsed_fields b (k + Z.of_nat n)).
Proof.
  induction n as [|n IH]; intros k; cbn [Processor.parse_mentions].
  { eapply takes_post; [apply takes_ret|]. intros _ x [_ Hx]. by rewrite Z.add_0_r. }
  eapply takes_bind_read; [apply takes_string8|intros s Hs].
  replace (k + Z.of_nat (S n)) with (k + 1 + Z.of_nat n) by lia.
  eapply (takes_bind _ (fun _ m => Message.hasMentions m = true /\ parsed_fields b (k + 1) m));
    [apply takes_message|intros _; apply IH].
  intros m [Ht Hm]. split; [done|]. revert Hm. fields.
  - rewrite zlen_app. change (zlen [s]) with 1. lia.
  - apply Forall_app. by repeat constructor.
  - unfold Message.hasMentions in *. cbn. congruence.
Qed.

Lemma takes_sender_peer b :
  takes (parsed_fields b 0)
    (p_when Message.hasSenderPeerID (
        sender_peer_id_len ← p_read BinaryReader.read_uint8;
        sender_peer_id ← p_data sender_peer_id_len;
        if sender_peer_id_len =? 16 then
          let peer_id := Processor.parse_peer_id sender_peer_id 56 0 in
          _ ← p_tracker (fun s => Tracker.checkSenderInPeers s peer_id);
          p_message (fun m => Message.setSenderPeer m (Some peer_id))
        else mret tt)) (fun _ => parsed_fields b 0).
Proof.
  apply takes_when. eapply takes_bind_read; [apply takes_read, read_uint8_spec|intros len Hl].
  eapply takes_bind_read; [apply takes_data; cbv beta in *; lia|intros id _].
  destruct (len =? 16).
  - cbv zeta. eapply takes_bind; [apply takes_tracker|intros []]. apply takes_message. fields.
    + unfold Message.hasSenderPeerID in *. cbn. congruence.
    + intros q [= <-]. by apply (parse_peer_id_range (length id)).
  - eapply takes_post; [apply takes_ret|]. by intros _ x [_ Hx].
Qed.

Lemma takes_mention_list b :
  takes (parsed_fields b 0)
    (p_when Message.hasMentions (
        number_of_mentions ← p_read BinaryReader.read_uint8;
        Processor.parse_mentions (Z.to_nat number_of_mentions))) (fun _ => parsed_fields b 255).
Proof.
  intros st st' a Hr HR E. unfold p_when in E. destruct (Message.hasMentions (ps_message st)) eqn:Et.
  - eapply (takes_bind_read (fun m => Message.hasMentions m = true /\ parsed_fields b 0 m)
      (fun v => 0 <= v < 2 ^ 8) (fun _ => parsed_fields b 255)) in E;
      [exact E|apply takes_read, read_uint8_spec| |done..].
    intros n Hn. eapply takes_post; [apply takes_mentions|]. intros _ m [Hb Hm]. split; [done|].
    eapply message_fields_mono; [done|lia].
  - simplify_eq. split; [done|]. destruct HR as [Hb Hm]. split; [done|].
    eapply message_fields_mono; [done|lia].
Qed.

(** From a fresh message the parser builds one of the stated types. *)
Lemma parse_message_body_fields b :
  takes (fun m => m = Message.of_base b) Processor.parse_message_body
    (fun _ => parsed_fields b 255).
Proof.
  unfold Processor.parse_message_body.
  eapply takes_bind_read; [apply takes_read, read_uint8_spec|intros flags Hfl].
  eapply (takes_bind _ (fun _ => parsed_fields b 0)); [apply takes_message|intros _].
  { intros m ->. split; [done|]. split; cbn; try done; lia || constructor. }
  eapply takes_bind_read; [apply takes_read, read_uint64_spec|intros ts Hts].
  eapply (takes_bind _ (fun _ => parsed_fields b 0)); [apply takes_message; fields|intros []].
  eapply takes_bind_read; [apply takes_string8|intros id Hid].
  eapply (takes_bind _ (fun _ => parsed_fields b 0)); [apply takes_message; fields|intros []].
  eapply takes_bind_read; [apply takes_string8|intros nick Hnick].
  eapply (takes_bind _ (fun _ => parsed_fields b 0)); [apply takes_message; fields|intros []].
  eapply takes_bind_read; [apply takes_read, read_uint16_spec|intros len Hlen].
  eapply takes_bind_read; [apply takes_data; cbv beta in *; lia|intros content Hcontent].
  eapply (takes_bind _ (fun _ => parsed_fields b 0)); [apply takes_message|intros _].
  { intros m [Hb Hm]. destruct (Message.isEncrypted m) eqn:He;
      (split; [done|]; destruct Hm; split; cbn in *; try done; try lia);
      unfold Message.isEncrypted in *; cbn; congruence. }
  eapply takes_bind; [apply takes_when_string8; fields|intros []].
  { unfold Message.hasOriginalSender in *. cbn. congruence. }
  eapply takes_bind; [apply takes_when_string8; fields|intros []].
  { unfold Message.hasRecipientNickname in *. cbn. congruence. }
  eapply takes_bind; [apply takes_sender_peer|intros []].
  eapply takes_bind; [apply takes_mention_list|intros []].
  apply takes_when_string8. fields. unfold Message.hasChannel in *. cbn. congruence.
Qed.

Lemma processMessage_fields s b payload len s' m' :
  bytes_ok payload -> 0 <= len < 2 ^ 16 -> len <= zlen payload ->
  Processor.processMessage s (Message.of_base b) payload len = Ret (s', m', true) ->
  parsed_fields b 255 m'.
Proof.
  intros Hp Hl Hlp E. unfold Processor.processMessage in E. destruct (len <? 13); [done|].
  destruct (Processor.parse_message_body _) as [[st [[]|]]|] eqn:Eb; cbn in E; simplify_eq.
  eapply (parse_message_body_fields b) in Eb; [by destruct Eb| |done].
  split_and!; cbn; try lia; done.
Qed.

(** ** The tracker *)

(** A block of bytes that the next hop can read as a packet: the wire form of
    a packet whose header fits its fields and whose time to live is left. *)
Definition block_ok (data : bytes) : Prop :=
  exists b payload, base_ok b /\ 0 < PacketBase.packet_ttl b /\ data = wire b payload.

Definition action_ok (a : action) : Prop :=
  match a with
  | ServerNotify _ _ data | WriteWithoutResponse _ _ data => block_ok data
  | _ => True
  end.

(** Every packet at the address has a time to live. *)
Definition positive (s : Tracker.t) (a : Z) : Prop :=
  (node_addr (Tracker.announce s) = a ->
   0 < PacketBase.packet_ttl (Announce.base (node_val (Tracker.announce s)))) /\
  (forall k n, Tracker.messages s !! k = Some n -> node_addr n = a ->
   0 < PacketBase.packet_ttl (Message.base (node_val n))) /\
  (forall k n, Tracker.packets s !! k = Some n -> node_addr n = a ->
   0 < PacketBase.packet_ttl (PacketPassAlong.base (node_val n))).

(** The packets lie in distinct nodes. *)
Record apart (announce : Z) (messages : gmap bytes (node Message.t))
    (packets : gmap Z (node PacketPassAlong.t)) : Prop := {
  apart_messages : addrs_inj messages;
  apart_packets : addrs_inj packets;
  apart_announce_messages : announce ∉ Tracker.map_addrs messages;
  apart_announce_packets : announce ∉ Tracker.map_addrs packets;
  apart_disjoint : Tracker.map_addrs messages ## Tracker.map_addrs packets }.

Definition placed (s : Tracker.t) : Prop :=
  apart (node_addr (Tracker.announce s)) (Tracker.messages s) (Tracker.packets s).

(** Nothing is said of the sent lists, of the connections and of the peers, so
    that the types also hold where the pointers between them are lost. *)
Record typed (s : Tracker.t) : Prop := {
  typed_placed : placed s;
  typed_packets k n : Tracker.packets s !! k = Some n -> pass_along_typed (node_val n);
  typed_messages k n : Tracker.messages s !! k = Some n ->
    message_typed (node_val n) /\ Message.message_id (node_val n) = k;
  typed_announce : base_ok (Announce.base (node_val (Tracker.announce s)));
  typed_broadcast a : a ∈ Tracker.broadcast_packets_to_send_list s ->
    a ∈ Tracker.packet_addrs s /\ positive s a;
  typed_targeted a c : (a, c) ∈ Tracker.targeted_packets_to_send_list s ->
    a = node_addr (Tracker.announce s) /\ positive s a;
  typed_notify h data : (h, data) ∈ Tracker.raw_packet_to_notify s -> block_ok data;
  typed_write h data : (h, data) ∈ Tracker.raw_packet_to_write s -> block_ok data;
  typed_actions : Forall action_ok (Tracker.actions s) }.

(** The packet at an address is typed, and has a time to live when it is
    queued. *)
Lemma typed_packet_at s a pkt :
  typed s -> Tracker.packet_at s a = Some pkt -> base_ok (packet_base pkt).
Proof.
  intros [] E. unfold Tracker.packet_at in E. case_decide; [by simplify_eq|].
  destruct (Tracker.node_at (Tracker.messages s) a) as [[k m]|] eqn:Em; simplify_eq.
  { apply node_at_Some in Em. by destruct (typed_messages0 _ _ Em) as [[] _]. }
  destruct (Tracker.node_at (Tracker.packets s) a) as [[k p]|] eqn:Ep; simplify_eq.
  apply node_at_Some in Ep. by destruct (typed_packets0 _ _ Ep).
Qed.

Lemma positive_packet_at s a pkt :
  positive s a -> Tracker.packet_at s a = Some pkt -> 0 < PacketBase.packet_ttl (packet_base pkt).
Proof.
  intros (Ha & Hm & Hp) E. unfold Tracker.packet_at in E. case_decide; [simplify_eq; by apply Ha|].
  destruct (Tracker.node_at (Tracker.messages s) a) as [[k m]|] eqn:Em; simplify_eq.
  { apply node_at_Some in Em. exact (Hm _ _ Em eq_refl). }
  destruct (Tracker.node_at (Tracker.packets s) a) as [[k p]|] eqn:Ep; simplify_eq.
  apply node_at_Some in Ep. exact (Hp _ _ Ep eq_refl).
Qed.

(** An address holds one packet. *)
Lemma packet_at_positive s a pkt :
  placed s -> Tracker.packet_at s a = Some pkt ->
  0 < PacketBase.packet_ttl (packet_base pkt) -> positive s a.
Proof.
  intros H E Ht. unfold Tracker.packet_at in E. case_decide as Ha.
  { simplify_eq. cbn in Ht. split; [done|]. split; intros k n Hn Ha; exfalso.
    - apply (apart_announce_messages _ _ _ H). rewrite <- Ha. by eapply map_addrs_lookup.
    - apply (apart_announce_packets _ _ _ H). rewrite <- Ha. by eapply map_addrs_lookup. }
  split; [congruence|].
  destruct (Tracker.node_at (Tracker.messages s) a) as [[k m]|] eqn:Em.
  { simplify_eq. apply node_at_Some in Em. split; intros k' n Hn Hna.
    - assert (k' = k) as -> by (eapply (apart_messages _ _ _ H); [exact Hn|exact Em|done]).
      rewrite Em in Hn. injection Hn as <-. exact Ht.
    - exfalso. apply (apart_disjoint _ _ _ H a).
      + apply map_addrs_lookup in Em. exact Em.
      + rewrite <- Hna. by eapply map_addrs_lookup. }
  destruct (Tracker.node_at (Tracker.packets s) a) as [[k p]|] eqn:Ep; simplify_eq.
  apply node_at_Some in Ep. split; intros k' n Hn Hna.
  - exfalso. apply node_at_None in Em. apply Em. rewrite <- Hna. by eapply map_addrs_lookup.
  - assert (k' = k) as -> by (eapply (apart_packets _ _ _ H); [exact Hn|exact Ep|done]).
    rewrite Ep in Hn. injection Hn as <-. exact Ht.
Qed.

(** *** Operations that add no packet

    The stores and queues only shrink, what stays queued stays stored, the
    announce stays, and the actions requested carry no data. *)
Record sheds (s s' : Tracker.t) : Prop := {
  sheds_packets : Tracker.packets s' ⊆ Tracker.packets s;
  sheds_messages : Tracker.messages s' ⊆ Tracker.messages s;
  sheds_announce : Tracker.announce s' = Tracker.announce s;
  sheds_broadcast a :
    a ∈ Tracker.broadcast_packets_to_send_list s' ->
    a ∈ Tracker.broadcast_packets_to_send_list s /\
      (a ∈ Tracker.packet_addrs s -> a ∈ Tracker.packet_addrs s');
  sheds_targeted x :
    x ∈ Tracker.targeted_packets_to_send_list s' -> x ∈ Tracker.targeted_packets_to_send_list s;
  sheds_notify x : x ∈ Tracker.raw_packet_to_notify s' -> x ∈ Tracker.raw_packet_to_notify s;
  sheds_write x : x ∈ Tracker.raw_packet_to_write s' -> x ∈ Tracker.raw_packet_to_write s;
  sheds_actions : exists l, Tracker.actions s' = Tracker.actions s ++ l /\ Forall action_ok l }.

#[export] Instance sheds_refl : Reflexive sheds.
Proof. intros s. split; try done. exists []. by rewrite app_nil_r. Qed.

#[export] Instance sheds_trans : Transitive sheds.
Proof.
  intros s1 s2 s3 [] []. split; [by etrans|by etrans|congruence|naive_solver|auto..|].
  destruct sheds_actions0 as (l1 & E1 & H1), sheds_actions1 as (l2 & E2 & H2).
  exists (l1 ++ l2). rewrite E2, E1, app_assoc. split; [done|]. by apply Forall_app.
Qed.

Lemma positive_sheds s s' a : sheds s s' -> positive s a -> positive s' a.
Proof.
  intros [] (Ha & Hm & Hp). split; [by rewrite sheds_announce0|].
  split; intros k n Hn; [eapply Hm|eapply Hp]; by eapply lookup_weaken.
Qed.

Lemma map_addrs_subseteq {K A} `{Countable K} (m m' : gmap K (node A)) :
  m' ⊆ m -> Tracker.map_addrs m' ⊆ Tracker.map_addrs m.
Proof.
  intros Hs a (k & n & Hk & <-)%elem_of_map_addrs. eapply map_addrs_lookup. by eapply lookup_weaken.
Qed.

Lemma placed_sheds s s' : sheds s s' -> placed s -> placed s'.
Proof.
  intros [Hp Hm Ha _ _ _ _ _] []. unfold placed. rewrite Ha. apply map_addrs_subseteq in Hp as Hp', Hm as Hm'.
  split; [by eapply addrs_inj_subseteq|by eapply addrs_inj_subseteq|set_solver..].
Qed.

Lemma typed_sheds s s' : sheds s s' -> typed s -> typed s'.
Proof.
  intros Hs H. pose proof Hs as []. pose proof H as []. split.
  - by eapply placed_sheds.
  - intros k n Hn. eapply typed_packets0. by eapply lookup_weaken.
  - intros k n Hn. eapply typed_messages0. by eapply lookup_weaken.
  - by rewrite sheds_announce0.
  - intros a Ha. destruct (sheds_broadcast0 a Ha) as [Hin Hl].
    destruct (typed_broadcast0 a Hin). split; [auto|by eapply positive_sheds].
  - intros a c Ha. destruct (typed_targeted0 a c) as [-> ?]; [auto|].
    split; [by rewrite sheds_announce0|by eapply positive_sheds].
  - eauto.
  - eauto.
  - destruct sheds_actions0 as (l & -> & Hl). by apply Forall_app.
Qed.

(** A state that differs from another in no field that the types mention. *)
Ltac shed := by (split; cbn; try done; exists []; by rewrite app_nil_r).

Lemma sheds_emit s a : action_ok a -> sheds s (Tracker.emit s a).
Proof. intros Ha. split; cbn; try done. exists [a]. split; [done|]. by repeat constructor. Qed.

Section shedding.
Context (P : Platform).

Lemma sheds_subscript s h : sheds s (Tracker.connections_subscript P s h).1.
Proof.
  unfold Tracker.connections_subscript. destruct (Tracker.connections s !! h); [done|]. shed.
Qed.

Lemma sheds_update_connection s h f : sheds s (Tracker.update_connection s h f).
Proof. shed. Qed.

Lemma sheds_for_handle s h : sheds s (Tracker.connectionForConnHandle P s h).1.
Proof.
  unfold Tracker.connectionForConnHandle. destruct (Tracker.connections s !! h); [done|].
  pose proof (sheds_subscript s h) as Hs. destruct (Tracker.connections_subscript P s h) as [s1 n].
  etrans; [exact Hs|]. apply sheds_update_connection.
Qed.

Lemma sheds_checkSenderInPeers s q : sheds s (Tracker.checkSenderInPeers s q).
Proof. unfold Tracker.checkSenderInPeers. destruct (Tracker.peers s !! q); [done|]. shed. Qed.

Lemma sheds_set_peers s x : sheds s (Tracker.set_peers s x).
Proof. shed. Qed.

Lemma sheds_updateOrStorePeerName s sender name ttl c :
  sheds s (Processor.updateOrStorePeerName s sender name ttl c).
Proof.
  unfold Processor.updateOrStorePeerName. pose proof (sheds_checkSenderInPeers s sender) as Hs.
  cbv zeta. destruct (_ >=? _); (etrans; [exact Hs|]); shed.
Qed.

Lemma sheds_updateOrStorePeerNoisePublicKey s sender key :
  sheds s (Processor.updateOrStorePeerNoisePublicKey s sender key).
Proof. etrans; [apply (sheds_checkSenderInPeers s sender)|]. shed. Qed.

Lemma sheds_possiblyUpdateTimeOffset s ts s' :
  Tracker.possiblyUpdateTimeOffset P s ts = Ret s' -> sheds s s'.
Proof.
  unfold Tracker.possiblyUpdateTimeOffset. case_decide; [|done].
  destruct (_ || _); intros [= <-]; [shed|done].
Qed.

Lemma sheds_addAvailablePeer s addr ty sv rssi :
  sheds s (Tracker.addAvailablePeer P s addr ty sv rssi).
Proof. shed. Qed.

Lemma sheds_reportConnection s h addr ty : sheds s (Tracker.reportConnection P s h addr ty).
Proof.
  unfold Tracker.reportConnection. cbv zeta.
  match goal with |- sheds _ (Tracker.set_available_neighbours (Tracker.update_connection
    (Tracker.update_connection (Tracker.update_connection (Tracker.update_connection
       (Tracker.connections_subscript P ?s1 h).1 _ _) _ _) _ _) _ _) _) =>
    transitivity s1; [|transitivity (Tracker.connections_subscript P s1 h).1; [apply sheds_subscript|shed]] end.
  destruct (Tracker.available_neighbours s !! _); [|done].
  etrans; [apply (sheds_subscript s h)|shed].
Qed.

Lemma sheds_reportConnectionRole s h addr ty role :
  sheds s (Tracker.reportConnectionRole P s h addr ty role).
Proof.
  unfold Tracker.reportConnectionRole. etrans; [apply (sheds_reportConnection s h addr ty)|].
  set (s1 := Tracker.reportConnection P s h addr ty). pose proof (sheds_subscript s1 h) as Hs.
  destruct (Tracker.connections_subscript P s1 h) as [s2 n]. etrans; [exact Hs|]. cbn [fst].
  etrans; [apply (sheds_update_connection s2 h (fun c => BleConnection.setRole c role))|].
  destruct (role =? HCI_ROLE_MASTER); [by apply sheds_emit|done].
Qed.

Lemma sheds_reportDisconnection s h : sheds s (Tracker.reportDisconnection P s h).
Proof.
  unfold Tracker.reportDisconnection. cbv zeta. etrans; [apply (sheds_subscript s h)|].
  set (s1 := (Tracker.connections_subscript P s h).1).
  set (s2 := Tracker.update_connection _ h _). etrans; [transitivity s2; [shed|]; reflexivity|].
  pose proof (sheds_subscript s2 h) as Hs.
  destruct (Tracker.connections_subscript P s2 h) as [s3 n]. etrans; [exact Hs|]. cbn [fst].
  destruct (_ =? HCI_ROLE_MASTER); [|shed].
  etrans; [by apply (sheds_emit s3 (StopListeningForValueUpdates h))|shed].
Qed.

Lemma sheds_duplicate_loop s items : forall reversed,
  sheds s (Tracker.duplicate_loop P s items reversed).1.
Proof.
  revert s. induction items as [|[h q] items IH]; intros s reversed; cbn [Tracker.duplicate_loop]; [done|].
  destruct (negb _); [|apply IH]. etrans; [apply (sheds_subscript s (default 0 (reversed !! q)))|].
  set (s1 := (Tracker.connections_subscript P s _).1). pose proof (sheds_subscript s1 h) as H2.
  destruct (Tracker.connections_subscript P s1 h) as [s2 n2]. etrans; [exact H2|]. cbn [fst].
  pose proof (sheds_subscript s2 (default 0 (reversed !! q))) as H3.
  destruct (Tracker.connections_subscript P s2 _) as [s3 n3]. by destruct (_ <? _).
Qed.

Lemma sheds_requestNextRssi s restart s' more :
  Tracker.requestNextRssi s restart = Ret (s', more) -> sheds s s'.
Proof.
  unfold Tracker.requestNextRssi. cbv zeta.
  match goal with |- context [match ?x with Some _ => _ | None => _ end] => destruct x as [[h a]|] end; [|done].
  destruct (Tracker.connections s !! h) as [n|]; [|done]. case_decide; [|done].
  intros [= <- _]. etrans; [by apply (sheds_emit s (ReadRssi h))|shed].
Qed.

(** [std::erase_if] keeps elements that fail the test only. *)
Lemma erase_ifM_kept {A} (f : A -> outcome bool) l l' x :
  Tracker.erase_ifM f l = Ret l' -> x ∈ l' -> x ∈ l /\ f x = Ret false.
Proof.
  revert l'. induction l as [|y l IH]; intros l' E Hx; cbn in E; inv_outcome; [set_solver|].
  case_match; simplify_eq; [|apply elem_of_cons in Hx as [->|Hx]; [by split; [left|]|]];
    (edestruct IH; [done..|]; split; [by right|done]).
Qed.

(** A packet that is not stale stays: the cleanup tests it in the broadcast
    queue and in its store by the same condition. *)
Lemma not_stale_stays s s' now a :
  Tracker.announce s' = Tracker.announce s ->
  Tracker.messages s' = filter (fun kv => Tracker.base_stale now (Message.base (node_val kv.2)) = false)
    (Tracker.messages s) ->
  Tracker.packets s' = filter
    (fun kv => Tracker.base_stale now (PacketPassAlong.base (node_val kv.2)) = false) (Tracker.packets s) ->
  Tracker.packet_stale s now a = Ret false -> a ∈ Tracker.packet_addrs s'.
Proof.
  intros Ha Hm Hp E. unfold Tracker.packet_stale, Tracker.deref_packet, Tracker.packet_at in E.
  unfold Tracker.packet_addrs. rewrite Ha, Hm, Hp. case_decide; [set_solver|].
  destruct (Tracker.node_at (Tracker.messages s) a) as [[k m]|] eqn:Em.
  { apply node_at_Some in Em. apply elem_of_union_l, elem_of_union_r, elem_of_map_addrs.
    exists k, (mkNode a m). split; [|done]. apply map_lookup_filter_Some. split; [done|]. by injection E. }
  destruct (Tracker.node_at (Tracker.packets s) a) as [[k p]|] eqn:Ep; [|done].
  apply node_at_Some in Ep. apply elem_of_union_r, elem_of_map_addrs.
  exists k, (mkNode a p). split; [|done]. apply map_lookup_filter_Some. split; [done|]. by injection E.
Qed.

Lemma sheds_cleanupStaleItems s s' : Tracker.cleanupStaleItems P s = Ret s' -> sheds s s'.
Proof.
  unfold Tracker.cleanupStaleItems. cbv zeta. intros E. inv_outcome. split; cbn.
  - apply map_filter_subseteq.
  - apply map_filter_subseteq.
  - done.
  - intros b Hb. eapply erase_ifM_kept in Hb as [Hin Hst]; [|done]. split; [done|].
    intros _. eapply not_stale_stays; [..|exact Hst]; done.
  - intros x Hx. by eapply erase_ifM_kept.
  - done.
  - done.
  - exists []. by rewrite app_nil_r.
Qed.

End shedding.

(** *** Storing and queueing *)

Section storing.
Context (P : Platform) `{!PlatformLaws P}.

(** What is queued stays where it is when a packet is stored in a new node. *)
Lemma stored_frame s s' :
  typed s -> (forall a, a ∈ Tracker.packet_addrs s -> positive s a -> positive s' a) ->
  Tracker.packet_addrs s ⊆ Tracker.packet_addrs s' ->
  Tracker.announce s' = Tracker.announce s ->
  Tracker.broadcast_packets_to_send_list s' = Tracker.broadcast_packets_to_send_list s ->
  Tracker.targeted_packets_to_send_list s' = Tracker.targeted_packets_to_send_list s ->
  (forall a, a ∈ Tracker.broadcast_packets_to_send_list s' ->
     a ∈ Tracker.packet_addrs s' /\ positive s' a) /\
  (forall a c, (a, c) ∈ Tracker.targeted_packets_to_send_list s' ->
     a = node_addr (Tracker.announce s') /\ positive s' a).
Proof.
  intros [] Hpos Hsub Ha -> ->. rewrite Ha. split.
  - intros a Hin. destruct (typed_broadcast0 a Hin). auto.
  - intros a c Hin. destruct (typed_targeted0 a c Hin) as [-> ?].
    split; [done|]. apply Hpos; [apply announce_live|done].
Qed.

Lemma typed_storeMessage s m :
  typed s -> message_typed m -> typed (Tracker.storeMessageAndReturnIfNew P s m).1.
Proof.
  intros Ht Hm. unfold Tracker.storeMessageAndReturnIfNew, Message.getMessageId.
  destruct (Tracker.messages s !! Message.message_id m) eqn:E; [done|]. cbn [fst].
  set (n0 := mkNode (new_node P (Tracker.live s)) m).
  pose proof (fresh_packet P s) as Hf.
  set (s' := Tracker.set_messages s (<[Message.message_id m := n0]> (Tracker.messages s))).
  destruct (stored_frame s s') as [Hb Hg]; try done.
  { intros a Hin (Ha & Hms & Hps). split; [done|]. split; [|done]. cbn.
    intros k n [[_ <-]|[_ Hn]]%lookup_insert_Some; [|eauto]. cbn. intros <-. done. }
  { unfold Tracker.packet_addrs, s'. cbn. intros a. rewrite !elem_of_union, map_addrs_insert by done. tauto. }
  unfold Tracker.packet_addrs in Hf. pose proof Ht as []. split; try done.
  - destruct typed_placed0. split; cbn; try done; rewrite ?map_addrs_insert by done.
    + apply addrs_inj_insert; [cbn|done]. set_solver.
    + cbn. set_solver.
    + intros a. rewrite map_addrs_insert by done. cbn. set_solver.
  - cbn. intros k n [[<- <-]|[_ Hn]]%lookup_insert_Some; [done|eauto].
Qed.

Lemma typed_storePacket s p :
  typed s -> pass_along_typed p -> typed (Tracker.storePacketAndReturnIfNew P s p).1.
Proof.
  intros Ht Hp. unfold Tracker.storePacketAndReturnIfNew.
  destruct (Tracker.packets s !! _) eqn:E; [done|]. cbn [fst].
  set (n0 := mkNode (new_node P (Tracker.live s)) p).
  pose proof (fresh_packet P s) as Hf.
  set (s' := Tracker.set_packets s (<[PacketPassAlong.getPacketHash P p := n0]> (Tracker.packets s))).
  destruct (stored_frame s s') as [Hb Hg]; try done.
  { intros a Hin (Ha & Hms & Hps). split; [done|]. split; [done|]. cbn.
    intros k n [[_ <-]|[_ Hn]]%lookup_insert_Some; [|eauto]. cbn. intros <-. done. }
  { unfold Tracker.packet_addrs, s'. cbn. intros a. rewrite !elem_of_union, map_addrs_insert by done. tauto. }
  unfold Tracker.packet_addrs in Hf. pose proof Ht as []. split; try done.
  - destruct typed_placed0. split; cbn; try done; rewrite ?map_addrs_insert by done.
    + apply addrs_inj_insert; [cbn|done]. set_solver.
    + cbn. set_solver.
    + intros a. rewrite map_addrs_insert by done. cbn. set_solver.
  - cbn. intros k n [[<- <-]|[_ Hn]]%lookup_insert_Some; [done|eauto].
Qed.

(** Only a packet with a time to live is queued. *)
Lemma typed_enqueueBroadcast s a s' :
  typed s -> Tracker.enqueueBroadcastPacket s a = Ret s' -> typed s'.
Proof.
  intros Ht E. unfold Tracker.enqueueBroadcastPacket, Tracker.deref_packet in E.
  destruct (Tracker.packet_at s a) as [pkt|] eqn:Ep; [|done]. cbn [mbind outcome_bind] in E.
  destruct (_ >? 0) eqn:Et; [|by simplify_eq]. injection E as <-.
  assert (positive s a) as Hpos
    by (eapply packet_at_positive; [apply Ht|done|unfold PacketBase.getPacketTtl in Et; lia]).
  assert (a ∈ Tracker.packet_addrs s) by (apply packet_at_live; by eexists).
  destruct Ht. split; try done. cbn.
  intros a' [Ha|Ha%list_elem_of_singleton]%elem_of_app; [by apply typed_broadcast0|by subst].
Qed.

Lemma typed_enqueueBroadcastFrom s a c q s' :
  typed s -> Tracker.enqueueBroadcastPacketFrom s a c q = Ret s' -> typed s'.
Proof.
  intros Ht E. unfold Tracker.enqueueBroadcastPacketFrom in E. cbv zeta in E.
  eapply typed_enqueueBroadcast; [|exact E]. eapply typed_sheds; [|exact Ht]. shed.
Qed.

(** ** The processor *)

Lemma passAlong_typed s a i s' :
  incoming_ok i -> Processor.in_type i <> PacketType_value type_message -> typed s ->
  Processor.passAlong P s a i = Ret s' -> typed s'.
Proof.
  intros Hi Hty Ht E. unfold Processor.passAlong in E.
  destruct (Z.ltb_spec (Processor.in_ttl i) 1); [by simplify_eq|]. cbv zeta in E.
  set (s1 := Tracker.checkSenderInPeers s _) in E.
  assert (typed s1) as Ht1 by (eapply typed_sheds; [apply sheds_checkSenderInPeers|done]).
  set (p := PacketPassAlong.setPayload _ _) in E.
  assert (pass_along_typed p) as Hp.
  { destruct Hi. split; cbn; [|lia|done..]. unfold base_ok. cbn. lia. }
  pose proof (typed_storePacket s1 p Ht1 Hp) as Ht2.
  destruct (Tracker.storePacketAndReturnIfNew P s1 p) as [s2 [n|]]; [|by simplify_eq].
  by eapply typed_enqueueBroadcastFrom.
Qed.

Lemma dispatch_typed s c a i s' :
  incoming_ok i -> typed s -> Processor.dispatch P s c a i = Ret s' -> typed s'.
Proof.
  intros Hi Ht E. unfold Processor.dispatch in E.
  destruct (PacketType_of (Processor.in_type i)) as [ty|] eqn:Ety; [|by simplify_eq].
  assert (Processor.passes_along ty = true -> forall s1 s', typed s1 ->
    Processor.passAlong P s1 a i = Ret s' -> typed s') as Hpass.
  { intros Hp s1 s2. apply passAlong_typed; [done|]. by eapply passes_along_not_message. }
  destruct ty; cbn [Processor.passes_along] in *; try (by injection E as <-);
    try (by apply (Hpass eq_refl s s')).
  - cbv zeta in E. destruct (Tracker.possiblyUpdateTimeOffset P _ _) as [s1|] eqn:E1; [|done].
    eapply (Hpass eq_refl s1); [|exact E]. eapply typed_sheds; [|exact Ht].
    etrans; [apply sheds_updateOrStorePeerName|by eapply sheds_possiblyUpdateTimeOffset].
  - cbv zeta in E. set (s1 := Tracker.checkSenderInPeers s _) in E.
    assert (typed s1) as Ht1 by (eapply typed_sheds; [apply sheds_checkSenderInPeers|done]).
    destruct Hi. pose proof (zlen_nonneg (Processor.in_payload i)).
    destruct (Processor.processMessage s1 _ _ _) as [[[s2 m] ok]|] eqn:Em; [|done].
    cbn [mbind outcome_bind] in E.
    epose proof (processMessage_spec s1 _ (Processor.in_payload i) (Processor.in_payload_length i))
      as Hspec. rewrite Em in Hspec.
    destruct Hspec as (_ & Hs2 & _ & _ & _); [done..|lia|lia|].
    assert (typed s2) as Ht2 by (rewrite Hs2; eapply typed_sheds; [apply sheds_set_peers|done]).
    destruct ok; [|by simplify_eq].
    apply processMessage_fields in Em as [Hb Hm]; [|done|lia|lia].
    assert (message_typed m) as Hmt.
    { split; [|done]. rewrite Hb. unfold base_ok. cbn. lia. }
    pose proof (typed_storeMessage s2 m Ht2 Hmt) as Ht3.
    destruct (Tracker.storeMessageAndReturnIfNew P s2 m) as [s3 [n|]]; [|by simplify_eq].
    by eapply typed_enqueueBroadcastFrom.
  - simplify_eq. eapply typed_sheds; [apply sheds_updateOrStorePeerNoisePublicKey|done].
Qed.

Lemma processWrite_typed s c a offset buffer size s' :
  bytes_ok buffer -> 0 <= offset < 2 ^ 16 -> 0 <= size < 2 ^ 16 -> size <= zlen buffer -> typed s ->
  Processor.processWrite P s c a offset buffer size = Ret s' -> typed s'.
Proof.
  intros Hb Ho Hs Hl Ht E. unfold Processor.processWrite in E.
  pose proof (readPacket_spec P offset buffer size Hb Ho Hs Hl) as Hr.
  destruct (Processor.readPacket P offset buffer size) as [[i|]|]; [|by simplify_eq/=|done].
  cbn [mbind outcome_bind] in E. by eapply dispatch_typed.
Qed.

End storing.

(** ** Sending *)

(** What is written of a packet is a block of its base. *)
Lemma writePacket_block peers pkt w :
  base_ok (packet_base pkt) -> 0 < PacketBase.packet_ttl (packet_base pkt) ->
  ProtocolWriter.writePacket peers [] (Some pkt) = Ret w -> block_ok w.
Proof.
  intros Hb Htt E. destruct (ProtocolWriter.write_payload peers pkt) as [payload|f] eqn:Ep.
  - rewrite (writePacket_spec _ _ _ _ Ep) in E. injection E as <-. by exists (packet_base pkt), payload.
  - by rewrite (writePacket_fault _ _ _ _ Ep) in E.
Qed.

(** The packets and the queues of packets are the same. *)
Record same_packets (s s' : Tracker.t) : Prop := {
  same_store_packets : Tracker.packets s' = Tracker.packets s;
  same_store_messages : Tracker.messages s' = Tracker.messages s;
  same_announce : Tracker.announce s' = Tracker.announce s;
  same_broadcast :
    Tracker.broadcast_packets_to_send_list s' = Tracker.broadcast_packets_to_send_list s;
  same_targeted :
    Tracker.targeted_packets_to_send_list s' = Tracker.targeted_packets_to_send_list s }.

#[export] Instance same_packets_refl : Reflexive same_packets.
Proof. by intros s. Qed.

#[export] Instance same_packets_trans : Transitive same_packets.
Proof. intros s1 s2 s3 [] []. split; congruence. Qed.

Lemma positive_same s s' a : same_packets s s' -> positive s a -> positive s' a.
Proof. intros [] H. unfold positive in *. by rewrite same_store_packets0, same_store_messages0, same_announce0. Qed.

Section sending.
Context (P : Platform).

(** A block appended to the raw packets of a handle. *)
Lemma typed_deliver s h data :
  typed s -> block_ok data ->
  typed (Tracker.set_raw_packet_to_notify s (mm_emplace h data (Tracker.raw_packet_to_notify s))) /\
  typed (Tracker.set_raw_packet_to_write s (mm_emplace h data (Tracker.raw_packet_to_write s))).
Proof.
  intros [] Hd. split; split; try done; cbn; intros h' d [[= -> ->]|Hin]%elem_of_mm_emplace; eauto.
Qed.

Lemma SendPacketToConnection_typed s pkt key s' b :
  typed s -> base_ok (packet_base pkt) -> 0 < PacketBase.packet_ttl (packet_base pkt) ->
  Tracker.SendPacketToConnection P s pkt key = Ret (s', b) -> typed s' /\ same_packets s s'.
Proof.
  intros Ht Hb Httl E. unfold Tracker.SendPacketToConnection in E.
  destruct (ProtocolWriter.writePacket _ _ _) as [data|] eqn:Ew; [|done]. cbn [mbind outcome_bind] in E.
  apply writePacket_block in Ew; [|done..].
  destruct (Tracker.connections s !! key) as [n|]; [|done].
  destruct (c_assert _ _); [|done]. cbn [mbind outcome_bind] in E.
  destruct (match Tracker.peerWithConnectionHandle s _ with Some _ => _ | None => _ end); [|done].
  cbn [mbind outcome_bind] in E.
  set (s1 := Tracker.update_connection s key _) in E.
  assert (typed s1) as Ht1 by (eapply typed_sheds; [apply sheds_update_connection|done]).
  destruct (typed_deliver s1 (BleConnection.getConnectionHandle (node_val n)) data Ht1 Ew) as [Hn Hw].
  destruct (_ =? HCI_ROLE_SLAVE); injection E as <- _;
    (split; [eapply typed_sheds; [by apply sheds_emit|]; done|done]).
Qed.

Lemma deref_packet_typed s a pkt :
  typed s -> positive s a -> Tracker.deref_packet s a = Ret pkt ->
  base_ok (packet_base pkt) /\ 0 < PacketBase.packet_ttl (packet_base pkt).
Proof.
  intros Ht Hp E. unfold Tracker.deref_packet in E.
  destruct (Tracker.packet_at s a) eqn:Ea; simplify_eq.
  split; [by eapply typed_packet_at|by eapply positive_packet_at].
Qed.

Lemma mark_sent_typed s p c : typed s -> typed (Tracker.mark_sent s p c).
Proof. apply typed_sheds. shed. Qed.

Lemma send_targeted_typed targeted : forall s s' remove,
  typed s -> (forall a c, (a, c) ∈ targeted -> positive s a) ->
  Tracker.send_targeted P s targeted = Ret (s', remove) -> typed s' /\ same_packets s s'.
Proof.
  induction targeted as [|[p c] targeted IH]; intros s s' remove Ht Hpos E;
    cbn [Tracker.send_targeted] in E; [by simplify_eq|].
  destruct (Tracker.packet_needed s (p, c)) as [[]|]; cbn [mbind outcome_bind] in E; [| |done].
  2: { eapply IH; [done|intros a' c' Hin; apply (Hpos a' c'); by right|done]. }
  destruct (Tracker.deref_connection s c) as [[key v]|]; [|done]. cbn [mbind outcome_bind] in E.
  destruct (Tracker.deref_packet s p) as [pkt|] eqn:Ep; [|done]. cbn [mbind outcome_bind] in E.
  destruct (deref_packet_typed s p pkt) as [Hb Httl]; [done|apply (Hpos p c); by left|done|].
  destruct (Tracker.SendPacketToConnection P s pkt key) as [[s1 b]|] eqn:Es; [|done].
  cbn [mbind outcome_bind] in E.
  destruct (SendPacketToConnection_typed _ _ _ _ _ Ht Hb Httl Es) as [Ht1 Hs1].
  destruct (Tracker.send_targeted P _ targeted) as [[s2 rem]|] eqn:E2; [|done].
  cbn [mbind outcome_bind] in E. injection E as <- _.
  assert (same_packets s (Tracker.mark_sent s1 p c)) as Hs1' by (destruct Hs1; by split).
  destruct (IH (Tracker.mark_sent s1 p c) s2 rem (mark_sent_typed s1 p c Ht1)) as [Ht2 Hs2];
    [|exact E2|].
  { intros a' c' Hin. eapply positive_same; [exact Hs1'|]. apply (Hpos a' c'). by right. }
  split; [done|]. by etrans.
Qed.

Lemma broadcast_to_typed p handles : forall s s',
  typed s -> positive s p -> Tracker.broadcast_to P s p handles = Ret s' ->
  typed s' /\ same_packets s s'.
Proof.
  induction handles as [|h handles IH]; intros s s' Ht Hpos E;
    cbn [Tracker.broadcast_to] in E; [by simplify_eq|].
  destruct (Tracker.connections s !! h) as [n|]; [|by eapply IH].
  destruct (Tracker.send_available (node_val n)); [|by eapply IH].
  destruct (Tracker.scan_sendable _ _ _ _) as [[]|]; cbn [mbind outcome_bind] in E; [|by eapply IH|done].
  destruct (Tracker.deref_packet s p) as [pkt|] eqn:Ep; [|done]. cbn [mbind outcome_bind] in E.
  destruct (deref_packet_typed s p pkt Ht Hpos Ep) as [Hb Httl].
  destruct (Tracker.SendPacketToConnection P s pkt h) as [[s1 b]|] eqn:Es; [|done].
  cbn [mbind outcome_bind] in E.
  destruct (SendPacketToConnection_typed _ _ _ _ _ Ht Hb Httl Es) as [Ht1 Hs1].
  assert (same_packets s (Tracker.mark_sent s1 p (node_addr n))) as Hs1' by (destruct Hs1; by split).
  destruct (IH _ _ (mark_sent_typed s1 p (node_addr n) Ht1) (positive_same _ _ _ Hs1' Hpos) E) as [Ht2 Hs2].
  split; [done|]. by etrans.
Qed.

Lemma send_broadcast_typed handles packets : forall s s',
  typed s -> (forall a, a ∈ packets -> positive s a) ->
  Tracker.send_broadcast P s handles packets = Ret s' -> typed s' /\ same_packets s s'.
Proof.
  induction packets as [|p packets IH]; intros s s' Ht Hpos E;
    cbn [Tracker.send_broadcast] in E; [by simplify_eq|].
  destruct (Tracker.broadcast_to P s p handles) as [s1|] eqn:E1; [|done]. cbn [mbind outcome_bind] in E.
  destruct (broadcast_to_typed p handles s s1 Ht) as [Ht1 Hs1]; [apply Hpos; by left|done|].
  destruct (IH s1 s' Ht1) as [Ht2 Hs2]; [|done|split; [done|by etrans]].
  intros a Ha. eapply positive_same; [done|]. apply Hpos. by right.
Qed.

Lemma sendPackets_typed s s' : typed s -> Tracker.sendPackets P s = Ret s' -> typed s'.
Proof.
  intros Ht E.
  destruct (decide (Tracker.broadcast_packets_to_send_list s = [] /\
                    Tracker.targeted_packets_to_send_list s = [])) as [[Hb Hg]|Hne].
  { unfold Tracker.sendPackets in E. rewrite Hb, Hg in E. by simplify_eq. }
  rewrite sendPackets_work in E by done.
  destruct (Tracker.send_targeted P s _) as [[s1 rem]|] eqn:E1; [|done]. cbn [mbind outcome_bind] in E.
  destruct (send_targeted_typed _ _ _ _ Ht (fun a c Hin => proj2 (typed_targeted s Ht a c Hin)) E1) as [Ht1 Hs1]. cbv zeta in E.
  set (s2 := Tracker.set_targeted_packets_to_send_list s1 _) in E.
  assert (typed s2) as Ht2.
  { eapply typed_sheds; [|exact Ht1]. split; cbn; try done; [|exists []; by rewrite app_nil_r].
    intros x. unfold mm_erase_if. by intros [_ Hx]%list_elem_of_filter. }
  destruct (Tracker.send_broadcast P s2 _ _) as [s3|] eqn:E3; [|done]. cbn [mbind outcome_bind] in E.
  injection E as <-.
  destruct (send_broadcast_typed _ _ _ _ Ht2 (fun a Hin => proj2 (typed_broadcast s2 Ht2 a Hin)) E3) as [Ht3 _].
  eapply typed_sheds; [|exact Ht3]. split; cbn; try done; [|exists []; by rewrite app_nil_r].
  by intros x [_ Hx]%list_elem_of_filter.
Qed.

End sending.

(** ** The raw packets *)

Section raw.
Context (P : Platform).

Lemma typed_lower_bound s h h' data l (queue : list (Z * bytes)) :
  mm_lower_bound h queue = (h', data) :: l -> (forall h data, (h, data) ∈ queue -> block_ok data) ->
  typed s -> block_ok data.
Proof.
  intros E Hq Ht. apply (Hq h'). apply (mm_lower_bound_suffix h). rewrite E. by left.
Qed.

(** The two callbacks differ in the queue only. *)
Ltac raw_typed queue :=
  let Ht := fresh "Ht" in let E := fresh "E" in let E1 := fresh "E1" in let s1 := fresh "s1" in
  let El := fresh "El" in let Hs := fresh "Hs" in let data := fresh "data" in
  intros Ht E;
  match type of E with mbind _ ?m = _ => destruct m as [s1|] eqn:E1; [|done] end;
  cbn [mbind outcome_bind] in E;
  assert (typed s1);
  [ match type of E1 with context [mm_lower_bound ?h (queue ?s)] =>
      destruct (mm_lower_bound h (queue s)) as [|[? data] ?] eqn:El end; [by injection E1 as <-|];
    assert (block_ok data) by (eapply typed_lower_bound; [exact El|apply Ht|exact Ht]);
    match type of E1 with context [Tracker.connections_subscript P ?s ?h] =>
      pose proof (sheds_subscript P s h) as Hs; destruct (Tracker.connections_subscript P s h) end;
    cbn [fst] in Hs; destruct (c_assert _ _); [|done]; cbn [mbind outcome_bind] in E1;
    destruct (Tracker.send_accepted _); injection E1 as <-; (eapply typed_sheds; [|exact Ht]);
    (etrans; [exact Hs|]);
    match goal with |- context [Tracker.emit ?s ?a] => transitivity (Tracker.emit s a);
      [apply (sheds_emit s a); assumption|] end; [|done];
    split; cbn; try done; [|exists []; by rewrite app_nil_r];
    intros ?; by apply mm_erase_first_subset
  | destruct (mm_lower_bound _ (queue s1)) as [|];
    [ match type of E with context [Tracker.connections_subscript P ?s ?h] =>
        pose proof (sheds_subscript P s h) as Hs; destruct (Tracker.connections_subscript P s h) end;
      injection E as <-; by eapply typed_sheds
    | injection E as <-; eapply typed_sheds; [by apply sheds_emit|done] ] ].

Lemma notifyRawPacket_typed s h s' : typed s -> Tracker.notifyRawPacket P s h = Ret s' -> typed s'.
Proof. unfold Tracker.notifyRawPacket. raw_typed Tracker.raw_packet_to_notify. Qed.

Lemma writeRawPacket_typed s h s' : typed s -> Tracker.writeRawPacket P s h = Ret s' -> typed s'.
Proof. unfold Tracker.writeRawPacket. raw_typed Tracker.raw_packet_to_write. Qed.

End raw.

(** ** Announcing *)

Section announcing.
Context (P : Platform) `{!PlatformLaws P}.

(** The announce with another base keeps the types when its time to live stays
    positive. *)
Lemma typed_set_announce s a :
  typed s -> base_ok (Announce.base a) ->
  (0 < PacketBase.packet_ttl (Announce.base (node_val (Tracker.announce s))) ->
   0 < PacketBase.packet_ttl (Announce.base a)) ->
  typed (Tracker.set_announce s (mkNode (node_addr (Tracker.announce s)) a)).
Proof.
  intros [] Hb Hp. assert (forall x, positive s x -> positive
    (Tracker.set_announce s (mkNode (node_addr (Tracker.announce s)) a)) x) as Hpos.
  { intros x (Ha & Hm & Hk). split; [|done]. cbn. auto. }
  split; try done.
  - intros x Hx. destruct (typed_broadcast0 x Hx). auto.
  - intros x c Hx. destruct (typed_targeted0 x c Hx). auto.
Qed.

Lemma sender_of_address_range addr :
  bytes_ok addr -> length addr = 6%nat -> 0 <= Tracker.sender_of_address addr < 2 ^ 64.
Proof.
  intros Hb Hl. do 6 (destruct addr as [|? addr]; [discriminate Hl|]).
  destruct addr; [|discriminate Hl]. unfold Tracker.sender_of_address.
  change (Z.to_nat BD_ADDR_LEN) with 6%nat. cbn [take foldr]. unfold bytes_ok in Hb.
  repeat (apply Forall_cons in Hb as [? Hb]). cbv beta in *. lia.
Qed.

Lemma setupAnnounceIfNeeded_typed s s' :
  typed s -> Tracker.setupAnnounceIfNeeded P s = Ret s' -> typed s'.
Proof.
  intros Ht E. unfold Tracker.setupAnnounceIfNeeded in E. destruct (_ =? 3); [by simplify_eq|].
  destruct (Tracker.repeater_name _) as [name|]; [|done]. cbn [mbind outcome_bind] in E.
  injection E as <-. destruct (gap_local_bd_addr_ok (P := P)) as [Hb Hl].
  pose proof (sender_of_address_range _ Hb Hl). apply typed_set_announce; [done| |done].
  destruct (typed_announce s Ht) as (?&?&?&?&?&?). unfold base_ok. cbn. lia.
Qed.

Lemma getTimeMs_at_range s k : 0 <= Tracker.getTimeMs_at P s k < 2 ^ 64.
Proof. apply u64_range. Qed.

Lemma enqueueTargetedPacket_typed s c s' :
  typed s -> Tracker.enqueueTargetedPacket P s (node_addr (Tracker.announce s)) c = Ret s' -> typed s'.
Proof.
  intros Ht E. unfold Tracker.enqueueTargetedPacket, Tracker.deref_packet in E.
  destruct (Tracker.packet_at s _) as [pkt|] eqn:Ep; [|done]. cbn [mbind outcome_bind] in E.
  destruct (_ >? 0) eqn:Et; [|by simplify_eq].
  assert (positive s (node_addr (Tracker.announce s))) as Hpos
    by (eapply packet_at_positive; [apply Ht|done|unfold PacketBase.getPacketTtl in Et; lia]).
  pose proof (sheds_for_handle P s (BleConnection.getConnectionHandle c)) as Hs.
  destruct (Tracker.connectionForConnHandle P s _) as [s1 con]. cbn [fst] in Hs. injection E as <-.
  pose proof (positive_sheds _ _ _ Hs Hpos) as Hpos1. apply (typed_sheds _ _ Hs) in Ht as [].
  rewrite <- (sheds_announce _ _ Hs) in *.
  split; try done. cbn. intros a' c' [[= -> ->]|Hin]%elem_of_mm_emplace; [done|]. by eapply typed_targeted0.
Qed.

Lemma announce_loop_typed handles : forall s s' k,
  typed s -> Tracker.announce_loop P s handles k = Ret s' -> typed s'.
Proof.
  induction handles as [|h handles IH]; intros s s' k Ht E;
    cbn [Tracker.announce_loop] in E; [by simplify_eq|].
  destruct (Tracker.connections s !! h) as [n|] eqn:En; [|by eapply IH].
  destruct (Tracker.announce_available s (node_val n)); [|by eapply IH].
  destruct (Tracker.no_match _ _ _) as [[]|]; cbn [mbind outcome_bind] in E; [|by eapply IH|done].
  cbv zeta in E. set (s1 := Tracker.set_announce s _) in E.
  assert (typed s1) as Ht1.
  { destruct (typed_announce s Ht) as (?&?&?&?&?&?). pose proof (getTimeMs_at_range s k).
    apply typed_set_announce; [done| |done]. unfold base_ok. cbn. lia. }
  destruct (Tracker.enqueueTargetedPacket P s1 _ _) as [s2|] eqn:E2; [|done].
  eapply IH; [|exact E]. exact (enqueueTargetedPacket_typed _ _ _ Ht1 E2).
Qed.

Lemma announceToConnections_typed s s' :
  typed s -> Tracker.announceToConnections P s = Ret s' -> typed s'.
Proof.
  intros Ht E. unfold Tracker.announceToConnections in E.
  destruct (Tracker.setupAnnounceIfNeeded P s) as [s1|] eqn:E1; [|done].
  eapply announce_loop_typed; [|exact E]. by eapply setupAnnounceIfNeeded_typed.
Qed.

End announcing.
