(* ===== verification/Hops.v ===== *)
(** * Chains of hops

    How far a packet travels: what a repeater writes of a packet is processed by
    the next one, which may queue a copy; the time to live bounds the number of
    such hops, whatever the kind of packet, its flags and the states of the
    repeaters. *)

From stdpp Require Import base numbers list gmap relations.
From Stdlib Require Import ZArith Lia.
From S2P Require Import Prelude Platform Containers BinaryIO Packets ProtocolWriter BleConnection.
From S2P Require Import Tracker TrackerInv Sending Processor ProcessorInv RoundTrip Relay Typing.

(** ** One hop *)

(** The packet [pkt] is written by a repeater that knows [peers]; another one, in
    the state [s], is given the bytes and queues the packet in its node [n] for
    broadcast, which was not queued before: that is [pkt'].  The fields of the
    packet fit their types; nothing else is asked of it. *)
Inductive hop : packet -> packet -> Prop :=
  | hop_intro P peers s c a pkt w s' n pkt' :
      PlatformLaws P -> base_ok (packet_base pkt) -> bytes_ok w -> zlen w < 2 ^ 16 ->
      ProtocolWriter.writePacket peers [] (Some pkt) = Ret w ->
      Processor.processWrite P s c a 0 w (zlen w) = Ret s' ->
      n ∈ Tracker.broadcast_packets_to_send_list s' ->
      n ∉ Tracker.broadcast_packets_to_send_list s ->
      Tracker.packet_at s' n = Some pkt' ->
      hop pkt pkt'.

(** ** What is queued *)

(** Only [enqueueBroadcastPacket] adds to the queue, and only a packet with a
    time to live. *)
Lemma enqueue_new s x c q s' n pkt :
  Tracker.enqueueBroadcastPacketFrom s x c q = Ret s' ->
  n ∈ Tracker.broadcast_packets_to_send_list s' -> n ∉ Tracker.broadcast_packets_to_send_list s ->
  Tracker.packet_at s' n = Some pkt ->
  n = x /\ Tracker.packet_at s x = Some pkt /\ 0 < PacketBase.packet_ttl (packet_base pkt).
Proof.
  intros E Hin Hnot Hat.
  unfold Tracker.enqueueBroadcastPacketFrom, Tracker.enqueueBroadcastPacket, Tracker.deref_packet in E.
  cbv zeta in E.
  match type of E with context [Tracker.packet_at ?s2 x] =>
    change (Tracker.packet_at s2 x) with (Tracker.packet_at s x) in E end.
  destruct (Tracker.packet_at s x) as [pkt1|] eqn:E1; [|done]. cbn [mbind outcome_bind] in E.
  destruct (PacketBase.getPacketTtl (packet_base pkt1) >? 0) eqn:Et; injection E as <-; [|done].
  cbn in Hin. apply elem_of_app in Hin as [?|Hin%list_elem_of_singleton]; [done|]. subst x.
  change (Tracker.packet_at s n = Some pkt) in Hat. unfold PacketBase.getPacketTtl in Et.
  split; [done|]. rewrite Hat in E1. injection E1 as ->. split; [done|]. lia.
Qed.

Section queueing.
Context (P : Platform) `{!PlatformLaws P}.

Lemma passAlong_queues s a i s' n pkt :
  Processor.passAlong P s a i = Ret s' ->
  n ∈ Tracker.broadcast_packets_to_send_list s' -> n ∉ Tracker.broadcast_packets_to_send_list s ->
  Tracker.packet_at s' n = Some pkt ->
  PacketBase.packet_ttl (packet_base pkt) = Processor.in_ttl i /\
  0 < PacketBase.packet_ttl (packet_base pkt).
Proof.
  intros E Hin Hnot Hat. rewrite passAlong_rebuilt in E. destruct (_ <? 1); [by injection E as <-|].
  revert E. pose proof (checkSenderInPeers_frame s (Processor.in_sender i)) as Hs1. revert Hs1.
  generalize (Tracker.checkSenderInPeers s (Processor.in_sender i)) as s1. intros s1 Hs1 E.
  assert (n ∉ Tracker.broadcast_packets_to_send_list s1) as Hnot1 by by rewrite Hs1.
  destruct (Tracker.packets s1 !! PacketPassAlong.getPacketHash P (rebuilt i)) eqn:Eh.
  { unfold Tracker.storePacketAndReturnIfNew in E. rewrite Eh in E. by injection E as <-. }
  destruct (storePacket_new P s1 (rebuilt i) Eh) as [Est Hst]. rewrite Est in E.
  destruct (enqueue_new _ _ _ _ _ _ pkt E Hin) as (_ & Hat' & Ht); [done|exact Hat|].
  rewrite Hst in Hat'. by injection Hat' as <-.
Qed.

Lemma dispatch_queues s c a i s' n pkt :
  incoming_ok i -> Processor.dispatch P s c a i = Ret s' ->
  n ∈ Tracker.broadcast_packets_to_send_list s' -> n ∉ Tracker.broadcast_packets_to_send_list s ->
  Tracker.packet_at s' n = Some pkt ->
  PacketBase.packet_ttl (packet_base pkt) = Processor.in_ttl i /\
  0 < PacketBase.packet_ttl (packet_base pkt).
Proof.
  intros Hi E Hin Hnot Hat. unfold Processor.dispatch in E.
  destruct (PacketType_of (Processor.in_type i)) as [ty|] eqn:Ety; [|by injection E as <-].
  assert (forall s1, sheds s s1 -> n ∉ Tracker.broadcast_packets_to_send_list s1) as Hsheds.
  { intros s1 Hs Hn1. by apply (sheds_broadcast _ _ Hs) in Hn1 as []. }
  destruct ty; cbn [Processor.passes_along] in *; try (by injection E as <-);
    try (by apply (passAlong_queues s a i s' n pkt)).
  - cbv zeta in E. destruct (Tracker.possiblyUpdateTimeOffset P _ _) as [s1|] eqn:E1; [|done].
    apply (passAlong_queues s1 a i s' n pkt); [exact E|done| |done]. apply Hsheds.
    etrans; [apply sheds_updateOrStorePeerName|by eapply sheds_possiblyUpdateTimeOffset].
  - cbv zeta in E. set (s1 := Tracker.checkSenderInPeers s _) in E.
    destruct Hi. pose proof (zlen_nonneg (Processor.in_payload i)).
    destruct (Processor.processMessage s1 _ _ _) as [[[s2 m] ok]|] eqn:Em; [|done].
    cbn [mbind outcome_bind] in E.
    epose proof (processMessage_spec s1 _ (Processor.in_payload i) (Processor.in_payload_length i))
      as Hspec. rewrite Em in Hspec. destruct Hspec as (_ & Hs2 & _ & _ & _); [done..|lia|lia|].
    assert (n ∉ Tracker.broadcast_packets_to_send_list s2) as Hnot2.
    { rewrite Hs2. apply Hsheds. etrans; [apply sheds_checkSenderInPeers|apply sheds_set_peers]. }
    destruct ok; [|by injection E as <-].
    apply processMessage_fields in Em as [Hb Hm]; [|done|lia|lia].
    destruct (Tracker.messages s2 !! Message.message_id m) eqn:Eh.
    { unfold Tracker.storeMessageAndReturnIfNew, Message.getMessageId in E. rewrite Eh in E.
      by injection E as <-. }
    destruct (storeMessage_new P s2 m Eh) as [Est Hst]. rewrite Est in E.
    destruct (enqueue_new _ _ _ _ _ _ pkt E Hin) as (_ & Hat' & Ht); [done|exact Hat|].
    rewrite Hst in Hat'. injection Hat' as <-. cbn [packet_base] in *. split; [|done]. by rewrite Hb.
  - injection E as <-. exfalso. revert Hin. apply Hsheds, sheds_updateOrStorePeerNoisePublicKey.
Qed.

End queueing.

Lemma hop_ttl pkt pkt' :
  0 < PacketBase.packet_ttl (packet_base pkt) -> hop pkt pkt' ->
  PacketBase.packet_ttl (packet_base pkt') = PacketBase.packet_ttl (packet_base pkt) - 1 /\
  0 < PacketBase.packet_ttl (packet_base pkt').
Proof.
  intros Htt Hhop. destruct Hhop as [P peers s c a pkt w s' n pkt' HP Hb Hbw Hsz Hw E Hin Hnot Hat].
  destruct (ProtocolWriter.write_payload peers pkt) as [payload|f] eqn:Ep.
  2: { by rewrite (writePacket_fault _ _ _ _ Ep) in Hw. }
  rewrite (writePacket_spec _ _ _ _ Ep) in Hw. cbn [app] in Hw. injection Hw as <-.
  destruct (readPacket_wire_header P _ payload (base_header_ok _ Hb Htt) Hsz) as (r & pre & Eh & _).
  set (w := wire (packet_base pkt) payload) in *. pose proof (zlen_nonneg w).
  pose proof (readPacket_spec P 0 w (zlen w) Hbw ltac:(lia) ltac:(lia) ltac:(lia)) as Hr.
  unfold Processor.processWrite in E.
  destruct (Processor.readPacket P 0 w (zlen w)) as [[i|]|]; [|by injection E as <-|done].
  cbn [mbind outcome_bind] in E. symmetry in Eh. apply readBody_fields in Eh as (_ & Ht & _).
  destruct (dispatch_queues P s c a i s' n pkt' Hr E Hin Hnot Hat) as [Hq Hq0].
  split; [by rewrite Hq, Ht|done].
Qed.

(** ** Properties *)

(** C13. Flooding ends: a packet of any kind with time to live [t > 0] is
    carried over fewer than [t] hops (written by one repeater, processed and
    queued for broadcast by the next), whatever its flags and the states of the
    repeaters, and after [k] hops its time to live is [t - k]. *)
Theorem hops_bounded k pkt pkt' :
  0 < PacketBase.packet_ttl (packet_base pkt) -> nsteps hop k pkt pkt' ->
  PacketBase.packet_ttl (packet_base pkt') =
    PacketBase.packet_ttl (packet_base pkt) - Z.of_nat k /\
  Z.of_nat k < PacketBase.packet_ttl (packet_base pkt).
Proof.
  intros Htt Hn. induction Hn as [pkt|k pkt pkt1 pkt' Hhop Hn IH]; [lia|].
  destruct (hop_ttl _ _ Htt Hhop) as [Hq Hq0]. specialize (IH Hq0). lia.
Qed.

(** A fragment over two hops. *)
Definition demo_state (w : bytes) : Tracker.t :=
  match Processor.processWrite (demo_platform 1000) (Tracker.make 1) BleConnection.make 9 0 w (zlen w) with
  | Ret s => s
  | Fault _ => Tracker.make 1
  end.

Ltac check_hop :=
  first [ apply demo_platform_laws; lia
        | apply (bool_decide_unpack _); vm_compute; exact I
        | vm_compute; reflexivity ].

Lemma hops_bounded_witness :
  let q := hop_copy (hop_copy demo_fragment) in
  PacketBase.packet_ttl (PacketPassAlong.base q) =
    PacketBase.packet_ttl (PacketPassAlong.base demo_fragment) - Z.of_nat 2 /\
  Z.of_nat 2 < PacketBase.packet_ttl (PacketPassAlong.base demo_fragment).
Proof.
  intros q. apply (hops_bounded 2 (PktPassAlong demo_fragment) (PktPassAlong q)); [vm_compute; reflexivity|].
  set (n := new_node (demo_platform 1000) (Tracker.live (Tracker.make 1))).
  eapply nsteps_l; [|apply nsteps_once].
  - apply (hop_intro (demo_platform 1000) ∅ (Tracker.make 1) BleConnection.make 9 _ demo_fragment_wire
      (demo_state demo_fragment_wire) n (PktPassAlong (hop_copy demo_fragment))); check_hop.
  - set (w := wire (PacketPassAlong.base (hop_copy demo_fragment)) (PacketPassAlong.payload demo_fragment)).
    apply (hop_intro (demo_platform 1000) ∅ (Tracker.make 1) BleConnection.make 9 _ w (demo_state w) n);
      check_hop.
Defined.
