(* ===== verification/CircularBuffer.v ===== *)
(** * The log buffer

    [CircularBuffer] (CircularBuffer/CircularBuffer.h) of characters and the
    printer that drains it (CircularBuffer/Debugging.cpp).  The array has one
    slot more than [fixed_size], for a terminating zero; its initial content
    is whatever the allocation held.  The refinement theorems relate it to a
    queue that keeps the last [fixed_size - 1] characters. *)

From stdpp Require Import base numbers list.
From Stdlib Require Import ZArith Lia.
From S2P Require Import Prelude.

(** ** Array accesses *)

Definition arr_get (a : list Z) (i : Z) : outcome Z :=
  if decide (0 <= i) then
    match a !! Z.to_nat i with Some x => Ret x | None => Fault (OutOfBounds i) end
  else Fault (OutOfBounds i).

Definition arr_set (a : list Z) (i : Z) (x : Z) : outcome (list Z) :=
  if decide (0 <= i < zlen a) then Ret (<[Z.to_nat i := x]> a) else Fault (OutOfBounds i).

(** [memcpy(&dst[i], src, zlen src)] *)
Fixpoint arr_write (dst : list Z) (i : Z) (src : list Z) : outcome (list Z) :=
  match src with
  | [] => Ret dst
  | x :: src' => dst ← arr_set dst i x; arr_write dst (i + 1) src'
  end.

(** [std::strchr(&a[i], c)]: the offset of the first [c] before the zero that
    ends the string; the search may not leave the array. *)
Fixpoint strchr_from (l : list Z) (c : Z) (n : Z) : outcome (option Z) :=
  match l with
  | [] => Fault (OutOfBounds n)
  | x :: l' =>
    if x =? c then Ret (Some n) else if x =? 0 then Ret None else strchr_from l' c (n + 1)
  end.

Definition strchr (a : list Z) (i : Z) (c : Z) : outcome (option Z) :=
  if decide (0 <= i) then strchr_from (drop (Z.to_nat i) a) c 0 else Fault (OutOfBounds i).

Definition end_item : Z := 0.
Definition newline : Z := 10.

(** The characters of a C string: those before the zero. *)
Fixpoint c_string (l : list Z) : list Z :=
  match l with [] => [] | x :: l' => if x =? 0 then [] else x :: c_string l' end.

Module CircularBuffer.

Record t : Type := mk {
  buffer : list Z;
  fixed_size : Z;
  head : Z;
  tail : Z;
  maxed : bool;
  will_clear_if_empty : bool }.

(** [memory] is the content of the new array, of [size + 1] elements. *)
Definition make (memory : list Z) (size : Z) : t := mk memory size 0 0 false false.

Definition empty (b : t) : bool := head b =? tail b.

Definition full (b : t) : bool := maxed b.

(** [write(const T item)] *)
Definition write_item (b : t) (item : Z) : outcome t :=
  buf ← arr_set (buffer b) (head b) item;
  buf ← arr_set buf (head b + 1) end_item;
  let tl := if maxed b then (head b + 2) mod fixed_size b else tail b in
  let hd := (head b + 1) mod fixed_size b in
  Ret (mk buf (fixed_size b) hd tl (hd =? tl - 1) false).

(** The loop of [write(const T *items)] from index [count] on; [items] are the
    elements before the end item. *)
Fixpoint write_loop (b : t) (items : list Z) (count pos : Z) (buf : list Z) (mx : bool)
    : outcome (list Z * Z * Z * bool) :=
  match items with
  | [] => Ret (buf, count, pos, mx)
  | item :: items' =>
    let pos := (head b + count) mod fixed_size b in
    buf ← arr_set buf pos item;
    let mx :=
      if ((pos + 1) mod fixed_size b =? tail b - 1) || ((tail b =? 0) && (pos =? fixed_size b - 1))
      then true else mx in
    write_loop b items' (u16 (count + 1)) pos buf mx
  end.

(** [write(const T *items)] *)
Definition write (b : t) (items : list Z) : outcome t :=
  '(buf, count, pos, mx) ← write_loop b items 0 0 (buffer b) (maxed b);
  buf ← arr_set buf (pos + 1) end_item;
  let tl := if (mx : bool) then (head b + count + 1) mod fixed_size b else tail b in
  let hd := (head b + count) mod fixed_size b in
  Ret (mk buf (fixed_size b) hd tl (hd =? tl - 1) false).

Definition clear (b : t) : outcome t :=
  buf ← arr_set (buffer b) 0 end_item;
  Ret (mk buf (fixed_size b) 0 0 false (will_clear_if_empty b)).

(** [interrupt] is what an interrupt does to the buffer after the flag is
    raised and before it is tested. *)
Definition clear_if_empty (interrupt : t -> t) (b : t) : t :=
  let b := mk (buffer b) (fixed_size b) (head b) (tail b) (maxed b) true in
  let b := interrupt b in
  if empty b && will_clear_if_empty b
  then mk (buffer b) (fixed_size b) 0 0 false (will_clear_if_empty b) else b.

Definition consume (b : t) : outcome (t * Z) :=
  if empty b then Ret (b, 0)
  else
    to_consume ← arr_get (buffer b) (tail b);
    Ret (mk (buffer b) (fixed_size b) (head b) ((tail b + 1) mod fixed_size b) false
           (will_clear_if_empty b), to_consume).

(** [(head <= tail && !empty() ? fixed_size : head) - tail] *)
Definition consumable (b : t) : Z :=
  u16 ((if (head b <=? tail b) && negb (empty b) then fixed_size b else head b) - tail b).

(** [consume_block()]: the elements at the returned pointer, as many as the
    returned count. *)
Definition consume_block (b : t) : outcome (t * list Z) :=
  to_consume ← buf_slice (buffer b) (tail b) (consumable b);
  let tl := if (head b <=? tail b) && negb (empty b) then 0 else head b in
  Ret (mk (buffer b) (fixed_size b) (head b) tl false (will_clear_if_empty b), to_consume).

(** [consume_block(block, block_size)] of one-byte elements: the elements
    copied to [block]. *)
Definition consume_block_into (b : t) (block_size : Z) : outcome (t * list Z) :=
  let will_consume := Z.min block_size (consumable b) in
  let tl :=
    if block_size <? consumable b then (tail b + will_consume) mod fixed_size b
    else if (head b <=? tail b) && negb (empty b) then 0 else head b in
  to_consume ← buf_slice (buffer b) (tail b) will_consume;
  Ret (mk (buffer b) (fixed_size b) (head b) tl false (will_clear_if_empty b), to_consume).

(** [CircularBuffer<char>::consume_line(line, line_size)]: the array [line]
    after the call and the number of characters. *)
Definition consume_line (b : t) (line : list Z) (line_size : Z) : outcome (t * list Z * Z) :=
  let head_copy := head b in
  let tail_copy := tail b in
  let wraps := (head_copy <=? tail_copy) && negb (empty b) in
  let consumable := consumable b in
  let will_consume := Z.min line_size consumable in
  let ret tl line n := Ret (mk (buffer b) (fixed_size b) (head b) tl false (will_clear_if_empty b), line, n) in
  (* the code after the first search, at [line_extra] *)
  let finish line written_out tail_copy consumable will_consume line_end :=
    let line_extra :=
      match line_end with Some e => Z.min will_consume (u16 (e + 1)) | None => will_consume end in
    chunk ← buf_slice (buffer b) tail_copy line_extra;
    line ← arr_write line written_out chunk;
    let tl :=
      if written_out + line_extra <=? consumable then (tail_copy + line_extra) mod fixed_size b
      else if (head_copy <=? tail_copy) && negb (empty b) then
        match line_end with None => u16 (written_out + will_consume) | Some _ => line_size end
      else head_copy in
    line ← arr_set line (written_out + line_extra) 0;
    ret tl line (u16 (written_out + line_extra)) in
  line_end ← strchr (buffer b) tail_copy newline;
  match line_end with
  | Some e => finish line 0 tail_copy consumable will_consume (Some e)
  | None =>
    chunk ← buf_slice (buffer b) tail_copy will_consume;
    line ← arr_write line 0 chunk;
    let written_out := will_consume in
    if consumable =? will_consume then
      if wraps then
        line_end ← strchr (buffer b) 0 newline;
        match line_end with
        | Some e =>
          let extra := Z.min (u16 (line_size - written_out)) (u16 (e + 1)) in
          chunk ← buf_slice (buffer b) 0 extra;
          line ← arr_write line written_out chunk;
          line ← arr_set line (written_out + extra) 0;
          ret (extra mod fixed_size b) line (u16 (written_out + extra))
        | None =>
          line ← arr_set line written_out 0;
          ret 0 line (u16 written_out)
        end
      else
        line ← arr_set line written_out 0;
        ret head_copy line (u16 written_out)
    else
      let tail_copy := u16 (tail_copy + written_out) in
      let consumable := head_copy in
      let will_consume := Z.min (u16 (line_size - written_out)) consumable in
      line_end ← strchr (buffer b) tail_copy newline;
      finish line written_out tail_copy consumable will_consume line_end
  end.

(** [writeF]: [text] is what [vsnprintf] formats, and the static buffer holds
    600 characters with the zero; [write] stops at the first zero. *)
Definition writeF (asserts : bool) (b : t) (text : list Z) : outcome t :=
  _ ← c_assert asserts (zlen text <? 600);
  write b (c_string (take 599 text)).

End CircularBuffer.

(** ** Debugging.cpp *)

Definition SERIAL_LOG_BUFFER_LEN : Z := 160.

(** [serialLogBuffer(3000)] *)
Definition serialLogBuffer (memory : list Z) : CircularBuffer.t := CircularBuffer.make memory 3000.

(** [LOG_DEBUG(...)], and the macros of the other levels, in the firmware's
    build; [text] is what the arguments format to. *)
Definition LOG_DEBUG (asserts : bool) (b : CircularBuffer.t) (text : list Z)
    : outcome CircularBuffer.t := CircularBuffer.writeF asserts b text.

(** The [while] loop of [printAvailableLogging]; the printed lines are
    collected.  [fuel] bounds the iterations. *)
Fixpoint print_lines (fuel : nat) (b : CircularBuffer.t) (line : list Z) (printed : list (list Z))
    : outcome (option (CircularBuffer.t * list (list Z))) :=
  if CircularBuffer.empty b then Ret (Some (b, printed))
  else
    match fuel with
    | O => Ret None
    | S fuel =>
      '(b, line, len) ← CircularBuffer.consume_line b line (SERIAL_LOG_BUFFER_LEN - 1);
      last ← arr_get line (len - 1);
      line ← (if last =? newline then arr_set line (len - 1) 0 else arr_set line len 0);
      print_lines fuel b line (printed ++ [c_string line])
    end.

(** [printAvailableLogging()]: [line] is the static array.  The line dropped
    when the buffer is full is reported by its length only. *)
Definition printAvailableLogging (fuel : nat) (b : CircularBuffer.t) (line : list Z)
    : outcome (option (CircularBuffer.t * list (list Z))) :=
  '(b, line) ←
    (if CircularBuffer.full b then
       '(b, line, len) ← CircularBuffer.consume_line b line (SERIAL_LOG_BUFFER_LEN - 1);
       Ret (b, line)
     else Ret (b, line));
  r ← print_lines fuel b line [];
  match r with
  | Some (b, printed) => Ret (Some (CircularBuffer.clear_if_empty (fun b => b) b, printed))
  | None => Ret None
  end.

(** ** Invariant and content *)

Record buffer_ok (b : CircularBuffer.t) : Prop := {
  ok_size : 2 <= CircularBuffer.fixed_size b < 2 ^ 15;
  ok_length : zlen (CircularBuffer.buffer b) = CircularBuffer.fixed_size b + 1;
  ok_head : 0 <= CircularBuffer.head b < CircularBuffer.fixed_size b;
  ok_tail : 0 <= CircularBuffer.tail b < CircularBuffer.fixed_size b;
  ok_maxed : CircularBuffer.maxed b = (CircularBuffer.head b =? CircularBuffer.tail b - 1) }.

(** The number of characters held. *)
Definition held (b : CircularBuffer.t) : Z :=
  (CircularBuffer.head b - CircularBuffer.tail b) mod CircularBuffer.fixed_size b.

(** The characters held, oldest first. *)
Definition contents (b : CircularBuffer.t) : list Z :=
  (fun j => default 0 (CircularBuffer.buffer b !!
     Z.to_nat ((CircularBuffer.tail b + Z.of_nat j) mod CircularBuffer.fixed_size b))) <$>
  seq 0 (Z.to_nat (held b)).

(** The last [n] elements. *)
Definition last_n {A} (n : Z) (l : list A) : list A := drop (length l - Z.to_nat n) l.

Lemma mod_wrap n a k :
  0 <= a < n -> 0 <= k <= n -> (a + k) mod n = if a + k <? n then a + k else a + k - n.
Proof.
  intros Ha Hk. destruct (Z.ltb_spec (a + k) n); [by apply Z.mod_small; lia|].
  symmetry. apply (Z.mod_unique _ _ 1); lia.
Qed.

Lemma mod_diff n h t : 0 <= h < n -> 0 <= t < n -> (h - t) mod n = if t <=? h then h - t else h - t + n.
Proof.
  intros Hh Ht. destruct (Z.leb_spec t h); [by apply Z.mod_small; lia|].
  symmetry. apply (Z.mod_unique _ _ (-1)); lia.
Qed.

Lemma mod_slot_ne n a i j : 0 < n -> 0 < j - i < n -> (a + i) mod n <> (a + j) mod n.
Proof.
  intros Hn Hij E. assert ((j - i) mod n = 0) as C.
  { replace (j - i) with ((a + j) - (a + i)) by lia. rewrite Zminus_mod, E, Z.sub_diag.
    by apply Z.mod_0_l; lia. }
  rewrite Z.mod_small in C by lia. lia.
Qed.

Lemma held_range b : buffer_ok b -> 0 <= held b < CircularBuffer.fixed_size b.
Proof. intros []. unfold held. apply Z.mod_pos_bound. lia. Qed.

Lemma length_contents b : buffer_ok b -> zlen (contents b) = held b.
Proof.
  intros H. pose proof (held_range b H). unfold contents, zlen. rewrite length_fmap, length_seq. lia.
Qed.

(** A list is the content when its elements are in their slots. *)
Lemma contents_eq b L :
  buffer_ok b -> zlen L = held b ->
  (forall j x, L !! j = Some x ->
     CircularBuffer.buffer b !!
       Z.to_nat ((CircularBuffer.tail b + Z.of_nat j) mod CircularBuffer.fixed_size b) = Some x) ->
  contents b = L.
Proof.
  intros H Hl HL. pose proof (length_contents b H) as Hlen. apply list_eq_same_length with (n := length L);
    [done|unfold zlen in *; lia|].
  intros j x y Hj Hx Hy. unfold contents in Hx. rewrite list_lookup_fmap in Hx.
  rewrite lookup_seq_lt in Hx by (unfold zlen in *; lia). cbn in Hx.
  rewrite (HL j y Hy) in Hx. cbn in Hx. congruence.
Qed.

Lemma contents_lookup b j x :
  buffer_ok b -> contents b !! j = Some x ->
  CircularBuffer.buffer b !!
    Z.to_nat ((CircularBuffer.tail b + Z.of_nat j) mod CircularBuffer.fixed_size b) = Some x.
Proof.
  intros H Hx. unfold contents in Hx. rewrite list_lookup_fmap in Hx.
  destruct (seq 0 (Z.to_nat (held b)) !! j) as [i|] eqn:E; [|done].
  apply lookup_seq in E as [-> Hj]. cbn in Hx. destruct H.
  assert (0 <= (CircularBuffer.tail b + Z.of_nat j) mod CircularBuffer.fixed_size b <
    CircularBuffer.fixed_size b) by (apply Z.mod_pos_bound; lia).
  destruct (lookup_lt_is_Some_2 (CircularBuffer.buffer b)
    (Z.to_nat ((CircularBuffer.tail b + Z.of_nat j) mod CircularBuffer.fixed_size b))) as [y Hy];
    [unfold zlen in *; lia|].
  rewrite Hy in Hx |- *. done.
Qed.

(** ** Writing *)

Lemma arr_set_ok a i x : 0 <= i < zlen a -> arr_set a i x = Ret (<[Z.to_nat i := x]> a).
Proof. intros Hi. unfold arr_set. by rewrite decide_True. Qed.

Lemma zlen_insert (a : list Z) i x : zlen (<[i := x]> a) = zlen a.
Proof. unfold zlen. by rewrite length_insert. Qed.

Section writing.
Context (b : CircularBuffer.t) (Hb : buffer_ok b).
Abbreviation size := (CircularBuffer.fixed_size b).
Abbreviation hd := (CircularBuffer.head b).
Abbreviation tl := (CircularBuffer.tail b).

(** The last [size] elements of the characters written since [tl] are in
    their slots. *)
Definition stored (buf L : list Z) : Prop :=
  zlen buf = size + 1 /\
  forall j x, zlen L - size <= Z.of_nat j -> L !! j = Some x ->
    buf !! Z.to_nat ((tl + Z.of_nat j) mod size) = Some x.

(** What the flag says of the number of characters since [tl]. *)
Definition flagged (mx : bool) (n : Z) : Prop :=
  if mx then size - 1 <= n else n <= (if tl =? 0 then size - 1 else size - 2).

Lemma slot_range i : 0 <= i mod size < size.
Proof. destruct Hb. apply Z.mod_pos_bound. lia. Qed.

Lemma stored_push buf L x :
  stored buf L -> stored (<[Z.to_nat ((tl + zlen L) mod size) := x]> buf) (L ++ [x]).
Proof.
  intros [Hl HL]. split; [by rewrite zlen_insert|]. intros j y Hj Hy.
  pose proof (slot_range (tl + zlen L)) as Hs. rewrite zlen_app in Hj. change (zlen [x]) with 1 in Hj.
  destruct (decide (j = length L)) as [->|Hne].
  - rewrite list_lookup_middle in Hy by done. 
    change (Z.of_nat (length L)) with (zlen L).
    rewrite list_lookup_insert_eq; [done|]. unfold zlen in Hl. lia.
  - apply lookup_app_Some in Hy as [Hy|[? Hy]];
      [|apply list_lookup_singleton_Some in Hy as [? _]; lia].
    assert (j < length L)%nat by by eapply lookup_lt_Some.
    pose proof (slot_range (tl + Z.of_nat j)) as Hs'.
    rewrite list_lookup_insert_ne; [apply HL; [lia|done]|].
    intros E. apply (mod_slot_ne size tl (Z.of_nat j) (zlen L)); [lia|unfold zlen in *; lia|lia].
Qed.

Lemma flagged_push mx n :
  0 <= n -> flagged mx n ->
  flagged (if ((tl + n) mod size + 1) mod size =? tl - 1 then true
           else if (tl =? 0) && ((tl + n) mod size =? size - 1) then true else mx) (n + 1).
Proof.
  intros Hn Hf. destruct Hb as [Hsz _ _ Htl _]. unfold flagged in *. destruct mx.
  { destruct (_ =? tl - 1); [lia|]. destruct (_ && _); lia. }
  assert (n <= size - 1) as Hn' by (destruct (tl =? 0); lia).
  rewrite Zplus_mod_idemp_l, <- Z.add_assoc. rewrite (mod_wrap size tl (n + 1)) by lia.
  rewrite (mod_wrap size tl n) by lia. revert Hf.
  destruct (Z.ltb_spec (tl + (n + 1)) size), (Z.ltb_spec (tl + n) size), (tl =? 0) eqn:E0;
    cbn [andb];
    repeat match goal with |- context [if ?c then _ else _] => destruct c eqn:? end;
    repeat match goal with E : context [if ?c then _ else _] |- _ => destruct c eqn:? end; lia.
Qed.

Lemma write_loop_spec items : forall count pos buf L mx,
  stored buf L -> flagged mx (zlen L) -> (tl + zlen L) mod size = (hd + count) mod size ->
  0 <= count -> count + zlen items < 2 ^ 16 ->
  exists buf' mx',
    CircularBuffer.write_loop b items count pos buf mx =
      Ret (buf', count + zlen items,
           match items with [] => pos | _ => (hd + count + zlen items - 1) mod size end, mx') /\
    stored buf' (L ++ items) /\ flagged mx' (zlen (L ++ items)).
Proof.
  induction items as [|x items IH]; intros count pos buf L mx Hst Hfl Hpos Hc Hlen.
  { exists buf, mx. rewrite app_nil_r, zlen_nil, Z.add_0_r. done. }
  cbn [CircularBuffer.write_loop]. rewrite zlen_cons in Hlen |- *.
  pose proof (zlen_nonneg items). pose proof (zlen_nonneg L).
  rewrite <- Hpos. pose proof (slot_range (tl + zlen L)) as Hs. pose proof (proj1 Hst) as Hbl.
  rewrite arr_set_ok by lia. cbn [mbind outcome_bind]. rewrite u16_small by lia.
  pose proof (flagged_push mx (zlen L) ltac:(lia) Hfl) as Hfl'.
  set (mx' := if _ || _ then true else mx).
  replace (if ((tl + zlen L) mod size + 1) mod size =? tl - 1 then true
           else if (tl =? 0) && ((tl + zlen L) mod size =? size - 1) then true else mx)
    with mx' in Hfl' by (unfold mx'; destruct (_ =? tl - 1), (_ && _); done).
  assert (zlen (L ++ [x]) = zlen L + 1) as HL1 by (rewrite zlen_app; done).
  destruct (IH (count + 1) ((tl + zlen L) mod size)
    (<[Z.to_nat ((tl + zlen L) mod size) := x]> buf) (L ++ [x]) mx') as (buf2 & mx2 & E & Hst2 & Hfl2);
    [by apply stored_push|by rewrite HL1| |lia|lia|].
  { rewrite HL1, Z.add_assoc, <- Zplus_mod_idemp_l, Hpos, Zplus_mod_idemp_l. f_equal. lia. }
  exists buf2, mx2. rewrite E. rewrite <- app_assoc in Hst2, Hfl2. split; [|done].
  do 4 f_equal; [lia|]. destruct items as [|y items'].
  - rewrite zlen_nil. rewrite Hpos. f_equal. lia.
  - f_equal. lia.
Qed.

Lemma stored_contents : stored (CircularBuffer.buffer b) (contents b).
Proof. split; [by destruct Hb|]. intros j x _ Hx. by apply contents_lookup. Qed.

Lemma flagged_contents : flagged (CircularBuffer.maxed b) (held b).
Proof.
  destruct Hb as [Hsz _ Hh Ht ->]. unfold flagged, held. rewrite mod_diff by done.
  destruct (hd =? tl - 1) eqn:E, (tl =? 0) eqn:E0, (tl <=? hd) eqn:E1; lia.
Qed.

(** The buffer after its head moved to [tl + zlen L] and its tail, when the
    flag is set, to one past it. *)
Lemma written_ok L buf mx :
  L <> [] -> stored buf L -> flagged mx (zlen L) ->
  let tl' := if mx then (tl + zlen L + 1) mod size else tl in
  let hd' := (tl + zlen L) mod size in
  let b' := CircularBuffer.mk (<[Z.to_nat ((tl + zlen L - 1) mod size + 1) := end_item]> buf) size
              hd' tl' (hd' =? tl' - 1) false in
  buffer_ok b' /\ contents b' = last_n (size - 1) L.
Proof.
  intros HL [Hbl Hst] Hfl tl' hd' b'. destruct Hb as [Hsz Hlen Hh Ht _].
  assert (1 <= zlen L) as HL1 by (destruct L; [done|rewrite zlen_cons; pose proof (zlen_nonneg L); lia]).
  assert (buffer_ok b') as Hb'.
  { split; cbn; try done.
    - by rewrite zlen_insert.
    - apply slot_range.
    - unfold tl'. destruct mx; [apply slot_range|done]. }
  split; [done|]. apply contents_eq; [done| |].
  - unfold held. cbn. unfold last_n, zlen. rewrite length_drop. unfold hd', tl', flagged in *.
    destruct mx.
    + rewrite Zminus_mod_idemp_l, Zminus_mod_idemp_r.
      replace (tl + zlen L - (tl + zlen L + 1)) with (-1) by lia.
      rewrite <- (Z.mod_unique (-1) size (-1) (size - 1)) by lia. unfold zlen in *. lia.
    + assert (zlen L < size) by (destruct (tl =? 0); lia).
      rewrite Zminus_mod_idemp_l. replace (tl + zlen L - tl) with (zlen L) by lia.
      rewrite Z.mod_small by lia. unfold zlen in *. lia.
  - intros j x Hx. unfold last_n in Hx. rewrite lookup_drop in Hx. cbn.
    pose proof (lookup_lt_Some _ _ _ Hx) as Hlt.
    set (i := (length L - Z.to_nat (size - 1) + j)%nat) in *.
    assert ((tl' + Z.of_nat j) mod size = (tl + Z.of_nat i) mod size) as ->.
    { unfold tl', flagged in *. destruct mx.
      - rewrite Zplus_mod_idemp_l. unfold zlen in *.
        replace (tl + Z.of_nat i) with (tl + Z.of_nat (length L) + 1 + Z.of_nat j + (-1) * size) by lia.
        by rewrite Z_mod_plus_full.
      - do 2 f_equal. assert (zlen L < size) by (destruct (tl =? 0); lia). unfold zlen in *. lia. }
    pose proof (slot_range (tl + Z.of_nat i)) as Hr. pose proof (slot_range (tl + zlen L - 1)) as Hr'.
    rewrite list_lookup_insert_ne; [apply Hst; [unfold zlen; lia|done]|]. intros E.
    destruct (decide ((tl + zlen L - 1) mod size = size - 1)) as [E1|E1]; [lia|].
    assert ((tl + zlen L) mod size = (tl + zlen L - 1) mod size + 1) as E2.
    { replace (tl + zlen L) with (tl + zlen L - 1 + 1) at 1 by lia.
      rewrite <- Zplus_mod_idemp_l. apply Z.mod_small. lia. }
    apply (mod_slot_ne size tl (Z.of_nat i) (zlen L)); [lia|unfold zlen; lia|]. lia.
Qed.

End writing.

Lemma write_contents b items :
  buffer_ok b -> items <> [] -> zlen items < 2 ^ 15 ->
  exists b', CircularBuffer.write b items = Ret b' /\ buffer_ok b' /\
    CircularBuffer.fixed_size b' = CircularBuffer.fixed_size b /\
    contents b' = last_n (CircularBuffer.fixed_size b - 1) (contents b ++ items).
Proof.
  intros H Hne Hl. pose proof (flagged_contents b H) as Hf. pose proof H as [Hsz Hlen Hh Ht Hm].
  rewrite <- length_contents in Hf by done.
  assert ((CircularBuffer.tail b + zlen (contents b)) mod CircularBuffer.fixed_size b =
          CircularBuffer.head b) as Hp.
  { rewrite length_contents by done. unfold held. rewrite Zplus_mod_idemp_r.
    replace (CircularBuffer.tail b + (CircularBuffer.head b - CircularBuffer.tail b))
      with (CircularBuffer.head b) by lia. by apply Z.mod_small. }
  pose proof (zlen_nonneg items).
  destruct (write_loop_spec b H items 0 0 (CircularBuffer.buffer b) (contents b)
    (CircularBuffer.maxed b)) as (buf & mx & E & Hst & Hfl); try lia; try done.
  { by apply stored_contents. }
  { rewrite Hp, Z.add_0_r. symmetry. by apply Z.mod_small. }
  unfold CircularBuffer.write. rewrite E. cbn [mbind outcome_bind].
  set (L := contents b ++ items) in *.
  assert (forall k, (CircularBuffer.head b + k) mod CircularBuffer.fixed_size b =
    (CircularBuffer.tail b + zlen (contents b) + k) mod CircularBuffer.fixed_size b) as Hk
    by (intros k; by rewrite <- Hp, Zplus_mod_idemp_l).
  assert (zlen L = zlen (contents b) + zlen items) as HzL by (unfold L; by rewrite zlen_app).
  assert (match items with [] => 0
          | _ :: _ => (CircularBuffer.head b + 0 + zlen items - 1) mod CircularBuffer.fixed_size b end =
          (CircularBuffer.tail b + zlen L - 1) mod CircularBuffer.fixed_size b) as Hpos.
  { destruct items as [|x items']; [done|].
    replace (CircularBuffer.head b + 0 + zlen (x :: items') - 1)
      with (CircularBuffer.head b + (zlen (x :: items') - 1)) by lia.
    rewrite Hk. f_equal. lia. }
  rewrite Hpos. pose proof (slot_range b H (CircularBuffer.tail b + zlen L - 1)).
  rewrite arr_set_ok by (rewrite (proj1 Hst); lia). cbn [mbind outcome_bind].
  destruct (written_ok b H L buf mx) as [Hok Hc]; [unfold L; by destruct (contents b)|done..|].
  assert ((CircularBuffer.head b + (0 + zlen items)) mod CircularBuffer.fixed_size b =
          (CircularBuffer.tail b + zlen L) mod CircularBuffer.fixed_size b) as Hhd
    by (rewrite Hk; f_equal; lia).
  assert ((CircularBuffer.head b + (0 + zlen items) + 1) mod CircularBuffer.fixed_size b =
          (CircularBuffer.tail b + zlen L + 1) mod CircularBuffer.fixed_size b) as Htl
    by (rewrite <- Z.add_assoc, Hk; f_equal; lia).
  rewrite Hhd, Htl. eexists. split; [done|]. split; [exact Hok|]. split; [done|exact Hc].
Qed.

(** ** Reading *)

Lemma contents_cons b :
  buffer_ok b -> CircularBuffer.empty b = false ->
  exists x, CircularBuffer.consume b =
    Ret (CircularBuffer.mk (CircularBuffer.buffer b) (CircularBuffer.fixed_size b)
           (CircularBuffer.head b) ((CircularBuffer.tail b + 1) mod CircularBuffer.fixed_size b) false
           (CircularBuffer.will_clear_if_empty b), x) /\
    CircularBuffer.buffer b !! Z.to_nat (CircularBuffer.tail b) = Some x.
Proof.
  intros [] He. unfold CircularBuffer.consume. rewrite He. unfold arr_get.
  rewrite decide_True by lia.
  destruct (lookup_lt_is_Some_2 (CircularBuffer.buffer b) (Z.to_nat (CircularBuffer.tail b)))
    as [x Hx]; [unfold zlen in *; lia|]. rewrite Hx. eauto.
Qed.

(** The tail moves over [n] held characters. *)
Lemma contents_advance b n mx w :
  buffer_ok b -> 0 <= n <= held b -> mx = (CircularBuffer.head b =?
    (CircularBuffer.tail b + n) mod CircularBuffer.fixed_size b - 1) ->
  let b' := CircularBuffer.mk (CircularBuffer.buffer b) (CircularBuffer.fixed_size b)
    (CircularBuffer.head b) ((CircularBuffer.tail b + n) mod CircularBuffer.fixed_size b) mx w in
  buffer_ok b' /\ contents b' = drop (Z.to_nat n) (contents b).
Proof.
  intros H Hn Hmx b'. pose proof (held_range b H) as Hr. pose proof (length_contents b H) as Hl.
  pose proof (slot_range b H (CircularBuffer.tail b + n)) as Hs. pose proof H as [Hsz Hlen Hh Ht Hm].
  assert (buffer_ok b') as Hb' by (split; cbn; done).
  split; [done|]. apply contents_eq; [done| |].
  - unfold zlen in *. rewrite length_drop. unfold held. cbn. rewrite Zminus_mod_idemp_r.
    replace (CircularBuffer.head b - (CircularBuffer.tail b + n))
      with (CircularBuffer.head b - CircularBuffer.tail b - n) by lia.
    rewrite <- Zminus_mod_idemp_l. fold (held b). rewrite Z.mod_small by lia. lia.
  - intros j x Hx. rewrite lookup_drop in Hx. apply contents_lookup in Hx; [|done].
    cbn. rewrite Zplus_mod_idemp_l.
    replace (CircularBuffer.tail b + n + Z.of_nat j)
      with (CircularBuffer.tail b + Z.of_nat (Z.to_nat n + j)) by lia. done.
Qed.

(** After characters were taken the buffer is not full. *)
Lemma advance_not_full b n :
  buffer_ok b -> 0 < n <= held b ->
  false = (CircularBuffer.head b =?
    (CircularBuffer.tail b + n) mod CircularBuffer.fixed_size b - 1).
Proof.
  intros H Hn. pose proof (held_range b H) as Hr. destruct H as [Hsz _ Hh Ht _].
  unfold held in *. rewrite mod_diff in Hn by done. rewrite mod_wrap;
    [|done|destruct (Z.leb_spec (CircularBuffer.tail b) (CircularBuffer.head b)); lia].
  destruct (Z.leb_spec (CircularBuffer.tail b) (CircularBuffer.head b)),
    (Z.ltb_spec (CircularBuffer.tail b + n) (CircularBuffer.fixed_size b)); lia.
Qed.

Lemma slice_contents b n :
  buffer_ok b -> 0 <= n <= held b -> CircularBuffer.tail b + n <= CircularBuffer.fixed_size b ->
  buf_slice (CircularBuffer.buffer b) (CircularBuffer.tail b) n = Ret (take (Z.to_nat n) (contents b)).
Proof.
  intros H Hn Hsz'. pose proof H as [Hsz Hlen Hh Ht _]. pose proof (length_contents b H) as Hl.
  unfold buf_slice. rewrite decide_True by lia. f_equal.
  apply list_eq_same_length with (n := Z.to_nat n);
    [rewrite length_take; unfold zlen in *; lia|rewrite length_take, length_drop; unfold zlen in *; lia|].
  intros j x y Hj Hx Hy. rewrite lookup_take_lt, lookup_drop in Hx by lia.
  rewrite lookup_take_lt in Hy by lia. apply contents_lookup in Hy; [|done].
  rewrite Z.mod_small in Hy by lia.
  replace (Z.to_nat (CircularBuffer.tail b + Z.of_nat j))
    with (Z.to_nat (CircularBuffer.tail b) + j)%nat in Hy by lia. congruence.
Qed.

Lemma empty_held b : buffer_ok b -> CircularBuffer.empty b = (held b =? 0).
Proof.
  intros []. unfold CircularBuffer.empty, held. rewrite mod_diff by done.
  destruct (Z.leb_spec (CircularBuffer.tail b) (CircularBuffer.head b)); lia.
Qed.

Lemma consumable_held b :
  buffer_ok b ->
  CircularBuffer.consumable b =
    Z.min (held b) (CircularBuffer.fixed_size b - CircularBuffer.tail b).
Proof.
  intros H. unfold CircularBuffer.consumable. rewrite empty_held by done.
  destruct H as [Hsz _ Hh Ht _]. unfold held. rewrite mod_diff by done.
  destruct (Z.leb_spec (CircularBuffer.tail b) (CircularBuffer.head b)) as [E|E],
    (Z.leb_spec (CircularBuffer.head b) (CircularBuffer.tail b)) as [F|F];
    destruct (_ =? 0) eqn:G; cbn [negb andb]; rewrite u16_small by lia; lia.
Qed.

(** The tail after a whole block was taken. *)
Lemma block_tail b :
  buffer_ok b ->
  (if (CircularBuffer.head b <=? CircularBuffer.tail b) && negb (CircularBuffer.empty b)
   then 0 else CircularBuffer.head b) =
  (CircularBuffer.tail b + CircularBuffer.consumable b) mod CircularBuffer.fixed_size b.
Proof.
  intros H. rewrite consumable_held, empty_held by done.
  destruct H as [Hsz _ Hh Ht _]. unfold held. rewrite mod_diff by done.
  destruct (Z.leb_spec (CircularBuffer.tail b) (CircularBuffer.head b)) as [E|E],
    (Z.leb_spec (CircularBuffer.head b) (CircularBuffer.tail b)) as [F|F];
    destruct (_ =? 0) eqn:G; cbn [negb andb]; rewrite mod_wrap by lia;
    match goal with |- context [if ?c then _ else _] => destruct c eqn:? end; lia.
Qed.

(** ** Properties *)

(** A buffer of eight characters holding ["efgh"] across the end of the array. *)
Definition demo_buffer : CircularBuffer.t :=
  CircularBuffer.mk [103; 104; 0; 99; 100; 0; 101; 102; 0] 8 2 6 false false.

Lemma demo_buffer_ok : buffer_ok demo_buffer.
Proof. split; cbn; lia || reflexivity. Qed.

(** C20. Writing refines a bounded queue: writing a non-empty string never
    leaves the array, and afterwards the buffer holds the last
    [fixed_size - 1] characters of what it held followed by the string. *)
Theorem write_refines b items :
  buffer_ok b -> items <> [] -> zlen items < 2 ^ 15 ->
  exists b', CircularBuffer.write b items = Ret b' /\ buffer_ok b' /\
    CircularBuffer.fixed_size b' = CircularBuffer.fixed_size b /\
    contents b' = last_n (CircularBuffer.fixed_size b - 1) (contents b ++ items).
Proof. apply write_contents. Qed.

Lemma write_refines_witness :
  exists b', CircularBuffer.write demo_buffer [105; 106; 107; 108; 109] = Ret b' /\ buffer_ok b' /\
    CircularBuffer.fixed_size b' = 8 /\ contents b' = [103; 104; 105; 106; 107; 108; 109].
Proof.
  apply (write_refines demo_buffer [105; 106; 107; 108; 109]);
    [exact demo_buffer_ok|discriminate|vm_compute; reflexivity].
Defined.

(** Reading one character takes the oldest one off the queue, and a
    default character from an empty buffer, which it leaves as it was. *)
Theorem consume_refines b :
  buffer_ok b ->
  exists b' x, CircularBuffer.consume b = Ret (b', x) /\ buffer_ok b' /\
    match contents b with
    | [] => x = 0 /\ b' = b
    | y :: rest => x = y /\ contents b' = rest
    end.
Proof.
  intros H. destruct (CircularBuffer.empty b) eqn:He.
  - exists b, 0. unfold CircularBuffer.consume. rewrite He. split; [done|]. split; [done|].
    rewrite empty_held in He by done. pose proof (length_contents b H) as Hl.
    destruct (contents b); [done|]. rewrite zlen_cons in Hl. pose proof (zlen_nonneg l). lia.
  - destruct (contents_cons b H He) as (x & -> & Hx). rewrite empty_held in He by done.
    pose proof (held_range b H). pose proof (length_contents b H) as Hl.
    destruct (contents_advance b 1 false (CircularBuffer.will_clear_if_empty b)) as [Hok Hc];
      [done|lia|apply advance_not_full; [done|lia]|].
    eexists _, x. split; [done|]. split; [exact Hok|]. rewrite Hc.
    destruct (contents b) as [|y rest] eqn:E; [change (zlen (@nil Z)) with 0 in Hl; lia|].
    split; [|done]. assert (contents b !! 0%nat = Some y) as Hy by by rewrite E.
    apply contents_lookup in Hy; [|done]. destruct H.
    rewrite Z.add_0_r, Z.mod_small in Hy by lia. congruence.
Qed.

Lemma consume_refines_witness :
  exists b' x, CircularBuffer.consume demo_buffer = Ret (b', x) /\ buffer_ok b' /\
    x = 101 /\ contents b' = [102; 103; 104].
Proof. exact (consume_refines demo_buffer demo_buffer_ok). Defined.

(** Reading a block copies a prefix of the queue, as long as the block and
    the contiguous part of the array allow, and leaves the rest queued. *)
Theorem consume_block_refines b block_size :
  buffer_ok b -> 0 < block_size -> CircularBuffer.empty b = false ->
  exists b' block, CircularBuffer.consume_block_into b block_size = Ret (b', block) /\
    buffer_ok b' /\ contents b = block ++ contents b' /\ 0 < zlen block <= block_size.
Proof.
  intros H Hbs He. rewrite empty_held in He by done. pose proof (held_range b H) as Hh.
  pose proof (consumable_held b H) as Hc. pose proof (length_contents b H) as Hl.
  pose proof (ok_tail b H) as Ht.
  set (n := Z.min block_size (CircularBuffer.consumable b)).
  assert (0 < n <= held b) as Hn by lia.
  destruct (contents_advance b n false (CircularBuffer.will_clear_if_empty b)) as [Hok Hcon];
    [done|lia|by apply advance_not_full|].
  exists (CircularBuffer.mk (CircularBuffer.buffer b) (CircularBuffer.fixed_size b)
    (CircularBuffer.head b) ((CircularBuffer.tail b + n) mod CircularBuffer.fixed_size b) false
    (CircularBuffer.will_clear_if_empty b)), (take (Z.to_nat n) (contents b)).
  split; [|split; [done|split]].
  - unfold CircularBuffer.consume_block_into. cbv zeta. fold n.
    rewrite slice_contents by (done || lia). cbn [mbind outcome_bind]. do 3 f_equal.
    destruct (Z.ltb_spec block_size (CircularBuffer.consumable b)); [done|].
    rewrite block_tail by done. do 2 f_equal. lia.
  - rewrite Hcon. by rewrite take_drop.
  - rewrite zlen_take by lia. lia.
Qed.

Lemma consume_block_refines_witness :
  exists b' block, CircularBuffer.consume_block_into demo_buffer 3 = Ret (b', block) /\
    buffer_ok b' /\ contents demo_buffer = block ++ contents b' /\ 0 < zlen block <= 3.
Proof.
  apply (consume_block_refines demo_buffer 3); [exact demo_buffer_ok|lia|reflexivity].
Defined.

(** [clear_if_empty] loses no write of an interrupt: a string that an
    interrupt writes after the flag was raised is in the buffer afterwards,
    although the buffer was empty. *)
Theorem clear_if_empty_keeps_interrupt_write b items b1 :
  buffer_ok b -> contents b = [] -> items <> [] ->
  zlen items < CircularBuffer.fixed_size b ->
  CircularBuffer.write (CircularBuffer.mk (CircularBuffer.buffer b) (CircularBuffer.fixed_size b)
    (CircularBuffer.head b) (CircularBuffer.tail b) (CircularBuffer.maxed b) true) items = Ret b1 ->
  contents (CircularBuffer.clear_if_empty (fun _ => b1) b) = items.
Proof.
  intros H Hc Hne Hl Hw.
  set (b0 := CircularBuffer.mk (CircularBuffer.buffer b) _ _ _ _ true) in Hw.
  assert (buffer_ok b0) as H0 by (destruct H; split; done).
  destruct (write_contents b0 items H0 Hne) as (b1' & E & H1 & _ & Hc1);
    [pose proof (ok_size b H); lia|].
  rewrite Hw in E. simplify_eq. change (contents b0) with (contents b) in Hc1.
  rewrite Hc in Hc1. cbn [app] in Hc1. unfold CircularBuffer.clear_if_empty.
  assert (CircularBuffer.will_clear_if_empty b1' = false) as ->.
  { unfold CircularBuffer.write in Hw. destruct (CircularBuffer.write_loop _ _ _ _ _ _) as [[[[]]]|];
      [|done]. cbn [mbind outcome_bind] in Hw. destruct (arr_set _ _ _); [|done].
    cbn [mbind outcome_bind] in Hw. by simplify_eq. }
  rewrite andb_false_r, Hc1. unfold last_n. cbn in *.
  replace (length items - _)%nat with 0%nat by (unfold zlen in *; lia). done.
Qed.

Definition demo_drained : CircularBuffer.t :=
  CircularBuffer.mk [103; 104; 0; 99; 100; 0; 101; 102; 0] 8 6 6 false false.

Lemma clear_if_empty_keeps_interrupt_write_witness :
  contents (CircularBuffer.clear_if_empty
    (fun _ => CircularBuffer.mk [99; 0; 0; 99; 100; 0; 97; 98; 0] 8 1 6 false false) demo_drained) =
    [97; 98; 99].
Proof.
  apply (clear_if_empty_keeps_interrupt_write demo_drained [97; 98; 99]);
    [split; cbn; lia || reflexivity|reflexivity|discriminate|vm_compute; reflexivity|
     vm_compute; reflexivity].
Defined.

(** Writing single characters loses the log: with the tail at the start
    of the array the full buffer is not recognised, and the character that
    fills the last slot makes the buffer look empty, dropping everything. *)
Theorem write_item_wraps_to_empty b x :
  buffer_ok b -> CircularBuffer.tail b = 0 ->
  CircularBuffer.head b = CircularBuffer.fixed_size b - 1 ->
  exists b', CircularBuffer.write_item b x = Ret b' /\
    held b = CircularBuffer.fixed_size b - 1 /\ contents b' = [] /\
    CircularBuffer.empty b' = true.
Proof.
  intros H Ht Hh. pose proof H as [Hsz Hlen _ _ Hm]. unfold CircularBuffer.write_item.
  rewrite arr_set_ok by lia. cbn [mbind outcome_bind]. rewrite arr_set_ok by (rewrite zlen_insert; lia).
  cbn [mbind outcome_bind]. rewrite Hm, Ht, Hh.
  replace (CircularBuffer.fixed_size b - 1 =? 0 - 1) with false by lia.
  replace (CircularBuffer.fixed_size b - 1 + 1) with (CircularBuffer.fixed_size b) by lia.
  rewrite Z_mod_same_full. eexists. split; [done|]. split.
  - unfold held. rewrite Ht, Hh, Z.sub_0_r. apply Z.mod_small. lia.
  - unfold contents, held. cbn. by rewrite Z.mod_0_l by lia.
Qed.

Lemma write_item_wraps_to_empty_witness :
  let b := CircularBuffer.mk [97; 98; 99; 0; 0] 4 3 0 false false in
  exists b', CircularBuffer.write_item b 100 = Ret b' /\ held b = 3 /\ contents b' = [] /\
    CircularBuffer.empty b' = true.
Proof.
  intros b. apply (write_item_wraps_to_empty b 100);
    [split; cbn; lia || reflexivity|reflexivity|reflexivity].
Defined.

(** Writing the empty string overwrites the second slot of the array with
    a zero wherever the content is: a character of the log is lost. *)
Lemma write_empty_string_zeroes_slot b :
  buffer_ok b -> CircularBuffer.maxed b = false ->
  exists b', CircularBuffer.write b [] = Ret b' /\
    CircularBuffer.head b' = CircularBuffer.head b /\ CircularBuffer.tail b' = CircularBuffer.tail b /\
    CircularBuffer.buffer b' = <[1%nat := 0]> (CircularBuffer.buffer b).
Proof.
  intros [] Hm. unfold CircularBuffer.write. cbn [CircularBuffer.write_loop mbind outcome_bind].
  rewrite Hm. rewrite arr_set_ok by lia. cbn [mbind outcome_bind]. eexists. split; [done|]. cbn.
  split; [|done]. rewrite Z.add_0_r. by apply Z.mod_small.
Qed.

(** The model on the text of the repository's line test: two lines, read one
    by one. *)
Definition demo_log : outcome (option (CircularBuffer.t * list (list Z))) :=
  b ← CircularBuffer.write (CircularBuffer.make (replicate 21 0) 20) [97; 98; 10; 99; 100; 10];
  printAvailableLogging 10 b (replicate 160 0).

Example demo_log_lines :
  match demo_log with Ret (Some (_, l)) => l = [[97; 98]; [99; 100]] | _ => False end.
Proof. vm_compute. reflexivity. Qed.
