(* ===== verification/LogLines.v ===== *)
(** * Printing the log

    What [consume_line] (CircularBuffer/CircularBuffer.h) and the loop of
    [printAvailableLogging] (CircularBuffer/Debugging.cpp) make of the text
    logged since the ring was last drained.  A reference definition [chop]
    cuts a text at newlines and at the width of the line array; the printer
    equals it as long as the text does not cross the end of the array.  Across
    the end it can run for ever. *)

From stdpp Require Import base numbers list.
From Stdlib Require Import ZArith Lia.
From S2P Require Import Prelude CircularBuffer.

(** ** The reference: a text cut into lines *)

(** The lines of a text: a line ends at a newline, which is not part of it, or
    when it is [width] characters long; [cur] is the line read so far. *)
Fixpoint chop (width : nat) (cur text : list Z) : list (list Z) :=
  match text with
  | [] => match cur with [] => [] | _ => [cur] end
  | x :: text' =>
    if x =? newline then cur :: chop width [] text'
    else if decide (S (length cur) = width) then (cur ++ [x]) :: chop width [] text'
    else chop width (cur ++ [x]) text'
  end.

(** How many characters the first line takes up, its newline included. *)
Fixpoint line_len (width : nat) (text : list Z) : nat :=
  match width, text with
  | S w, x :: text' => if x =? newline then 1 else S (line_len w text')
  | _, _ => 0
  end.

(** The first [n] characters without a newline at their end. *)
Definition stripped (n : nat) (text : list Z) : list Z :=
  match text !! pred n with
  | Some x => if x =? newline then take (pred n) text else take n text
  | None => take n text
  end.

Lemma line_len_le width text : (line_len width text <= length text)%nat.
Proof.
  revert text. induction width as [|w IH]; intros [|x text]; cbn; try lia.
  destruct (x =? newline); cbn; [lia|]. specialize (IH text). lia.
Qed.

Lemma line_len_pos width x text : (0 < width)%nat -> (0 < line_len width (x :: text))%nat.
Proof. destruct width; [lia|]. cbn. destruct (x =? newline); lia. Qed.

(** Peeling the first line off a text. *)
Lemma chop_cons width text : forall cur w,
  w = (width - length cur)%nat -> (length cur < width)%nat -> text <> [] ->
  let n := line_len w text in
  chop width cur text = (cur ++ stripped n text) :: chop width [] (drop n text).
Proof.
  induction text as [|x text IH]; intros cur w -> Hw Hne; [done|].
  destruct (width - length cur)%nat as [|w] eqn:Ew; [lia|]. cbn [chop line_len].
  destruct (x =? newline) eqn:Ex.
  { unfold stripped. cbn. by rewrite Ex, app_nil_r. }
  case_decide as Hd.
  { assert (w = 0%nat) as -> by lia. unfold stripped. destruct text; cbn; rewrite Ex; done. }
  destruct text as [|y text'].
  { unfold stripped. destruct w; cbn; rewrite Ex; cbn; by destruct cur. }
  rewrite (IH (cur ++ [x]) w) by (rewrite ?length_app; cbn; lia || done).
  pose proof (line_len_pos w y text' ltac:(lia)) as Hp.
  set (t := y :: text') in *. destruct (line_len w t) as [|m] eqn:Em; [lia|].
  unfold stripped. cbn [pred]. rewrite <- app_assoc. cbn [app lookup list_lookup drop].
  destruct (t !! m) as [z|] eqn:Ez; [destruct (z =? newline)|]; done.
Qed.

(** A line that fits is one line of the text. *)
Lemma chop_line width l rest : forall cur,
  newline ∉ l -> (length cur + length l < width)%nat ->
  chop width cur (l ++ newline :: rest) = (cur ++ l) :: chop width [] rest.
Proof.
  induction l as [|x l IH]; intros cur Hn Hw; cbn [app chop length] in *.
  { by rewrite Z.eqb_refl, app_nil_r. }
  rewrite not_elem_of_cons in Hn. destruct Hn as [Hx Hn].
  rewrite (proj2 (Z.eqb_neq x newline)) by congruence. rewrite decide_False by lia.
  rewrite IH by (done || (rewrite length_app; cbn; lia)). by rewrite <- app_assoc.
Qed.

(** ** Searching for the end of the line *)

Definition no_zero (l : list Z) : Prop := Forall (fun x => x <> 0) l.

Lemma strchr_from_text text rest : forall k,
  no_zero text ->
  exists r, strchr_from (text ++ 0 :: rest) newline k = Ret r /\
    match r with
    | Some e => k <= e < k + zlen text /\
        forall w, line_len w text = Nat.min w (Z.to_nat (e - k + 1))
    | None => forall w, line_len w text = Nat.min w (length text)
    end.
Proof.
  induction text as [|x text IH]; intros k Hz; cbn [app strchr_from].
  { exists None. split; [done|]. intros []; cbn; lia. }
  apply Forall_cons in Hz as [Hx Hz]. destruct (x =? newline) eqn:Ex.
  { exists (Some k). rewrite zlen_cons. pose proof (zlen_nonneg text). split; [done|]. split; [lia|].
    intros [|w]; cbn [line_len]; [done|]. rewrite Ex. lia. }
  replace (x =? 0) with false by (symmetry; by apply Z.eqb_neq). destruct (IH (k + 1) Hz) as (r & -> & Hr).
  exists r. split; [done|]. destruct r as [e|].
  - destruct Hr as [He Hr]. rewrite zlen_cons. split; [lia|]. intros [|w]; cbn [line_len]; [done|].
    rewrite Ex, Hr. lia.
  - intros [|w]; cbn [line_len length]; [done|]. rewrite Ex, Hr. lia.
Qed.

(** ** A ring that holds a text in one piece *)

Record text_ok (b : CircularBuffer.t) : Prop := {
  text_buffer : buffer_ok b;
  text_unwrapped : CircularBuffer.tail b <= CircularBuffer.head b;
  text_end : CircularBuffer.empty b = false ->
    CircularBuffer.buffer b !! Z.to_nat (CircularBuffer.head b) = Some 0;
  text_no_zero : no_zero (contents b) }.

Lemma text_held b : text_ok b -> held b = CircularBuffer.head b - CircularBuffer.tail b.
Proof.
  intros [H Hu _ _]. unfold held. rewrite mod_diff by apply H. destruct (Z.leb_spec (CircularBuffer.tail b)
    (CircularBuffer.head b)); lia.
Qed.

(** The array from an offset into the text on. *)
Lemma text_array b k :
  text_ok b -> CircularBuffer.empty b = false -> (k <= length (contents b))%nat ->
  exists rest, drop (Z.to_nat (CircularBuffer.tail b + Z.of_nat k)) (CircularBuffer.buffer b) =
    drop k (contents b) ++ 0 :: rest.
Proof.
  intros Ht Hne Hk. pose proof (text_held b Ht) as Hh. destruct Ht as [H Hu He _]. specialize (He Hne).
  pose proof (length_contents b H) as Hl. pose proof H as [Hsz Hlen Hhd Htl _].
  exists (drop (S (Z.to_nat (CircularBuffer.head b))) (CircularBuffer.buffer b)).
  apply take_drop_middle in He as Hm. rewrite <- Hm at 1.
  rewrite drop_app_le by (rewrite length_take; unfold zlen in *; lia). f_equal.
  pose proof (slice_contents b (held b) H) as Hs. unfold buf_slice in Hs.
  rewrite decide_True in Hs by lia. pose proof (held_range b H).
  specialize (Hs ltac:(lia) ltac:(lia)). simplify_eq. rewrite (take_ge (contents b)) in Hs
    by (unfold zlen in *; lia). rewrite <- Hs. rewrite !skipn_firstn_comm, drop_drop. f_equal; [lia|]. f_equal. lia.
Qed.

(** ** Taking a line *)

Lemma arr_write_ok src : forall dst i,
  0 <= i -> i + zlen src <= zlen dst ->
  arr_write dst i src =
    Ret (take (Z.to_nat i) dst ++ src ++ drop (Z.to_nat (i + zlen src)) dst).
Proof.
  induction src as [|x src IH]; intros dst i Hi Hl.
  { cbn [arr_write app]. by rewrite zlen_nil, Z.add_0_r, take_drop. }
  rewrite zlen_cons in Hl |- *. pose proof (zlen_nonneg src). cbn [arr_write].
  rewrite arr_set_ok by lia. cbn [mbind outcome_bind]. rewrite IH by (rewrite ?zlen_insert; lia).
  replace (Z.to_nat (i + 1)) with (S (Z.to_nat i)) by lia.
  rewrite drop_insert_lt by lia. rewrite (take_S_r _ _ x) by
    (apply list_lookup_insert_eq; unfold zlen in Hl; lia).
  rewrite take_insert_ge by lia. rewrite <- app_assoc. cbn [app]. do 5 f_equal. lia.
Qed.

(** [line] holds a string: its characters and the zero that ends it. *)
Definition holds (line s : list Z) : Prop := exists rest, line = s ++ 0 :: rest.

Lemma c_string_no_zero s : no_zero s -> c_string s = s.
Proof.
  induction 1 as [|x s Hx _ IH]; [done|]. cbn. rewrite IH. by destruct (Z.eqb_spec x 0).
Qed.

Lemma c_string_holds line s : holds line s -> no_zero s -> c_string line = s.
Proof.
  intros [rest ->] Hs. induction Hs as [|x s Hx Hs IH]; cbn; [done|].
  replace (x =? 0) with false by (symmetry; by apply Z.eqb_neq). by rewrite IH.
Qed.

(** A string copied into the array and ended. *)
Lemma arr_write_holds line s n :
  n = zlen s -> n < zlen line ->
  exists line1 line2, arr_write line 0 s = Ret line1 /\ zlen line1 = zlen line /\
    arr_set line1 n 0 = Ret line2 /\ zlen line2 = zlen line /\ holds line2 s.
Proof.
  intros -> Hl. pose proof (zlen_nonneg s).
  assert (zlen (s ++ drop (Z.to_nat (zlen s)) line) = zlen line) as E.
  { rewrite zlen_app. unfold zlen in *. rewrite length_drop. lia. }
  exists (s ++ drop (Z.to_nat (zlen s)) line),
    (<[Z.to_nat (zlen s) := 0]> (s ++ drop (Z.to_nat (zlen s)) line)).
  split; [by rewrite arr_write_ok by lia|]. split; [done|].
  split; [apply arr_set_ok; lia|]. split; [by rewrite zlen_insert|].
  exists (drop (S (Z.to_nat (zlen s))) line). unfold zlen in *. rewrite Nat2Z.id.
  destruct (lookup_lt_is_Some_2 line (length s)) as [x Hx]; [lia|].
  rewrite (drop_S _ _ _ Hx). rewrite insert_app_r_alt, Nat.sub_diag by done. done.
Qed.

Section taking_a_line.
Context (b : CircularBuffer.t) (line : list Z) (width : Z).
Context (Hb : text_ok b) (Hne : CircularBuffer.empty b = false).
Context (Hw : 0 < width < 2 ^ 15) (Hl : width < zlen line).

Abbreviation text := (contents b).
Abbreviation n := (Z.of_nat (line_len (Z.to_nat width) text)).

(** The ring with its tail moved over [k] characters. *)
Definition advanced (k : Z) : CircularBuffer.t :=
  CircularBuffer.mk (CircularBuffer.buffer b) (CircularBuffer.fixed_size b) (CircularBuffer.head b)
    (CircularBuffer.tail b + k) false (CircularBuffer.will_clear_if_empty b).

Lemma advanced_ok k :
  0 < k <= zlen text ->
  text_ok (advanced k) /\ contents (advanced k) = drop (Z.to_nat k) text.
Proof.
  intros Hk. pose proof Hb as [H Hu He Hz]. pose proof (text_held b Hb) as Hh.
  pose proof H as [Hsz Hlen Hhd Htl _]. rewrite length_contents in Hk by done.
  destruct (contents_advance b k false (CircularBuffer.will_clear_if_empty b)) as [Hok Hc];
    [done|lia|apply advance_not_full; [done|lia]|].
  rewrite Z.mod_small in Hok, Hc by lia. split; [|done].
  split; [done|cbn; lia| |unfold advanced; rewrite Hc; by apply Forall_drop].
  intros _. apply He. rewrite empty_held by done. lia.
Qed.

(** [consume_line] takes the first line, cut at the width, and its newline. *)
Lemma consume_line_text :
  exists line', CircularBuffer.consume_line b line width = Ret (advanced n, line', n) /\
    zlen line' = zlen line /\ holds line' (take (Z.to_nat n) text).
Proof.
  pose proof Hb as [H Hu He Hz]. pose proof (text_held b Hb) as Hh.
  pose proof H as [Hsz Hlen Hhd Htl _]. pose proof (length_contents b H) as Hlc.
  pose proof (held_range b H) as Hr. pose proof Hne as Hne'. rewrite empty_held in Hne' by done.
  destruct (text_array b 0 Hb Hne) as [rest Hrest]; [lia|]. rewrite Z.add_0_r in Hrest. cbn [drop] in Hrest.
  destruct (strchr_from_text text rest 0 Hz) as (r & Hr1 & Hr2).
  unfold CircularBuffer.consume_line. rewrite consumable_held by done.
  replace (Z.min (held b) (CircularBuffer.fixed_size b - CircularBuffer.tail b)) with (held b) by lia.
  replace (CircularBuffer.head b <=? CircularBuffer.tail b) with false by lia. cbn [andb].
  assert (strchr (CircularBuffer.buffer b) (CircularBuffer.tail b) newline = Ret r) as ->
    by (unfold strchr; rewrite decide_True by lia; by rewrite Hrest).
  cbn [mbind outcome_bind].
  unfold zlen in Hlc. destruct r as [e|].
  - destruct Hr2 as [He2 Hn]. specialize (Hn (Z.to_nat width)). unfold zlen in He2.
    rewrite u16_small by lia. replace (Z.min (Z.min width (held b)) (e + 1)) with n by lia.
    rewrite slice_contents by (done || lia). cbn [mbind outcome_bind].
    destruct (arr_write_holds line (take (Z.to_nat n) text) n) as (l1 & l2 & -> & _ & E2 & Hl2 & Hh2);
      [rewrite zlen_take by lia; unfold zlen; lia|lia|].
    cbn [mbind outcome_bind]. rewrite Z.add_0_l, E2. cbn [mbind outcome_bind].
    rewrite (proj2 (Z.leb_le n (held b))) by lia. rewrite u16_small, Z.mod_small by lia. eauto.
  - specialize (Hr2 (Z.to_nat width)). rewrite slice_contents by (done || lia). cbn [mbind outcome_bind].
    assert (Z.min width (held b) = n) as -> by lia.
    destruct (arr_write_holds line (take (Z.to_nat n) text) n) as (l1 & l2 & -> & Hl1 & E2 & Hl2 & Hh2);
      [rewrite zlen_take by lia; unfold zlen; lia|lia|]. cbn [mbind outcome_bind].
    destruct (Z.eqb_spec (held b) n) as [Eh|Eh].
    { rewrite E2. cbn [mbind outcome_bind]. rewrite u16_small by lia. exists l2. split; [|done].
      unfold advanced. do 4 f_equal. lia. }
    assert (n = width) as En by lia. rewrite En in *. rewrite (u16_small (_ + width)) by lia.
    destruct (text_array b (Z.to_nat width) Hb Hne) as [rest' Hrest']; [lia|].
    destruct (strchr_from_text (drop (Z.to_nat width) text) rest' 0) as (r & Hr3 & _);
      [by apply Forall_drop|].
    unfold strchr. rewrite decide_True by lia. rewrite Z2Nat.id in Hrest' by lia.
    rewrite Hrest', Hr3. cbn [mbind outcome_bind]. rewrite Z.sub_diag. change (u16 0) with 0.
    rewrite (Z.min_l 0) by lia.
    assert (match r with Some e => Z.min 0 (u16 (e + 1)) | None => 0 end = 0) as ->.
    { destruct r as [e|]; [|done]. pose proof (u16_range (e + 1)). lia. }
    unfold buf_slice. rewrite decide_True by lia. change (Z.to_nat 0) with 0%nat. rewrite firstn_O.
    cbn [mbind outcome_bind arr_write].
    rewrite Z.add_0_r, (proj2 (Z.leb_le width (CircularBuffer.head b))) by lia. rewrite E2.
    cbn [mbind outcome_bind]. rewrite Z.add_0_r, u16_small, Z.mod_small by lia. eauto.
Qed.

End taking_a_line.

(** ** The printing loop *)

Lemma no_zero_take n l : no_zero l -> no_zero (take n l).
Proof. apply Forall_take. Qed.

(** Cutting the newline, or ending the array, leaves the printed line. *)
Lemma printed_line line text n :
  (0 < n <= length text)%nat -> no_zero text -> holds line (take n text) ->
  exists line',
    (last ← arr_get line (Z.of_nat n - 1);
     if last =? newline then arr_set line (Z.of_nat n - 1) 0 else arr_set line (Z.of_nat n) 0) =
      Ret line' /\
    zlen line' = zlen line /\ c_string line' = stripped n text.
Proof.
  intros Hn Hz [rest ->]. destruct (lookup_lt_is_Some_2 text (pred n)) as [x Hx]; [lia|].
  assert (zlen (take n text ++ 0 :: rest) = Z.of_nat n + 1 + zlen rest) as Hl.
  { rewrite zlen_app, zlen_cons. unfold zlen. rewrite length_take. lia. }
  pose proof (zlen_nonneg rest).
  assert (arr_get (take n text ++ 0 :: rest) (Z.of_nat n - 1) = Ret x) as ->.
  { unfold arr_get. rewrite decide_True by lia. rewrite lookup_app_l by (rewrite length_take; lia).
    rewrite lookup_take_lt by lia. replace (Z.to_nat (Z.of_nat n - 1)) with (pred n) by lia.
    by rewrite Hx. }
  cbn [mbind outcome_bind]. unfold stripped. rewrite Hx.
  destruct (x =? newline); (eexists; split; [apply arr_set_ok; lia|]; split; [apply zlen_insert|]);
    (apply c_string_holds; [|by apply no_zero_take]).
  - exists (0 :: rest). replace (Z.to_nat (Z.of_nat n - 1)) with (pred n) by lia.
    rewrite insert_app_l by (rewrite length_take; lia).
    replace n with (S (pred n)) at 2 by lia. rewrite (take_S_r _ _ x Hx).
    rewrite insert_app_r_alt by (rewrite length_take; lia). rewrite length_take.
    replace (pred n - _)%nat with 0%nat by lia. by rewrite <- app_assoc.
  - exists rest. rewrite Nat2Z.id. rewrite insert_app_r_alt by (rewrite length_take; lia).
    rewrite length_take. by replace (n - _)%nat with 0%nat by lia.
Qed.

(** Enough fuel for every character prints the lines of the text and drains
    the ring. *)
Lemma print_lines_text fuel : forall b line printed,
  text_ok b -> zlen line = SERIAL_LOG_BUFFER_LEN -> (length (contents b) <= fuel)%nat ->
  exists b', print_lines fuel b line printed =
      Ret (Some (b', printed ++ chop (Z.to_nat (SERIAL_LOG_BUFFER_LEN - 1)) [] (contents b))) /\
    buffer_ok b' /\ CircularBuffer.empty b' = true /\
    CircularBuffer.fixed_size b' = CircularBuffer.fixed_size b.
Proof.
  induction fuel as [|fuel IH]; intros b line printed Ht Hl Hf;
    pose proof (length_contents b (text_buffer b Ht)) as Hc;
    pose proof (empty_held b (text_buffer b Ht)) as He;
    (destruct (CircularBuffer.empty b) eqn:Eb;
     [destruct (contents b) eqn:Et; [|rewrite zlen_cons in Hc; pose proof (zlen_nonneg l); lia];
      exists b; cbn [print_lines]; rewrite Eb; cbn; rewrite app_nil_r; by destruct Ht|]);
    unfold zlen in Hc; [lia|].
  cbn [print_lines]. rewrite Eb. unfold SERIAL_LOG_BUFFER_LEN in *. change (160 - 1) with 159.
  destruct (consume_line_text b line 159 Ht Eb) as (line1 & -> & Hl1 & Hh1); [lia|lia|].
  cbn [mbind outcome_bind]. set (n := line_len (Z.to_nat 159) (contents b)) in *.
  pose proof (held_range b (text_buffer b Ht)).
  assert (0 < n <= length (contents b))%nat as Hn.
  { split; [|apply line_len_le]. unfold n. destruct (contents b); [cbn in Hc; lia|].
    apply line_len_pos. lia. }
  rewrite Nat2Z.id in Hh1.
  destruct (printed_line line1 (contents b) n Hn (text_no_zero b Ht) Hh1) as (line2 & E & Hl2 & Hs2).
  destruct (advanced_ok b Ht (Z.of_nat n)) as [Ht' Hc']; [unfold zlen; lia|].
  destruct (IH (advanced b (Z.of_nat n)) line2 (printed ++ [c_string line2])) as (b' & Hb' & Hok);
    [done|lia|rewrite Hc', length_drop; lia|].
  exists b'. split; [|done]. destruct (arr_get line1 _) as [lst|]; [|done].
  cbn [mbind outcome_bind] in E |- *. rewrite E. cbn [mbind outcome_bind]. rewrite Hb', Hs2.
  change (160 - 1) with 159. do 3 f_equal. rewrite <- app_assoc. f_equal.
  rewrite (chop_cons _ (contents b) [] (Z.to_nat 159)) by (cbn; lia || (destruct (contents b); cbn in *; [lia|done])).
  cbn [app]. by rewrite Hc', Nat2Z.id.
Qed.

(** ** Logging and printing *)

(** The texts of several [LOG_...] calls. *)
Fixpoint log_all (asserts : bool) (b : CircularBuffer.t) (texts : list (list Z))
    : outcome CircularBuffer.t :=
  match texts with
  | [] => Ret b
  | text :: texts' => b ← LOG_DEBUG asserts b text; log_all asserts b texts'
  end.

(** The ring as [printAvailableLogging] leaves it. *)
Record drained (b : CircularBuffer.t) : Prop := {
  drained_ok : buffer_ok b;
  drained_head : CircularBuffer.head b = 0;
  drained_tail : CircularBuffer.tail b = 0 }.

(** A line of the log as the program formats it: not empty, no zeros, shorter
    than the static buffer of [writeF]. *)
Definition loggable (text : list Z) : Prop :=
  text <> [] /\ no_zero text /\ zlen text < 600.

Lemma write_text b items :
  text_ok b -> CircularBuffer.tail b = 0 -> items <> [] -> no_zero items ->
  zlen items < 2 ^ 15 -> held b + zlen items < CircularBuffer.fixed_size b - 1 ->
  exists b', CircularBuffer.write b items = Ret b' /\ text_ok b' /\
    CircularBuffer.tail b' = 0 /\ contents b' = contents b ++ items /\
    CircularBuffer.fixed_size b' = CircularBuffer.fixed_size b.
Proof.
  intros Ht Htl Hne Hz Hlt Hfit. pose proof (text_held b Ht) as Hh. pose proof Ht as [H Hu _ Hz'].
  destruct (write_contents b items H Hne Hlt) as (b' & E & Hok & Hsz & Hc).
  pose proof (length_contents b H) as Hl. pose proof H as [Hs Hlen Hhd _ Hm].
  pose proof (zlen_nonneg items). assert (last_n (CircularBuffer.fixed_size b - 1) (contents b ++ items) =
    contents b ++ items) as Hlast.
  { unfold last_n. rewrite length_app. replace (_ - _)%nat with 0%nat; [done|]. unfold zlen in *. lia. }
  rewrite Hlast in Hc. exists b'. split; [done|]. 
  destruct (write_loop_spec b H items 0 0 (CircularBuffer.buffer b) (contents b) (CircularBuffer.maxed b))
    as (buf & mx & Ew & [Hbl _] & Hfl); [by apply stored_contents| | |lia|lia|].
  { rewrite Hl. by apply flagged_contents. }
  { rewrite Hl, Hh. f_equal. lia. }
  unfold CircularBuffer.write in E. rewrite Ew in E. cbn [mbind outcome_bind] in E.
  assert (mx = false) as ->.
  { destruct mx; [|done]. cbn in Hfl. rewrite zlen_app in Hfl. lia. }
  assert (1 <= zlen items) by (destruct items; [done|]; rewrite zlen_cons; pose proof (zlen_nonneg items); lia).
  assert (match items with [] => 0 | _ => (CircularBuffer.head b + 0 + zlen items - 1) mod
    CircularBuffer.fixed_size b end = CircularBuffer.head b + zlen items - 1) as Hp.
  { destruct items; [done|]. rewrite Z.mod_small; lia. }
  rewrite Hp, arr_set_ok in E by lia. cbn [mbind outcome_bind] in E.
  rewrite Z.mod_small in E by lia. simplify_eq. split; [split|]; [done|cbn; lia| |by rewrite Hc; apply Forall_app|done].
  intros _. cbn. rewrite Z.add_0_l. replace (CircularBuffer.head b + zlen items - 1 + 1)
    with (CircularBuffer.head b + zlen items) by lia.
  apply list_lookup_insert_eq. unfold zlen in *. lia.
Qed.

Lemma LOG_DEBUG_text asserts b text :
  loggable text -> LOG_DEBUG asserts b text = CircularBuffer.write b text.
Proof.
  intros (_ & Hz & Hl). unfold LOG_DEBUG, CircularBuffer.writeF, c_assert.
  rewrite (proj2 (Z.ltb_lt _ _)) by done. rewrite andb_false_r. cbn [mbind outcome_bind].
  rewrite take_ge by (unfold zlen in Hl; lia). by rewrite c_string_no_zero.
Qed.

Lemma log_all_text asserts texts : forall b,
  text_ok b -> CircularBuffer.tail b = 0 -> Forall loggable texts ->
  held b + zlen (concat texts) < CircularBuffer.fixed_size b - 1 ->
  exists b', log_all asserts b texts = Ret b' /\ text_ok b' /\
    CircularBuffer.tail b' = 0 /\ contents b' = contents b ++ concat texts /\
    CircularBuffer.fixed_size b' = CircularBuffer.fixed_size b.
Proof.
  induction texts as [|text texts IH]; intros b Ht Htl Hts Hfit.
  { exists b. cbn. by rewrite app_nil_r. }
  apply Forall_cons in Hts as [Htx Hts]. cbn [concat] in Hfit. rewrite zlen_app in Hfit.
  pose proof (zlen_nonneg (concat texts)). cbn [log_all]. rewrite LOG_DEBUG_text by done.
  destruct Htx as (Hne & Hz & Hl).
  destruct (write_text b text Ht Htl Hne Hz) as (b1 & -> & Ht1 & Htl1 & Hc1 & Hs1); [lia|lia|].
  cbn [mbind outcome_bind]. pose proof (length_contents b1 (text_buffer b1 Ht1)) as Hl1.
  pose proof (length_contents b (text_buffer b Ht)) as Hl0. rewrite Hc1, zlen_app in Hl1.
  destruct (IH b1 Ht1 Htl1 Hts) as (b2 & -> & Ht2 & Htl2 & Hc2 & Hs2); [lia|].
  exists b2. cbn [concat]. rewrite Hc2, Hc1, app_assoc. by rewrite Hs2, Hs1.
Qed.

Lemma drained_text b : drained b -> text_ok b /\ contents b = [] /\ held b = 0.
Proof.
  intros [H Hh Ht]. assert (CircularBuffer.empty b = true) as He
    by (unfold CircularBuffer.empty; rewrite Hh, Ht; done).
  assert (held b = 0) as H0 by (unfold held; rewrite Hh, Ht; apply Z.mod_0_l; destruct H; lia).
  assert (contents b = []) as Hc by (unfold contents; by rewrite H0).
  split; [|done]. split; [done|lia|by rewrite He|rewrite Hc; constructor].
Qed.

Lemma log_and_print asserts b texts line fuel :
  drained b -> Forall loggable texts -> zlen line = SERIAL_LOG_BUFFER_LEN ->
  zlen (concat texts) < CircularBuffer.fixed_size b - 1 -> (length (concat texts) <= fuel)%nat ->
  exists b1 b2, log_all asserts b texts = Ret b1 /\
    printAvailableLogging fuel b1 line =
      Ret (Some (b2, chop (Z.to_nat (SERIAL_LOG_BUFFER_LEN - 1)) [] (concat texts))) /\
    drained b2 /\ CircularBuffer.fixed_size b2 = CircularBuffer.fixed_size b.
Proof.
  intros Hd Hts Hl Hfit Hf. destruct (drained_text b Hd) as (Ht & Hc & Hh).
  destruct (log_all_text asserts texts b Ht (drained_tail b Hd) Hts) as (b1 & E & Ht1 & Htl1 & Hc1 & Hs1);
    [lia|]. rewrite Hc in Hc1. cbn [app] in Hc1.
  destruct (print_lines_text fuel b1 line [] Ht1 Hl) as (b2 & Ep & Hok2 & He2 & Hs2); [by rewrite Hc1|].
  eexists b1, _. split; [done|]. unfold printAvailableLogging, CircularBuffer.full.
  rewrite (ok_maxed b1 (text_buffer b1 Ht1)), Htl1.
  pose proof (ok_head b1 (text_buffer b1 Ht1)). replace (_ =? 0 - 1) with false by lia.
  cbn [mbind outcome_bind]. rewrite Ep. cbn [mbind outcome_bind app]. rewrite Hc1. split; [done|].
  unfold CircularBuffer.clear_if_empty. change (CircularBuffer.empty _) with (CircularBuffer.empty b2).
  rewrite He2. cbn. split; [|congruence]. split; [|done..]. destruct Hok2. split; cbn; done || lia.
Qed.

(** C18. What is logged is printed, when it fits: texts that are not empty, have
    no zeros and fewer than 600 characters each, logged into a drained ring and
    together two characters shorter than its size, are printed by the next
    [printAvailableLogging] as their lines, cut at newlines and after 159
    characters, in order and complete; the loop ends and the ring is drained
    again.  (Texts that reach the end of the array may make the loop hang, see
    [printing_hangs].) *)
Theorem logged_text_is_printed asserts b texts line fuel :
  drained b -> Forall loggable texts -> zlen line = SERIAL_LOG_BUFFER_LEN ->
  zlen (concat texts) < CircularBuffer.fixed_size b - 1 -> (length (concat texts) <= fuel)%nat ->
  exists b1 b2, log_all asserts b texts = Ret b1 /\
    printAvailableLogging fuel b1 line =
      Ret (Some (b2, chop (Z.to_nat (SERIAL_LOG_BUFFER_LEN - 1)) [] (concat texts))) /\
    drained b2 /\ CircularBuffer.fixed_size b2 = CircularBuffer.fixed_size b.
Proof. apply log_and_print. Qed.

(** Two texts: one of 160 characters, the next one two short lines. *)
Definition demo_texts : list (list Z) := [replicate 160 97; [98; 10; 99; 10]].

Lemma logged_text_is_printed_witness :
  exists b1 b2, log_all true (CircularBuffer.make (replicate 301 7) 300) demo_texts = Ret b1 /\
    printAvailableLogging 200 b1 (replicate 160 0) =
      Ret (Some (b2, [replicate 159 97; [97; 98]; [99]])) /\
    drained b2 /\ CircularBuffer.fixed_size b2 = 300.
Proof.
  apply (logged_text_is_printed true (CircularBuffer.make (replicate 301 7) 300) demo_texts
    (replicate 160 0) 200).
  - split; [split|..]; vm_compute; try done; split; done.
  - repeat constructor; try done; vm_compute; repeat constructor; done.
  - reflexivity.
  - vm_compute. reflexivity.
  - vm_compute. lia.
Defined.

(** ** A wrapped ring *)







