(* ===== verification/Repeater.v ===== *)
(** * The program: callbacks and main loop

    main.cpp registers callbacks with BTstack and the GPIO driver and runs a
    loop.  Its global variables are the record [Repeater.t]; each callback is a
    function of them and of the event as BTstack's accessors decode it; the
    body of the loop is cut into the phases between which a callback may run.
    What the callbacks ask of BTstack is recorded, newest last, in
    [commands]. *)

From stdpp Require Import base numbers list gmap.
From Stdlib Require Import ZArith Lia.
From S2P Require Import Prelude Platform Containers BinaryIO Packets ProtocolWriter BleConnection.
From S2P Require Import Tracker Processor.

Definition EXIT_GPIO_PIN : Z := 28.
Definition LIFE_CHECK_PIN : Z := 18.
Definition BLE_SCAN_PERIOD_MS : Z := 2000.
Definition BLE_ADVERTISING_MAX_LENGTH : Z := 31.
Definition BLE_FLAG_LE_GENERAL_DISC_MODE : Z := 0x02.
Definition BLE_FLAG_BR_EDR_NOT_SUPPORTED : Z := 0x04.
Definition BLE_FLAGS_LE_ONLY_GENERAL_DISC_MODE : Z :=
  Z.lor BLE_FLAG_LE_GENERAL_DISC_MODE BLE_FLAG_BR_EDR_NOT_SUPPORTED.

(** Constants of BTstack and the Pico SDK. *)
Definition BLUETOOTH_DATA_TYPE_FLAGS : Z := 0x01.
Definition BLUETOOTH_DATA_TYPE_INCOMPLETE_LIST_OF_128_BIT_SERVICE_CLASS_UUIDS : Z := 0x06.
Definition BLUETOOTH_DATA_TYPE_COMPLETE_LIST_OF_128_BIT_SERVICE_CLASS_UUIDS : Z := 0x07.
Definition BLUETOOTH_DATA_TYPE_SHORTENED_LOCAL_NAME : Z := 0x08.
Definition BLUETOOTH_DATA_TYPE_COMPLETE_LOCAL_NAME : Z := 0x09.
Definition BLUETOOTH_DATA_TYPE_LIST_OF_128_BIT_SERVICE_SOLICITATION_UUIDS : Z := 0x15.
Definition ATT_TRANSACTION_MODE_NONE : Z := 0.
Definition GATT_CLIENT_CHARACTERISTICS_CONFIGURATION_NOTIFICATION : Z := 1.
Definition GPIO_IRQ_EDGE_FALL : Z := 0x4.
Definition ERROR_CODE_SUCCESS : Z := 0.

(** The requests to BTstack. *)
Inductive command : Type :=
  | GapStartScan
  | GapStopScan
  | SetScanTimer (timeout_ms : Z)
  | GapSetScanParams
  | GapAdvertisementsSetParams (adv_int_min adv_int_max adv_type : Z)
  | GapAdvertisementsSetData (data : bytes)
  | GapAdvertisementsEnable
  | GapSetMaxPeripheralConnections (n : Z)
  | GapConnect (address : bytes) (address_type : Z)
  | GapDisconnect (handle : Z)
  | DiscoverPrimaryServices (handle : Z)
  | DiscoverCharacteristicsForService (handle : Z) (service : gatt_client_service_t)
  | FlashLed.

(** The attribute handles are in a header the build generates from
    bitchat_repeater.gatt. *)
Record AttHandles : Type := mkAttHandles {
  CLIENT_CONFIGURATION_HANDLE : Z;
  VALUE_HANDLE : Z;
  USER_DESCRIPTION_HANDLE : Z }.

(** BTstack's iterator over advertising data: for each structure its type and
    the bytes from its data pointer to the end of the advertising data. *)
Abbreviation ad_iterator := (bytes -> list (Z * bytes)).

(** ** Advertising *)

(** [memcmp(expected, data, sizeof expected) == 0] at a pointer with the given
    bytes behind it. *)
Definition memcmp_equal (expected data : bytes) : outcome bool :=
  block ← buf_slice data 0 (zlen expected);
  Ret (bool_decide (block = expected)).

Fixpoint check_loop (items : list (Z * bytes)) (found_uuid found_name : bool) : outcome (bool * bool) :=
  match items with
  | [] => Ret (found_uuid, found_name)
  | (data_type, data) :: items' =>
    if (data_type =? BLUETOOTH_DATA_TYPE_INCOMPLETE_LIST_OF_128_BIT_SERVICE_CLASS_UUIDS) ||
       (data_type =? BLUETOOTH_DATA_TYPE_COMPLETE_LIST_OF_128_BIT_SERVICE_CLASS_UUIDS) ||
       (data_type =? BLUETOOTH_DATA_TYPE_LIST_OF_128_BIT_SERVICE_SOLICITATION_UUIDS)
    then
      found_uuid ← memcmp_equal bitchat_service_uuid_reversed data;
      check_loop items' found_uuid found_name
    else if (data_type =? BLUETOOTH_DATA_TYPE_SHORTENED_LOCAL_NAME) ||
            (data_type =? BLUETOOTH_DATA_TYPE_COMPLETE_LOCAL_NAME)
    then
      found_name ← memcmp_equal bitchat_service_name data;
      check_loop items' found_uuid found_name
    else check_loop items' found_uuid found_name
  end.

Definition check_for_uuid (ad : ad_iterator) (advertisement_data : bytes)
    : outcome service_uuid_check_status :=
  '(found_uuid, found_name) ← check_loop (ad advertisement_data) false false;
  Ret (if found_uuid : bool then
         if found_name : bool then ServiceUUIDAndNameFound else ServiceUUIDFound
       else ServiceUUIDNotFound).

Module Repeater.

Record t : Type := mk {
  keep_running : bool;
  life_check : bool;
  global_activity : Z;
  scanning : bool;
  connection_in_progress : bool;
  disconnection_started_at : Z;
  discover_primary_services : bool;
  discover_characteristics_for_service : bool;
  adv_data : bytes;
  adv_data_len : Z;
  tracker : Tracker.t;
  commands : list command }.

Definition make (announce_addr : Z) : t :=
  mk true false 0 false false 0 false false (replicate 31 0) 0 (Tracker.make announce_addr) [].

Definition set_tracker (s : t) (x : Tracker.t) : t :=
  mk (keep_running s) (life_check s) (global_activity s) (scanning s) (connection_in_progress s)
     (disconnection_started_at s) (discover_primary_services s)
     (discover_characteristics_for_service s) (adv_data s) (adv_data_len s) x (commands s).

Definition set_life_check (s : t) (x : bool) : t :=
  mk (keep_running s) x (global_activity s) (scanning s) (connection_in_progress s)
     (disconnection_started_at s) (discover_primary_services s)
     (discover_characteristics_for_service s) (adv_data s) (adv_data_len s) (tracker s) (commands s).

Definition set_keep_running (s : t) (x : bool) : t :=
  mk x (life_check s) (global_activity s) (scanning s) (connection_in_progress s)
     (disconnection_started_at s) (discover_primary_services s)
     (discover_characteristics_for_service s) (adv_data s) (adv_data_len s) (tracker s) (commands s).

(** [global_activity++] of a [uint16_t]. *)
Definition activity (s : t) : t :=
  mk (keep_running s) (life_check s) (global_activity s +u16 1) (scanning s)
     (connection_in_progress s) (disconnection_started_at s) (discover_primary_services s)
     (discover_characteristics_for_service s) (adv_data s) (adv_data_len s) (tracker s) (commands s).

Definition set_scanning (s : t) (x : bool) : t :=
  mk (keep_running s) (life_check s) (global_activity s) x (connection_in_progress s)
     (disconnection_started_at s) (discover_primary_services s)
     (discover_characteristics_for_service s) (adv_data s) (adv_data_len s) (tracker s) (commands s).

Definition set_connection_in_progress (s : t) (x : bool) : t :=
  mk (keep_running s) (life_check s) (global_activity s) (scanning s) x
     (disconnection_started_at s) (discover_primary_services s)
     (discover_characteristics_for_service s) (adv_data s) (adv_data_len s) (tracker s) (commands s).

Definition set_disconnection_started_at (s : t) (x : Z) : t :=
  mk (keep_running s) (life_check s) (global_activity s) (scanning s) (connection_in_progress s)
     x (discover_primary_services s)
     (discover_characteristics_for_service s) (adv_data s) (adv_data_len s) (tracker s) (commands s).

Definition set_discovery (s : t) (primary characteristics : bool) : t :=
  mk (keep_running s) (life_check s) (global_activity s) (scanning s) (connection_in_progress s)
     (disconnection_started_at s) primary characteristics (adv_data s) (adv_data_len s) (tracker s)
     (commands s).

Definition set_adv (s : t) (data : bytes) (len : Z) : t :=
  mk (keep_running s) (life_check s) (global_activity s) (scanning s) (connection_in_progress s)
     (disconnection_started_at s) (discover_primary_services s)
     (discover_characteristics_for_service s) data len (tracker s) (commands s).

Definition request (s : t) (c : command) : t :=
  mk (keep_running s) (life_check s) (global_activity s) (scanning s) (connection_in_progress s)
     (disconnection_started_at s) (discover_primary_services s)
     (discover_characteristics_for_service s) (adv_data s) (adv_data_len s) (tracker s)
     (commands s ++ [c]).

(** ** Advertising and scanning *)

(** [adv_data[adv_data_len++] = b] *)
Definition adv_push (s : t) (b : Z) : outcome t :=
  if decide (adv_data_len s < BLE_ADVERTISING_MAX_LENGTH)
  then Ret (set_adv s (<[Z.to_nat (adv_data_len s) := b]> (adv_data s)) (u8 (adv_data_len s + 1)))
  else Fault (OutOfBounds (adv_data_len s)).

(** [memcpy(&adv_data[adv_data_len], block, len); adv_data_len += len] *)
Definition adv_block (s : t) (block : bytes) : outcome t :=
  if decide (adv_data_len s + zlen block <= BLE_ADVERTISING_MAX_LENGTH) then
    let i := Z.to_nat (adv_data_len s) in
    Ret (set_adv s (take i (adv_data s) ++ block ++ drop (i + length block) (adv_data s))
           (u8 (adv_data_len s + zlen block)))
  else Fault (OutOfBounds (adv_data_len s)).

Definition populate_advertising_data (s : t) : outcome t :=
  s ← adv_push s 0x2;
  s ← adv_push s BLUETOOTH_DATA_TYPE_FLAGS;
  s ← adv_push s BLE_FLAGS_LE_ONLY_GENERAL_DISC_MODE;
  s ← adv_push s 17;
  s ← adv_push s BLUETOOTH_DATA_TYPE_INCOMPLETE_LIST_OF_128_BIT_SERVICE_CLASS_UUIDS;
  s ← adv_block s bitchat_service_uuid_reversed;
  let name_len := u8 (zlen bitchat_service_name) in
  let fitable_name_len :=
    Z.min (u8 (BLE_ADVERTISING_MAX_LENGTH - adv_data_len s - 2)) name_len in
  s ← adv_push s (u8 (fitable_name_len + 1));
  s ← (if fitable_name_len =? name_len
       then adv_push s BLUETOOTH_DATA_TYPE_COMPLETE_LOCAL_NAME
       else adv_push s BLUETOOTH_DATA_TYPE_SHORTENED_LOCAL_NAME);
  adv_block s (take (Z.to_nat fitable_name_len) bitchat_service_name).

Definition setup_advertisements (s : t) : outcome t :=
  s ← populate_advertising_data s;
  let s := request s (GapAdvertisementsSetParams (200000 / 625) (1000000 / 625) 0) in
  let s := request s (GapAdvertisementsSetData (take (Z.to_nat (adv_data_len s)) (adv_data s))) in
  Ret (request s GapAdvertisementsEnable).

Definition start_scanning_for_local_nodes (s : t) : t :=
  let s := request s GapStartScan in
  let s := set_scanning s true in
  request s (SetScanTimer BLE_SCAN_PERIOD_MS).

Definition setup_scanning (s : t) : t :=
  start_scanning_for_local_nodes (request s GapSetScanParams).

Definition stop_scan_handler (s : t) : t :=
  let s := activity s in
  set_scanning (request s GapStopScan) false.

(** ** Callbacks of the attribute server *)

(** [memset(&buffer[offset], 0, buffer_size - offset)]: the length is negative,
    as a [size_t] huge, when the offset is past the size. *)
Definition clear_from (buffer : bytes) (offset buffer_size : Z) : outcome bytes :=
  if decide (offset <= buffer_size <= zlen buffer) then
    Ret (take (Z.to_nat offset) buffer ++
         replicate (Z.to_nat (buffer_size - offset)) 0 ++ drop (Z.to_nat buffer_size) buffer)
  else Fault (OutOfBounds offset).

(** The buffer after the call and the result. *)
Definition att_read_callback (H : AttHandles) (s : t) (att_handle offset : Z) (buffer : bytes)
    (buffer_size : Z) : outcome (t * bytes * Z) :=
  let s := activity s in
  if att_handle =? CLIENT_CONFIGURATION_HANDLE H then
    buffer ← clear_from buffer offset buffer_size; Ret (s, buffer, 2)
  else if att_handle =? VALUE_HANDLE H then
    buffer ← clear_from buffer offset buffer_size; Ret (s, buffer, 0)
  else if att_handle =? USER_DESCRIPTION_HANDLE H then
    buffer ← clear_from buffer offset buffer_size; Ret (s, buffer, 0)
  else Ret (s, buffer, 0).

Definition little_endian_read_16 (buffer : bytes) (i : Z) : outcome Z :=
  low ← buf_get buffer i;
  high ← buf_get buffer (i + 1);
  Ret (low + 256 * high).

(** [context] is a reference to the tracker's connection. *)
Definition att_write_callback (H : AttHandles) (P : Platform) (s : t)
    (connection_handle att_handle transaction_mode offset : Z) (buffer : bytes) (buffer_size : Z)
    : outcome t :=
  let s := activity s in
  if negb (transaction_mode =? ATT_TRANSACTION_MODE_NONE) then Ret s
  else
    let '(tr, context) := Tracker.connectionForConnHandle P (tracker s) connection_handle in
    if att_handle =? CLIENT_CONFIGURATION_HANDLE H then
      value ← little_endian_read_16 buffer 0;
      let enabled := value =? GATT_CLIENT_CHARACTERISTICS_CONFIGURATION_NOTIFICATION in
      let tr := Tracker.update_connection tr connection_handle
                  (fun c => BleConnection.setNotificationEnabled c enabled) in
      let tr :=
        if enabled then
          Tracker.update_connection tr connection_handle
            (fun c => BleConnection.setBitchatCharacteristicValueHandle c (VALUE_HANDLE H))
        else tr in
      Ret (set_tracker s tr)
    else if att_handle =? VALUE_HANDLE H then
      '(_, connection) ← Tracker.deref_connection tr context;
      tr ← Processor.processWrite P tr connection context offset buffer buffer_size;
      Ret (set_tracker s tr)
    else Ret (set_tracker s tr).

(** ** Callbacks of the attribute client *)

Inductive gatt_client_event : Type :=
  | GATT_EVENT_MTU (handle mtu : Z)
  | GATT_EVENT_SERVICE_QUERY_RESULT (handle : Z) (service : gatt_client_service_t)
  | GATT_EVENT_CHARACTERISTIC_QUERY_RESULT (handle : Z)
      (characteristic : gatt_client_characteristic_t)
  | GATT_EVENT_QUERY_COMPLETE (handle : Z)
  | GATT_EVENT_OTHER.

Definition handle_gatt_client_event (P : Platform) (s : t) (event : gatt_client_event) : t :=
  let s := activity s in
  match event with
  | GATT_EVENT_MTU con_handle mtu =>
    let tr := (Tracker.connectionForConnHandle P (tracker s) con_handle).1 in
    set_tracker s (Tracker.update_connection tr con_handle (fun c => BleConnection.setMtu c mtu))
  | GATT_EVENT_SERVICE_QUERY_RESULT con_handle service =>
    let tr := (Tracker.connectionForConnHandle P (tracker s) con_handle).1 in
    set_tracker s
      (if service_uuid16 service =? 0 then
         Tracker.update_connection tr con_handle
           (fun c => BleConnection.storeHandlesIfServiceMatches c service)
       else tr)
  | GATT_EVENT_CHARACTERISTIC_QUERY_RESULT con_handle characteristic =>
    let tr := (Tracker.connectionForConnHandle P (tracker s) con_handle).1 in
    set_tracker s
      (if characteristic_uuid16 characteristic =? 0 then
         Tracker.update_connection tr con_handle
           (fun c => BleConnection.storeHandlesIfCharacteristicMatches c characteristic)
       else tr)
  | GATT_EVENT_QUERY_COMPLETE con_handle =>
    let '(tr, _) := Tracker.connectionForConnHandle P (tracker s) con_handle in
    let s := set_discovery (set_tracker s tr) false false in
    match Tracker.connections tr !! con_handle with
    | Some connection =>
      match BleConnection.canAndNeedToDiscoverBitchatCharacteristicsQuery (node_val connection) with
      | Some service =>
        request (set_discovery s false true) (DiscoverCharacteristicsForService con_handle service)
      | None => s
      end
    | None => s
    end
  | GATT_EVENT_OTHER => s
  end.

Inductive value_update_event : Type :=
  | GATT_EVENT_NOTIFICATION (handle : Z) (value : bytes) (value_length : Z)
  | GATT_EVENT_INDICATION (handle : Z) (value : bytes)
  | VALUE_UPDATE_OTHER.

(** [auto connection = ...] is a copy on the stack, at an address of its own. *)
Definition handle_gatt_client_value_update_event (P : Platform) (s : t)
    (event : value_update_event) : outcome t :=
  let s := activity s in
  match event with
  | GATT_EVENT_NOTIFICATION handle value value_length =>
    let '(tr, address) := Tracker.connectionForConnHandle P (tracker s) handle in
    '(_, connection) ← Tracker.deref_connection tr address;
    let copy_address := new_node P (Tracker.live tr) in
    tr ← Processor.processWrite P tr connection copy_address 0 value value_length;
    Ret (set_tracker s tr)
  | _ => Ret s
  end.

(** ** Callbacks of the host controller interface *)

Inductive hci_event : Type :=
  | BTSTACK_EVENT_STATE (working : bool)
  | HCI_EVENT_DISCONNECTION_COMPLETE (handle : Z)
  | GAP_EVENT_RSSI_MEASUREMENT (handle rssi : Z)
  | HCI_SUBEVENT_LE_CONNECTION_COMPLETE (handle role address_type : Z) (address : bytes)
  | GAP_EVENT_ADVERTISING_REPORT (address_type : Z) (address : bytes) (rssi : Z) (data : bytes)
  | GAP_SUBEVENT_LE_CONNECTION_COMPLETE (handle role address_type : Z) (address : bytes)
  | HCI_EVENT_OTHER.

(** [None] is a packet that is not an event. *)
Definition hci_packet_handler (ad : ad_iterator) (P : Platform) (s : t) (packet : option hci_event)
    : outcome t :=
  let s := activity s in
  match packet with
  | None => Ret s
  | Some (BTSTACK_EVENT_STATE working) =>
    if working then
      let s := request s (GapSetMaxPeripheralConnections 4) in
      s ← setup_advertisements s;
      Ret (setup_scanning s)
    else Ret s
  | Some (HCI_EVENT_DISCONNECTION_COMPLETE handle) =>
    Ret (set_tracker s (Tracker.reportDisconnection P (tracker s) handle))
  | Some (GAP_EVENT_RSSI_MEASUREMENT handle rssi) =>
    let '(tr, address) := Tracker.connectionForConnHandle P (tracker s) handle in
    '(_, connection) ← Tracker.deref_connection tr address;
    (* [auto connection]: the strength is stored in a copy *)
    let _copy := BleConnection.setRssi connection rssi in
    Ret (set_tracker s tr)
  | Some (HCI_SUBEVENT_LE_CONNECTION_COMPLETE handle role address_type address) =>
    Ret (set_tracker s (Tracker.reportConnectionRole P (tracker s) handle address address_type role))
  | Some (GAP_EVENT_ADVERTISING_REPORT address_type address rssi data) =>
    services ← check_for_uuid ad data;
    if has_flag (service_uuid_check_status_value services)
         (service_uuid_check_status_value ServiceUUIDFound)
    then Ret (set_tracker s
           (Tracker.addAvailablePeer P (tracker s) address address_type services rssi))
    else Ret s
  | Some (GAP_SUBEVENT_LE_CONNECTION_COMPLETE con_handle role address_type address) =>
    let s := request s GapAdvertisementsEnable in
    let s := set_tracker s
               (Tracker.reportConnectionRole P (tracker s) con_handle address address_type role) in
    let s := set_connection_in_progress s false in
    let s := set_discovery s true (discover_characteristics_for_service s) in
    Ret (request s (DiscoverPrimaryServices con_handle))
  | Some HCI_EVENT_OTHER => Ret s
  end.

Inductive att_event : Type :=
  | ATT_EVENT_CONNECTED (handle address_type : Z) (address : bytes)
  | ATT_EVENT_DISCONNECTED (handle : Z)
  | ATT_EVENT_OTHER.

Definition att_packet_handler (P : Platform) (s : t) (packet : option att_event) : t :=
  let s := activity s in
  match packet with
  | None => s
  | Some (ATT_EVENT_CONNECTED handle address_type address) =>
    set_tracker s (Tracker.reportConnection P (tracker s) handle address address_type)
  | Some (ATT_EVENT_DISCONNECTED handle) =>
    set_tracker s (Tracker.reportDisconnection P (tracker s) handle)
  | Some ATT_EVENT_OTHER => s
  end.

Definition sm_packet_handler (s : t) : t := activity s.

(** The callbacks by which BTstack says that a handle can send. *)
Definition bitchat_can_send_notification_handler (P : Platform) (s : t) (con_handle : Z)
    : outcome t :=
  tr ← Tracker.notifyRawPacket P (tracker s) con_handle;
  Ret (set_tracker s tr).

Definition bitchat_can_write_without_response_handler (P : Platform) (s : t) (con_handle : Z)
    : outcome t :=
  tr ← Tracker.writeRawPacket P (tracker s) con_handle;
  Ret (set_tracker s tr).

Definition gpio_callback (s : t) (gpio events : Z) : t :=
  let s := activity s in
  let s := if (gpio =? EXIT_GPIO_PIN) && has_flag events GPIO_IRQ_EDGE_FALL
           then set_keep_running s false else s in
  if (gpio =? LIFE_CHECK_PIN) && has_flag events GPIO_IRQ_EDGE_FALL
  then set_life_check s true else s.

(** ** The work of the main loop *)

Definition connect_to_first_neighbour (P : Platform) (s : t) : t * bool :=
  match Tracker.getConnectableNeighbours (tracker s) with
  | [] => (s, false)
  | neighbour :: _ =>
    let address := BleConnection.getAddress neighbour in
    match Tracker.getConnectionForAddress (tracker s) address with
    | Some _ => (s, false)
    | None =>
      let s := request s (GapConnect address (BleConnection.getAddressType neighbour)) in
      if gap_connect P address (BleConnection.getAddressType neighbour) =? 0 then
        let s := set_tracker s (Tracker.setConnectionStarted (tracker s) neighbour) in
        (set_connection_in_progress s true, true)
      else (s, false)
    end
  end.

(** [" Still alive"] *)
Definition still_alive_string : bytes := [32; 83; 116; 105; 108; 108; 32; 97; 108; 105; 118; 101].

(** The content and the id of the message; ['['], [']'] and ['-'] are 91, 93
    and 45. *)
Definition life_check_content (timestamp_ms : Z) : outcome bytes :=
  let buffer := BinaryWriter.write_uint8 [] 91 in
  let buffer := BinaryWriter.write_uint16_hex16 buffer (u16 (timestamp_ms / 1000)) in
  let buffer := BinaryWriter.write_uint8 buffer 93 in
  BinaryWriter.write_data buffer still_alive_string (zlen still_alive_string).

Definition life_check_id (timestamp_ms sender : Z) : bytes :=
  let buffer := BinaryWriter.write_uint32_hex16 [] (u32 timestamp_ms) in
  let buffer := BinaryWriter.write_uint8 buffer 45 in
  BinaryWriter.write_uint48_hex16 buffer sender.

Definition handlePinActivity (P : Platform) (s : t) : outcome t :=
  let timestamp_ms := Tracker.getTimeMs P (tracker s) in
  if life_check s then
    let local_addr := gap_local_bd_addr P in
    let sender := Tracker.sender_of_address local_addr in
    messageContentString ← life_check_content timestamp_ms;
    let s := set_life_check s false in
    let message := Message.make_sender 7 timestamp_ms 0 sender in
    let message := Message.setContent message messageContentString in
    let message := Message.setMessageFlags message 0 in
    let message := Message.setMessageId message (life_check_id timestamp_ms sender) in
    let message := Message.setMessageTimestamp message timestamp_ms in
    name ← Tracker.repeater_name local_addr;
    let message := Message.setSenderNickname message name in
    match Tracker.storeMessageAndReturnIfNew P (tracker s) message with
    | (tr, Some messageIfNew) =>
      tr ← Tracker.enqueueBroadcastPacket tr messageIfNew;
      Ret (activity (set_tracker s tr))
    | (tr, None) => Ret (set_tracker s tr)
    end
  else Ret s.

End Repeater.
