(* ===== verification/Diagnostics.v ===== *)
(** * Diagnostic output

    What the program logs about its state: [print_named_data],
    [dump_advertisement_data], [printUUID], [dump_service] and
    [dump_characteristic] of main.cpp and [printStats] of
    BLE/BleConnectionTracker.cpp.  Each call of [LOG_DEBUG] is one text, a list
    of characters; the texts go to the ring of [CircularBuffer] and from there,
    line by line, to the console ([LogLines]).  The formatting of BTstack's
    addresses and identifiers is a parameter. *)

From stdpp Require Import base numbers list gmap strings.
From Stdlib Require Import ZArith Lia.
From S2P Require Import Prelude Platform Containers BinaryIO Packets ProtocolWriter BleConnection.
From S2P Require Import Tracker CircularBuffer LogLines Repeater.

Abbreviation text := (list Z).

(** The characters of a string literal. *)
Definition chars (s : string) : text :=
  (fun c => Z.of_N (Ascii.N_of_ascii c)) <$> String.list_ascii_of_string s.

Definition endl : text := [newline].

(** ** The conversions of [printf] *)

(** The digits of an unsigned value, most significant first; [fuel] is at
    least their number. *)
Fixpoint digits (base : Z) (fuel : nat) (v : Z) : list Z :=
  match fuel with
  | O => []
  | S fuel => if v <? base then [v] else digits base fuel (v / base) ++ [v mod base]
  end.

Definition digit_char (upper : bool) (d : Z) : Z :=
  if d <? 10 then 48 + d else (if upper then 55 else 87) + d.

(** [%0<width>], or [%<width>] with spaces. *)
Definition pad (c : Z) (width : nat) (t : text) : text := replicate (width - length t) c ++ t.

Definition fmt_base (base : Z) (upper : bool) (c : Z) (width : nat) (v : Z) : text :=
  pad c width (digit_char upper <$> digits base 64 v).

(** [%0<width>x], [%0<width>X], [%0<width>u] and [%d]. *)
Definition fmt_x (width : nat) (v : Z) : text := fmt_base 16 false 48 width v.
Definition fmt_X (width : nat) (v : Z) : text := fmt_base 16 true 48 width v.
Definition fmt_u (width : nat) (v : Z) : text := fmt_base 10 false 48 width v.
Definition fmt_d (v : Z) : text :=
  if v <? 0 then 45 :: fmt_u 0 (- v) else fmt_u 0 v.

(** [%c]: a zero ends the text that is formatted. *)
Definition fmt_c (c : Z) : text := if c =? 0 then [] else [c].

(** ** print_named_data *)

(** [for (int i = 0; i < data_size; i++)], from [i] on. *)
Fixpoint log_bytes (f : Z -> text) (data : bytes) (i : Z) (n : nat) : outcome (list text) :=
  match n with
  | O => Ret []
  | S n =>
    b ← buf_get data i;
    rest ← log_bytes f data (i + 1) n;
    Ret (f b :: rest)
  end.

Definition printable (b : Z) : text := if (b >=? 0x20) && (b <? 0x7e) then fmt_c b else chars " ".

Definition print_named_data (name : text) (data : bytes) (data_size : Z) : outcome (list text) :=
  hex ← log_bytes (fmt_x 2) data 0 (Z.to_nat data_size);
  characters ← log_bytes printable data 0 (Z.to_nat data_size);
  Ret ([name ++ chars ":"] ++ hex ++ [endl] ++ [name ++ chars "[c]:"] ++ characters ++ [endl]).

(** ** printStats *)

(** Hours, minutes, seconds and milliseconds since the start. *)
Definition stats_clock (time_us_64 : Z) : Z * Z * Z * Z :=
  let time_ms := u32 (time_us_64 / 1000) in
  let seconds := u32 (time_ms / 1000) in
  let minutes := u32 (seconds / 60) in
  let hours := u32 (minutes / 60) in
  let p_ms := u16 (time_ms - u32 (seconds * 1000)) in
  let p_seconds := u16 (seconds - u32 (minutes * 60)) in
  let p_minutes := u16 (minutes - u32 (hours * 60)) in
  (hours, p_minutes, p_seconds, p_ms).

Definition active_connections (s : Tracker.t) : list BleConnection.t :=
  filter (fun c => BleConnection.isConnected c = true) (node_val <$> (map_sorted (Tracker.connections s)).*2).

Section formats.
(** BTstack's [bd_addr_to_str] and [uuid128_to_str]. *)
Context (bd_addr_to_str uuid128_to_str : bytes -> text).

Definition printStats (P : Platform) (s : Tracker.t) : list text :=
  let '(hours, p_minutes, p_seconds, p_ms) := stats_clock (time_us_64 P 0) in
  [chars "[" ++ fmt_u 2 hours ++ chars ":" ++ fmt_u 2 p_minutes ++ chars ":" ++
   fmt_u 2 p_seconds ++ chars "." ++ fmt_u 3 p_ms ++ chars "]"] ++
  [fmt_d (if Tracker.timestamp_offset_ms s >? 0 then 1 else 0) ++ chars " "] ++
  ((fun connection =>
      chars "{0x" ++ fmt_x 0 (BleConnection.getConnectionHandle connection) ++ chars ":" ++
      fmt_d (BleConnection.getRole connection) ++ chars "-" ++
      bd_addr_to_str (BleConnection.getAddress connection) ++ chars "}") <$> active_connections s) ++
  [chars "con: " ++ fmt_d (zlen (active_connections s)) ++ chars "/" ++
   fmt_d (Z.of_nat (size (Tracker.connections s))) ++ chars ", avail: " ++
   fmt_d (Z.of_nat (size (Tracker.available_neighbours s))) ++ chars ", messages:" ++
   fmt_d (Z.of_nat (size (Tracker.messages s))) ++ chars ", packets:" ++
   fmt_d (Z.of_nat (size (Tracker.packets s))) ++ chars ", broadcast: " ++
   fmt_d (zlen (Tracker.broadcast_packets_to_send_list s)) ++ chars ", targeted: " ++
   fmt_d (zlen (Tracker.targeted_packets_to_send_list s)) ++ endl].

(** ** Services and characteristics *)

Definition printUUID (uuid128 : bytes) (uuid16 : Z) : list text :=
  if negb (uuid16 =? 0) then [fmt_x 4 uuid16] else [uuid128_to_str uuid128].

Definition dump_service (service : gatt_client_service_t) : list text :=
  [chars "    * service: [0x" ++ fmt_x 4 (service_start_group_handle service) ++ chars "-0x" ++
   fmt_x 4 (service_end_group_handle service) ++ chars "], uuid "] ++
  printUUID (service_uuid128 service) (service_uuid16 service) ++ [endl].

Definition dump_characteristic (c : gatt_client_characteristic_t) : list text :=
  [chars "    * characteristic: [0x" ++ fmt_x 4 (characteristic_start_handle c) ++ chars "-0x" ++
   fmt_x 4 (characteristic_value_handle c) ++ chars "-0x" ++ fmt_x 4 (characteristic_end_handle c) ++
   chars "], properties 0x" ++ fmt_x 2 (characteristic_properties c) ++ chars ", uuid "] ++
  printUUID (characteristic_uuid128 c) (characteristic_uuid16 c) ++ [endl].

(** ** Advertising data *)

Definition ad_types : list text := chars <$> [
  "";
  "Flags";
  "Incomplete List of 16-bit Service Class UUIDs";
  "Complete List of 16-bit Service Class UUIDs";
  "Incomplete List of 32-bit Service Class UUIDs";
  "Complete List of 32-bit Service Class UUIDs";
  "Incomplete List of 128-bit Service Class UUIDs";
  "Complete List of 128-bit Service Class UUIDs";
  "Shortened Local Name";
  "Complete Local Name";
  "Tx Power Level";
  "";
  "";
  "Class of Device";
  "Simple Pairing Hash C";
  "Simple Pairing Randomizer R";
  "Device ID";
  "Security Manager TK Value";
  "Slave Connection Interval Range";
  "";
  "List of 16-bit Service Solicitation UUIDs";
  "List of 128-bit Service Solicitation UUIDs";
  "Service Data";
  "Public Target Address";
  "Random Target Address";
  "Appearance";
  "Advertising Interval" ]%string.

Definition flags : list text := chars <$> [
  "LE Limited Discoverable Mode";
  "LE General Discoverable Mode";
  "BR/EDR Not Supported";
  "Simultaneous LE and BR/EDR to Same Device Capable (Controller)";
  "Simultaneous LE and BR/EDR to Same Device Capable (Host)";
  "Reserved";
  "Reserved";
  "Reserved" ]%string.

(** [table[i]] of one of the two tables. *)
Definition table_get (table : list text) (i : Z) : outcome text :=
  match table !! Z.to_nat i with Some t => Ret t | None => Fault (OutOfBounds i) end.

Definition little_endian_read_32 (buffer : bytes) (i : Z) : outcome Z :=
  b0 ← buf_get buffer i;
  b1 ← buf_get buffer (i + 1);
  b2 ← buf_get buffer (i + 2);
  b3 ← buf_get buffer (i + 3);
  Ret (b0 + 256 * b1 + 65536 * b2 + 16777216 * b3).

(** [for (i = 0; i < size; i += step)], from [i] on, [n] rounds at most. *)
Fixpoint log_steps (f : Z -> outcome text) (i step size : Z) (n : nat) : outcome (list text) :=
  match n with
  | O => Ret []
  | S n =>
    if i <? size then
      t ← f i;
      rest ← log_steps f (i + step) step size n;
      Ret (t :: rest)
    else Ret []
  end.

(** The loop over a structure's [size] octets. *)
Definition log_structure (f : Z -> outcome text) (step size : Z) : outcome (list text) :=
  log_steps f 0 step size (Z.to_nat size).

(** The flags of the first octet, from bit [i] on. *)
Fixpoint log_flags (octet i : Z) (n : nat) : outcome (list text) :=
  match n with
  | O => Ret []
  | S n =>
    t ← (if has_flag octet (Z.shiftl 1 i)
         then name ← table_get flags i; Ret [name ++ chars "; "] else Ret []);
    rest ← log_flags octet (i + 1) n;
    Ret (t ++ rest)
  end.

(** One structure: its type, the length of its data, and the bytes from the
    data pointer to the end of the advertising data. *)
Definition dump_structure (data_type size : Z) (data : bytes) : outcome (list text) :=
  let one_of l := bool_decide (data_type ∈ (l : list Z)) in
  if one_of [0x01] then (octet ← buf_get data 0; log_flags octet 0 8)
  else if one_of [0x02; 0x03; 0x14] then
    log_structure (fun i => v ← Repeater.little_endian_read_16 data i; Ret (fmt_X 4 v ++ chars " ")) 2 size
  else if one_of [0x04; 0x05; 0x1f] then
    log_structure (fun i => v ← little_endian_read_32 data i; Ret (fmt_x 4 v)) 4 size
  else if one_of [0x06; 0x07; 0x15] then
    uuid ← buf_slice data 0 16; Ret [uuid128_to_str (reverse uuid)]
  else if one_of [0x08; 0x09] then
    log_structure (fun i => b ← buf_get data i; Ret (fmt_c b)) 1 size
  else if one_of [0x0a] then
    b ← buf_get data 0; Ret [fmt_d (if b <? 128 then b else b - 256) ++ chars " dBm"]
  else if one_of [0x12] then
    low ← Repeater.little_endian_read_16 data 0;
    high ← Repeater.little_endian_read_16 data 2;
    Ret [chars "Connection Interval Min = " ++ fmt_u 0 (low * 5 / 4) ++ chars " ms, Max = " ++
         fmt_u 0 (high * 5 / 4) ++ chars " ms"]
  else if one_of [0x16] then
    log_structure (fun i => b ← buf_get data i; Ret (fmt_X 2 b ++ chars " ")) 2 size
  else if one_of [0x17; 0x18] then
    address ← buf_slice data 0 BD_ADDR_LEN; Ret [bd_addr_to_str (reverse address)]
  else if one_of [0x19] then
    v ← Repeater.little_endian_read_16 data 0; Ret [fmt_X 2 v]
  else if one_of [0x1a] then
    v ← Repeater.little_endian_read_16 data 0; Ret [fmt_u 0 (v * 5 / 8) ++ chars " ms"]
  else if one_of [0x3d] then
    log_structure (fun i => b ← buf_get data i; Ret (fmt_X 2 b ++ chars " ")) 2 size
  else
    Ret [chars "    Advertising Data Type 0x" ++ fmt_base 16 false 32 2 data_type ++
         chars " not handled yet"].

(** The loop over the structures BTstack's iterator yields. *)
Fixpoint dump_structures (items : list (Z * Z * bytes)) : outcome (list text) :=
  match items with
  | [] => Ret [endl]
  | (data_type, size, data) :: items' =>
    head ← (if (data_type >? 0) && (data_type <? 0x1B)
            then name ← table_get ad_types data_type; Ret [chars "    " ++ name ++ chars ": "]
            else Ret []);
    body ← dump_structure data_type size data;
    rest ← dump_structures items';
    Ret (head ++ body ++ [endl] ++ rest)
  end.

Definition dump_advertisement_data (ad : bytes -> list (Z * Z * bytes)) (advertisement_data : bytes)
    : outcome (list text) :=
  dump_structures (ad advertisement_data).

End formats.

(** ** Numbers *)

(** With enough fuel the digits denote the value. *)
Lemma digits_value base fuel : forall v,
  1 < base -> 0 <= v < base ^ Z.of_nat fuel ->
  foldl (fun acc d => acc * base + d) 0 (digits base fuel v) = v /\
  Forall (fun d => 0 <= d < base) (digits base fuel v).
Proof.
  induction fuel as [|fuel IH]; intros v Hb Hv; cbn [digits].
  { cbn in Hv |- *. split; [lia|constructor]. }
  destruct (Z.ltb_spec v base) as [Hlt|Hge]; [cbn; split; [lia|repeat constructor; lia]|].
  rewrite Nat2Z.inj_succ, Z.pow_succ_r in Hv by lia.
  destruct (IH (v / base)) as [Hval Hd]; [done|split; [apply Z.div_pos; lia|apply Z.div_lt_upper_bound; lia]|].
  rewrite foldl_app, Hval. cbn. split.
  - rewrite (Z.div_mod v base) at 3 by lia. lia.
  - apply Forall_app. split; [done|]. repeat constructor; apply Z.mod_pos_bound; lia.
Qed.

(** The two hexadecimal digits of a byte. *)
Definition hex2 (b : Z) : text := [digit_char false (b / 16); digit_char false (b mod 16)].

Lemma fmt_x_byte b : 0 <= b < 2 ^ 8 -> fmt_x 2 b = hex2 b.
Proof.
  intros Hb. unfold fmt_x, fmt_base, hex2. change 64%nat with (S (S 62)). cbn [digits].
  destruct (Z.ltb_spec b 16) as [Hlt|Hge].
  - rewrite Z.div_small, Z.mod_small by lia. reflexivity.
  - assert (b / 16 < 16) by (apply Z.div_lt_upper_bound; lia).
    rewrite (proj2 (Z.ltb_lt _ _)) by lia. done.
Qed.

Lemma digit_char_range u d : 0 <= d < 16 -> 48 <= digit_char u d < 2 ^ 8.
Proof. intros Hd. unfold digit_char. destruct (Z.ltb_spec d 10), u; lia. Qed.

Lemma hex2_chars b x : 0 <= b < 2 ^ 8 -> x ∈ hex2 b -> 48 <= x.
Proof.
  intros Hb. assert (0 <= b / 16 < 16) by (split; [apply Z.div_pos|apply Z.div_lt_upper_bound]; lia).
  assert (0 <= b mod 16 < 16) by (apply Z.mod_pos_bound; lia).
  unfold hex2. rewrite !elem_of_cons, elem_of_nil. intros [->|[->|[]]]; by apply digit_char_range.
Qed.

Lemma printable_char b : 0 <= b < 2 ^ 8 -> exists c, printable b = [c] /\ 0x20 <= c < 0x7e.
Proof.
  intros Hb. unfold printable, fmt_c. destruct ((b >=? 0x20) && (b <? 0x7e)) eqn:E; [|by exists 32].
  rewrite (proj2 (Z.eqb_neq b 0)) by lia. exists b. split; [done|lia].
Qed.

(** ** print_named_data *)

Lemma log_bytes_spec f data : forall pre post,
  data = pre ++ post -> log_bytes f data (zlen pre) (length post) = Ret (f <$> post).
Proof.
  intros pre post. revert pre. induction post as [|b post IH]; intros pre E; cbn [log_bytes length]; [done|].
  assert (buf_get data (zlen pre) = Ret b) as -> by (rewrite E; apply buf_get_app).
  cbn [mbind outcome_bind]. replace (zlen pre + 1) with (zlen (pre ++ [b])) by (by rewrite zlen_app).
  rewrite IH; [done|]. by rewrite <- app_assoc.
Qed.

(** The texts of a call on a block of its own size. *)
Lemma print_named_data_spec name data :
  bytes_ok data ->
  print_named_data name data (zlen data) =
    Ret ([name ++ chars ":"] ++ (hex2 <$> data) ++ [endl] ++
         [name ++ chars "[c]:"] ++ (printable <$> data) ++ [endl]).
Proof.
  intros Hd. unfold print_named_data. unfold zlen. rewrite Nat2Z.id.
  rewrite (log_bytes_spec _ data [] data), (log_bytes_spec _ data [] data) by done.
  assert (fmt_x 2 <$> data = hex2 <$> data) as ->; [|done].
  apply list_fmap_ext. intros i b Hb. apply fmt_x_byte. by eapply bytes_ok_lookup.
Qed.

(** Characters of a line: none is a zero or a newline. *)
Definition line_text (l : text) : Prop := Forall (fun x => x <> 0 /\ x <> newline) l.

Lemma line_text_app l1 l2 : line_text (l1 ++ l2) <-> line_text l1 /\ line_text l2.
Proof. apply Forall_app. Qed.

Lemma line_text_no_newline l : line_text l -> newline ∉ l.
Proof. unfold line_text. rewrite Forall_forall. intros H Hin. by destruct (H _ Hin). Qed.

Lemma line_text_no_zero l : line_text l -> no_zero l.
Proof. intros H. eapply Forall_impl; [exact H|]. by intros x []. Qed.

Lemma hex_line_text data : bytes_ok data -> line_text (concat (hex2 <$> data)).
Proof.
  induction 1 as [|b data Hb _ IH]; cbn [fmap list_fmap concat]; [constructor|].
  apply line_text_app. split; [|done]. apply Forall_forall. intros x Hx.
  apply hex2_chars in Hx; [|done]. unfold newline. lia.
Qed.

Lemma printable_line_text data : bytes_ok data -> line_text (concat (printable <$> data)).
Proof.
  induction 1 as [|b data Hb _ IH]; cbn [fmap list_fmap concat]; [constructor|].
  apply line_text_app. split; [|done]. destruct (printable_char b Hb) as (c & -> & Hc).
  repeat constructor; unfold newline; lia.
Qed.

Lemma length_hex data : zlen (concat (hex2 <$> data)) = 2 * zlen data.
Proof.
  induction data as [|b data IH]; [done|]. cbn [fmap list_fmap concat]. rewrite zlen_app, zlen_cons, IH.
  change (zlen (hex2 b)) with 2. lia.
Qed.

Lemma length_printable data : bytes_ok data -> zlen (concat (printable <$> data)) = zlen data.
Proof.
  induction 1 as [|b data Hb _ IH]; [done|]. cbn [fmap list_fmap concat].
  destruct (printable_char b Hb) as (c & -> & _). rewrite zlen_app, IH, !zlen_cons, zlen_nil. lia.
Qed.

Lemma line_loggable t : line_text t -> t <> [] -> zlen t < 600 -> loggable t.
Proof. intros Ht Hn Hl. split; [done|]. split; [by apply line_text_no_zero|done]. Qed.

Lemma named_data_loggable name data :
  line_text name -> bytes_ok data -> zlen name < 590 ->
  Forall loggable ([name ++ chars ":"] ++ (hex2 <$> data) ++ [endl] ++
                   [name ++ chars "[c]:"] ++ (printable <$> data) ++ [endl]).
Proof.
  intros Hn Hd Hl.
  assert (loggable endl) as He by (split; [done|split; [constructor; [unfold newline; lia|constructor]|by vm_compute]]).
  assert (forall s, line_text (chars s) -> zlen (chars s) <= 4 -> loggable (name ++ chars s) \/ chars s = [])
    as Hs.
  { intros s Hc Hlc. destruct (decide (chars s = [])); [by right|left]. apply line_loggable.
    - by apply line_text_app.
    - by destruct name.
    - rewrite zlen_app. lia. }
  assert (Forall loggable (hex2 <$> data) /\ Forall loggable (printable <$> data)) as [Hh Hp].
  { unfold bytes_ok in Hd. rewrite !Forall_fmap. split; (eapply Forall_impl; [exact Hd|]); intros b Hb; cbn.
    - apply line_loggable; [|done|by vm_compute]. apply Forall_forall. intros x Hx.
      apply hex2_chars in Hx; [|done]. unfold newline. lia.
    - destruct (printable_char b Hb) as (c & -> & Hc).
      apply line_loggable; [repeat constructor; unfold newline; lia|done|by vm_compute]. }
  rewrite !Forall_app, !Forall_singleton. split_and!; try done.
  - destruct (Hs ":"%string) as [H|H]; [repeat constructor; done|by vm_compute|done|done].
  - destruct (Hs "[c]:"%string) as [H|H]; [repeat constructor; done|by vm_compute|done|done].
Qed.

(** ** Properties *)

(** The two lines of a block. *)
Definition hex_line (name : text) (data : bytes) : text := name ++ chars ":" ++ concat (hex2 <$> data).
Definition char_line (name : text) (data : bytes) : text :=
  name ++ chars "[c]:" ++ concat (printable <$> data).

Lemma line_texts name data :
  line_text name -> bytes_ok data ->
  line_text (hex_line name data) /\ line_text (char_line name data).
Proof.
  intros Hn Hd. unfold hex_line, char_line. rewrite !line_text_app.
  split_and!; try done; try (by apply hex_line_text); try (by apply printable_line_text);
    repeat constructor; done.
Qed.

Lemma line_lengths name data :
  bytes_ok data ->
  zlen (hex_line name data) = zlen name + 1 + 2 * zlen data /\
  zlen (char_line name data) = zlen name + 4 + zlen data.
Proof.
  intros Hd. unfold hex_line, char_line. rewrite !zlen_app, length_hex, length_printable by done.
  change (zlen (chars ":")) with 1. change (zlen (chars "[c]:")) with 4. lia.
Qed.

(** C27. A block that is logged by name comes out on the console in hexadecimal
    and as printable characters: when the ring is drained and has room for the
    text, the texts of [print_named_data] are written and the next
    [printAvailableLogging] ends, prints the two lines [hex_line] and
    [char_line], each cut into pieces of 159 characters like any logged text,
    and drains the ring; lines that fit the line array come out whole. *)
Theorem named_data_is_printed asserts b name data line fuel :
  drained b -> line_text name -> zlen name < 590 -> bytes_ok data -> zlen line = SERIAL_LOG_BUFFER_LEN ->
  2 * zlen name + 3 * zlen data + 7 < CircularBuffer.fixed_size b - 1 ->
  2 * zlen name + 3 * zlen data + 7 <= Z.of_nat fuel ->
  exists texts b1 b2 lines,
    print_named_data name data (zlen data) = Ret texts /\ log_all asserts b texts = Ret b1 /\
    printAvailableLogging fuel b1 line = Ret (Some (b2, lines)) /\ drained b2 /\
    lines = chop (Z.to_nat (SERIAL_LOG_BUFFER_LEN - 1)) []
              (hex_line name data ++ newline :: char_line name data ++ [newline]) /\
    (zlen name + 4 + 2 * zlen data < SERIAL_LOG_BUFFER_LEN - 1 ->
     lines = [hex_line name data; char_line name data]).
Proof.
  intros Hd Hn Hln Hdata Hl Hroom Hf. pose proof (zlen_nonneg name). pose proof (zlen_nonneg data).
  unfold SERIAL_LOG_BUFFER_LEN in *.
  destruct (line_texts name data Hn Hdata) as [Hh Hc].
  destruct (line_lengths name data Hdata) as [Lh Lc].
  set (texts := [name ++ chars ":"] ++ (hex2 <$> data) ++ [endl] ++
         [name ++ chars "[c]:"] ++ (printable <$> data) ++ [endl]).
  assert (concat texts = hex_line name data ++ newline :: char_line name data ++ [newline]) as Hcat.
  { unfold texts, hex_line, char_line. rewrite !concat_app. cbn [concat endl].
    rewrite !app_nil_r, <- !app_assoc. done. }
  assert (zlen (concat texts) = 2 * zlen name + 3 * zlen data + 7) as Hlen.
  { rewrite Hcat. autorewrite with repeater. lia. }
  destruct (log_and_print asserts b texts line fuel) as (b1 & b2 & E1 & E2 & Hd2 & _);
    [done|by apply named_data_loggable|done|lia|unfold zlen in *; lia|].
  exists texts, b1, b2. eexists. split; [by apply print_named_data_spec|]. split; [done|].
  split; [exact E2|]. split; [done|]. rewrite Hcat. split; [done|]. intros Hw.
  unfold SERIAL_LOG_BUFFER_LEN. change (Z.to_nat (160 - 1)) with 159%nat.
  rewrite chop_line by (first [by apply line_text_no_newline|cbn; unfold zlen in *; lia]).
  rewrite chop_line by (first [by apply line_text_no_newline|cbn; unfold zlen in *; lia]). done.
Qed.

(** A block of a hundred bytes, whose line of digits is cut in two. *)
Lemma named_data_is_printed_witness :
  let data := replicate 100 97 in
  exists texts b1 b2 lines,
    print_named_data (chars "packet") data 100 = Ret texts /\
    log_all true (CircularBuffer.make (replicate 3001 7) 3000) texts = Ret b1 /\
    printAvailableLogging 400 b1 (replicate 160 0) = Ret (Some (b2, lines)) /\ drained b2 /\
    lines = chop 159 []
              (hex_line (chars "packet") data ++ newline :: char_line (chars "packet") data ++ [newline]) /\
    (zlen (chars "packet") + 4 + 2 * zlen data < SERIAL_LOG_BUFFER_LEN - 1 ->
     lines = [hex_line (chars "packet") data; char_line (chars "packet") data]).
Proof.
  intros data.
  apply (named_data_is_printed true (CircularBuffer.make (replicate 3001 7) 3000) (chars "packet")
    data (replicate 160 0) 400).
  - split; [split|..]; vm_compute; try done; split; done.
  - vm_compute. repeat constructor; done.
  - vm_compute. reflexivity.
  - apply (bool_decide_unpack _). vm_compute. exact I.
  - reflexivity.
  - vm_compute. reflexivity.
  - vm_compute. discriminate.
Defined.

(** The clock of the status line: hours, minutes, seconds and milliseconds
    add up to the 32 bit count of milliseconds since the start, and each part
    is in its range, so it fits the width it is printed with (hours reach 1193
    before the count wraps). *)
Theorem stats_clock_correct t :
  0 <= t < 2 ^ 64 ->
  let '(hours, minutes, seconds, ms) := stats_clock t in
  hours * 3600000 + minutes * 60000 + seconds * 1000 + ms = u32 (t / 1000) /\
  0 <= hours <= 1193 /\ 0 <= minutes < 60 /\ 0 <= seconds < 60 /\ 0 <= ms < 1000.
Proof.
  intros Ht. unfold stats_clock. set (time_ms := u32 (t / 1000)).
  assert (0 <= time_ms < 2 ^ 32) as Hr by (apply Z.mod_pos_bound; lia). clearbody time_ms.
  unfold u32, u16. cbv zeta. change (2 ^ 32) with 4294967296 in *. change (2 ^ 16) with 65536.
  Z.div_mod_to_equations. lia.
Qed.

Lemma stats_clock_correct_witness :
  let '(hours, minutes, seconds, ms) := stats_clock 93784005006 in
  hours * 3600000 + minutes * 60000 + seconds * 1000 + ms = u32 93784005 /\
  0 <= hours <= 1193 /\ 0 <= minutes < 60 /\ 0 <= seconds < 60 /\ 0 <= ms < 1000.
Proof. apply (stats_clock_correct 93784005006). lia. Defined.

(** ** The tables and the dump *)

(** The guard on the type keeps the look-up inside the table of names, and the
    eight flags inside theirs. *)
Lemma ad_types_in_bounds data_type :
  (data_type >? 0) && (data_type <? 0x1B) = true -> is_Ret (table_get ad_types data_type).
Proof.
  intros H. assert (0 < data_type < 0x1B) as Ht by lia. unfold table_get.
  destruct (lookup_lt_is_Some_2 ad_types (Z.to_nat data_type)) as [t ->]; [|by eexists].
  change (length ad_types) with 27%nat. lia.
Qed.

Lemma log_flags_total octet n : forall i, 0 <= i -> i + Z.of_nat n <= 8 -> is_Ret (log_flags octet i n).
Proof.
  induction n as [|n IH]; intros i Hi Hn; cbn [log_flags]; [by eexists|].
  assert (exists t, table_get flags i = Ret t) as [t Ht].
  { unfold table_get. destruct (lookup_lt_is_Some_2 flags (Z.to_nat i)) as [t ->]; [|by eexists].
    change (length flags) with 8%nat. lia. }
  destruct (IH (i + 1)) as [rest Hrest]; [lia|lia|].
  destruct (has_flag octet (Z.shiftl 1 i)); rewrite ?Ht; cbn [mbind outcome_bind]; rewrite Hrest; by eexists.
Qed.

(** A structure of flags without an octet at the end of the data is read
    past its end. *)
Lemma dump_reads_past_end addr_str uuid_str :
  dump_structures addr_str uuid_str [(0x01, 0, [])] = Fault (OutOfBounds 0).
Proof. reflexivity. Qed.

(** The dump of the flags and the name of a repeater. *)
Example dump_demo :
  dump_structures (fun _ => []) (fun _ => chars "uuid")
    [(0x01, 1, [6; 9; 9; 82; 101]); (0x09, 2, [82; 101])] =
  Ret [chars "    Flags: "; chars "LE General Discoverable Mode; "; chars "BR/EDR Not Supported; "; endl;
       chars "    Complete Local Name: "; chars "R"; chars "e"; endl; endl].
Proof. vm_compute. reflexivity. Qed.

Example printStats_demo :
  concat (printStats (fun _ => chars "AA") (demo_platform 93784005006) (Tracker.make 1)) =
  chars "[26:03:04.005]0 con: 0/0, avail: 0, messages:0, packets:0, broadcast: 0, targeted: 0" ++ endl.
Proof. vm_compute. reflexivity. Qed.
