(* ===== verification/MainLoop.v ===== *)
(** * The main loop and its interleaving with the callbacks

    [main] of main.cpp after the initialisation of the drivers.  The body of
    the loop is cut into phases, named by [pc]; between two phases any callback
    may run.  The clock is 32 bits wide here and wraps every 71 minutes. *)

From stdpp Require Import base numbers list gmap.
From Stdlib Require Import ZArith Lia.
From S2P Require Import Prelude Platform Containers BinaryIO Packets ProtocolWriter BleConnection.
From S2P Require Import Tracker TrackerInv Sending Housekeeping Processor ProcessorInv RoundTrip.
From S2P Require Import Relay Repeater.

Notation "a -u32 b" := (u32 (a - b)) (at level 50, left associativity) : word_scope.
Notation "a +u32 b" := (u32 (a + b)) (at level 50, left associativity) : word_scope.

Module MainLoop.

(** The variables of [main]. *)
Record locals : Type := mkLocals {
  loopStart : Z;
  lastSleepOrActivity : Z;
  lastAnnounce : Z;
  lastFlash : Z;
  lastScan : Z;
  lastRssiUpdate : Z;
  rssi_update_in_progress : bool;
  lastCleanup : Z;
  last_activity : Z;
  slept : bool }.

Definition set_loopStart (l : locals) (x : Z) : locals :=
  mkLocals x (lastSleepOrActivity l) (lastAnnounce l) (lastFlash l) (lastScan l) (lastRssiUpdate l)
    (rssi_update_in_progress l) (lastCleanup l) (last_activity l) (slept l).

Definition set_lastAnnounce (l : locals) (x : Z) : locals :=
  mkLocals (loopStart l) (lastSleepOrActivity l) x (lastFlash l) (lastScan l) (lastRssiUpdate l)
    (rssi_update_in_progress l) (lastCleanup l) (last_activity l) (slept l).

Definition set_lastFlash (l : locals) (x : Z) : locals :=
  mkLocals (loopStart l) (lastSleepOrActivity l) (lastAnnounce l) x (lastScan l) (lastRssiUpdate l)
    (rssi_update_in_progress l) (lastCleanup l) (last_activity l) (slept l).

Definition set_rssi_update (l : locals) (last : Z) (in_progress : bool) : locals :=
  mkLocals (loopStart l) (lastSleepOrActivity l) (lastAnnounce l) (lastFlash l) (lastScan l) last
    in_progress (lastCleanup l) (last_activity l) (slept l).

Definition set_lastScan (l : locals) (x : Z) : locals :=
  mkLocals (loopStart l) (lastSleepOrActivity l) (lastAnnounce l) (lastFlash l) x (lastRssiUpdate l)
    (rssi_update_in_progress l) (lastCleanup l) (last_activity l) (slept l).

Definition set_lastCleanup (l : locals) (x : Z) : locals :=
  mkLocals (loopStart l) (lastSleepOrActivity l) (lastAnnounce l) (lastFlash l) (lastScan l)
    (lastRssiUpdate l) (rssi_update_in_progress l) x (last_activity l) (slept l).

Definition set_slept (l : locals) (x : bool) : locals :=
  mkLocals (loopStart l) (lastSleepOrActivity l) (lastAnnounce l) (lastFlash l) (lastScan l)
    (lastRssiUpdate l) (rssi_update_in_progress l) (lastCleanup l) (last_activity l) x.

Definition set_activity (l : locals) (last : Z) (activity : Z) : locals :=
  mkLocals (loopStart l) last (lastAnnounce l) (lastFlash l) (lastScan l)
    (lastRssiUpdate l) (rssi_update_in_progress l) (lastCleanup l) activity (slept l).

(** The declarations before the loop; [now k] is the k-th read of
    [time_us_32()]. *)
Definition start_locals (now : nat -> Z) (s : Repeater.t) : locals :=
  mkLocals 0 (now 0%nat) (now 1%nat) 0 (now 2%nat) (now 3%nat) false
    (now 4%nat +u32 five_minutes_in_us) (Repeater.global_activity s) false.

Inductive pc : Type :=
  | AtLoop | AtPins | AtAnnounce | AtConnect | AtSend | AtFlash | AtRssi | AtScan | AtCleanup
  | AtSleep | AtBookkeeping | Exited.

#[global] Instance pc_eq_dec : EqDecision pc.
Proof. solve_decision. Defined.

Record prog : Type := mkProg { at_pc : pc; vars : locals; globals : Repeater.t }.

(** [(loopStart - last) > period], in [uint32_t]. *)
Definition due (l : locals) (last period : Z) : bool := (loopStart l -u32 last) >? period.

(** The condition under which the loop connects to a neighbour. *)
Definition may_connect (s : Repeater.t) (loopStart : Z) : bool :=
  negb (Repeater.scanning s) && negb (Repeater.connection_in_progress s) &&
  negb (Repeater.discover_primary_services s) &&
  negb (Repeater.discover_characteristics_for_service s) &&
  (Repeater.disconnection_started_at s <? loopStart -u32 two_seconds_in_us).

Definition connect_or_disconnect (P : Platform) (now : Z) (s : Repeater.t) : Repeater.t :=
  let '(s, connecting) := Repeater.connect_to_first_neighbour P s in
  if connecting : bool then s
  else
    let '(tr, duplicate) := Tracker.getAnyDuplicateHandle P (Repeater.tracker s) in
    let s := Repeater.set_tracker s tr in
    if negb (duplicate =? 0) then
      let s := Repeater.request s (GapDisconnect duplicate) in
      if gap_disconnect P duplicate =? ERROR_CODE_SUCCESS
      then Repeater.set_disconnection_started_at s now else s
    else s.

(** One phase.  [now] is what [time_us_32()] returns in it. *)
Definition phase (P : Platform) (now : Z) (x : prog) : outcome prog :=
  let l := vars x in
  let s := globals x in
  match at_pc x with
  | AtLoop =>
    if Repeater.keep_running s then Ret (mkProg AtPins (set_loopStart l now) s)
    else Ret (mkProg Exited l s)
  | AtPins =>
    s ← Repeater.handlePinActivity P s;
    Ret (mkProg AtAnnounce l s)
  | AtAnnounce =>
    if due l (lastAnnounce l) two_seconds_in_us then
      tr ← Tracker.announceToConnections P (Repeater.tracker s);
      Ret (mkProg AtConnect (set_lastAnnounce l now) (Repeater.set_tracker s tr))
    else Ret (mkProg AtConnect l s)
  | AtConnect =>
    Ret (mkProg AtSend l
           (if may_connect s (loopStart l) then connect_or_disconnect P now s else s))
  | AtSend =>
    tr ← Tracker.sendPackets P (Repeater.tracker s);
    Ret (mkProg AtFlash l (Repeater.set_tracker s tr))
  | AtFlash =>
    if due l (lastFlash l) two_seconds_in_us
    then Ret (mkProg AtRssi (set_lastFlash l now) (Repeater.request s FlashLed))
    else Ret (mkProg AtRssi l s)
  | AtRssi =>
    if due l (lastRssiUpdate l) five_minutes_in_us then
      '(tr, more) ← Tracker.requestNextRssi (Repeater.tracker s) true;
      Ret (mkProg AtScan (set_rssi_update l now more) (Repeater.set_tracker s tr))
    else if rssi_update_in_progress l then
      '(tr, more) ← Tracker.requestNextRssi (Repeater.tracker s) false;
      Ret (mkProg AtScan (set_rssi_update l (lastRssiUpdate l) more) (Repeater.set_tracker s tr))
    else Ret (mkProg AtScan l s)
  | AtScan =>
    if due l (lastScan l) ten_minutes_in_us
    then Ret (mkProg AtCleanup (set_lastScan l now) (Repeater.start_scanning_for_local_nodes s))
    else Ret (mkProg AtCleanup l s)
  | AtCleanup =>
    if due l (lastCleanup l) ten_minutes_in_us then
      tr ← Tracker.cleanupStaleItems P (Repeater.tracker s);
      Ret (mkProg AtSleep (set_slept (set_lastCleanup l now) false) (Repeater.set_tracker s tr))
    else Ret (mkProg AtSleep (set_slept l false) s)
  | AtSleep =>
    if due l (lastSleepOrActivity l) two_seconds_in_us &&
       (last_activity l =? Repeater.global_activity s)
    then Ret (mkProg AtSleep (set_slept l true) s)
    else Ret (mkProg AtBookkeeping l s)
  | AtBookkeeping =>
    if slept l || negb (last_activity l =? Repeater.global_activity s)
    then Ret (mkProg AtLoop (set_activity l now (Repeater.global_activity s)) s)
    else Ret (mkProg AtLoop l s)
  | Exited => Ret x
  end.

(** The callbacks that may run between two phases. *)
Inductive event : Type :=
  | AttRead (att_handle offset : Z) (buffer : bytes) (buffer_size : Z)
  | AttWrite (connection_handle att_handle transaction_mode offset : Z) (buffer : bytes)
      (buffer_size : Z)
  | GattClient (e : Repeater.gatt_client_event)
  | ValueUpdate (e : Repeater.value_update_event)
  | Hci (e : option Repeater.hci_event)
  | Att (e : option Repeater.att_event)
  | Sm
  | CanNotify (con_handle : Z)
  | CanWrite (con_handle : Z)
  | Gpio (gpio events : Z)
  | StopScanTimer.

Definition callback (ad : ad_iterator) (H : AttHandles) (P : Platform) (e : event) (s : Repeater.t)
    : outcome Repeater.t :=
  match e with
  | AttRead att_handle offset buffer buffer_size =>
    '(s, _, _) ← Repeater.att_read_callback H s att_handle offset buffer buffer_size; Ret s
  | AttWrite connection_handle att_handle transaction_mode offset buffer buffer_size =>
    Repeater.att_write_callback H P s connection_handle att_handle transaction_mode offset buffer
      buffer_size
  | GattClient e => Ret (Repeater.handle_gatt_client_event P s e)
  | ValueUpdate e => Repeater.handle_gatt_client_value_update_event P s e
  | Hci e => Repeater.hci_packet_handler ad P s e
  | Att e => Ret (Repeater.att_packet_handler P s e)
  | Sm => Ret (Repeater.sm_packet_handler s)
  | CanNotify con_handle => Repeater.bitchat_can_send_notification_handler P s con_handle
  | CanWrite con_handle => Repeater.bitchat_can_write_without_response_handler P s con_handle
  | Gpio gpio events => Ret (Repeater.gpio_callback s gpio events)
  | StopScanTimer => Ret (Repeater.stop_scan_handler s)
  end.

(** What happens next: a phase of the loop, or a callback. *)
Inductive label : Type :=
  | Loop (P : Platform) (now : Z)
  | Callback (P : Platform) (e : event).

Definition exec (ad : ad_iterator) (H : AttHandles) (lab : label) (x : prog) : outcome prog :=
  match lab with
  | Loop P now => phase P now x
  | Callback P e =>
    s ← callback ad H P e (globals x);
    Ret (mkProg (at_pc x) (vars x) s)
  end.

End MainLoop.
