(* ===== verification/Interleaving.v ===== *)
(** * Runs of the program

    The invariant of the tracker along the interleavings of the phases of the
    main loop with the callbacks, and what single phases and callbacks do. *)

From stdpp Require Import base numbers list gmap.
From Stdlib Require Import ZArith Lia.
From S2P Require Import Prelude Platform Containers BinaryIO Packets ProtocolWriter BleConnection.
From S2P Require Import Tracker TrackerInv Sending Housekeeping Processor ProcessorInv RoundTrip.
From S2P Require Import Relay Repeater MainLoop.

Import MainLoop.

(** ** Callbacks keep the invariant *)

Section Callbacks.
Context (P : Platform) `{!PlatformLaws P}.

Definition globals_ok (s : Repeater.t) : Prop := tracker_ok (Repeater.tracker s).

(** The faults of a run: those the content of a packet may cause, a signal
    strength request without any connection ([end()]), and accesses past the end
    of a buffer (short advertising data, a one byte write to the client
    configuration, the advertisement that is filled a second time).  A dangling
    pointer or a wrong cast is not among them. *)
Definition run_fault (f : fault) : Prop :=
  f = NullPointer \/ f = SignedOverflow \/ f = AssertionFailed \/ f = EndIterator \/
  exists i, f = OutOfBounds i.

Lemma ok_for_handle s h :
  tracker_ok s -> tracker_ok (Tracker.connectionForConnHandle P s h).1.
Proof.
  intros H. destruct (Tracker.connectionForConnHandle P s h) as [s' a] eqn:E.
  by apply (ok_connectionForConnHandle P) in E as [].
Qed.

(** Updating the entry that [connectionForConnHandle] returned. *)
Lemma ok_update_for_handle s h f :
  (forall c, BleConnection.connected (f c) = BleConnection.connected c) ->
  (forall c, BleConnection.connection_handle (f c) = BleConnection.connection_handle c) ->
  tracker_ok s ->
  tracker_ok (Tracker.update_connection (Tracker.connectionForConnHandle P s h).1 h f).
Proof. intros. by apply ok_update_connection_other, ok_for_handle. Qed.

Lemma ok_handle_gatt_client_event s e :
  globals_ok s -> globals_ok (Repeater.handle_gatt_client_event P s e).
Proof.
  intros H. unfold globals_ok in *. destruct e as [h mtu|h sv|h ch|h|]; cbn; [| | | |done].
  - by apply ok_update_for_handle.
  - destruct (_ =? 0); [|by apply ok_for_handle]. apply ok_update_for_handle; [..|done];
      intros c; unfold BleConnection.storeHandlesIfServiceMatches; by case_decide.
  - destruct (_ =? 0); [|by apply ok_for_handle]. apply ok_update_for_handle; [..|done];
      intros c; unfold BleConnection.storeHandlesIfCharacteristicMatches; by case_decide.
  - destruct (Tracker.connectionForConnHandle P _ h) as [tr a] eqn:E.
    apply (ok_connectionForConnHandle P) in E as [Htr _]; [|done]. cbn.
    destruct (Tracker.connections tr !! h); [|done].
    by destruct (BleConnection.canAndNeedToDiscoverBitchatCharacteristicsQuery _).
Qed.

Lemma ok_att_packet_handler s e : globals_ok s -> globals_ok (Repeater.att_packet_handler P s e).
Proof.
  intros H. unfold globals_ok in *. destruct e as [[h ty addr|h|]|]; cbn; [| |done..].
  - by apply ok_reportConnection.
  - by apply ok_reportDisconnection.
Qed.

Lemma ok_gpio_callback s gpio events : globals_ok s -> globals_ok (Repeater.gpio_callback s gpio events).
Proof.
  intros H. unfold globals_ok, Repeater.gpio_callback in *.
  by destruct (_ && _), (_ && _).
Qed.

Lemma run_fault_bounds i : run_fault (OutOfBounds i).
Proof. do 4 right. by eexists. Qed.
#[local] Hint Resolve run_fault_bounds : core.

(** Reads that may leave their buffer. *)
Lemma buf_get_spec buf i : outcome_spec run_fault (fun _ => True) (buf_get buf i).
Proof. unfold buf_get. repeat case_match; cbn; auto. Qed.

Lemma read_16_spec buf i :
  outcome_spec run_fault (fun _ => True) (Repeater.little_endian_read_16 buf i).
Proof.
  eapply outcome_spec_bind; [apply buf_get_spec|intros low _].
  eapply outcome_spec_bind; [apply buf_get_spec|done].
Qed.

Lemma memcmp_equal_spec expected data :
  outcome_spec run_fault (fun _ => True) (memcmp_equal expected data).
Proof. unfold memcmp_equal, buf_slice. case_decide; cbn; auto. Qed.

Lemma check_for_uuid_spec ad data : outcome_spec run_fault (fun _ => True) (check_for_uuid ad data).
Proof.
  assert (forall items fu fn, outcome_spec run_fault (fun _ => True) (check_loop items fu fn)) as Hloop.
  { induction items as [|[ty d] items IH]; intros fu fn; cbn [check_loop]; [done|].
    destruct (_ || _ || _); [eapply outcome_spec_bind; [apply memcmp_equal_spec|auto]|].
    destruct (_ || _); [eapply outcome_spec_bind; [apply memcmp_equal_spec|auto]|apply IH]. }
  eapply outcome_spec_bind; [apply Hloop|by intros []].
Qed.

Lemma ok_att_write_callback H s ch ah tm offset buffer size :
  globals_ok s -> bytes_ok buffer ->
  0 <= offset < 2 ^ 16 -> 0 <= size < 2 ^ 16 -> size <= zlen buffer ->
  outcome_spec run_fault globals_ok
    (Repeater.att_write_callback H P s ch ah tm offset buffer size).
Proof.
  intros Hok Hb Ho Hs Hl. unfold Repeater.att_write_callback, globals_ok in *.
  destruct (negb _); [done|].
  destruct (Tracker.connectionForConnHandle P _ ch) as [tr a] eqn:E.
  apply (ok_connectionForConnHandle P) in E as (Htr & Ha & _); [|done].
  destruct (ah =? _); [|destruct (ah =? _); [|done]].
  - eapply outcome_spec_bind; [apply read_16_spec|]. intros v _.
    cbn [outcome_spec Repeater.tracker Repeater.set_tracker].
    by case_match; repeat apply ok_update_connection_other.
  - destruct (deref_connection_live tr a Ha) as (k & v & -> & _). cbn [mbind outcome_bind].
    eapply outcome_spec_bind; [|by intros tr' Htr'].
    eapply outcome_spec_mono; [by apply processWrite_spec|done|]. unfold run_fault. naive_solver.
Qed.

(** Filling the advertising data leaves the tracker alone. *)
Definition same_tracker (s s' : Repeater.t) : Prop := Repeater.tracker s' = Repeater.tracker s.

Lemma adv_push_spec s b : outcome_spec run_fault (same_tracker s) (Repeater.adv_push s b).
Proof. unfold Repeater.adv_push. case_decide; [done|cbn; auto]. Qed.

Lemma adv_block_spec s b : outcome_spec run_fault (same_tracker s) (Repeater.adv_block s b).
Proof. unfold Repeater.adv_block. case_decide; [done|cbn; auto]. Qed.

Lemma populate_spec s : outcome_spec run_fault (same_tracker s) (Repeater.populate_advertising_data s).
Proof.
  unfold Repeater.populate_advertising_data.
  do 5 (eapply outcome_spec_bind; [apply adv_push_spec|intros ? ?]).
  eapply outcome_spec_bind; [apply adv_block_spec|intros ? ?]. cbv zeta.
  eapply outcome_spec_bind; [apply adv_push_spec|intros ? ?].
  eapply outcome_spec_bind; [match goal with |- outcome_spec _ _ (if ?c then _ else _) => destruct c end;
    apply adv_push_spec|intros ? ?].
  eapply outcome_spec_mono; [apply adv_block_spec|unfold same_tracker in *; congruence|done].
Qed.


(** The 31 bytes of the advertisement. *)
Definition advertisement : bytes :=
  [2; 0x01; 6; 17; 0x06] ++ bitchat_service_uuid_reversed ++ [9; 0x09] ++ bitchat_service_name.

Lemma populate_advertising_data_first s :
  Repeater.adv_data_len s = 0 -> length (Repeater.adv_data s) = 31%nat ->
  Repeater.populate_advertising_data s = Ret (Repeater.set_adv s advertisement 31).
Proof.
  intros Hl Hd. destruct s as [? ? ? ? ? ? ? ? data len ? ?]. cbn in Hl, Hd. subst len.
  do 31 (destruct data as [|? data]; [discriminate Hd|]). by destruct data.
Qed.

Lemma setup_advertisements_spec s :
  outcome_spec run_fault (same_tracker s) (Repeater.setup_advertisements s).
Proof. eapply outcome_spec_bind; [apply populate_spec|intros s1 Hs1; exact Hs1]. Qed.

Lemma ok_hci_packet_handler ad s e :
  globals_ok s -> outcome_spec run_fault globals_ok (Repeater.hci_packet_handler ad P s e).
Proof.
  intros H. unfold globals_ok in *.
  destruct e as [[w|h|h r|h ro ty a|ty a r data|h ro ty a|]|]; cbn [Repeater.hci_packet_handler]; try done.
  - destruct w; [|done]. eapply outcome_spec_bind; [apply setup_advertisements_spec|].
    unfold same_tracker. intros s1 Hs1. cbn in *. by rewrite Hs1.
  - by apply ok_reportDisconnection.
  - destruct (Tracker.connectionForConnHandle P _ h) as [tr a] eqn:E.
    apply (ok_connectionForConnHandle P) in E as (Htr & Ha & _); [|done].
    by destruct (deref_connection_live tr a Ha) as (k & v & -> & _).
  - by apply ok_reportConnectionRole.
  - eapply outcome_spec_bind; [apply check_for_uuid_spec|intros sv _].
    destruct (has_flag _ _); [|done]. by apply ok_addAvailablePeer.
  - by apply ok_reportConnectionRole.
Qed.

(** What BTstack promises of the arguments of a callback: they are of their
    types, and a buffer owns the size passed with it. *)
Definition event_typed (e : event) : Prop :=
  match e with
  | AttWrite _ _ _ offset buffer buffer_size =>
    bytes_ok buffer /\ 0 <= offset < 2 ^ 16 /\ 0 <= buffer_size < 2 ^ 16 /\ buffer_size <= zlen buffer
  | ValueUpdate (Repeater.GATT_EVENT_NOTIFICATION _ value value_length) =>
    bytes_ok value /\ 0 <= value_length < 2 ^ 16 /\ value_length <= zlen value
  | _ => True
  end.

(** Moreover no notification arrives from a server (see
    [notification_crashes_sending]). *)
Definition event_ok (e : event) : Prop :=
  event_typed e /\
  match e with ValueUpdate (Repeater.GATT_EVENT_NOTIFICATION _ _ _) => False | _ => True end.

Lemma ok_callback ad H s e :
  globals_ok s -> event_ok e -> outcome_spec run_fault globals_ok (callback ad H P e s).
Proof.
  intros Hok [Ht He]. destruct e as [ah o b z|ch ah tm o b z|g|v|h|a| |h|h|gp ev|]; cbn [callback].
  - unfold Repeater.att_read_callback, Repeater.clear_from.
    repeat case_match; simplify_eq/=; auto.
  - destruct Ht as (?&?&?&?). by apply ok_att_write_callback.
  - by apply ok_handle_gatt_client_event.
  - by destruct v.
  - by apply ok_hci_packet_handler.
  - by apply ok_att_packet_handler.
  - done.
  - eapply outcome_spec_bind; [|by intros tr Htr].
    eapply outcome_spec_mono; [by apply ok_notifyRawPacket|done|]. unfold run_fault. naive_solver.
  - eapply outcome_spec_bind; [|by intros tr Htr].
    eapply outcome_spec_mono; [by apply ok_writeRawPacket|done|]. unfold run_fault. naive_solver.
  - by apply ok_gpio_callback.
  - done.
Qed.

(** ** Phases keep the invariant *)

Lemma repeater_name_Ret : exists name, Tracker.repeater_name (gap_local_bd_addr P) = Ret name.
Proof.
  destruct (gap_local_bd_addr_ok (P := P)) as [_ Hl].
  destruct (gap_local_bd_addr P) as [|b0 [|b1 [|b2 [|b3 [|b4 [|b5 [|]]]]]]]; try discriminate Hl.
  by eexists.
Qed.

Lemma life_check_content_Ret timestamp_ms :
  Repeater.life_check_content timestamp_ms =
    Ret (91 :: BinaryWriter.write_uint16_hex16 [] (u16 (timestamp_ms / 1000)) ++
         93 :: Repeater.still_alive_string).
Proof. reflexivity. Qed.

(** The message that a press of the life check pin produces: time to live 7,
    no flags, ["[<seconds in hex>] Still alive"]. *)
Definition life_check_message (timestamp_ms sender : Z) (name : bytes) : Message.t :=
  Message.mk (PacketBase.make_sender (PacketType_value type_message) 7 timestamp_ms 0 sender)
    0 timestamp_ms (Repeater.life_check_id timestamp_ms sender) name []
    (91 :: BinaryWriter.write_uint16_hex16 [] (u16 (timestamp_ms / 1000)) ++
     93 :: Repeater.still_alive_string) [] [] None [] [].

(** The press is turned into a call of [storeMessageAndReturnIfNew]. *)
Lemma handlePinActivity_pressed s name :
  Repeater.life_check s = true -> Tracker.repeater_name (gap_local_bd_addr P) = Ret name ->
  Repeater.handlePinActivity P s =
    let s1 := Repeater.set_life_check s false in
    match Tracker.storeMessageAndReturnIfNew P (Repeater.tracker s)
            (life_check_message (Tracker.getTimeMs P (Repeater.tracker s))
               (Tracker.sender_of_address (gap_local_bd_addr P)) name) with
    | (tr, Some a) =>
      tr ← Tracker.enqueueBroadcastPacket tr a;
      Ret (Repeater.activity (Repeater.set_tracker s1 tr))
    | (tr, None) => Ret (Repeater.set_tracker s1 tr)
    end.
Proof.
  intros Hl Hn. unfold Repeater.handlePinActivity. rewrite Hl, life_check_content_Ret, Hn. done.
Qed.

Lemma ok_handlePinActivity s :
  globals_ok s -> outcome_spec run_fault globals_ok (Repeater.handlePinActivity P s).
Proof.
  intros H. destruct (Repeater.life_check s) eqn:El.
  2: { unfold Repeater.handlePinActivity. by rewrite El. }
  destruct repeater_name_Ret as [name Hn]. rewrite (handlePinActivity_pressed s name El Hn). cbv zeta.
  set (m := life_check_message _ _ _).
  pose proof (ok_storeMessageAndReturnIfNew P (Repeater.tracker s) m) as Hs.
  pose proof (storeMessage_address P (Repeater.tracker s) m) as Ha.
  destruct (Tracker.storeMessageAndReturnIfNew P _ m) as [tr [a|]]; cbn [fst snd] in *;
    [|by apply Hs].
  destruct (ok_enqueueBroadcastPacket tr a) as (tr' & -> & Htr'); [by apply Ha|by apply Hs|done].
Qed.

Lemma ok_connect_to_first_neighbour s :
  globals_ok s -> globals_ok (Repeater.connect_to_first_neighbour P s).1.
Proof.
  intros H. unfold globals_ok, Repeater.connect_to_first_neighbour in *.
  destruct (Tracker.getConnectableNeighbours _) as [|c l]; [done|].
  destruct (Tracker.getConnectionForAddress _ _); [done|].
  destruct (_ =? 0); cbn; [by apply ok_setConnectionStarted|done].
Qed.

Lemma ok_connect_or_disconnect now s :
  globals_ok s -> globals_ok (connect_or_disconnect P now s).
Proof.
  intros H. unfold connect_or_disconnect. pose proof (ok_connect_to_first_neighbour s H) as H1.
  destruct (Repeater.connect_to_first_neighbour P s) as [s1 [|]]; [done|]. cbn [fst] in H1.
  pose proof (ok_duplicate_loop P (Repeater.tracker s1)
    (map_sorted (Tracker.handle_peer_map (Repeater.tracker s1))) ∅ H1) as H2.
  unfold Tracker.getAnyDuplicateHandle. destruct (Tracker.duplicate_loop P _ _ _) as [tr d].
  by repeat case_match.
Qed.

(** What a phase must satisfy: a cleanup that is due erases no packet that is
    still pointed to, and not the connection a round of signal strength requests
    is at (see [cleanup_leaves_dangling]). *)
Definition phase_ok (x : prog) : Prop :=
  let tr := Repeater.tracker (globals x) in
  match at_pc x with
  | AtCleanup =>
    due (vars x) (lastCleanup (vars x)) ten_minutes_in_us = true ->
    cleanup_consistent tr (Tracker.getTimeMs P tr) /\ rssi_stays tr (Tracker.getTimeMs P tr)
  | _ => True
  end.

Lemma requestNextRssi_run s restart :
  tracker_ok s -> outcome_spec run_fault (fun '(s', _) => tracker_ok s') (Tracker.requestNextRssi s restart).
Proof.
  intros H. destruct (decide (Tracker.connections s = ∅)) as [He|Hne].
  - rewrite requestNextRssi_empty_faults by done. do 3 right. by left.
  - by destruct (ok_requestNextRssi s restart H Hne) as (h & s1 & m1 & -> & H1 & _).
Qed.

Definition prog_ok (x : prog) : Prop := globals_ok (globals x).

Lemma ok_phase now x :
  prog_ok x -> phase_ok x -> outcome_spec run_fault prog_ok (phase P now x).
Proof.
  intros H Hph. unfold prog_ok, phase, phase_ok, globals_ok in *.
  destruct x as [q l s]. cbn [at_pc vars globals] in *. destruct q.
  - by destruct (Repeater.keep_running s).
  - eapply outcome_spec_bind; [by apply ok_handlePinActivity|by intros s' Hs'].
  - destruct (due _ _ _); [|done].
    by destruct (ok_announceToConnections P (Repeater.tracker s) H) as (tr & -> & Htr).
  - cbn. destruct (may_connect _ _); [|done]. by apply ok_connect_or_disconnect.
  - eapply outcome_spec_bind.
    + eapply outcome_spec_mono; [by apply sendPackets_spec|intros tr Htr; exact Htr|].
      unfold send_fault, run_fault. naive_solver.
    + by intros tr (Htr & _).
  - by destruct (due _ _ _).
  - destruct (due _ _ _); [|destruct (rssi_update_in_progress l); [|done]];
      (eapply outcome_spec_bind; [by apply requestNextRssi_run|by intros [tr more] Htr]).
  - by destruct (due _ _ _).
  - destruct (due _ _ _); [|done]. destruct (Hph eq_refl) as [Hc Hr].
    rewrite cleanupStaleItems_cleaned by done. by apply ok_cleaned.
  - by destruct (due _ _ _ && _).
  - by destruct (slept l || _).
  - done.
Qed.

End Callbacks.

(** ** Reachable states *)

Definition label_ok (x : prog) (lab : label) : Prop :=
  match lab with
  | Loop P now => PlatformLaws P /\ phase_ok P x
  | Callback P e => PlatformLaws P /\ event_ok e
  end.

Lemma ok_exec ad H lab x :
  prog_ok x -> label_ok x lab -> outcome_spec run_fault prog_ok (exec ad H lab x).
Proof.
  intros Hx. destruct lab as [P now|P e]; intros [HP Hl]; cbn [exec].
  - by apply ok_phase.
  - eapply outcome_spec_bind; [by apply ok_callback|by intros s Hs].
Qed.

(** The states of the runs that start when [main] enters its loop. *)
Inductive reach (ad : ad_iterator) (H : AttHandles) : prog -> Prop :=
  | reach_start announce_addr now :
      reach ad H (mkProg AtLoop (start_locals now (Repeater.make announce_addr))
                    (Repeater.make announce_addr))
  | reach_exec x lab x' :
      reach ad H x -> label_ok x lab -> exec ad H lab x = Ret x' -> reach ad H x'.

Lemma reach_ok ad H x : reach ad H x -> prog_ok x.
Proof.
  induction 1 as [a now|x lab x' _ IH Hl E]; [apply ok_make|].
  pose proof (ok_exec ad H lab x IH Hl) as Ho. by rewrite E in Ho.
Qed.

(** ** The copy made for a notification *)

(** A scan that meets a pointer to no connection faults. *)
Lemma scan_sendable_dangling s h l p c b :
  (p, c) ∈ l -> c ∉ Tracker.map_addrs (Tracker.connections s) ->
  exists c', Tracker.scan_sendable s h l b = Fault (DanglingConnection c').
Proof.
  revert b. induction l as [|[p0 c0] l IH]; intros b Hin Hc; [by apply elem_of_nil in Hin|].
  cbn [Tracker.scan_sendable]. unfold Tracker.deref_connection.
  destruct (Tracker.node_at (Tracker.connections s) c0) as [[k v]|] eqn:E; [|by eexists].
  cbn [mbind outcome_bind]. apply IH; [|done].
  apply elem_of_cons in Hin as [[= -> ->]|Hin]; [|done].
  apply node_at_None in Hc. congruence.
Qed.

(** Broadcasting a packet marked with such a pointer faults at the first
    available connection. *)
Lemma broadcast_to_dangling P s p c handles h n :
  mm_sorted (Tracker.packets_connections_sent_list s) ->
  (p, c) ∈ Tracker.packets_connections_sent_list s ->
  c ∉ Tracker.map_addrs (Tracker.connections s) ->
  h ∈ handles -> Tracker.connections s !! h = Some n -> Tracker.send_available (node_val n) = true ->
  exists c', Tracker.broadcast_to P s p handles = Fault (DanglingConnection c').
Proof.
  intros Hs Hin Hc Hh Hn Ha. induction handles as [|h' handles IH]; [by apply elem_of_nil in Hh|].
  cbn [Tracker.broadcast_to].
  assert (forall h0, exists c', Tracker.scan_sendable s h0
    (mm_find p (Tracker.packets_connections_sent_list s)) true = Fault (DanglingConnection c')) as Hscan.
  { intros h0. eapply scan_sendable_dangling; [|exact Hc].
    apply elem_of_mm_find; [done|by eexists|]. split; [done|apply std_less_irrefl]. }
  destruct (decide (h' = h)) as [->|Hne].
  - rewrite Hn, Ha. destruct (Hscan (BleConnection.getConnectionHandle (node_val n))) as [c' ->].
    by eexists.
  - assert (h ∈ handles) as Hh' by (apply elem_of_cons in Hh as [->|?]; done).
    destruct (Tracker.connections s !! h') as [n'|]; [|by apply IH].
    destruct (Tracker.send_available (node_val n')); [|by apply IH].
    destruct (Hscan (BleConnection.getConnectionHandle (node_val n'))) as [c' ->]. by eexists.
Qed.

Lemma sendPackets_dangling P s p c h n :
  mm_sorted (Tracker.packets_connections_sent_list s) ->
  (p, c) ∈ Tracker.packets_connections_sent_list s ->
  c ∉ Tracker.map_addrs (Tracker.connections s) ->
  Tracker.broadcast_packets_to_send_list s = [p] -> Tracker.targeted_packets_to_send_list s = [] ->
  Tracker.connections s !! h = Some n -> Tracker.send_available (node_val n) = true ->
  exists c', Tracker.sendPackets P s = Fault (DanglingConnection c').
Proof.
  intros Hs Hin Hc Hb Ht Hn Ha. unfold Tracker.sendPackets. rewrite Hb, Ht.
  cbn [Tracker.send_targeted mbind outcome_bind]. cbv zeta.
  cbn [Tracker.broadcast_packets_to_send_list Tracker.set_targeted_packets_to_send_list
       Tracker.connections]. rewrite Hb. cbn [Tracker.send_broadcast].
  edestruct (broadcast_to_dangling P) as [c' ->]; [| | | | | |by eexists]; cbn; try done.
  apply list_elem_of_fmap. exists (h, n). split; [done|]. by apply elem_of_map_sorted.
Qed.

(** The entries that are there stay when one is looked up by its handle. *)
Lemma for_handle_lookup P s h h' n :
  Tracker.connections s !! h' = Some n ->
  Tracker.connections (Tracker.connectionForConnHandle P s h).1 !! h' = Some n.
Proof.
  intros Hn. unfold Tracker.connectionForConnHandle, Tracker.connections_subscript.
  destruct (Tracker.connections s !! h) as [n0|] eqn:E; [done|]. cbn.
  assert (h <> h') by congruence. by rewrite lookup_alter_ne, lookup_insert_ne.
Qed.

(** ** Advertising data *)

(** A structure of advertising data, and what an iterator shows of a sequence
    of structures. *)
Definition ad_structure (item : Z * bytes) : bytes := (zlen item.2 + 1) :: item.1 :: item.2.

Fixpoint ad_items (items : list (Z * bytes)) : list (Z * bytes) :=
  match items with
  | [] => []
  | item :: items' => (item.1, item.2 ++ concat (ad_structure <$> items')) :: ad_items items'
  end.

(** BTstack's iterator visits the structures of well-formed data, of a size
    that fits its [uint8_t], in order. *)
Definition ad_iterator_law (ad : ad_iterator) : Prop :=
  forall items, zlen (concat (ad_structure <$> items)) < 2 ^ 8 ->
    ad (concat (ad_structure <$> items)) = ad_items items.

(** An iterator that follows the length bytes. *)
Fixpoint walk_ad (fuel : nat) (data : bytes) : list (Z * bytes) :=
  match fuel, data with
  | S fuel, len :: ty :: rest =>
    if decide (1 <= len <= zlen rest + 1)
    then (ty, rest) :: walk_ad fuel (drop (Z.to_nat (len - 1)) rest) else []
  | _, _ => []
  end.

Definition demo_ad (data : bytes) : list (Z * bytes) := walk_ad (length data) data.

Lemma walk_ad_items items fuel :
  (length items <= fuel)%nat -> walk_ad fuel (concat (ad_structure <$> items)) = ad_items items.
Proof.
  revert fuel. induction items as [|[ty b] items IH]; intros [|fuel] Hf; cbn in Hf |- *; [done..|lia|].
  rewrite decide_True by (rewrite zlen_app; pose proof (zlen_nonneg b);
    pose proof (zlen_nonneg (concat (ad_structure <$> items))); lia).
  replace (Z.to_nat (zlen b + 1 - 1)) with (length b) by (unfold zlen; lia).
  rewrite drop_app_length, IH by lia. done.
Qed.

Lemma demo_ad_law : ad_iterator_law demo_ad.
Proof.
  intros items _. apply walk_ad_items. induction items as [|[ty b] items IH]; [done|].
  cbn. rewrite length_app. lia.
Qed.

Lemma advertisement_found ad :
  ad_iterator_law ad -> check_for_uuid ad advertisement = Ret ServiceUUIDAndNameFound.
Proof.
  intros Had. unfold check_for_uuid.
  specialize (Had [(0x01, [6]); (0x06, bitchat_service_uuid_reversed); (0x09, bitchat_service_name)]).
  change (concat _) with advertisement in Had. rewrite Had by reflexivity. reflexivity.
Qed.

(** A report with the advertisement makes its sender a known repeater. *)
Lemma advertisement_report ad P s ty addr rssi :
  ad_iterator_law ad ->
  Repeater.hci_packet_handler ad P s
    (Some (Repeater.GAP_EVENT_ADVERTISING_REPORT ty addr rssi advertisement)) =
  Ret (Repeater.set_tracker (Repeater.activity s)
    (Tracker.addAvailablePeer P (Repeater.tracker s) addr ty ServiceUUIDAndNameFound rssi)).
Proof.
  intros Had. cbn [Repeater.hci_packet_handler]. rewrite advertisement_found by done. done.
Qed.

Lemma added_repeater_connectable P s addr ty rssi :
  tracker_ok s -> ty <> BD_ADDR_TYPE_LE_RANDOM ->
  exists c, BleConnection.getAddress c = take (Z.to_nat BD_ADDR_LEN) addr /\
    c ∈ Tracker.getConnectableNeighbours
          (Tracker.addAvailablePeer P s addr ty ServiceUUIDAndNameFound rssi).
Proof.
  intros H Hty. set (c0 := default BleConnection.make
    (Tracker.available_neighbours s !! take (Z.to_nat BD_ADDR_LEN) addr)).
  set (c := BleConnection.setTimestamp (BleConnection.setRssi (BleConnection.setServices
    (BleConnection.setBleAddress c0 addr ty) ServiceUUIDAndNameFound) rssi) (time_us_64 P 0)).
  exists c. split; [done|]. unfold Tracker.getConnectableNeighbours.
  apply list_elem_of_filter. split.
  - assert (BleConnection.connected c0 = false) as Hc0.
    { unfold c0. destruct (Tracker.available_neighbours s !! _) eqn:E; [|done].
      by eapply ok_neighbours. }
    unfold BleConnection.isConnected, BleConnection.isRandom, c. cbn. rewrite Hc0.
    rewrite (proj2 (Z.eqb_neq _ _) Hty), orb_true_r. done.
  - apply list_elem_of_fmap. exists (take (Z.to_nat BD_ADDR_LEN) addr, c). split; [done|].
    apply elem_of_map_sorted. cbn. by rewrite lookup_insert_eq.
Qed.

(** ** Executable runs *)

Fixpoint run (ad : ad_iterator) (H : AttHandles) (labs : list label) (x : prog) : outcome prog :=
  match labs with
  | [] => Ret x
  | lab :: labs' => x ← exec ad H lab x; run ad H labs' x
  end.

Definition is_Retb {A} (m : outcome A) : bool := match m with Ret _ => true | Fault _ => false end.

(** A decidable condition that is enough for [label_ok]. *)
Definition cleanup_check (s : Tracker.t) (now : Z) : bool :=
  forallb (fun e => bool_decide (e.1 = node_addr (Tracker.announce s)) ||
                    negb (stored_stale s now e.1) || entry_stale s now e)
    (Tracker.packets_connections_sent_list s ++ Tracker.targeted_packets_to_send_list s) &&
  match Tracker.rssi_iterator s with
  | Some (Some (h, _)) =>
    match Tracker.connections s !! h with
    | Some n => negb (Tracker.connection_stale now (node_val n))
    | None => true
    end
  | _ => true
  end.

Lemma cleanup_check_ok s now :
  cleanup_check s now = true -> cleanup_consistent s now /\ rssi_stays s now.
Proof.
  intros [Hl Hr]%andb_true_iff. split.
  - intros p c Hin Hne Hst. rewrite forallb_forall in Hl.
    assert (In (p, c) (Tracker.packets_connections_sent_list s ++
      Tracker.targeted_packets_to_send_list s)) as Hin'
      by (apply list_elem_of_In, elem_of_app; done).
    specialize (Hl _ Hin'). cbn [fst] in Hl. rewrite Hst, bool_decide_eq_false_2 in Hl by done. done.
  - intros h a n E Hn. rewrite E, Hn in Hr. by apply negb_true_iff.
Qed.

Definition label_check (x : prog) (lab : label) : bool :=
  match lab with
  | Loop P _ =>
    negb (bool_decide (at_pc x = AtCleanup) &&
          due (vars x) (lastCleanup (vars x)) ten_minutes_in_us) ||
    cleanup_check (Repeater.tracker (globals x)) (Tracker.getTimeMs P (Repeater.tracker (globals x)))
  | Callback _ (AttWrite _ _ _ offset buffer size) =>
    bool_decide (bytes_ok buffer /\ 0 <= offset < 2 ^ 16 /\ 0 <= size < 2 ^ 16 /\ size <= zlen buffer)
  | Callback _ (ValueUpdate (Repeater.GATT_EVENT_NOTIFICATION _ _ _)) => false
  | Callback _ _ => true
  end.

Definition label_platform (lab : label) : Platform :=
  match lab with Loop P _ => P | Callback P _ => P end.

Lemma label_check_ok x lab :
  PlatformLaws (label_platform lab) -> label_check x lab = true -> label_ok x lab.
Proof.
  destruct lab as [P now|P e]; intros HP; cbn [label_check label_ok label_platform]; intros Hc;
    (split; [done|]).
  - unfold phase_ok. destruct (at_pc x); try done. cbn in Hc. intros Hd. rewrite Hd in Hc.
    by apply cleanup_check_ok.
  - unfold event_ok. destruct e as [| |g|[]|h| | | | | |]; try done.
    by apply bool_decide_eq_true in Hc.
Qed.

Fixpoint run_check (ad : ad_iterator) (H : AttHandles) (labs : list label) (x : prog) : bool :=
  match labs with
  | [] => true
  | lab :: labs' =>
    label_check x lab &&
    match exec ad H lab x with Ret x' => run_check ad H labs' x' | Fault _ => false end
  end.

Lemma run_reach ad H labs x :
  reach ad H x -> Forall (fun lab => PlatformLaws (label_platform lab)) labs ->
  run_check ad H labs x = true -> exists x', run ad H labs x = Ret x' /\ reach ad H x'.
Proof.
  intros Hx HP. revert x Hx. induction HP as [|lab labs HP _ IH]; intros x Hx; cbn; [by eauto|].
  intros [Hl Hr]%andb_true_iff. destruct (exec ad H lab x) as [x'|] eqn:E; [|done].
  apply IH; [|done]. eapply reach_exec; [done|by apply label_check_ok|done].
Qed.

(** A run: the stack comes up, two neighbours connect, a fragment arrives, the
    life check pin is pressed, and the loop goes on until it has sent and cleaned
    up. *)
Definition demo_labels : list label :=
  let P := demo_platform 5000000 in
  [ Callback P (Hci (Some (Repeater.BTSTACK_EVENT_STATE true)));
    Callback P (Hci (Some (Repeater.HCI_SUBEVENT_LE_CONNECTION_COMPLETE 64 HCI_ROLE_SLAVE 0
                             [1; 2; 3; 4; 5; 6])));
    Callback P (Hci (Some (Repeater.HCI_SUBEVENT_LE_CONNECTION_COMPLETE 65 HCI_ROLE_SLAVE 0
                             [1; 2; 3; 4; 5; 7])));
    Callback P (AttWrite 64 12 0 0 [1; 0] 2);
    Callback P (AttWrite 65 12 0 0 [1; 0] 2);
    Callback P (GattClient (Repeater.GATT_EVENT_MTU 64 512));
    Callback P (GattClient (Repeater.GATT_EVENT_MTU 65 512));
    Callback P (AttWrite 64 11 0 0 demo_fragment_wire (zlen demo_fragment_wire));
    Callback P (Gpio LIFE_CHECK_PIN GPIO_IRQ_EDGE_FALL);
    Loop P 5000000; Loop P 5000000; Loop P 5000000; Loop P 5000000; Loop P 5000000;
    Callback P (CanNotify 65);
    Loop P 5000000; Loop P 5000000; Loop P 5000000; Loop P 5000000; Loop P 5000000 ].

Definition demo_handles : AttHandles := mkAttHandles 12 11 13.

Definition demo_start : prog :=
  mkProg AtLoop (start_locals (fun _ => 0) (Repeater.make 1)) (Repeater.make 1).

Definition demo_end : prog :=
  match run demo_ad demo_handles demo_labels demo_start with Ret x => x | Fault _ => demo_start end.

Lemma demo_end_reach : reach demo_ad demo_handles demo_end.
Proof.
  destruct (run_reach demo_ad demo_handles demo_labels demo_start) as (x & E & Hx).
  - apply reach_start.
  - assert (PlatformLaws (demo_platform 5000000)) as L by (apply demo_platform_laws; lia).
    repeat (apply Forall_cons; split; [exact L|]). by apply Forall_nil.
  - vm_compute. reflexivity.
  - unfold demo_end. by rewrite E.
Qed.

Lemma exit_press s events :
  has_flag events GPIO_IRQ_EDGE_FALL = true ->
  Repeater.gpio_callback s EXIT_GPIO_PIN events =
    Repeater.set_keep_running (Repeater.activity s) false.
Proof. intros Hf. unfold Repeater.gpio_callback. by rewrite Hf. Qed.

(** ** Properties *)

(** C1. The invariant along runs: however the callbacks are interleaved with
    the phases of the loop (with arguments of their types, [event_typed]), as
    long as no packet arrives in a notification and no cleanup that is due
    erases a packet still pointed to or the connection the signal strength round
    is at, every state reached has a well-formed tracker, and the next phase or
    callback either returns in such a state or stops at one of the faults of
    [run_fault]; in particular it follows no dangling pointer. *)
Theorem runs_keep_invariant ad H x :
  reach ad H x ->
  tracker_ok (Repeater.tracker (globals x)) /\
  forall lab, label_ok x lab -> outcome_spec run_fault prog_ok (exec ad H lab x).
Proof. intros Hx%reach_ok. split; [exact Hx|]. intros lab. by apply ok_exec. Qed.

Lemma runs_keep_invariant_witness :
  at_pc demo_end = AtBookkeeping /\ lastCleanup (vars demo_end) = 5000000 /\
  map fst (Tracker.raw_packet_to_notify (Repeater.tracker (globals demo_end))) = [64; 65] /\
  tracker_ok (Repeater.tracker (globals demo_end)) /\
  forall lab, label_ok demo_end lab ->
    outcome_spec run_fault prog_ok (exec demo_ad demo_handles lab demo_end).
Proof.
  do 3 (split; [vm_compute; reflexivity|]).
  apply (runs_keep_invariant demo_ad demo_handles demo_end). exact demo_end_reach.
Defined.

(** C32. A notification leaves a pointer to the stack: the handler passes the
    processor a copy of the connection, so a new packet that arrives in a
    notification is marked as sent to the address of that copy, and the next
    sending round faults as soon as a connection is available. *)
Theorem notification_crashes_sending P `{!PlatformLaws P} Q peers p s h ty w h' n' :
  tracker_ok (Repeater.tracker s) ->
  pass_along_ok p -> plain_flags (PacketBase.packet_flags (PacketPassAlong.base p)) = true ->
  PacketType_of (PacketBase.packet_type (PacketPassAlong.base p)) = Some ty ->
  Processor.passes_along ty = true -> ty <> type_announce ->
  ProtocolWriter.writePacket peers [] (Some (PktPassAlong p)) = Ret w ->
  Tracker.packets (Repeater.tracker s) !! PacketPassAlong.getPacketHash P p = None ->
  1 < PacketBase.packet_ttl (PacketPassAlong.base p) ->
  Tracker.broadcast_packets_to_send_list (Repeater.tracker s) = [] ->
  Tracker.targeted_packets_to_send_list (Repeater.tracker s) = [] ->
  Tracker.connections (Repeater.tracker s) !! h' = Some n' ->
  Tracker.send_available (node_val n') = true ->
  exists s' c,
    Repeater.handle_gatt_client_value_update_event P s
      (Repeater.GATT_EVENT_NOTIFICATION h w (zlen w)) = Ret s' /\
    Tracker.sendPackets Q (Repeater.tracker s') = Fault (DanglingConnection c).
Proof.
  intros H Hok Hpf Hty Hpa Hna Hw Hnew Htt Hb Ht Hn' Ha'.
  unfold Repeater.handle_gatt_client_value_update_event. cbn [Repeater.activity Repeater.tracker].
  destruct (Tracker.connectionForConnHandle P (Repeater.tracker s) h) as [tr a] eqn:E.
  pose proof (for_handle_lookup P _ h h' n' Hn') as Hl. rewrite E in Hl. cbn [fst] in Hl.
  apply (ok_connectionForConnHandle P) in E as (Htr & Hla & Hs); [|done].
  destruct (deref_connection_live tr a Hla) as (k & v & -> & _). cbn [mbind outcome_bind].
  destruct (relayed_copy_stored P peers p tr v (new_node P (Tracker.live tr)) ty w) as [-> _];
    try done; [by rewrite Hs|].
  destruct (with_copy_taken_in P p (hop_copy p) (new_node P (Tracker.live tr)) tr
    (new_node P (Tracker.live tr))) as (_ & Hb' & Hsent & _ & _ & _ & Hcon & Ht').
  revert Hb' Hsent Hcon Ht'.
  generalize (with_copy P p (hop_copy p) (new_node P (Tracker.live tr)) tr (new_node P (Tracker.live tr)))
    as tr'. intros tr' Hb' Hsent Hcon Ht'.
  assert (Tracker.broadcast_packets_to_send_list tr = []) as Hb0 by by rewrite Hs.
  assert (Tracker.targeted_packets_to_send_list tr = []) as Ht0 by by rewrite Hs.
  rewrite Hb0 in Hb'. rewrite Ht0 in Ht'. cbn [mbind outcome_bind].
  eexists. cut (exists c, Tracker.sendPackets Q tr' = Fault (DanglingConnection c)).
  { intros [c Hc]. exists c. split; [reflexivity|exact Hc]. }
  apply (sendPackets_dangling Q tr' (new_node P (Tracker.live tr)) (new_node P (Tracker.live tr)) h' n'); try done.
  - rewrite Hsent. apply mm_emplace_sorted, (ok_sent_sorted _ Htr).
  - rewrite Hsent. apply elem_of_mm_emplace. by left.
  - rewrite Hcon. apply fresh_connection. apply _.
  - by rewrite Hcon.
Qed.

Definition demo_central : Repeater.t := Repeater.set_tracker (Repeater.make 1) demo_pair.

Lemma notification_crashes_sending_witness :
  exists s' c,
    Repeater.handle_gatt_client_value_update_event (demo_platform 1000) demo_central
      (Repeater.GATT_EVENT_NOTIFICATION 64 demo_fragment_wire (zlen demo_fragment_wire)) = Ret s' /\
    Tracker.sendPackets (demo_platform 1000) (Repeater.tracker s') = Fault (DanglingConnection c).
Proof.
  apply (@notification_crashes_sending (demo_platform 1000) (demo_platform_laws 1000 ltac:(lia))
    (demo_platform 1000) ∅ demo_fragment demo_central 64 type_fragment_start demo_fragment_wire 65
    (mkNode 12 (BleConnection.setMtu (BleConnection.setBitchatCharacteristicValueHandle
      (BleConnection.setConnected (BleConnection.setConnectionHandle BleConnection.make 65) true) 9) 512)));
    [check_ok|apply (bool_decide_unpack _); vm_compute; exact I
    |reflexivity|reflexivity|reflexivity|discriminate|vm_compute; reflexivity
    |vm_compute; reflexivity|vm_compute; reflexivity|reflexivity|reflexivity
    |vm_compute; reflexivity|reflexivity].
Defined.

(** C24. Repeaters find each other: the advertisement that a repeater sets up
    when its stack starts fills the 31 bytes exactly, and a repeater that hears
    it lists its sender among the neighbours it may connect to (unless the
    address is random). *)
Theorem repeater_recognised ad P s r ty addr rssi :
  ad_iterator_law ad -> Repeater.adv_data_len s = 0 -> length (Repeater.adv_data s) = 31%nat ->
  tracker_ok (Repeater.tracker r) -> ty <> BD_ADDR_TYPE_LE_RANDOM ->
  exists s' data r' c,
    Repeater.setup_advertisements s = Ret s' /\
    GapAdvertisementsSetData data ∈ Repeater.commands s' /\ zlen data = BLE_ADVERTISING_MAX_LENGTH /\
    Repeater.hci_packet_handler ad P r
      (Some (Repeater.GAP_EVENT_ADVERTISING_REPORT ty addr rssi data)) = Ret r' /\
    c ∈ Tracker.getConnectableNeighbours (Repeater.tracker r') /\
    BleConnection.getAddress c = take (Z.to_nat BD_ADDR_LEN) addr.
Proof.
  intros Had Hl Hd H Hty. unfold Repeater.setup_advertisements.
  rewrite populate_advertising_data_first by done. cbn [mbind outcome_bind].
  destruct (added_repeater_connectable P (Repeater.tracker r) addr ty rssi H Hty) as (c & Hc & Hin).
  eexists _, advertisement, _, c. split; [reflexivity|]. split.
  { cbn -[advertisement]. change (take _ advertisement) with advertisement. set_solver. }
  split; [reflexivity|]. split; [by apply advertisement_report|]. done.
Qed.

Lemma repeater_recognised_witness :
  exists s' data r' c,
    Repeater.setup_advertisements (Repeater.make 1) = Ret s' /\
    GapAdvertisementsSetData data ∈ Repeater.commands s' /\ zlen data = BLE_ADVERTISING_MAX_LENGTH /\
    Repeater.hci_packet_handler demo_ad (demo_platform 1000) (Repeater.make 1)
      (Some (Repeater.GAP_EVENT_ADVERTISING_REPORT 0 [1; 2; 3; 4; 5; 6] (-60) data)) = Ret r' /\
    c ∈ Tracker.getConnectableNeighbours (Repeater.tracker r') /\
    BleConnection.getAddress c = take (Z.to_nat BD_ADDR_LEN) [1; 2; 3; 4; 5; 6].
Proof.
  apply (repeater_recognised demo_ad (demo_platform 1000) (Repeater.make 1) (Repeater.make 1));
    [exact demo_ad_law|reflexivity|reflexivity|check_ok|discriminate].
Defined.

(** The length of the advertising data is never reset: when the stack
    reports a second time that it works, the handler writes behind the 31
    bytes. *)
Theorem second_start_overflows ad P Q s :
  Repeater.adv_data_len s = 0 -> length (Repeater.adv_data s) = 31%nat ->
  exists s', Repeater.hci_packet_handler ad P s (Some (Repeater.BTSTACK_EVENT_STATE true)) = Ret s' /\
    Repeater.hci_packet_handler ad Q s' (Some (Repeater.BTSTACK_EVENT_STATE true)) =
      Fault (OutOfBounds 31).
Proof.
  intros Hl Hd. cbn [Repeater.hci_packet_handler]. unfold Repeater.setup_advertisements at 1.
  rewrite populate_advertising_data_first by done. eexists. split; reflexivity.
Qed.

Lemma second_start_overflows_witness :
  exists s', Repeater.hci_packet_handler demo_ad (demo_platform 0) (Repeater.make 1)
      (Some (Repeater.BTSTACK_EVENT_STATE true)) = Ret s' /\
    Repeater.hci_packet_handler demo_ad (demo_platform 1) s'
      (Some (Repeater.BTSTACK_EVENT_STATE true)) = Fault (OutOfBounds 31).
Proof. apply (second_start_overflows demo_ad _ _ (Repeater.make 1)); reflexivity. Defined.

(** C40. The first cleanup does not wait: the start value of [lastCleanup] lies
    five minutes ahead, so the unsigned difference to the time of the first
    rounds is huge and the cleanup runs in the very first round, not after the
    15 minutes that the comment promises. *)
Theorem first_cleanup_not_delayed P now0 now s g t :
  0 <= now0 4%nat <= t -> t < now0 4%nat + five_minutes_in_us -> now0 4%nat + five_minutes_in_us < 2 ^ 32 ->
  phase P now (mkProg AtCleanup (set_loopStart (start_locals now0 s) t) g) =
    tr ← Tracker.cleanupStaleItems P (Repeater.tracker g);
    Ret (mkProg AtSleep
           (set_slept (set_lastCleanup (set_loopStart (start_locals now0 s) t) now) false)
           (Repeater.set_tracker g tr)).
Proof.
  intros H0 Ht Hw. unfold phase. cbn [at_pc vars globals].
  assert (due (set_loopStart (start_locals now0 s) t)
    (lastCleanup (set_loopStart (start_locals now0 s) t)) ten_minutes_in_us = true) as ->; [|done].
  unfold due. cbn [loopStart lastCleanup set_loopStart start_locals].
  assert (five_minutes_in_us = 300000000) as E5 by done. rewrite E5 in *.
  rewrite (u32_small (_ + _)) by lia. unfold u32.
  rewrite <- (Z.mod_add _ 1) by lia. rewrite Z.mod_small by lia.
  apply Z.gtb_lt. unfold ten_minutes_in_us. lia.
Qed.

Lemma first_cleanup_not_delayed_witness :
  phase (demo_platform 1000) 2000
    (mkProg AtCleanup (set_loopStart (start_locals (fun _ => 1000) (Repeater.make 1)) 1500) demo_central) =
    tr ← Tracker.cleanupStaleItems (demo_platform 1000) demo_pair;
    Ret (mkProg AtSleep
           (set_slept (set_lastCleanup
              (set_loopStart (start_locals (fun _ => 1000) (Repeater.make 1)) 1500) 2000) false)
           (Repeater.set_tracker demo_central tr)).
Proof.
  apply (first_cleanup_not_delayed (demo_platform 1000) (fun _ => 1000) 2000 (Repeater.make 1)
           demo_central 1500); vm_compute; try split; congruence || reflexivity.
Defined.

(** No connection after the clock wraps: the time of the last
    disconnection is compared with the clock directly, so once the 32 bit
    clock has wrapped the loop does not connect, whatever time has elapsed,
    until a whole turn of 71 minutes is over. *)
Theorem connect_gate_closed_by_wrap s elapsed :
  0 <= Repeater.disconnection_started_at s < 2 ^ 32 -> elapsed < 2 ^ 32 ->
  2 ^ 32 + two_seconds_in_us <= Repeater.disconnection_started_at s + elapsed ->
  may_connect s (Repeater.disconnection_started_at s +u32 elapsed) = false.
Proof.
  intros Hd He Hw. unfold may_connect. assert (two_seconds_in_us = 2000000) as E2 by done.
  rewrite E2 in *. set (d := Repeater.disconnection_started_at s) in *.
  assert (d +u32 elapsed = d + elapsed - 2 ^ 32) as ->.
  { unfold u32. rewrite <- (Z.mod_add _ (-1)) by lia. rewrite Z.mod_small by lia. lia. }
  rewrite u32_small by lia. rewrite (proj2 (Z.ltb_ge _ _)) by lia. apply andb_false_r.
Qed.

Lemma connect_gate_closed_by_wrap_witness :
  may_connect (Repeater.set_disconnection_started_at (Repeater.make 1) 4200000000)
    (4200000000 +u32 3600000000) = false.
Proof.
  apply (connect_gate_closed_by_wrap
           (Repeater.set_disconnection_started_at (Repeater.make 1) 4200000000) 3600000000);
    vm_compute; try split; congruence || reflexivity.
Defined.

(** C25. The life check: a press that was noted is turned into one broadcast
    message with time to live 7 that carries the time of the press, and the
    note is cleared, so that one press gives one message. *)
Theorem life_check_broadcasts P `{!PlatformLaws P} s :
  let tr := Repeater.tracker s in
  let ts := Tracker.getTimeMs P tr in
  let sender := Tracker.sender_of_address (gap_local_bd_addr P) in
  Repeater.life_check s = true ->
  Tracker.messages tr !! Repeater.life_check_id ts sender = None ->
  exists s' name n,
    Repeater.handlePinActivity P s = Ret s' /\ Repeater.life_check s' = false /\
    Tracker.repeater_name (gap_local_bd_addr P) = Ret name /\
    Tracker.messages (Repeater.tracker s') =
      <[Repeater.life_check_id ts sender := mkNode n (life_check_message ts sender name)]>
        (Tracker.messages tr) /\
    Tracker.broadcast_packets_to_send_list (Repeater.tracker s') =
      Tracker.broadcast_packets_to_send_list tr ++ [n] /\
    Repeater.handlePinActivity P s' = Ret s'.
Proof.
  intros tr ts sender Hl Hnew. destruct (repeater_name_Ret P) as [name Hn].
  rewrite (handlePinActivity_pressed P s name Hl Hn). cbv zeta. fold tr ts sender.
  set (m := life_check_message ts sender name).
  assert (Message.getMessageId m = Repeater.life_check_id ts sender) as Hid by done.
  unfold Tracker.storeMessageAndReturnIfNew. rewrite Hid, Hnew.
  set (n := new_node P (Tracker.live tr)).
  assert (n ∉ Tracker.live tr) as Hf by apply new_node_fresh.
  unfold Tracker.enqueueBroadcastPacket, Tracker.deref_packet.
  assert (Tracker.packet_at (Tracker.set_messages tr
    (<[Repeater.life_check_id ts sender := mkNode n m]> (Tracker.messages tr))) n =
    Some (PktMessage m)) as ->.
  { unfold Tracker.packet_at. cbn. unfold Tracker.live, Tracker.packet_addrs in Hf.
    rewrite decide_False by set_solver.
    pose proof (node_at_insert_fresh (Tracker.messages tr) (Repeater.life_check_id ts sender)
      (mkNode n m)) as E. cbn in E. rewrite E by set_solver. done. }
  cbn. eexists _, name, n. split; [reflexivity|]. by cbn.
Qed.

Definition demo_pressed : Repeater.t := Repeater.set_life_check demo_central true.

Lemma life_check_broadcasts_witness :
  let P := demo_platform 1000 in
  let tr := Repeater.tracker demo_pressed in
  let ts := Tracker.getTimeMs P tr in
  let sender := Tracker.sender_of_address (gap_local_bd_addr P) in
  exists s' name n,
    Repeater.handlePinActivity P demo_pressed = Ret s' /\ Repeater.life_check s' = false /\
    Tracker.repeater_name (gap_local_bd_addr P) = Ret name /\
    Tracker.messages (Repeater.tracker s') =
      <[Repeater.life_check_id ts sender := mkNode n (life_check_message ts sender name)]>
        (Tracker.messages tr) /\
    Tracker.broadcast_packets_to_send_list (Repeater.tracker s') =
      Tracker.broadcast_packets_to_send_list tr ++ [n] /\
    Repeater.handlePinActivity P s' = Ret s'.
Proof.
  intros P tr ts sender.
  apply (@life_check_broadcasts (demo_platform 1000) (demo_platform_laws 1000 ltac:(lia)) demo_pressed);
    reflexivity.
Defined.

(** C26. The exit switch wakes the program: when it is pressed while the loop
    sleeps, the loop leaves the sleep, closes the round and ends, whatever the
    clock shows. *)
Theorem exit_from_sleep ad H P0 P1 P2 P3 now1 now2 now3 x events :
  at_pc x = AtSleep -> last_activity (vars x) = Repeater.global_activity (globals x) ->
  0 <= Repeater.global_activity (globals x) < 2 ^ 16 -> has_flag events GPIO_IRQ_EDGE_FALL = true ->
  exists x',
    run ad H [Callback P0 (Gpio EXIT_GPIO_PIN events); Loop P1 now1; Loop P2 now2; Loop P3 now3] x =
      Ret x' /\ at_pc x' = Exited.
Proof.
  destruct x as [q l s]. cbn [at_pc vars globals]. intros -> Hl Hr Hf.
  pose proof (exit_press s events Hf) as Hp.
  assert ((last_activity l =? Repeater.global_activity s +u16 1) = false) as E.
  { apply Z.eqb_neq. rewrite Hl. unfold u16.
    destruct (decide (Repeater.global_activity s = 2 ^ 16 - 1)) as [->|]; [done|].
    rewrite Z.mod_small by lia. lia. }
  cbn [run exec callback globals at_pc vars]. rewrite Hp. cbn. rewrite E, andb_false_r. cbn.
  rewrite E. cbn. rewrite orb_true_r. cbn. by eexists.
Qed.

Lemma exit_from_sleep_witness :
  exists x',
    run demo_ad demo_handles
      [Callback (demo_platform 0) (Gpio EXIT_GPIO_PIN 4); Loop (demo_platform 0) 9;
       Loop (demo_platform 0) 10; Loop (demo_platform 0) 11]
      (mkProg AtSleep (start_locals (fun _ => 0) (Repeater.make 1)) (Repeater.make 1)) = Ret x' /\
    at_pc x' = Exited.
Proof.
  apply (exit_from_sleep demo_ad demo_handles (demo_platform 0) (demo_platform 0) (demo_platform 0)
    (demo_platform 0) 9 10 11
    (mkProg AtSleep (start_locals (fun _ => 0) (Repeater.make 1)) (Repeater.make 1)) 4);
    [reflexivity|reflexivity|vm_compute; split; congruence|reflexivity].
Defined.
