(* ===== verification/Network.v ===== *)
(** * A chain of repeaters

    The callbacks and loop steps of several repeaters put together: a packet
    written to the first one is stored and relayed by each and leaves the last
    one with its time to live lowered by one per repeater. *)

From stdpp Require Import base numbers list gmap.
From Stdlib Require Import ZArith Lia.
From S2P Require Import Prelude Platform Containers BinaryIO Packets ProtocolWriter BleConnection.
From S2P Require Import Tracker TrackerInv Sending Housekeeping Processor ProcessorInv RoundTrip.
From S2P Require Import Relay Repeater Interleaving.

(** ** One repeater of the chain *)

(** Its globals, the handle of the neighbour that writes to it and of the one
    it writes to. *)
Record station : Type := mkStation {
  st_handles : AttHandles;
  st_platform : Platform;
  st_globals : Repeater.t;
  st_in : Z;
  st_out : Z }.

(** The first block written to a handle. *)
Fixpoint written (h : Z) (l : list action) : option bytes :=
  match l with
  | [] => None
  | WriteWithoutResponse h' _ data :: l' => if h' =? h then Some data else written h l'
  | _ :: l' => written h l'
  end.

(** A neighbour writes [w]; the loop sends; BTstack reports that it can write to
    the next neighbour.  The block it is handed then, if any. *)
Definition relay_through (st : station) (w : bytes) : outcome (Repeater.t * option bytes) :=
  s1 ← Repeater.att_write_callback (st_handles st) (st_platform st) (st_globals st) (st_in st)
         (VALUE_HANDLE (st_handles st)) ATT_TRANSACTION_MODE_NONE 0 w (zlen w);
  tr2 ← Tracker.sendPackets (st_platform st) (Repeater.tracker s1);
  let s2 := Repeater.set_tracker s1 tr2 in
  s3 ← Repeater.bitchat_can_write_without_response_handler (st_platform st) s2 (st_out st);
  Ret (s3, written (st_out st)
             (drop (length (Tracker.actions tr2)) (Tracker.actions (Repeater.tracker s3)))).

(** The block a repeater writes is what the next one is written. *)
Fixpoint chain (sts : list station) (w : bytes) : outcome (list Repeater.t * option bytes) :=
  match sts with
  | [] => Ret ([], Some w)
  | st :: sts' =>
    '(s, out) ← relay_through st w;
    match out with
    | None => Ret ([s], None)
    | Some w' => '(rest, out) ← chain sts' w'; Ret (s :: rest, out)
    end
  end.

(** ** When a repeater passes the packet on *)

(** Idle, the packet unknown, both neighbours connected, the way to the next
    one open. *)
Record ready (p : PacketPassAlong.t) (st : station) : Prop := {
  rd_laws : PlatformLaws (st_platform st);
  rd_ok : tracker_ok (Repeater.tracker (st_globals st));
  rd_handles : VALUE_HANDLE (st_handles st) <> CLIENT_CONFIGURATION_HANDLE (st_handles st);
  rd_new : Tracker.packets (Repeater.tracker (st_globals st)) !!
             PacketPassAlong.getPacketHash (st_platform st) p = None;
  rd_broadcast : Tracker.broadcast_packets_to_send_list (Repeater.tracker (st_globals st)) = [];
  rd_targeted : Tracker.targeted_packets_to_send_list (Repeater.tracker (st_globals st)) = [];
  rd_in : exists n, Tracker.connections (Repeater.tracker (st_globals st)) !! st_in st = Some n /\
            BleConnection.connection_handle (node_val n) <> st_out st;
  rd_out : exists n, Tracker.connections (Repeater.tracker (st_globals st)) !! st_out st = Some n /\
             Tracker.send_available (node_val n) = true /\
             BleConnection.getRole (node_val n) <> HCI_ROLE_SLAVE;
  rd_size : size_ok (Repeater.tracker (st_globals st))
              (wire (PacketPassAlong.base p) (PacketPassAlong.payload p));
  rd_queue : mm_values (Tracker.raw_packet_to_write (Repeater.tracker (st_globals st))) (st_out st) = [];
  rd_sent q : was_sent (Repeater.tracker (st_globals st)) q (st_out st) ->
    q < new_node (st_platform st) (Tracker.live (Repeater.tracker (st_globals st)));
  rd_accepts vh data : Tracker.send_accepted
    (gatt_client_write_value_of_characteristic_without_response (st_platform st) (st_out st) vh data) = true }.

(** A packet that is passed along, with the bytes of its payload. *)
Record travels (ty : PacketType) (p : PacketPassAlong.t) : Prop := {
  tr_ok : pass_along_ok p;
  tr_plain : plain_flags (PacketBase.packet_flags (PacketPassAlong.base p)) = true;
  tr_type : PacketType_of (PacketBase.packet_type (PacketPassAlong.base p)) = Some ty;
  tr_along : Processor.passes_along ty = true;
  tr_other : ty <> type_announce;
  tr_bytes : bytes_ok (PacketPassAlong.payload p) }.

Lemma hop_copy_travels ty p :
  travels ty p -> 1 < PacketBase.packet_ttl (PacketPassAlong.base p) -> travels ty (hop_copy p).
Proof.
  intros [Hok ?????] Htt. split; try done. destruct Hok as (Hb & _ & Hl & Hty & Hr).
  destruct Hb as (?&?&?&?&?&?).
  unfold pass_along_ok, base_ok. cbn. split_and!; try done; try lia;
    destruct (PacketBase.hasPacketRecipient (PacketPassAlong.base p)) eqn:E; try lia.
  all: unfold PacketBase.hasPacketRecipient in *; cbn; congruence || lia.
Qed.

Lemma wire_ok b payload :
  plain_flags (PacketBase.packet_flags b) = true -> bytes_ok payload -> bytes_ok (wire b payload).
Proof.
  intros Hpf Hp. unfold wire, wire_header, wire_signature, PacketBase.hasPacketSignature.
  apply andb_true_iff in Hpf as [Hs%negb_true_iff _]. unfold PacketBase.getPacketFlags. rewrite Hs.
  rewrite !bytes_ok_app. split_and!; try apply be_bytes_ok.
  - destruct (PacketBase.hasPacketRecipient b); [apply be_bytes_ok|constructor].
  - by apply Forall_take.
  - constructor.
  - repeat constructor; lia.
Qed.

Lemma zlen_wire_hop p :
  plain_flags (PacketBase.packet_flags (PacketPassAlong.base p)) = true ->
  zlen (wire (PacketPassAlong.base (hop_copy p)) (PacketPassAlong.payload (hop_copy p))) =
    zlen (wire (PacketPassAlong.base p) (PacketPassAlong.payload p)).
Proof.
  intros Hpf. unfold wire, wire_signature. rewrite !zlen_app, !zlen_wire_header.
  apply andb_true_iff in Hpf as [Hs%negb_true_iff _].
  unfold PacketBase.hasPacketSignature, PacketBase.hasPacketRecipient. cbn. by rewrite Hs.
Qed.

(** The three steps of a repeater that is ready. *)
Section passing.
Context (ty : PacketType) (p : PacketPassAlong.t) (st : station).
Context (Hp : travels ty p) (Htt : 1 < PacketBase.packet_ttl (PacketPassAlong.base p)) (Hst : ready p st).

Let P := st_platform st.
Let s := Repeater.tracker (st_globals st).
Let w := wire (PacketPassAlong.base p) (PacketPassAlong.payload p).
Let w' := wire (PacketPassAlong.base (hop_copy p)) (PacketPassAlong.payload (hop_copy p)).

(** The callback stores the packet. *)
Lemma ready_receives :
  exists s1, Repeater.att_write_callback (st_handles st) P (st_globals st) (st_in st)
      (VALUE_HANDLE (st_handles st)) ATT_TRANSACTION_MODE_NONE 0 w (zlen w) = Ret s1 /\
    tracker_ok (Repeater.tracker s1) /\
    (exists n, Tracker.connections s !! st_in st = Some n /\
       BleConnection.connection_handle (node_val n) <> st_out st /\
       taken_in_as P p (hop_copy p) (new_node P (Tracker.live s)) s (node_addr n) (Repeater.tracker s1)) /\
    Tracker.packet_at (Repeater.tracker s1) (new_node P (Tracker.live s)) =
      Some (PktPassAlong (hop_copy p)) /\
    Tracker.raw_packet_to_write (Repeater.tracker s1) = Tracker.raw_packet_to_write s.
Proof.
  pose proof (rd_laws _ _ Hst) as HP. destruct (rd_in _ _ Hst) as (n & Hn & Hne). fold s in Hn.
  pose proof (rd_ok _ _ Hst) as Hok. fold s in Hok. destruct Hp as [Hpok Hpl Hty Hal Hna Hby].
  destruct (relayed_copy_stored P ∅ p s (node_val n) (node_addr n) ty w)
    as [E Hat]; [done..|by apply writePacket_pass_along|apply (rd_new _ _ Hst)|done|].
  pose proof (with_copy_taken_in P p (hop_copy p) (new_node P (Tracker.live s)) s (node_addr n)) as Ht.
  assert (Tracker.raw_packet_to_write (with_copy P p (hop_copy p) (new_node P (Tracker.live s)) s
    (node_addr n)) = Tracker.raw_packet_to_write s) as Hraw
    by (unfold with_copy; cbn; by rewrite checkSenderInPeers_frame).
  revert E Hat Ht Hraw.
  generalize (with_copy P p (hop_copy p) (new_node P (Tracker.live s)) s (node_addr n)) as s1.
  intros s1 E Hat Ht Hraw.
  assert (zlen w < 2 ^ 16) as Hlw by (apply zlen_wire_bound; apply Hpok).
  pose proof (zlen_nonneg w) as Hw0.
  assert (tracker_ok s1) as H1.
  { refine (outcome_spec_Ret _ _ _ _ (processWrite_spec P s (node_val n) (node_addr n) 0 w (zlen w)
      Hok _ _ _ _ _) E); [by eapply map_addrs_lookup|by apply wire_ok|lia|lia|lia]. }
  exists (Repeater.set_tracker (Repeater.activity (st_globals st)) s1). split; [|eauto 10].
  unfold Repeater.att_write_callback. cbn [negb]. rewrite Z.eqb_refl. cbn [negb].
  unfold Tracker.connectionForConnHandle.
  change (Repeater.tracker (Repeater.activity (st_globals st))) with s. rewrite Hn.
  rewrite (proj2 (Z.eqb_neq _ _) (rd_handles _ _ Hst)), Z.eqb_refl.
  unfold Tracker.deref_connection. rewrite (node_at_lookup _ _ _ (ok_connections_inj s Hok) Hn).
  cbn [mbind outcome_bind]. rewrite E. done.
Qed.

(** The loop queues it for the next neighbour. *)
Lemma ready_sends s1 n :
  tracker_ok s1 -> Tracker.connections s !! st_in st = Some n ->
  BleConnection.connection_handle (node_val n) <> st_out st ->
  taken_in_as P p (hop_copy p) (new_node P (Tracker.live s)) s (node_addr n) s1 ->
  Tracker.packet_at s1 (new_node P (Tracker.live s)) = Some (PktPassAlong (hop_copy p)) ->
  Tracker.raw_packet_to_write s1 = Tracker.raw_packet_to_write s ->
  exists s2, Tracker.sendPackets P s1 = Ret s2 /\ tracker_ok s2 /\ flagged s2 (st_out st) /\
    mm_values (Tracker.raw_packet_to_write s2) (st_out st) = [w'] /\
    Tracker.packets s2 = Tracker.packets s1.
Proof.
  intros H1 Hn Hne (Hpk & Hbr & Hsl & _ & _ & _ & Hcn & Htg) Hat Hraw.
  set (a := new_node P (Tracker.live s)) in *. pose proof (rd_ok _ _ Hst) as Hok. fold s in Hok.
  pose proof (rd_broadcast _ _ Hst) as Hb0. pose proof (rd_targeted _ _ Hst) as Ht0.
  pose proof (rd_queue _ _ Hst) as Hq0. fold s in Hb0, Ht0, Hq0. rewrite Hb0 in Hbr. rewrite Ht0 in Htg.
  destruct (sendPackets_single_delivers P s1 a (node_addr n) (PktPassAlong (hop_copy p)) w')
    as (s2 & E & Hq & Hfl); [done..| | | |].
  - apply writePacket_pass_along. by apply (hop_copy_travels ty).
  - rewrite Hsl. apply elem_of_mm_emplace. by left.
  - intros h m Hm Hav. rewrite Hcn in Hm. unfold w'. rewrite zlen_wire_hop by apply Hp.
    by apply (rd_size _ _ Hst h m).
  - destruct (outcome_spec_Ret _ _ _ _ (sendPackets_spec P s1 H1) E) as (H2 & _ & Hst2).
    assert (receives s1 a false (st_out st) = true) as Hr.
    { destruct (rd_out _ _ Hst) as (m & Hm & Hav & Hro). fold s in Hm. unfold receives. rewrite Hcn, Hm, Hav.
      rewrite (proj2 (Z.eqb_neq _ _) Hro). cbn [andb Bool.eqb]. rewrite andb_true_r. apply negb_true_iff.
      apply not_true_is_false. unfold blocked. rewrite existsb_exists. setoid_rewrite <- list_elem_of_In.
      intros ([q c] & Hin & [Hle%Z.leb_le Hh%bool_decide_eq_true]%andb_true_iff). cbn in Hle, Hh.
      assert (handle_of s c = Some (st_out st)) as Hh' by (unfold handle_of in *; by rewrite Hcn in Hh).
      rewrite Hsl in Hin. apply elem_of_mm_emplace in Hin as [[= -> ->]|Hin].
      - unfold handle_of in Hh'. rewrite (node_at_lookup _ _ _ (ok_connections_inj s Hok) Hn) in Hh'.
        cbn in Hh'. congruence.
      - pose proof (rd_sent _ _ Hst q (ex_intro _ c (conj Hin Hh'))) as Hlt. fold s P a in Hlt. lia. }
    exists s2. split_and!; [done|done|by apply (Hfl false)| |apply Hst2].
    specialize (Hq false (st_out st)). rewrite Hr in Hq. unfold queued in Hq. by rewrite Hq, Hraw, Hq0.
Qed.

(** And the second callback hands it to BTstack. *)
Lemma ready_relays :
  exists s', relay_through st w = Ret (s', Some w') /\
    exists a, Tracker.packets (Repeater.tracker s') !! PacketPassAlong.getPacketHash P p =
      Some (mkNode a (hop_copy p)).
Proof.
  destruct ready_receives as (s1 & E1 & H1 & (n & Hn & Hne & Ht) & Hat & Hraw).
  destruct (ready_sends (Repeater.tracker s1) n) as (s2 & E2 & H2 & (m & Hm & Hd) & Hq & Hpk); [done..|].
  destruct (write_sends_oldest P s2 (st_out st) m w' []) as (s3 & more & E3 & Ha & _ & Hpk3 & _);
    [done..|apply (rd_accepts _ _ Hst)|].
  unfold relay_through. fold P. rewrite E1. cbn [mbind outcome_bind]. rewrite E2. cbn [mbind outcome_bind].
  unfold Repeater.bitchat_can_write_without_response_handler. cbn [Repeater.tracker Repeater.set_tracker].
  rewrite E3. cbn [mbind outcome_bind]. eexists. split.
  - cbn [Repeater.tracker Repeater.set_tracker]. rewrite Ha, drop_app_length. cbn [written].
    by rewrite Z.eqb_refl.
  - cbn [Repeater.tracker Repeater.set_tracker]. eexists. rewrite Hpk3, Hpk. destruct Ht as [-> _].
    apply lookup_insert_eq.
Qed.
End passing.

Lemma ready_hop ty p st : travels ty p -> ready p st -> ready (hop_copy p) st.
Proof.
  intros Hp []. split; try done.
  - rewrite hop_copy_hash by apply Hp. done.
  - intros h n Hn Hav. rewrite zlen_wire_hop by apply Hp. by apply (rd_size0 h n).
Qed.

(** The packet after [k] hops. *)
Definition hop_copies (k : nat) (p : PacketPassAlong.t) : PacketPassAlong.t := Nat.iter k hop_copy p.

Lemma hop_copies_succ k p : hop_copies (S k) p = hop_copies k (hop_copy p).
Proof. apply Nat.iter_succ_r. Qed.

Lemma hop_copies_fields k p :
  PacketPassAlong.payload (hop_copies k p) = PacketPassAlong.payload p /\
  PacketBase.packet_ttl (PacketPassAlong.base (hop_copies k p)) =
    PacketBase.packet_ttl (PacketPassAlong.base p) - Z.of_nat k.
Proof.
  induction k as [|k [IHp IHt]]; [split; [done|cbn; lia]|].
  change (hop_copies (S k) p) with (hop_copy (hop_copies k p)).
  destruct (hop_copies k p) as [b payload]. cbn in *. split; [done|]. lia.
Qed.

(** ** Properties *)

(** C4. A packet crosses a chain of repeaters.  The packet is passed along
    (neither a message nor an announce), unsigned and uncompressed.  No repeater
    of the chain knows it, each has nothing to send, its neighbours are
    connected, the block fits the MTU, BTstack accepts it on the link out, which
    the repeater writes to as the central, and the node the packet is stored in
    lies above every packet that was sent on that link (see
    [broadcast_suppressed_by_later_packet]).  Then, with a time to live above
    their number, it is handed on by each (write callback, sending round of the
    loop, and the callback that BTstack can write) and stored by each one hop
    older than by the one before, and the last one writes it with its payload
    unchanged and its time to live lowered by one per repeater. *)
Theorem packet_crosses_chain ty p sts :
  travels ty p -> Z.of_nat (length sts) < PacketBase.packet_ttl (PacketPassAlong.base p) ->
  Forall (ready p) sts ->
  let q := hop_copies (length sts) p in
  PacketPassAlong.payload q = PacketPassAlong.payload p /\
  PacketBase.packet_ttl (PacketPassAlong.base q) =
    PacketBase.packet_ttl (PacketPassAlong.base p) - Z.of_nat (length sts) /\
  exists ss,
    chain sts (wire (PacketPassAlong.base p) (PacketPassAlong.payload p)) =
      Ret (ss, Some (wire (PacketPassAlong.base q) (PacketPassAlong.payload q))) /\
    length ss = length sts /\
    forall i st s, sts !! i = Some st -> ss !! i = Some s ->
      exists a, Tracker.packets (Repeater.tracker s) !! PacketPassAlong.getPacketHash (st_platform st) p =
        Some (mkNode a (hop_copies (S i) p)).
Proof.
  intros Hp Ht Hsts. cbv zeta. split; [apply hop_copies_fields|]. split; [apply hop_copies_fields|].
  revert p Hp Ht Hsts. induction sts as [|st sts IH]; intros p Hp Ht Hsts; [by exists []|].
  apply Forall_cons in Hsts as [Hst Hsts]. cbn [length] in Ht.
  destruct (ready_relays ty p st Hp) as (s' & E & a & Ha); [lia|done|].
  destruct (IH (hop_copy p)) as (ss & Ec & Hl & Hall).
  - apply hop_copy_travels; [done|lia].
  - destruct (hop_copies_fields 1 p) as [_ Ht1]. change (hop_copies 1 p) with (hop_copy p) in Ht1. lia.
  - eapply Forall_impl; [exact Hsts|]. intros st' Hst'. by apply (ready_hop ty).
  - exists (s' :: ss). cbn [chain length]. rewrite E. cbn [mbind outcome_bind]. rewrite Ec.
    cbn [mbind outcome_bind]. rewrite hop_copies_succ. split_and!; [done|cbn; lia|].
    intros [|i] st1 s1 Hi Hs; cbn in Hi, Hs; [simplify_eq; by exists a|].
    destruct (Hall i st1 s1 Hi Hs) as [a' Ha']. exists a'.
    by rewrite hop_copy_hash, <- hop_copies_succ in Ha' by apply Hp.
Qed.

(** Two repeaters, each with a neighbour that writes to it and one it writes to,
    and an earlier packet that both neighbours have had. *)
Definition demo_station (now : Z) : station :=
  let s := Tracker.set_connections (Tracker.make 1)
    (<[64 := mkNode 11 (demo_connection 64 HCI_ROLE_SLAVE)]>
     (<[65 := mkNode 12 (demo_connection 65 HCI_ROLE_MASTER)]> ∅)) in
  let s := Tracker.set_packets s {[ 7 := mkNode 13 (PacketPassAlong.make 0x05 7 1000 0 5 0 []) ]} in
  let s := Tracker.set_packets_connections_sent_list s [(13, 11); (13, 12)] in
  mkStation demo_handles (demo_platform now) (Repeater.set_tracker (Repeater.make 1) s) 64 65.

Lemma demo_station_ready now : 0 <= now < 2 ^ 64 -> ready demo_fragment (demo_station now).
Proof.
  intros Hnow. split.
  - by apply demo_platform_laws.
  - check_ok.
  - vm_compute. discriminate.
  - vm_compute. reflexivity.
  - reflexivity.
  - reflexivity.
  - exists (mkNode 11 (demo_connection 64 HCI_ROLE_SLAVE)). split; [reflexivity|vm_compute; discriminate].
  - exists (mkNode 12 (demo_connection 65 HCI_ROLE_MASTER)).
    split_and!; [reflexivity|reflexivity|vm_compute; discriminate].
  - intros h n Hn _. unfold demo_station in Hn. cbn in Hn.
    repeat (apply lookup_insert_Some in Hn as [[_ <-]|[_ Hn]]; [vm_compute; discriminate|]).
    by rewrite lookup_empty in Hn.
  - reflexivity.
  - intros q (c & Hin & _). unfold demo_station in Hin. cbn in Hin.
    repeat (apply elem_of_cons in Hin as [[= -> ->]|Hin]; [vm_compute; reflexivity|]).
    by apply elem_of_nil in Hin.
  - reflexivity.
Qed.

Lemma packet_crosses_chain_witness :
  exists ss, chain [demo_station 1; demo_station 2] demo_fragment_wire =
      Ret (ss, Some (wire (PacketPassAlong.base (hop_copies 2 demo_fragment))
                       (PacketPassAlong.payload demo_fragment))) /\
    PacketBase.packet_ttl (PacketPassAlong.base (hop_copies 2 demo_fragment)) = 5.
Proof.
  destruct (packet_crosses_chain type_fragment_start demo_fragment [demo_station 1; demo_station 2])
    as (_ & Ht & ss & E & _).
  - split; [apply (bool_decide_unpack _); vm_compute; exact I|reflexivity|reflexivity|reflexivity
           |discriminate|apply (bool_decide_unpack _); vm_compute; exact I].
  - reflexivity.
  - apply Forall_cons. split; [|apply Forall_cons; split; [|by apply Forall_nil]]; apply demo_station_ready; lia.
  - exists ss. split; [exact E|]. exact Ht.
Defined.
