(* ===== verification/TypedRuns.v ===== *)
(** * Types along runs

    Every phase of the main loop and every callback of main.cpp keeps the
    stored data typed ([Typing]), notifications and cleanups included, so along
    every interleaving whatever is handed to BTstack for transmission is a
    packet the next hop can read. *)

From stdpp Require Import base numbers list gmap.
From Stdlib Require Import ZArith Lia.
From S2P Require Import Prelude Platform Containers BinaryIO Packets ProtocolWriter BleConnection.
From S2P Require Import Tracker TrackerInv Sending Housekeeping Processor ProcessorInv RoundTrip.
From S2P Require Import Relay Typing Repeater MainLoop Interleaving.

Import MainLoop.

Section callbacks.
Context (P : Platform) `{!PlatformLaws P}.

Definition globals_typed (s : Repeater.t) : Prop := typed (Repeater.tracker s).

Lemma handle_gatt_client_event_typed s e :
  globals_typed s -> globals_typed (Repeater.handle_gatt_client_event P s e).
Proof.
  intros H. unfold globals_typed in *.
  assert (forall h f, typed (Tracker.update_connection
    (Tracker.connectionForConnHandle P (Repeater.tracker s) h).1 h f)) as Hu.
  { intros h f. eapply typed_sheds; [|exact H]. etrans; [apply sheds_for_handle|shed]. }
  assert (forall h, typed (Tracker.connectionForConnHandle P (Repeater.tracker s) h).1) as Hh.
  { intros h. eapply typed_sheds; [apply sheds_for_handle|exact H]. }
  destruct e as [h mtu|h sv|h ch|h|]; cbn; [apply Hu| | | |done].
  - destruct (_ =? 0); [apply Hu|apply Hh].
  - destruct (_ =? 0); [apply Hu|apply Hh].
  - specialize (Hh h). destruct (Tracker.connectionForConnHandle P _ h) as [tr a]. cbn in *.
    destruct (Tracker.connections tr !! h); [|done].
    by destruct (BleConnection.canAndNeedToDiscoverBitchatCharacteristicsQuery _).
Qed.

Lemma att_packet_handler_typed s e :
  globals_typed s -> globals_typed (Repeater.att_packet_handler P s e).
Proof.
  intros H. unfold globals_typed in *. destruct e as [[h ty addr|h|]|]; cbn; try done;
    (eapply typed_sheds; [|exact H]).
  - apply sheds_reportConnection.
  - apply sheds_reportDisconnection.
Qed.

Lemma att_write_callback_typed H s ch ah tm offset buffer size s' :
  globals_typed s -> bytes_ok buffer ->
  0 <= offset < 2 ^ 16 -> 0 <= size < 2 ^ 16 -> size <= zlen buffer ->
  Repeater.att_write_callback H P s ch ah tm offset buffer size = Ret s' -> globals_typed s'.
Proof.
  intros Ht Hb Ho Hs Hl E. unfold Repeater.att_write_callback, globals_typed in *.
  destruct (negb _); [by injection E as <-|].
  pose proof (sheds_for_handle P (Repeater.tracker s) ch) as Hh.
  destruct (Tracker.connectionForConnHandle P _ ch) as [tr a].
  pose proof (typed_sheds _ _ Hh Ht) as Htt. cbn [fst] in Htt.
  destruct (ah =? _); [|destruct (ah =? _); [|by injection E as <-]].
  - destruct (Repeater.little_endian_read_16 buffer 0) as [v|]; [|done]. cbn [mbind outcome_bind] in E.
    injection E as <-. cbn. eapply typed_sheds; [|exact Htt]. destruct (v =? _); shed.
  - destruct (Tracker.deref_connection tr a) as [[k v]|]; [|done]. cbn [mbind outcome_bind] in E.
    destruct (Processor.processWrite P tr _ _ _ _ _) as [tr'|] eqn:Ew; [|done].
    injection E as <-. cbn [Repeater.tracker Repeater.set_tracker].
    by eapply (processWrite_typed P); [..|exact Ew].
Qed.

Lemma handle_gatt_client_value_update_event_typed s h value len s' :
  globals_typed s -> bytes_ok value -> 0 <= len < 2 ^ 16 -> len <= zlen value ->
  Repeater.handle_gatt_client_value_update_event P s (Repeater.GATT_EVENT_NOTIFICATION h value len) =
    Ret s' -> globals_typed s'.
Proof.
  intros Ht Hb Hl Hz E. unfold Repeater.handle_gatt_client_value_update_event, globals_typed in *.
  cbv zeta in E. pose proof (sheds_for_handle P (Repeater.tracker (Repeater.activity s)) h) as Hh.
  destruct (Tracker.connectionForConnHandle P _ h) as [tr a]. apply (typed_sheds _ _ Hh) in Ht.
  destruct (Tracker.deref_connection tr a) as [[k v]|]; [|done]. cbn [mbind outcome_bind] in E.
  destruct (Processor.processWrite P tr _ _ _ _ _) as [tr'|] eqn:Ew; [|done].
  injection E as <-. by eapply (processWrite_typed P); [..|exact Ew].
Qed.

Lemma hci_packet_handler_typed ad s e s' :
  globals_typed s -> Repeater.hci_packet_handler ad P s e = Ret s' -> globals_typed s'.
Proof.
  intros H E. unfold globals_typed in *.
  destruct e as [[w|h|h r|h ro ty a|ty a r data|h ro ty a|]|]; cbn [Repeater.hci_packet_handler] in E;
    try (by injection E as <-).
  - destruct w; [|by injection E as <-].
    match type of E with mbind _ (Repeater.setup_advertisements ?s0) = _ =>
      pose proof (setup_advertisements_spec s0) as Hs;
      destruct (Repeater.setup_advertisements s0) as [s1|]; [|done] end.
    injection E as <-. cbn. unfold same_tracker in Hs. cbn in Hs. by rewrite Hs.
  - injection E as <-. cbn. eapply typed_sheds; [apply sheds_reportDisconnection|done].
  - pose proof (sheds_for_handle P (Repeater.tracker (Repeater.activity s)) h) as Hh.
    destruct (Tracker.connectionForConnHandle P _ h) as [tr a].
    destruct (Tracker.deref_connection tr a) as [[]|]; [|done]. injection E as <-. by eapply typed_sheds.
  - injection E as <-. cbn. eapply typed_sheds; [apply sheds_reportConnectionRole|done].
  - destruct (check_for_uuid ad data) as [sv|]; [|done]. cbn [mbind outcome_bind] in E.
    destruct (has_flag _ _); injection E as <-; [|done]. cbn.
    eapply typed_sheds; [apply sheds_addAvailablePeer|done].
  - injection E as <-. cbn. eapply typed_sheds; [apply sheds_reportConnectionRole|done].
Qed.

(** The life check message is typed. *)
Lemma repeater_name_length name : Tracker.repeater_name (gap_local_bd_addr P) = Ret name -> zlen name <= 255.
Proof.
  destruct (gap_local_bd_addr_ok (P := P)) as [_ Hl].
  destruct (gap_local_bd_addr P) as [|b0 [|b1 [|b2 [|b3 [|b4 [|b5 [|]]]]]]]; try discriminate Hl.
  intros E. vm_compute in E. injection E as <-. by vm_compute.
Qed.

Lemma life_check_message_typed ts name :
  0 <= ts < 2 ^ 64 -> zlen name <= 255 ->
  message_typed (life_check_message ts (Tracker.sender_of_address (gap_local_bd_addr P)) name).
Proof.
  intros Hts Hn. destruct (gap_local_bd_addr_ok (P := P)) as [Hb Hl].
  pose proof (sender_of_address_range _ Hb Hl). split.
  - unfold base_ok. cbn. lia.
  - split; try done; try (cbn; lia); constructor.
Qed.

Lemma handlePinActivity_typed s s' :
  globals_typed s -> Repeater.handlePinActivity P s = Ret s' -> globals_typed s'.
Proof.
  intros Ht E. unfold globals_typed in *. destruct (Repeater.life_check s) eqn:El.
  2: { unfold Repeater.handlePinActivity in E. rewrite El in E. by injection E as <-. }
  destruct (repeater_name_Ret P) as [name Hn]. rewrite (handlePinActivity_pressed P s name El Hn) in E.
  cbv zeta in E. set (m := life_check_message _ _ _) in E.
  assert (message_typed m) as Hm.
  { apply life_check_message_typed; [apply u64_range|]. exact (repeater_name_length name Hn). }
  pose proof (typed_storeMessage P (Repeater.tracker s) m Ht Hm) as Ht1.
  destruct (Tracker.storeMessageAndReturnIfNew P _ m) as [tr [a|]]; cbn [fst snd] in *;
    [|by injection E as <-].
  destruct (Tracker.enqueueBroadcastPacket tr a) as [tr'|] eqn:Eq; [|done].
  injection E as <-. cbn. by eapply typed_enqueueBroadcast.
Qed.

Lemma callback_typed ad H e s s' :
  event_typed e -> globals_typed s -> callback ad H P e s = Ret s' -> globals_typed s'.
Proof.
  intros He Ht E. destruct e as [ah o b z|ch ah tm o b z|g|v|h|a| |h|h|gp ev|]; cbn [callback] in E.
  - destruct (Repeater.att_read_callback H s ah o b z) as [[[s1 b1] z1]|] eqn:Er; [|done].
    injection E as <-. unfold Repeater.att_read_callback in Er.
    repeat match type of Er with (if ?c then _ else _) = _ => destruct c end; inv_outcome; done.
  - destruct He as (?&?&?&?). eapply (att_write_callback_typed H s ch ah tm o b z); done.
  - injection E as <-. by apply handle_gatt_client_event_typed.
  - destruct v as [h value len| |]; [|by injection E as <-..]. destruct He as (?&?&?).
    by eapply handle_gatt_client_value_update_event_typed.
  - by eapply hci_packet_handler_typed.
  - injection E as <-. by apply att_packet_handler_typed.
  - by injection E as <-.
  - unfold Repeater.bitchat_can_send_notification_handler in E. inv_outcome. by eapply notifyRawPacket_typed.
  - unfold Repeater.bitchat_can_write_without_response_handler in E. inv_outcome.
    by eapply writeRawPacket_typed.
  - injection E as <-. unfold Repeater.gpio_callback. by destruct (_ && _), (_ && _).
  - by injection E as <-.
Qed.

Lemma connect_or_disconnect_typed now s :
  globals_typed s -> globals_typed (connect_or_disconnect P now s).
Proof.
  intros H. unfold globals_typed, connect_or_disconnect, Repeater.connect_to_first_neighbour in *.
  assert (forall s, typed (Repeater.tracker s) -> typed (Repeater.tracker
    (let '(tr, duplicate) := Tracker.getAnyDuplicateHandle P (Repeater.tracker s) in
     let s := Repeater.set_tracker s tr in
     if negb (duplicate =? 0) then
      let s := Repeater.request s (GapDisconnect duplicate) in
      if gap_disconnect P duplicate =? ERROR_CODE_SUCCESS
      then Repeater.set_disconnection_started_at s now else s
     else s))) as Hd.
  { intros s1 H1. unfold Tracker.getAnyDuplicateHandle.
    pose proof (sheds_duplicate_loop P (Repeater.tracker s1)
      (map_sorted (Tracker.handle_peer_map (Repeater.tracker s1))) ∅) as Hs.
    destruct (Tracker.duplicate_loop P _ _ _) as [tr d]. apply (typed_sheds _ _ Hs) in H1.
    by repeat case_match. }
  destruct (Tracker.getConnectableNeighbours _) as [|c l]; [by apply Hd|].
  destruct (Tracker.getConnectionForAddress _ _); [by apply Hd|].
  destruct (_ =? 0); [|by apply Hd]. cbn. eapply typed_sheds; [|exact H]. shed.
Qed.

Lemma phase_typed now x x' :
  globals_typed (globals x) -> phase P now x = Ret x' -> globals_typed (globals x').
Proof.
  intros Ht E. unfold phase in *. destruct x as [q l s]. cbn [at_pc vars globals] in *.
  destruct q; try (repeat match type of E with (if ?c then _ else _) = _ => destruct c end;
    by injection E as <-).
  - inv_outcome. cbn. by eapply handlePinActivity_typed.
  - destruct (due _ _ _); inv_outcome; [|done]. cbn. by eapply announceToConnections_typed.
  - injection E as <-. cbn. destruct (may_connect _ _); [|done]. by apply connect_or_disconnect_typed.
  - inv_outcome. cbn. by eapply sendPackets_typed.
  - destruct (due _ _ _); [|destruct (rssi_update_in_progress l); [|by injection E as <-]];
      (destruct (Tracker.requestNextRssi _ _) as [[tr more]|] eqn:Er; [|done]); injection E as <-;
      (eapply typed_sheds; [by eapply sheds_requestNextRssi|done]).
  - destruct (due _ _ _); inv_outcome; [|done]. cbn.
    eapply typed_sheds; [by eapply sheds_cleanupStaleItems|done].
Qed.

End callbacks.

(** What BTstack and the drivers promise of a step. *)
Definition label_typed (lab : label) : Prop :=
  match lab with
  | Loop P _ => PlatformLaws P
  | Callback P e => PlatformLaws P /\ event_typed e
  end.

Lemma label_ok_typed x lab : label_ok x lab -> label_typed lab.
Proof. destruct lab; cbn; [tauto|]. by intros [? []]. Qed.

Lemma exec_typed ad H lab x x' :
  label_typed lab -> globals_typed (globals x) -> exec ad H lab x = Ret x' ->
  globals_typed (globals x').
Proof.
  intros Hl Ht E. destruct lab as [P now|P e]; cbn [exec] in E.
  - cbn in Hl. by eapply (phase_typed P).
  - destruct Hl as [HP Hl]. inv_outcome. by eapply (callback_typed P).
Qed.

Lemma typed_make a : typed (Tracker.make a).
Proof. split; cbn; try done; set_solver. Qed.
