(* ===== verification/Boot.v ===== *)
(** * From power on to exit

    [main] of main.cpp before its loop: the set-up of the drivers, the two
    places where it waits for ever after a failure, and the entry into the
    loop.  Callbacks run here too, once they are registered.  The types of the
    tracker's data hold along whole runs of the program, from power on. *)

From stdpp Require Import base numbers list gmap.
From Stdlib Require Import ZArith Lia.
From S2P Require Import Prelude Platform Containers BinaryIO Packets ProtocolWriter BleConnection.
From S2P Require Import Tracker TrackerInv Sending Housekeeping Processor ProcessorInv RoundTrip.
From S2P Require Import Relay Typing Repeater MainLoop Interleaving TypedRuns.

Import MainLoop.

(** ** The calls into the drivers *)

Inductive driver_call : Type :=
  | SetSysClockKhz (khz : Z)
  | StdioInitAll
  | GpioInit (pin : Z)
  | GpioSetDirIn (pin : Z)
  | GpioPullUp (pin : Z)
  | GpioSetIrqEnabledWithCallback (pin events : Z)
  | SleepMs (ms : Z)
  | Cyw43ArchInit
  | L2capInit
  | GattClientInit
  | SmInit
  | SmSetIoCapabilities
  | AttServerInit
  | HciAddEventHandler
  | SmAddEventHandler
  | AttServerRegisterPacketHandler
  | SetStopScanProcess
  | HciPowerControlOn.

#[export] Instance driver_call_eq_dec : EqDecision driver_call.
Proof. solve_decision. Defined.

Module Boot.

(** [speed * KHZ], in [uint32_t]. *)
Definition reduce_clock (speed : Z) : list driver_call := [SetSysClockKhz (u32 (speed * 1000))].

Definition setup_gpio_callback : list driver_call :=
  [GpioInit EXIT_GPIO_PIN; GpioSetDirIn EXIT_GPIO_PIN; GpioPullUp EXIT_GPIO_PIN;
   GpioInit LIFE_CHECK_PIN; GpioSetDirIn LIFE_CHECK_PIN; GpioPullUp LIFE_CHECK_PIN;
   GpioSetIrqEnabledWithCallback EXIT_GPIO_PIN GPIO_IRQ_EDGE_FALL;
   GpioSetIrqEnabledWithCallback LIFE_CHECK_PIN GPIO_IRQ_EDGE_FALL].

(** Up to the first driver that may fail; [rp2040] is the build's
    [PICO_RP2040]. *)
Definition start_calls (rp2040 : bool) : list driver_call :=
  (if rp2040 then reduce_clock 63 else []) ++ [StdioInitAll] ++ setup_gpio_callback ++
  [SleepMs 1000; Cyw43ArchInit].

(** Up to the second. *)
Definition stack_calls : list driver_call :=
  [L2capInit; GattClientInit; SmInit; SmSetIoCapabilities; AttServerInit; HciAddEventHandler;
   SmAddEventHandler; AttServerRegisterPacketHandler; SetStopScanProcess; HciPowerControlOn].

Inductive pc : Type := BootStart | SpinNoDriver | BootStack | SpinNoPower | Booted.

Record t : Type := mk { at_pc : pc; globals : Repeater.t; calls : list driver_call }.

Definition set_globals (x : t) (s : Repeater.t) : t := mk (at_pc x) s (calls x).

Definition start (announce_addr : Z) : t := mk BootStart (Repeater.make announce_addr) [].

(** One phase; [cyw43_arch_init] and [hci_power_control] are the values these
    calls return.  The two spins wait for an interrupt and look at
    [keep_running] again. *)
Definition phase (rp2040 : bool) (cyw43_arch_init hci_power_control : Z) (x : t) : t :=
  match at_pc x with
  | BootStart =>
    mk (if negb (cyw43_arch_init =? 0) then SpinNoDriver else BootStack) (globals x)
       (calls x ++ start_calls rp2040)
  | SpinNoDriver => if Repeater.keep_running (globals x) then x else mk BootStack (globals x) (calls x)
  | BootStack =>
    mk (if negb (hci_power_control =? 0) then SpinNoPower else Booted) (globals x)
       (calls x ++ stack_calls)
  | SpinNoPower => if Repeater.keep_running (globals x) then x else mk Booted (globals x) (calls x)
  | Booted => x
  end.

(** A callback runs only when it has been registered: the pins' after
    [setup_gpio_callback], BTstack's after the controller was switched on. *)
Definition registered (x : t) (e : event) : bool :=
  match e with
  | Gpio pin _ => bool_decide (GpioSetIrqEnabledWithCallback pin GPIO_IRQ_EDGE_FALL ∈ calls x)
  | _ => bool_decide (HciPowerControlOn ∈ calls x)
  end.

(** The declarations before the loop, and the loop. *)
Definition enter_loop (now : nat -> Z) (x : t) : prog :=
  mkProg AtLoop (start_locals now (globals x)) (globals x).

End Boot.

(** ** Whole runs *)

(** The program while it starts, or in its loop. *)
Inductive whole (ad : ad_iterator) (H : AttHandles) : Boot.t + prog -> Prop :=
  | whole_start announce_addr : whole ad H (inl (Boot.start announce_addr))
  | whole_boot rp2040 cyw43 power x :
      whole ad H (inl x) -> whole ad H (inl (Boot.phase rp2040 cyw43 power x))
  | whole_boot_callback P e x s :
      whole ad H (inl x) -> PlatformLaws P -> Boot.registered x e = true ->
      event_typed e -> callback ad H P e (Boot.globals x) = Ret s ->
      whole ad H (inl (Boot.set_globals x s))
  | whole_enter now x :
      whole ad H (inl x) -> Boot.at_pc x = Boot.Booted -> whole ad H (inr (Boot.enter_loop now x))
  | whole_exec lab x x' :
      whole ad H (inr x) -> label_typed lab -> exec ad H lab x = Ret x' -> whole ad H (inr x').

Definition whole_globals (st : Boot.t + prog) : Repeater.t :=
  match st with inl x => Boot.globals x | inr x => globals x end.

Lemma boot_phase_globals rp cyw43 power x :
  Boot.globals (Boot.phase rp cyw43 power x) = Boot.globals x.
Proof.
  unfold Boot.phase. destruct (Boot.at_pc x); try done; by destruct (Repeater.keep_running _).
Qed.

Lemma whole_typed ad H st : whole ad H st -> globals_typed (whole_globals st).
Proof.
  induction 1 as [a|rp c p x _ IH|P e x s _ IH HP _ He E|now x _ IH _|lab x x' _ IH Hl E];
    cbn [whole_globals] in *.
  - apply typed_make.
  - by rewrite boot_phase_globals.
  - by eapply (callback_typed P).
  - done.
  - by eapply exec_typed.
Qed.

(** A run of the loop is the end of a whole run of a program that started
    without a failure and without an early callback. *)
Lemma reach_whole ad H x : reach ad H x -> whole ad H (inr x).
Proof.
  induction 1 as [a now|x lab x' _ IH Hl E]; [|by eapply whole_exec; [|eapply label_ok_typed|]].
  change (whole ad H (inr (Boot.enter_loop now
    (Boot.phase true 0 0 (Boot.phase true 0 0 (Boot.start a)))))).
  apply whole_enter; [|done]. by repeat apply whole_boot; apply whole_start.
Qed.

Lemma run_whole ad H labs x x' :
  whole ad H (inr x) -> Forall label_typed labs -> run ad H labs x = Ret x' -> whole ad H (inr x').
Proof.
  intros Hx Hl. revert x Hx. induction Hl as [|lab labs Hl _ IH]; intros x Hx E; cbn in E.
  - by injection E as <-.
  - destruct (exec ad H lab x) as [x1|] eqn:E1; [|done]. by eapply IH; [eapply whole_exec|].
Qed.

(** After the run of the demonstration the repeater connects to a third
    neighbour, which notifies it of another packet: the sent list then holds a
    pointer to the handler's copy of the connection. *)
Definition demo_notified_wire : bytes :=
  wire (PacketPassAlong.base demo_fragment) [8; 7; 6; 5; 4; 3; 2; 1].

Definition demo_notification : list label :=
  let P := demo_platform 6000000 in
  [ Callback P (Hci (Some (Repeater.HCI_SUBEVENT_LE_CONNECTION_COMPLETE 66 HCI_ROLE_MASTER 0
                             [1; 2; 3; 4; 5; 8])));
    Callback P (ValueUpdate (Repeater.GATT_EVENT_NOTIFICATION 66 demo_notified_wire
                               (zlen demo_notified_wire))) ].

Definition demo_central_end : prog :=
  match run demo_ad demo_handles demo_notification demo_end with Ret x => x | Fault _ => demo_end end.

#[export] Instance action_eq_dec : EqDecision action.
Proof. solve_decision. Defined.

(** ** Properties *)

(** C15. From power on, along every run (the arguments of the callbacks being of
    their types), failed starts, callbacks before the loop, notifications and
    cleanups included, until a step faults, the data of
    the tracker is typed: integer fields fit the widths of their C++ types, the
    strings of stored messages fit the lengths the format can express and are
    empty without their flag, messages are stored under their id, stored
    pass-along packets have a time to live left, the packets lie in distinct
    nodes, what is queued for broadcast is stored and has a time to live, only
    the announce is queued for single connections, and every block queued for
    BTstack or handed to it is the wire form of such a packet. *)
Theorem runs_are_typed ad H st :
  whole ad H st -> typed (Repeater.tracker (whole_globals st)).
Proof. apply whole_typed. Qed.

Lemma demo_central_end_whole : whole demo_ad demo_handles (inr demo_central_end).
Proof.
  apply (run_whole _ _ demo_notification demo_end).
  - exact (reach_whole demo_ad demo_handles demo_end demo_end_reach).
  - assert (PlatformLaws (demo_platform 6000000)) as L by (apply demo_platform_laws; lia).
    apply Forall_cons; split; [by split|]. apply Forall_cons; split; [|by apply Forall_nil].
    split; [exact L|]. apply (bool_decide_unpack _). vm_compute. exact I.
  - vm_compute. reflexivity.
Qed.

Lemma runs_are_typed_witness :
  map_size (Tracker.packets (Repeater.tracker (globals demo_central_end))) = 2%nat /\
  typed (Repeater.tracker (whole_globals (inr demo_central_end))).
Proof.
  split; [vm_compute; reflexivity|].
  exact (runs_are_typed demo_ad demo_handles (inr demo_central_end) demo_central_end_whole).
Defined.

(** C14. Whatever any run from power on (the arguments of the callbacks being of
    their types; notifications and cleanups included) has handed to BTstack, as
    a notification or as a write, is a packet with a time to live left before
    the writer's decrement, and a neighbour that receives it unsigned and
    uncompressed, below 64K, reads exactly that packet, one hop older: the time to live on the air never wraps around. *)
Theorem transmissions_are_readable ad H st a Q :
  whole ad H st -> a ∈ Tracker.actions (Repeater.tracker (whole_globals st)) ->
  match a with
  | ServerNotify _ _ data | WriteWithoutResponse _ _ data =>
    exists b payload, base_ok b /\ 0 < PacketBase.packet_ttl b /\ data = wire b payload /\
      (plain_flags (PacketBase.packet_flags b) = true -> zlen data < 2 ^ 16 ->
       Processor.readPacket Q 0 data (zlen data) = Ret (Some (received b payload)))
  | _ => True
  end.
Proof.
  intros Hx Ha. pose proof (typed_actions _ (whole_typed ad H st Hx)) as Hok.
  rewrite Forall_forall in Hok. specialize (Hok a Ha).
  destruct a; try done; destruct Hok as (b & payload & Hb & Htt & ->);
    (exists b, payload; split_and!; [done..|]; intros; apply readPacket_wire; auto with repeater).
Qed.

(** A block that the run of the demonstration notified: the fragment one hop
    older. *)
Definition demo_sent : bytes :=
  wire (PacketPassAlong.base (hop_copy demo_fragment)) (PacketPassAlong.payload demo_fragment).

Lemma transmissions_are_readable_witness :
  exists b payload, base_ok b /\ 0 < PacketBase.packet_ttl b /\ demo_sent = wire b payload /\
    (plain_flags (PacketBase.packet_flags b) = true -> zlen demo_sent < 2 ^ 16 ->
     Processor.readPacket (demo_platform 7) 0 demo_sent (zlen demo_sent) = Ret (Some (received b payload))).
Proof.
  apply (transmissions_are_readable demo_ad demo_handles (inr demo_central_end) (ServerNotify 65 11 demo_sent)
           (demo_platform 7)).
  - exact demo_central_end_whole.
  - apply (bool_decide_unpack _). vm_compute. exact I.
Defined.

(** The exit switch works while a failed start waits: when the driver did
    not initialise and the program waits for ever, pressing the switch ends
    the wait, the loop is left before its first round and the program ends; on
    the way the start goes on, and initialises the stack and switches the
    controller on without the driver. *)
Theorem exit_from_failed_start ad H P rp cyw43 now t x x' :
  cyw43 <> 0 -> x = Boot.phase rp cyw43 0 (Boot.start t) ->
  callback ad H P (Gpio EXIT_GPIO_PIN GPIO_IRQ_EDGE_FALL) (Boot.globals x) = Ret x' ->
  let y := Boot.phase rp cyw43 0 (Boot.phase rp cyw43 0 (Boot.set_globals x x')) in
  Boot.registered x (Gpio EXIT_GPIO_PIN GPIO_IRQ_EDGE_FALL) = true /\
  Boot.phase rp cyw43 0 x = x /\
  Boot.at_pc y = Boot.Booted /\ Boot.calls y = Boot.start_calls rp ++ Boot.stack_calls /\
  forall l, phase P l (Boot.enter_loop now y) =
    Ret (mkProg Exited (start_locals now (Boot.globals y)) (Boot.globals y)).
Proof.
  intros Hc -> E. apply Z.eqb_neq in Hc. cbn [callback] in E. injection E as <-. cbv zeta.
  rewrite boot_phase_globals. unfold Boot.phase, Boot.start. cbn [Boot.at_pc Boot.globals Boot.calls].
  rewrite Hc. cbn. split; [|done]. apply bool_decide_eq_true. destruct rp; set_solver.
Qed.

Lemma exit_from_failed_start_witness :
  let x := Boot.phase true 1 0 (Boot.start 1) in
  let y := Boot.phase true 1 0 (Boot.phase true 1 0
             (Boot.set_globals x (Repeater.gpio_callback (Boot.globals x) 28 4))) in
  Boot.registered x (Gpio EXIT_GPIO_PIN GPIO_IRQ_EDGE_FALL) = true /\
  Boot.phase true 1 0 x = x /\
  Boot.at_pc y = Boot.Booted /\ Boot.calls y = Boot.start_calls true ++ Boot.stack_calls /\
  forall l, phase (demo_platform 1) l (Boot.enter_loop (fun _ => 5) y) =
    Ret (mkProg Exited (start_locals (fun _ => 5) (Boot.globals y)) (Boot.globals y)).
Proof.
  intros x. apply (exit_from_failed_start demo_ad demo_handles (demo_platform 1) true 1 (fun _ => 5) 1 x);
    [lia|reflexivity|reflexivity].
Defined.
